(** * ARM SMMU driver (drivers/iommu/arm-smmu.c): resource management core

    A shallow embedding of the context-bank allocator, the power/clock gate,
    the secure page-table ownership tracker, the context-fault handler, the
    ATOS probe and the suspend/resume snapshot, with the properties of the
    design document stated over them.

    Conventions.  C integers are [Z]; where a C operation can wrap, the
    wrap-around is written out.  A bitmap ([DECLARE_BITMAP]) is a
    non-negative [Z] read with [Z.testbit].  Arrays are lists read with
    stdpp's lookup and written with its insert.  Calls into other kernel
    subsystems take their outcome from an explicit environment record and
    are recorded in a trace. *)

From stdpp Require Import base numbers list strings gmap.

Local Open Scope Z_scope.

(** ** Error numbers and small helpers *)

(** Modelled from the spec: the errno values live in the kernel's
    errno headers, which are not under src/; the spec only names the
    failures (exhaustion, busy, invalid), the numbers are the usual ones. *)
Definition EPERM : Z := 1.
Definition ENXIO : Z := 6.
Definition ENOMEM : Z := 12.
Definition EBUSY : Z := 16.
Definition EEXIST : Z := 17.
Definition ENODEV : Z := 19.
Definition EINVAL : Z := 22.
Definition ENOSPC : Z := 28.

(** [IS_ERR_VALUE(x)]: the value, seen as unsigned long, lies in the last
    4095 values, i.e. the int is in [-4095, -1]. *)
Definition IS_ERR_VALUE (x : Z) : bool := (-4095 <=? x) && (x <? 0).

(** [unsigned int] arithmetic. *)
Definition UINT_MAX : Z := 4294967295.
Definition u32 (x : Z) : Z := x mod 4294967296.
Definition u8 (x : Z) : Z := x mod 256.

(** ** Resource bitmap allocator and static assignment table *)

Module Alloc.

(** Modelled from the spec: [find_next_zero_bit(map, size, offset)] is the
    kernel bitmap library's (not under src/): the first clear bit at or
    after [offset] and below [size], and [size] when there is none. *)
Fixpoint find_zero_from (map : Z) (idx : Z) (n : nat) : Z :=
  match n with
  | O => idx
  | S n' => if Z.testbit map idx then find_zero_from map (idx + 1) n' else idx
  end.

Definition find_next_zero_bit (map : Z) (size offset : Z) : Z :=
  if size <=? offset then size
  else find_zero_from map offset (Z.to_nat (size - offset)).

(** Modelled from the spec: [test_and_set_bit] and [clear_bit] (kernel
    bit operations, not under src/): claim / release one bit. *)
Definition test_and_set_bit (idx : Z) (map : Z) : bool * Z :=
  (Z.testbit map idx, Z.setbit map idx).

Definition clear_bit (idx : Z) (map : Z) : Z := Z.clearbit map idx.

(** [__arm_smmu_alloc_bitmap]: the do-while loop retries while the
    test-and-set finds the bit already taken; [fuel] bounds the number of
    iterations ([None] when it runs out). *)
Fixpoint alloc_bitmap_loop (fuel : nat) (map : Z) (start end_ : Z)
  : option (Z * Z) :=
  match fuel with
  | O => None
  | S fuel' =>
      let idx := find_next_zero_bit map end_ start in
      if idx =? end_ then Some (- ENOSPC, map)
      else
        let '(old, map') := test_and_set_bit idx map in
        if old then alloc_bitmap_loop fuel' map' start end_
        else Some (idx, map')
  end.

(** Without a concurrent writer one iteration is enough (lemma
    [alloc_bitmap_loop_fuel] below), so the function is total. *)
Definition __arm_smmu_alloc_bitmap (map : Z) (start end_ : Z) : Z * Z :=
  match alloc_bitmap_loop 1 map start end_ with
  | Some r => r
  | None => (- ENOSPC, map)
  end.

Definition __arm_smmu_set_bitmap (map : Z) (idx : Z) : bool * Z :=
  test_and_set_bit idx map.

Definition __arm_smmu_free_bitmap (map : Z) (idx : Z) : Z :=
  clear_bit idx map.

(** [struct static_cbndx_entry]. *)
Record static_cbndx_entry := {
  cbndx : Z;      (* u8 *)
  smr_idx : Z;    (* u8 *)
  sid : Z;        (* u16 *)
  type : Z        (* u8: TYPE_TRANS / TYPE_BYPASS / TYPE_FAULT *)
}.

Definition S2CR_CBNDX_SHIFT : Z := 0.
Definition S2CR_CBNDX_MASK : Z := 0xff.
Definition S2CR_TYPE_SHIFT : Z := 16.
Definition S2CR_TYPE_MASK : Z := 0x3.
Definition TYPE_TRANS : Z := 0.
Definition TYPE_BYPASS : Z := 1.
Definition TYPE_FAULT : Z := 2.

Definition INVALID_CBNDX : Z := 0xff.

Definition ARM_SMMU_FEAT_TRANS_S1 : Z := 4.
Definition ARM_SMMU_FEAT_TRANS_S2 : Z := 8.
Definition ARM_SMMU_FEAT_TRANS_NESTED : Z := 16.
Definition ARM_SMMU_OPT_DYNAMIC : Z := 1024.
Definition ARM_SMMU_OPT_STATIC_CB : Z := 4096.

(** The fields of [struct arm_smmu_device] the allocator reads and
    writes.  [static_cbndx_list] is in list order ([list_add] puts a new
    entry at the head). *)
Record arm_smmu_device := {
  features : Z;
  options : Z;
  num_context_banks : Z;
  num_s2_context_banks : Z;
  context_map : Z;
  smr_map : Z;
  static_cbndx_list : list static_cbndx_entry
}.

Definition set_context_map (smmu : arm_smmu_device) (m : Z) : arm_smmu_device :=
  {| features := features smmu; options := options smmu;
     num_context_banks := num_context_banks smmu;
     num_s2_context_banks := num_s2_context_banks smmu;
     context_map := m; smr_map := smr_map smmu;
     static_cbndx_list := static_cbndx_list smmu |}.

Definition set_smr_map (smmu : arm_smmu_device) (m : Z) : arm_smmu_device :=
  {| features := features smmu; options := options smmu;
     num_context_banks := num_context_banks smmu;
     num_s2_context_banks := num_s2_context_banks smmu;
     context_map := context_map smmu; smr_map := m;
     static_cbndx_list := static_cbndx_list smmu |}.

Definition add_static_entry (smmu : arm_smmu_device) (e : static_cbndx_entry)
  : arm_smmu_device :=
  {| features := features smmu; options := options smmu;
     num_context_banks := num_context_banks smmu;
     num_s2_context_banks := num_s2_context_banks smmu;
     context_map := context_map smmu; smr_map := smr_map smmu;
     static_cbndx_list := e :: static_cbndx_list smmu |}.

(** [arm_smmu_get_static_entry_from_sid]: first entry with that SID. *)
Definition arm_smmu_get_static_entry_from_sid (smmu : arm_smmu_device)
  (s : Z) : option static_cbndx_entry :=
  List.find (fun entry => sid entry =? s) (static_cbndx_list smmu).

(** [arm_smmu_get_static_entry_from_context]: first translate entry with
    that bank. *)
Definition arm_smmu_get_static_entry_from_context (smmu : arm_smmu_device)
  (idx : Z) : option static_cbndx_entry :=
  List.find (fun entry => (type entry =? TYPE_TRANS) && (cbndx entry =? idx))
    (static_cbndx_list smmu).

Definition arm_smmu_get_static_entry_from_smr (smmu : arm_smmu_device)
  (idx : Z) : option static_cbndx_entry :=
  List.find (fun entry => smr_idx entry =? idx) (static_cbndx_list smmu).

(** [entry && entry->type == TYPE_TRANS]. *)
Definition is_trans (entry : option static_cbndx_entry) : bool :=
  match entry with
  | Some e => type e =? TYPE_TRANS
  | None => false
  end.

(** The for loop of [arm_smmu_alloc_context_idx] over [streamids]: the
    value of [entry] when the loop is left, either by [break] at the first
    stream ID whose entry is a translate entry or by running off the end. *)
Fixpoint alloc_context_scan (smmu : arm_smmu_device) (streamids : list Z)
  (entry : option static_cbndx_entry) : option static_cbndx_entry :=
  match streamids with
  | [] => entry
  | s :: rest =>
      let entry' := arm_smmu_get_static_entry_from_sid smmu s in
      if is_trans entry' then entry'
      else alloc_context_scan smmu rest entry'
  end.

(** [arm_smmu_alloc_context_idx]; [streamids] is the array cut at
    [num_streamids]. *)
Definition arm_smmu_alloc_context_idx (smmu : arm_smmu_device)
  (start end_ : Z) (streamids : list Z) : Z * arm_smmu_device :=
  let entry := alloc_context_scan smmu streamids None in
  match entry with
  | Some e =>
      if type e =? TYPE_TRANS then (cbndx e, smmu)
      else
        let '(idx, m) := __arm_smmu_alloc_bitmap (context_map smmu) start end_ in
        (idx, set_context_map smmu m)
  | None =>
      let '(idx, m) := __arm_smmu_alloc_bitmap (context_map smmu) start end_ in
      (idx, set_context_map smmu m)
  end.

(** [arm_smmu_alloc_smr_idx]. *)
Definition arm_smmu_alloc_smr_idx (smmu : arm_smmu_device)
  (start end_ : Z) (s : Z) : Z * arm_smmu_device :=
  match arm_smmu_get_static_entry_from_sid smmu s with
  | Some e => (smr_idx e, smmu)
  | None =>
      let '(idx, m) := __arm_smmu_alloc_bitmap (smr_map smmu) start end_ in
      (idx, set_smr_map smmu m)
  end.

(** [arm_smmu_free_context_idx]. *)
Definition arm_smmu_free_context_idx (smmu : arm_smmu_device) (idx : Z)
  : arm_smmu_device :=
  match arm_smmu_get_static_entry_from_context smmu idx with
  | Some _ => smmu
  | None => set_context_map smmu (__arm_smmu_free_bitmap (context_map smmu) idx)
  end.

(** [arm_smmu_free_smr_idx]. *)
Definition arm_smmu_free_smr_idx (smmu : arm_smmu_device) (idx : Z)
  : arm_smmu_device :=
  match arm_smmu_get_static_entry_from_smr smmu idx with
  | Some _ => smmu
  | None => set_smr_map smmu (__arm_smmu_free_bitmap (smr_map smmu) idx)
  end.

(** [arm_smmu_add_static_cbndx]: [s2cr_reg] is the value read from
    S2CR([smr_idx]); the entry is zero-allocated, so [cbndx] stays 0 for a
    binding that is not a translate binding.  (The allocation failure,
    which adds nothing, is left out.) *)
Definition arm_smmu_add_static_cbndx (smmu : arm_smmu_device)
  (s2cr_reg : Z) (s : Z) (smr : Z) : arm_smmu_device :=
  let ty := Z.land (Z.shiftr s2cr_reg S2CR_TYPE_SHIFT) S2CR_TYPE_MASK in
  let cb := if ty =? TYPE_TRANS
            then Z.land (Z.shiftr s2cr_reg S2CR_CBNDX_SHIFT) S2CR_CBNDX_MASK
            else 0 in
  let smmu1 := if ty =? TYPE_TRANS
               then set_context_map smmu
                      (snd (__arm_smmu_set_bitmap (context_map smmu) cb))
               else smmu in
  let smmu2 := set_smr_map smmu1 (snd (__arm_smmu_set_bitmap (smr_map smmu1) smr)) in
  add_static_entry smmu2
    {| cbndx := cb; smr_idx := u8 smr; sid := s mod 65536; type := ty |}.

(** The fields of [struct arm_smmu_domain] that take part in the
    negotiation of a context bank.  [smmu] is [true] when the domain's
    [smmu] pointer is set (the domain is live); the two attribute bits are
    [attributes & (1 << DOMAIN_ATTR_DYNAMIC)] and [... ATOMIC]. *)
Record arm_smmu_domain := {
  smmu : bool;
  cfg_cbndx : Z;            (* cfg.cbndx, u8 *)
  stage : Z;                (* enum arm_smmu_domain_stage *)
  attr_dynamic : bool;
  pgtbl_ops : bool;         (* pgtbl_ops != NULL *)
  slave_side_secure : bool
}.

Definition ARM_SMMU_DOMAIN_S1 : Z := 0.
Definition ARM_SMMU_DOMAIN_S2 : Z := 1.
Definition ARM_SMMU_DOMAIN_NESTED : Z := 2.

(** [arm_smmu_domain_alloc]: every binding invalid. *)
Definition arm_smmu_domain_alloc : arm_smmu_domain :=
  {| smmu := false; cfg_cbndx := INVALID_CBNDX; stage := ARM_SMMU_DOMAIN_S1;
     attr_dynamic := false; pgtbl_ops := false; slave_side_secure := false |}.

(** Outcomes of the collaborators during one attach: the page-table
    library ([alloc_io_pgtable_ops] returning non-NULL), the stream-match
    programming ([arm_smmu_domain_add_master]) and the ASID allocator
    ([idr_alloc_cyclic]). *)
Record attach_env := {
  pgtbl_ops_ok : bool;
  add_master_ret : Z;
  asid_ret : Z
}.

Definition arm_smmu_is_static_cb (dev : arm_smmu_device) : bool :=
  negb (Z.land (options dev) ARM_SMMU_OPT_STATIC_CB =? 0).

(** [arm_smmu_init_domain_context], the part that binds a bank: the stage
    fix-up that chooses [start], the allocation when [cfg->cbndx] is still
    invalid, and the unwinding when the page table cannot be allocated
    ([out_clear_smmu] clears the [smmu] pointer only). *)
Definition arm_smmu_init_domain_context (env : attach_env)
  (dom : arm_smmu_domain) (dev : arm_smmu_device) (streamids : list Z)
  : Z * arm_smmu_domain * arm_smmu_device :=
  if smmu dom then (0, dom, dev)
  else
    let st0 := stage dom in
    let st1 := if Z.land (features dev) ARM_SMMU_FEAT_TRANS_S1 =? 0
               then ARM_SMMU_DOMAIN_S2 else st0 in
    let st2 := if Z.land (features dev) ARM_SMMU_FEAT_TRANS_S2 =? 0
               then ARM_SMMU_DOMAIN_S1 else st1 in
    if negb ((st2 =? ARM_SMMU_DOMAIN_S1) || (st2 =? ARM_SMMU_DOMAIN_NESTED)
             || (st2 =? ARM_SMMU_DOMAIN_S2))
    then (- EINVAL,
          {| smmu := false; cfg_cbndx := cfg_cbndx dom; stage := st2;
             attr_dynamic := attr_dynamic dom; pgtbl_ops := pgtbl_ops dom;
             slave_side_secure := slave_side_secure dom |}, dev)
    else
      let start := if st2 =? ARM_SMMU_DOMAIN_S1
                   then num_s2_context_banks dev else 0 in
      let '(ret, dev1) :=
        if cfg_cbndx dom =? INVALID_CBNDX
        then arm_smmu_alloc_context_idx dev start (num_context_banks dev) streamids
        else (cfg_cbndx dom, dev) in
      if (cfg_cbndx dom =? INVALID_CBNDX) && IS_ERR_VALUE ret
      then (ret,
            {| smmu := false; cfg_cbndx := cfg_cbndx dom; stage := st2;
               attr_dynamic := attr_dynamic dom; pgtbl_ops := pgtbl_ops dom;
               slave_side_secure := slave_side_secure dom |}, dev1)
      else
        let cb := if cfg_cbndx dom =? INVALID_CBNDX then u8 ret
                  else cfg_cbndx dom in
        if pgtbl_ops_ok env
        then (0,
              {| smmu := true; cfg_cbndx := cb; stage := st2;
                 attr_dynamic := attr_dynamic dom; pgtbl_ops := true;
                 slave_side_secure := slave_side_secure dom |}, dev1)
        else (- ENOMEM,
              {| smmu := false; cfg_cbndx := cb; stage := st2;
                 attr_dynamic := attr_dynamic dom; pgtbl_ops := pgtbl_ops dom;
                 slave_side_secure := slave_side_secure dom |}, dev1).

(** [arm_smmu_destroy_domain_context]: the bank goes back to the allocator
    and the bindings are invalidated. *)
Definition arm_smmu_destroy_domain_context (dom : arm_smmu_domain)
  (dev : arm_smmu_device) : arm_smmu_domain * arm_smmu_device :=
  ({| smmu := false; cfg_cbndx := INVALID_CBNDX; stage := stage dom;
      attr_dynamic := attr_dynamic dom; pgtbl_ops := false;
      slave_side_secure := slave_side_secure dom |},
   arm_smmu_free_context_idx dev (cfg_cbndx dom)).

(** [arm_smmu_attach_dynamic]: the bank is the one the caller chose with
    DOMAIN_ATTR_CONTEXT_BANK; only an ASID is allocated.  When the ASID
    allocation fails the page table is freed but the [smmu] pointer, set
    before the allocation, stays. *)
Definition arm_smmu_attach_dynamic (env : attach_env)
  (dom : arm_smmu_domain) (dev : arm_smmu_device) : Z * arm_smmu_domain :=
  if Z.land (options dev) ARM_SMMU_OPT_DYNAMIC =? 0 then (- EPERM, dom)
  else if smmu dom then (- EBUSY, dom)
  else if num_context_banks dev <=? cfg_cbndx dom then (- ENODEV, dom)
  else if (Z.land (features dev) ARM_SMMU_FEAT_TRANS_NESTED =? 0)
          && (Z.land (features dev) ARM_SMMU_FEAT_TRANS_S1 =? 0)
  then (- EINVAL, dom)
  else if negb (pgtbl_ops_ok env) then (- ENOMEM, dom)
  else if asid_ret env <? 0
  then (asid_ret env,
        {| smmu := true; cfg_cbndx := cfg_cbndx dom; stage := stage dom;
           attr_dynamic := attr_dynamic dom; pgtbl_ops := false;
           slave_side_secure := slave_side_secure dom |})
  else (0,
        {| smmu := true; cfg_cbndx := cfg_cbndx dom; stage := stage dom;
           attr_dynamic := attr_dynamic dom; pgtbl_ops := true;
           slave_side_secure := slave_side_secure dom |}).

(** [arm_smmu_populate_cb]: with static context banks the bank of the
    translate entry of [cfg->streamids[0]] is written into the domain.
    The element is read whatever [num_streamids] is: the array lies in the
    zero-allocated master record, so for a master without stream IDs it
    is 0. *)
Definition arm_smmu_populate_cb (dev : arm_smmu_device)
  (dom : arm_smmu_domain) (streamids : list Z) : Z * arm_smmu_domain :=
  let s := match streamids with
           | [] => 0
           | s :: _ => s
           end in
  match arm_smmu_get_static_entry_from_sid dev s with
  | Some e =>
      if type e =? TYPE_TRANS
      then (0,
            {| smmu := smmu dom; cfg_cbndx := cbndx e; stage := stage dom;
               attr_dynamic := attr_dynamic dom; pgtbl_ops := pgtbl_ops dom;
               slave_side_secure := slave_side_secure dom |})
      else (- EINVAL, dom)
  | None => (- EINVAL, dom)
  end.

Definition set_slave_side_secure (dom : arm_smmu_domain) : arm_smmu_domain :=
  {| smmu := smmu dom; cfg_cbndx := cfg_cbndx dom; stage := stage dom;
     attr_dynamic := attr_dynamic dom; pgtbl_ops := pgtbl_ops dom;
     slave_side_secure := true |}.

(** [arm_smmu_attach_dev], seen from the allocator (the power votes of
    the same function are in [Power.arm_smmu_attach_dev]).  [streamids] are
    those of the master record found for the device. *)
Definition arm_smmu_attach_dev (env : attach_env) (dom : arm_smmu_domain)
  (dev : arm_smmu_device) (streamids : list Z)
  : Z * arm_smmu_domain * arm_smmu_device :=
  if attr_dynamic dom then
    let '(ret, dom') := arm_smmu_attach_dynamic env dom dev in (ret, dom', dev)
  else
    let '(ret0, dom0) :=
      if arm_smmu_is_static_cb dev
      then let '(r, d) := arm_smmu_populate_cb dev dom streamids in
           if r =? 0 then (0, set_slave_side_secure d) else (r, d)
      else (0, dom) in
    if negb (ret0 =? 0) then (ret0, dom0, dev)
    else
      let '(ret, dom1, dev1) := arm_smmu_init_domain_context env dom0 dev streamids in
      if IS_ERR_VALUE ret then (ret, dom1, dev1)
      else if negb (add_master_ret env =? 0)
      then let '(dom2, dev2) := arm_smmu_destroy_domain_context dom1 dev1 in
           (add_master_ret env, dom2, dev2)
      else (add_master_ret env, dom1, dev1).

(** [arm_smmu_detach_dev], seen from the allocator. *)
Definition arm_smmu_detach_dev (dom : arm_smmu_domain) (dev : arm_smmu_device)
  : arm_smmu_domain * arm_smmu_device :=
  if negb (smmu dom) then (dom, dev)
  else if attr_dynamic dom
  then ({| smmu := false; cfg_cbndx := cfg_cbndx dom; stage := stage dom;
           attr_dynamic := attr_dynamic dom; pgtbl_ops := pgtbl_ops dom;
           slave_side_secure := slave_side_secure dom |}, dev)
  else arm_smmu_destroy_domain_context dom dev.

(** [arm_smmu_domain_set_attr], cases DOMAIN_ATTR_DYNAMIC and
    DOMAIN_ATTR_CONTEXT_BANK. *)
Definition set_attr_dynamic (dom : arm_smmu_domain) (dynamic : Z)
  : Z * arm_smmu_domain :=
  if smmu dom then (- EBUSY, dom)
  else (0,
        {| smmu := smmu dom; cfg_cbndx := cfg_cbndx dom; stage := stage dom;
           attr_dynamic := negb (dynamic =? 0); pgtbl_ops := pgtbl_ops dom;
           slave_side_secure := slave_side_secure dom |}).

Definition set_attr_context_bank (dom : arm_smmu_domain) (data : Z)
  : Z * arm_smmu_domain :=
  if smmu dom then (- EBUSY, dom)
  else if negb (attr_dynamic dom) then (- EINVAL, dom)
  else (0,
        {| smmu := smmu dom; cfg_cbndx := u8 data; stage := stage dom;
           attr_dynamic := attr_dynamic dom; pgtbl_ops := pgtbl_ops dom;
           slave_side_secure := slave_side_secure dom |}).

(** One device instance and the domains created on it, by handle. *)
Record system := {
  dev : arm_smmu_device;
  doms : nat -> arm_smmu_domain
}.

Definition upd (ds : nat -> arm_smmu_domain) (i : nat) (d : arm_smmu_domain)
  : nat -> arm_smmu_domain :=
  fun j => if Nat.eqb j i then d else ds j.

(** The calls of the IOMMU API that touch the bank binding. *)
Inductive op :=
| OpAttach (i : nat) (streamids : list Z) (env : attach_env)
| OpDetach (i : nat)
| OpSetDynamic (i : nat) (dynamic : Z)
| OpSetContextBank (i : nat) (data : Z).

Definition exec (o : op) (s : system) : system :=
  match o with
  | OpAttach i streamids env =>
      let '(_, d, dv) := arm_smmu_attach_dev env (doms s i) (dev s) streamids in
      {| dev := dv; doms := upd (doms s) i d |}
  | OpDetach i =>
      let '(d, dv) := arm_smmu_detach_dev (doms s i) (dev s) in
      {| dev := dv; doms := upd (doms s) i d |}
  | OpSetDynamic i dynamic =>
      {| dev := dev s; doms := upd (doms s) i (snd (set_attr_dynamic (doms s i) dynamic)) |}
  | OpSetContextBank i data =>
      {| dev := dev s; doms := upd (doms s) i (snd (set_attr_context_bank (doms s i) data)) |}
  end.

Definition run (ops : list op) (s : system) : system :=
  fold_left (fun s o => exec o s) ops s.

(** A device after probe, with no domain attached yet. *)
Definition boot (dv : arm_smmu_device) : system :=
  {| dev := dv; doms := fun _ => arm_smmu_domain_alloc |}.

(** *** Properties of the bitmap *)

Lemma find_zero_from_spec (map : Z) (n : nat) (idx : Z) :
  let r := find_zero_from map idx n in
  idx <= r <= idx + Z.of_nat n /\
  (r < idx + Z.of_nat n -> Z.testbit map r = false) /\
  (forall j, idx <= j < r -> Z.testbit map j = true).
Proof.
  revert idx. induction n as [|n IH]; intros idx; cbn [find_zero_from].
  - repeat split; try lia.
  - destruct (Z.testbit map idx) eqn:Hb.
    + specialize (IH (idx + 1)). cbv zeta in IH.
      destruct IH as (Hr & Hclr & Hset).
      repeat split; try lia.
      * intros Hlt. apply Hclr. lia.
      * intros j Hj. destruct (Z.eq_dec j idx) as [->|Hne]; [exact Hb|].
        apply Hset. lia.
    + repeat split; try lia. intros _. exact Hb.
Qed.

Lemma find_next_zero_bit_spec (map size offset : Z) :
  let r := find_next_zero_bit map size offset in
  r = size \/ (offset <= r < size /\ Z.testbit map r = false).
Proof.
  unfold find_next_zero_bit. destruct (size <=? offset) eqn:Hle; [now left|].
  apply Z.leb_gt in Hle.
  pose proof (find_zero_from_spec map (Z.to_nat (size - offset)) offset) as H.
  cbv zeta in H. destruct H as (Hr & Hclr & _).
  rewrite Z2Nat.id in Hr, Hclr by lia.
  destruct (Z.eq_dec (find_zero_from map offset (Z.to_nat (size - offset))) size)
    as [->|Hne]; [now left|].
  right. split; [lia|]. apply Hclr. lia.
Qed.

Lemma find_next_zero_bit_first (map size offset j : Z) :
  offset <= j < find_next_zero_bit map size offset -> Z.testbit map j = true.
Proof.
  unfold find_next_zero_bit. destruct (size <=? offset) eqn:Hle.
  - apply Z.leb_le in Hle. lia.
  - pose proof (find_zero_from_spec map (Z.to_nat (size - offset)) offset) as H.
    cbv zeta in H. destruct H as (_ & _ & Hset). apply Hset.
Qed.

(** The loop leaves after its first iteration whatever the fuel. *)
Lemma alloc_bitmap_loop_fuel (fuel : nat) (map start end_ : Z) :
  alloc_bitmap_loop (S fuel) map start end_
  = Some (__arm_smmu_alloc_bitmap map start end_).
Proof.
  unfold __arm_smmu_alloc_bitmap. cbn [alloc_bitmap_loop].
  destruct (find_next_zero_bit_spec map end_ start) as [He|[Hr Hb]];
    cbv zeta in *.
  - rewrite He, Z.eqb_refl. reflexivity.
  - destruct (find_next_zero_bit map end_ start =? end_) eqn:E; [reflexivity|].
    unfold test_and_set_bit. rewrite Hb. reflexivity.
Qed.

Lemma alloc_bitmap_spec (map start end_ : Z) :
  let '(idx, map') := __arm_smmu_alloc_bitmap map start end_ in
  (idx = - ENOSPC /\ map' = map) \/
  (start <= idx < end_ /\ Z.testbit map idx = false /\ map' = Z.setbit map idx).
Proof.
  unfold __arm_smmu_alloc_bitmap. cbn [alloc_bitmap_loop].
  destruct (find_next_zero_bit_spec map end_ start) as [He|[Hr Hb]];
    cbv zeta in *.
  - rewrite He, Z.eqb_refl. now left.
  - destruct (find_next_zero_bit map end_ start =? end_) eqn:E; [now left|].
    unfold test_and_set_bit. rewrite Hb. right. auto.
Qed.

(** Exhaustion is reported only when every bit of the range is taken. *)
Lemma alloc_bitmap_exhausted (map start end_ : Z) :
  0 <= start ->
  fst (__arm_smmu_alloc_bitmap map start end_) = - ENOSPC ->
  forall j, start <= j < end_ -> Z.testbit map j = true.
Proof.
  intros Hs. unfold __arm_smmu_alloc_bitmap. cbn [alloc_bitmap_loop].
  destruct (find_next_zero_bit map end_ start =? end_) eqn:E.
  - intros _ j Hj. apply Z.eqb_eq in E.
    apply (find_next_zero_bit_first map end_ start). lia.
  - destruct (find_next_zero_bit_spec map end_ start) as [He|[Hr Hb]];
      cbv zeta in *.
    + apply Z.eqb_neq in E. contradiction.
    + unfold test_and_set_bit. rewrite Hb. cbn [fst]. unfold ENOSPC. lia.
Qed.

Lemma testbit_setbit_mono (a n m : Z) :
  Z.testbit a m = true -> Z.testbit (Z.setbit a n) m = true.
Proof.
  intros H. rewrite Z.setbit_spec', Z.lor_spec, H. reflexivity.
Qed.

(** *** The static table *)

(** A device as the probe routine and the allocator leave it: the static
    list starts empty, entries come from [arm_smmu_add_static_cbndx] only,
    banks are claimed and released through the two allocator entry points. *)
Inductive built : arm_smmu_device -> Prop :=
| built_probe dv :
    static_cbndx_list dv = [] -> built dv
| built_static dv s2cr s smr :
    built dv -> built (arm_smmu_add_static_cbndx dv s2cr s smr)
| built_alloc dv start end_ streamids :
    built dv -> built (snd (arm_smmu_alloc_context_idx dv start end_ streamids))
| built_free dv idx :
    built dv -> built (arm_smmu_free_context_idx dv idx).

(** Every static translate bank has its bit set in [context_map]. *)
Definition static_reserved (dv : arm_smmu_device) : Prop :=
  forall e, In e (static_cbndx_list dv) -> type e = TYPE_TRANS ->
            Z.testbit (context_map dv) (cbndx e) = true.

Lemma get_static_entry_from_context_some (dv : arm_smmu_device)
  (e : static_cbndx_entry) :
  In e (static_cbndx_list dv) -> type e = TYPE_TRANS ->
  exists e', arm_smmu_get_static_entry_from_context dv (cbndx e) = Some e'.
Proof.
  intros Hin Hty. unfold arm_smmu_get_static_entry_from_context.
  destruct (List.find _ (static_cbndx_list dv)) as [e'|] eqn:Hf; [eauto|].
  pose proof (find_none _ _ Hf e Hin) as Hn. cbv beta in Hn.
  rewrite Hty, !Z.eqb_refl in Hn. discriminate.
Qed.

Lemma set_context_map_id (dv : arm_smmu_device) :
  set_context_map dv (context_map dv) = dv.
Proof. destruct dv. reflexivity. Qed.

Lemma alloc_context_idx_cases (dv : arm_smmu_device) (start end_ : Z)
  (streamids : list Z) :
  let '(idx, dv') := arm_smmu_alloc_context_idx dv start end_ streamids in
  (dv' = dv /\ exists e, In e (static_cbndx_list dv) /\ type e = TYPE_TRANS
                         /\ idx = cbndx e)
  \/ (idx = - ENOSPC /\ dv' = dv)
  \/ (start <= idx < end_ /\ Z.testbit (context_map dv) idx = false
      /\ dv' = set_context_map dv (Z.setbit (context_map dv) idx)).
Proof.
  unfold arm_smmu_alloc_context_idx.
  pose proof (alloc_bitmap_spec (context_map dv) start end_) as Hb.
  assert (Hscan : forall l entry,
             (forall e, entry = Some e -> In e (static_cbndx_list dv)) ->
             forall e, alloc_context_scan dv l entry = Some e ->
                       In e (static_cbndx_list dv)).
  { induction l as [|s l IH]; intros entry Hentry e; cbn [alloc_context_scan].
    - apply Hentry.
    - assert (Hl : forall e0, arm_smmu_get_static_entry_from_sid dv s = Some e0
                              -> In e0 (static_cbndx_list dv)).
      { intros e0 H0. apply find_some in H0. tauto. }
      destruct (is_trans _); [apply Hl | apply IH, Hl]. }
  specialize (Hscan streamids None (fun e H => ltac:(discriminate))).
  destruct (alloc_context_scan dv streamids None) as [e|] eqn:He.
  - destruct (type e =? TYPE_TRANS) eqn:Hty.
    + left. split; [reflexivity|].
      exists e. apply Z.eqb_eq in Hty. auto.
    + destruct (__arm_smmu_alloc_bitmap (context_map dv) start end_) as [idx m].
      right.
      destruct Hb as [[-> ->]|(Hr & Hc & ->)]; [left|right]; auto.
      split; [reflexivity|apply set_context_map_id].
  - destruct (__arm_smmu_alloc_bitmap (context_map dv) start end_) as [idx m].
    right.
    destruct Hb as [[-> ->]|(Hr & Hc & ->)]; [left|right]; auto.
    split; [reflexivity|apply set_context_map_id].
Qed.

Lemma free_context_idx_cases (dv : arm_smmu_device) (idx : Z) :
  static_cbndx_list (arm_smmu_free_context_idx dv idx) = static_cbndx_list dv /\
  ((arm_smmu_free_context_idx dv idx = dv
    /\ exists e, arm_smmu_get_static_entry_from_context dv idx = Some e)
   \/ (arm_smmu_get_static_entry_from_context dv idx = None
       /\ context_map (arm_smmu_free_context_idx dv idx)
          = Z.clearbit (context_map dv) idx)).
Proof.
  unfold arm_smmu_free_context_idx.
  destruct (arm_smmu_get_static_entry_from_context dv idx) as [e|] eqn:He.
  - split; [reflexivity|]. left. eauto.
  - split; [reflexivity|]. right. split; reflexivity.
Qed.

Lemma built_static_reserved (dv : arm_smmu_device) :
  built dv -> static_reserved dv.
Proof.
  induction 1 as [dv Hnil|dv s2cr s smr Hb IH|dv start end_ sids Hb IH|dv idx Hb IH].
  - intros e Hin. rewrite Hnil in Hin. destruct Hin.
  - intros e Hin Hty. unfold arm_smmu_add_static_cbndx in *.
    set (ty := Z.land (Z.shiftr s2cr S2CR_TYPE_SHIFT) S2CR_TYPE_MASK) in *.
    set (cb := Z.land (Z.shiftr s2cr S2CR_CBNDX_SHIFT) S2CR_CBNDX_MASK) in *.
    assert (Hcb : 0 <= cb).
    { subst cb. apply Z.land_nonneg. right. unfold S2CR_CBNDX_MASK. lia. }
    destruct (ty =? TYPE_TRANS) eqn:Ety; cbn in Hin |- *.
    + destruct Hin as [<-|Hin]; cbn.
      * apply Z.setbit_eq, Hcb.
      * apply testbit_setbit_mono, IH; assumption.
    + destruct Hin as [<-|Hin]; cbn in *.
      * apply Z.eqb_neq in Ety. contradiction.
      * apply IH; assumption.
  - pose proof (alloc_context_idx_cases dv start end_ sids) as Hc.
    destruct (arm_smmu_alloc_context_idx dv start end_ sids) as [i dv'].
    cbn [snd]. intros e Hin Hty.
    destruct Hc as [[-> _]|[[_ ->]|(_ & _ & ->)]].
    + apply IH; assumption.
    + apply IH; assumption.
    + cbn in Hin |- *. apply testbit_setbit_mono, IH; assumption.
  - intros e Hin Hty.
    destruct (free_context_idx_cases dv idx) as (Hl & [[Heq _]|[Hn Hm]]).
    + rewrite Heq in *. apply IH; assumption.
    + rewrite Hl in Hin. rewrite Hm, Z.clearbit_neq; [apply IH; assumption|].
      intros ->. destruct (get_static_entry_from_context_some dv e Hin Hty)
        as [e' He']. congruence.
Qed.

(** When some candidate stream ID resolves to a translate entry, the scan
    leaves the loop at the first such candidate. *)
Lemma alloc_context_scan_first (dv : arm_smmu_device) (streamids : list Z)
  (entry : option static_cbndx_entry) :
  (exists s, In s streamids
             /\ is_trans (arm_smmu_get_static_entry_from_sid dv s) = true) ->
  exists pre s post e,
    streamids = pre ++ s :: post /\
    (forall s', In s' pre ->
                is_trans (arm_smmu_get_static_entry_from_sid dv s') = false) /\
    arm_smmu_get_static_entry_from_sid dv s = Some e /\
    type e = TYPE_TRANS /\
    alloc_context_scan dv streamids entry = Some e.
Proof.
  revert entry. induction streamids as [|s l IH]; intros entry [s0 [Hin Ht]].
  - destruct Hin.
  - cbn [alloc_context_scan].
    destruct (is_trans (arm_smmu_get_static_entry_from_sid dv s)) eqn:Hs.
    + destruct (arm_smmu_get_static_entry_from_sid dv s) as [e|] eqn:He;
        [|discriminate].
      exists [], s, l, e. cbn in Hs. apply Z.eqb_eq in Hs.
      repeat split; auto. intros s' [].
    + destruct Hin as [->|Hin]; [congruence|].
      destruct (IH (arm_smmu_get_static_entry_from_sid dv s)
                  (ex_intro _ s0 (conj Hin Ht)))
        as (pre & s1 & post & e & -> & Hpre & He & Hty & Hscan).
      exists (s :: pre), s1, post, e. repeat split; auto.
      intros s' [<-|Hs']; auto.
Qed.

(** The entry the static table holds for a stream ID: the first one in
    list order that carries the ID. *)
Definition static_entry_of (dv : arm_smmu_device) (s : Z)
  (e : static_cbndx_entry) : Prop :=
  exists l1 l2,
    static_cbndx_list dv = l1 ++ e :: l2 /\ sid e = s /\
    forall e', In e' l1 -> sid e' <> s.

Lemma get_static_entry_from_sid_spec (dv : arm_smmu_device) (s : Z)
  (e : static_cbndx_entry) :
  arm_smmu_get_static_entry_from_sid dv s = Some e <-> static_entry_of dv s e.
Proof.
  unfold arm_smmu_get_static_entry_from_sid, static_entry_of.
  induction (static_cbndx_list dv) as [|a l IH]; cbn [List.find].
  - split; [discriminate|]. intros (l1 & l2 & H & _).
    destruct l1; discriminate H.
  - destruct (Z.eqb_spec (sid a) s) as [Hs|Hs].
    + split.
      * intros [= <-]. exists [], l. repeat split; auto; intros e' [].
      * intros (l1 & l2 & H & He & Hpre). destruct l1 as [|x l1].
        -- injection H as Ha _. rewrite Ha. reflexivity.
        -- injection H as Ha _. subst x. exfalso.
           apply (Hpre a); [left|]; auto.
    + rewrite IH. split.
      * intros (l1 & l2 & -> & He & Hpre). exists (a :: l1), l2.
        repeat split; auto. intros e' [<-|H]; auto.
      * intros (l1 & l2 & H & He & Hpre). destruct l1 as [|x l1].
        -- injection H as Ha _. subst a. contradiction.
        -- injection H as Ha Hl. subst x l. exists l1, l2.
           repeat split; auto.
           intros e' H. apply Hpre. right. exact H.
Qed.

(** With one entry per stream ID, any entry is the one the table holds
    for its ID. *)
Lemma static_entry_of_unique (dv : arm_smmu_device) (e : static_cbndx_entry) :
  NoDup (map sid (static_cbndx_list dv)) ->
  In e (static_cbndx_list dv) -> static_entry_of dv (sid e) e.
Proof.
  unfold static_entry_of. intros Hnd Hin.
  apply in_split in Hin. destruct Hin as (l1 & l2 & Hl).
  exists l1, l2. split; [exact Hl|]. split; [reflexivity|].
  intros e' He' Heq. rewrite Hl, map_app in Hnd. cbn [map] in Hnd.
  apply NoDup_app in Hnd as (_ & Hdis & _). apply (Hdis (sid e')).
  - apply list_elem_of_In, in_map. exact He'.
  - rewrite Heq. left.
Qed.

Lemma static_entry_of_in (dv : arm_smmu_device) (s : Z)
  (e : static_cbndx_entry) :
  static_entry_of dv s e -> In e (static_cbndx_list dv) /\ sid e = s.
Proof.
  intros (l1 & l2 & -> & He & _). split; [|exact He].
  apply in_or_app. right. left. reflexivity.
Qed.

(** C2.  If a candidate stream ID handed to the context-bank allocation
    has a static entry of type translate, the allocation returns the
    recorded bank of such an entry, that of the first candidate that has
    one, and leaves the device (both bitmaps) as it was, whatever the
    state of the bitmap, full or not.  The entry of a stream ID is the one
    the table holds for it, the first in list order; with one entry per
    stream ID that is any entry with the ID, and a single candidate entry
    of type translate is the one whose bank is returned.  Freeing the bank
    of a static translate entry changes nothing either, and the bitmap
    path never hands out such a bank: static bindings are not returned to
    the pool and not allocated a second time. *)
Theorem static_translate_binding_priority (dv : arm_smmu_device)
  (start end_ : Z) (streamids : list Z) :
  built dv ->
  (forall s e,
     In s streamids -> static_entry_of dv s e -> type e = TYPE_TRANS ->
     exists pre s' post e',
       streamids = pre ++ s' :: post /\
       (forall s0 e0, In s0 pre -> static_entry_of dv s0 e0 ->
                      type e0 <> TYPE_TRANS) /\
       static_entry_of dv s' e' /\ type e' = TYPE_TRANS /\
       arm_smmu_alloc_context_idx dv start end_ streamids = (cbndx e', dv)) /\
  (forall e,
     NoDup (map sid (static_cbndx_list dv)) ->
     In e (static_cbndx_list dv) -> In (sid e) streamids ->
     type e = TYPE_TRANS ->
     (forall e0, In e0 (static_cbndx_list dv) -> In (sid e0) streamids ->
                 type e0 = TYPE_TRANS -> e0 = e) ->
     arm_smmu_alloc_context_idx dv start end_ streamids = (cbndx e, dv)) /\
  (forall e, In e (static_cbndx_list dv) -> type e = TYPE_TRANS ->
     arm_smmu_free_context_idx dv (cbndx e) = dv /\
     fst (__arm_smmu_alloc_bitmap (context_map dv) start end_) <> cbndx e).
Proof.
  intros Hb.
  assert (Hfirst : forall s e,
     In s streamids -> static_entry_of dv s e -> type e = TYPE_TRANS ->
     exists pre s' post e',
       streamids = pre ++ s' :: post /\
       (forall s0 e0, In s0 pre -> static_entry_of dv s0 e0 ->
                      type e0 <> TYPE_TRANS) /\
       static_entry_of dv s' e' /\ type e' = TYPE_TRANS /\
       arm_smmu_alloc_context_idx dv start end_ streamids = (cbndx e', dv)).
  { intros s e Hin He Hty.
    assert (Hex : exists s, In s streamids
                /\ is_trans (arm_smmu_get_static_entry_from_sid dv s) = true).
    { exists s. split; [exact Hin|].
      apply get_static_entry_from_sid_spec in He. rewrite He. cbn.
      rewrite Hty. reflexivity. }
    destruct (alloc_context_scan_first dv streamids None Hex)
      as (pre & s' & post & e' & -> & Hpre & He' & Hty' & Hscan).
    exists pre, s', post, e'. split; [reflexivity|]. split; [|split; [|split]].
    - intros s0 e0 H0 He0 Ht0.
      apply get_static_entry_from_sid_spec in He0.
      specialize (Hpre s0 H0). rewrite He0 in Hpre. cbn in Hpre.
      rewrite Ht0 in Hpre. discriminate.
    - apply get_static_entry_from_sid_spec. exact He'.
    - exact Hty'.
    - unfold arm_smmu_alloc_context_idx. rewrite Hscan, Hty', Z.eqb_refl.
      reflexivity. }
  split; [exact Hfirst|]. split.
  - intros e Hnd Hin Hs Hty Honly.
    destruct (Hfirst (sid e) e Hs (static_entry_of_unique dv e Hnd Hin) Hty)
      as (pre & s' & post & e' & Hl & _ & He' & Hty' & Halloc).
    destruct (static_entry_of_in dv s' e' He') as [Hin' Hsid'].
    assert (Heq : e' = e).
    { apply Honly; [exact Hin'| |exact Hty'].
      rewrite Hsid', Hl. apply in_or_app. right. left. reflexivity. }
    rewrite <- Heq. exact Halloc.
  - intros e Hin Hty. split.
    + unfold arm_smmu_free_context_idx.
      destruct (get_static_entry_from_context_some dv e Hin Hty) as [e' ->].
      reflexivity.
    + pose proof (built_static_reserved dv Hb e Hin Hty) as Hbit.
      pose proof (alloc_bitmap_spec (context_map dv) start end_) as Hspec.
      destruct (__arm_smmu_alloc_bitmap (context_map dv) start end_) as [idx m].
      cbn [fst]. intros ->.
      destruct Hspec as [[Hneg _]|(_ & Hclr & _)].
      * rewrite Z.testbit_neg_r in Hbit; [discriminate|].
        rewrite Hneg. unfold ENOSPC. lia.
      * congruence.
Qed.

(** Four banks, all taken; stream ID 7 is bound by firmware to bank 2
    through stream-match register 1. *)
Definition c2_device : arm_smmu_device :=
  arm_smmu_add_static_cbndx
    {| features := ARM_SMMU_FEAT_TRANS_S1; options := 0;
       num_context_banks := 4; num_s2_context_banks := 0;
       context_map := 11; smr_map := 0; static_cbndx_list := [] |}
    2 7 1.

Definition c2_entry : static_cbndx_entry :=
  {| cbndx := 2; smr_idx := 1; sid := 7; type := TYPE_TRANS |}.

Lemma static_translate_binding_priority_witness :
  arm_smmu_alloc_context_idx c2_device 0 4 [5; 7] = (2, c2_device) /\
  arm_smmu_free_context_idx c2_device 2 = c2_device /\
  fst (__arm_smmu_alloc_bitmap (context_map c2_device) 0 4) <> 2.
Proof.
  assert (Hb : built c2_device).
  { unfold c2_device. apply built_static, built_probe. reflexivity. }
  assert (Hin : In c2_entry (static_cbndx_list c2_device))
    by (left; reflexivity).
  destruct (static_translate_binding_priority c2_device 0 4 [5; 7] Hb)
    as (_ & Hone & Hfree).
  split.
  - apply (Hone c2_entry).
    + apply NoDup_singleton.
    + exact Hin.
    + right. left. reflexivity.
    + reflexivity.
    + intros e0 [<-|[]] _ _. reflexivity.
  - exact (Hfree c2_entry Hin eq_refl).
Defined.

Example c2_device_alloc :
  arm_smmu_alloc_context_idx c2_device 0 4 [5; 7] = (2, c2_device)
  /\ fst (__arm_smmu_alloc_bitmap (context_map c2_device) 0 4) = - ENOSPC.
Proof. split; reflexivity. Qed.

(** *** Ownership of context banks *)

Definition static_bank (dv : arm_smmu_device) (idx : Z) : bool :=
  match arm_smmu_get_static_entry_from_context dv idx with
  | Some _ => true
  | None => false
  end.

(** What the ID registers and the probe guarantee: at most 255 banks
    ([ID1_NUMCB_MASK]), and every static translate bank is a bank of the
    device. *)
Definition dev_wf (dv : arm_smmu_device) : Prop :=
  0 <= num_s2_context_banks dv /\
  num_context_banks dv <= 255 /\
  forall e, In e (static_cbndx_list dv) -> type e = TYPE_TRANS ->
            0 <= cbndx e < num_context_banks dv.

(** The claim as the design document words it: no two live domains have
    the same bank. *)
Definition exclusive_banks (s : system) : Prop :=
  forall i j, i <> j ->
    smmu (doms s i) = true -> smmu (doms s j) = true ->
    cfg_cbndx (doms s i) <> cfg_cbndx (doms s j).

(** A domain that holds a bank of the pool: not dynamic, bound, and the
    bank is not a static translate bank. *)
Definition owns (dv : arm_smmu_device) (d : arm_smmu_domain) : Prop :=
  attr_dynamic d = false /\ cfg_cbndx d <> INVALID_CBNDX /\
  static_bank dv (cfg_cbndx d) = false.

Record inv (s : system) : Prop := {
  inv_wf : dev_wf (dev s);
  inv_bit : forall i, owns (dev s) (doms s i) ->
      Z.testbit (context_map (dev s)) (cfg_cbndx (doms s i)) = true;
  inv_excl : forall i j, i <> j ->
      owns (dev s) (doms s i) -> owns (dev s) (doms s j) ->
      cfg_cbndx (doms s i) <> cfg_cbndx (doms s j);
  inv_live : forall i, attr_dynamic (doms s i) = false ->
      smmu (doms s i) = true -> cfg_cbndx (doms s i) <> INVALID_CBNDX
}.

(** The one accepted call that turns a caller-chosen bank into the bank
    of a domain that is not dynamic: DOMAIN_ATTR_DYNAMIC cleared on a
    detached dynamic domain that carries a bank index.  The driver refuses
    the attribute only while the domain is attached, and
    [arm_smmu_init_domain_context] keeps a bank index that is already set;
    the domain then attaches on the chosen bank and gives that bank to the
    bitmap when it is detached. *)
Definition releases_chosen_bank (o : op) (s : system) : Prop :=
  match o with
  | OpSetDynamic i dynamic =>
      dynamic = 0 /\ smmu (doms s i) = false /\
      attr_dynamic (doms s i) = true /\
      cfg_cbndx (doms s i) <> INVALID_CBNDX
  | _ => False
  end.

(** The calls [ops], made one after the other from state [s], contain no
    such call.  Every other call sequence is covered. *)
Fixpoint keeps_chosen_banks (ops : list op) (s : system) : Prop :=
  match ops with
  | [] => True
  | o :: rest =>
      ~ releases_chosen_bank o s /\ keeps_chosen_banks rest (exec o s)
  end.

Lemma upd_same (ds : nat -> arm_smmu_domain) i d : upd ds i d i = d.
Proof. unfold upd. rewrite Nat.eqb_refl. reflexivity. Qed.

Lemma upd_other (ds : nat -> arm_smmu_domain) i k d :
  k <> i -> upd ds i d k = ds k.
Proof.
  intros H. unfold upd. destruct (Nat.eqb_spec k i); [contradiction|reflexivity].
Qed.

Lemma inv_ext (s s' : system) :
  dev s' = dev s -> (forall k, doms s' k = doms s k) -> inv s -> inv s'.
Proof.
  intros Hd Hk [Hwf Hbit Hex Hlive]. split; rewrite ?Hd.
  - exact Hwf.
  - intros i. rewrite Hk. apply Hbit.
  - intros i j. rewrite !Hk. apply Hex.
  - intros i. rewrite Hk. apply Hlive.
Qed.

(** One call changes one domain and, in the device, the bitmap only. *)
Definition step_ok (s : system) (i : nat) (d' : arm_smmu_domain)
  (dv' : arm_smmu_device) : Prop :=
  exists m,
    dv' = set_context_map (dev s) m /\
    (forall k, k <> i -> owns (dev s) (doms s k) ->
               Z.testbit m (cfg_cbndx (doms s k)) = true) /\
    (owns (dev s) d' ->
       Z.testbit m (cfg_cbndx d') = true /\
       forall k, k <> i -> owns (dev s) (doms s k) ->
                 cfg_cbndx (doms s k) <> cfg_cbndx d') /\
    (attr_dynamic d' = false -> smmu d' = true ->
     cfg_cbndx d' <> INVALID_CBNDX).

Lemma step_ok_inv (s : system) i d' dv' :
  inv s -> step_ok s i d' dv' ->
  inv {| dev := dv'; doms := upd (doms s) i d' |}.
Proof.
  intros [Hwf Hbit Hex Hlive] (m & -> & H1 & H2 & H3).
  split; cbn [dev doms].
  - exact Hwf.
  - intros k Hk. destruct (Nat.eq_dec k i) as [->|Hne].
    + rewrite upd_same in *. apply H2, Hk.
    + rewrite upd_other in * by assumption. apply H1; assumption.
  - intros k j Hkj Hk Hj.
    destruct (Nat.eq_dec k i) as [->|Hk'], (Nat.eq_dec j i) as [->|Hj'];
      rewrite ?upd_same, ?upd_other in * by assumption.
    + contradiction.
    + intros E. apply (proj2 (H2 Hk) j Hj' Hj). symmetry. exact E.
    + apply (proj2 (H2 Hj) k Hk' Hk).
    + apply Hex; assumption.
  - intros k. destruct (Nat.eq_dec k i) as [->|Hne];
      rewrite ?upd_same, ?upd_other by assumption; auto.
Qed.

Lemma step_keep (s : system) i d' :
  inv s ->
  attr_dynamic d' = attr_dynamic (doms s i) ->
  cfg_cbndx d' = cfg_cbndx (doms s i) ->
  (attr_dynamic d' = false -> smmu d' = true ->
   cfg_cbndx d' <> INVALID_CBNDX) ->
  step_ok s i d' (dev s).
Proof.
  intros [Hwf Hbit Hex Hlive] Ha Hc H3. exists (context_map (dev s)).
  rewrite set_context_map_id.
  split; [reflexivity|]. split; [|split; [|exact H3]].
  - intros k _ Hk. apply Hbit, Hk.
  - intros Ho.
    assert (Hoi : owns (dev s) (doms s i)).
    { unfold owns in *. rewrite <- Ha, <- Hc. exact Ho. }
    rewrite Hc. split; [apply Hbit, Hoi|].
    intros k Hne Hk. apply Hex; auto.
Qed.

Lemma step_unowned (s : system) i d' :
  inv s ->
  ~ owns (dev s) d' ->
  (attr_dynamic d' = false -> smmu d' = true ->
   cfg_cbndx d' <> INVALID_CBNDX) ->
  step_ok s i d' (dev s).
Proof.
  intros [Hwf Hbit Hex Hlive] Hn H3. exists (context_map (dev s)).
  rewrite set_context_map_id.
  split; [reflexivity|]. split; [|split; [|exact H3]].
  - intros k _ Hk. apply Hbit, Hk.
  - intros Ho. contradiction.
Qed.

Lemma step_claim (s : system) i d' idx :
  inv s ->
  Z.testbit (context_map (dev s)) idx = false ->
  0 <= idx < 255 ->
  cfg_cbndx d' = idx ->
  step_ok s i d' (set_context_map (dev s) (Z.setbit (context_map (dev s)) idx)).
Proof.
  intros [Hwf Hbit Hex Hlive] Hclr Hr Hc.
  exists (Z.setbit (context_map (dev s)) idx).
  split; [reflexivity|]. split; [|split].
  - intros k _ Hk. apply testbit_setbit_mono, Hbit, Hk.
  - intros _. rewrite Hc. split; [apply Z.setbit_eq; lia|].
    intros k _ Hk E. rewrite <- E, (Hbit k Hk) in Hclr. discriminate.
  - intros _ _. rewrite Hc. unfold INVALID_CBNDX. lia.
Qed.

Lemma step_free (s : system) i d' :
  inv s ->
  attr_dynamic (doms s i) = false ->
  cfg_cbndx d' = INVALID_CBNDX ->
  smmu d' = false ->
  step_ok s i d' (arm_smmu_free_context_idx (dev s) (cfg_cbndx (doms s i))).
Proof.
  intros Hinv Hd Hc Hs.
  assert (Hno : ~ owns (dev s) d') by (intros (_ & H & _); contradiction).
  assert (H3 : attr_dynamic d' = false -> smmu d' = true ->
               cfg_cbndx d' <> INVALID_CBNDX) by (intros _; congruence).
  destruct (free_context_idx_cases (dev s) (cfg_cbndx (doms s i)))
    as (_ & [[-> _]|[Hn Hm]]).
  - apply step_unowned; auto.
  - unfold arm_smmu_free_context_idx in *. rewrite Hn in *. cbn in Hm.
    destruct Hinv as [Hwf Hbit Hex Hlive].
    exists (__arm_smmu_free_bitmap (context_map (dev s)) (cfg_cbndx (doms s i))).
    split; [reflexivity|]. split; [|split; [|exact H3]].
    + intros k Hne Hk. unfold __arm_smmu_free_bitmap, clear_bit.
      rewrite Z.clearbit_neq; [apply Hbit, Hk|].
      intros E. pose proof Hk as (Hkd & Hki & Hks).
      apply (Hex i k); [auto| |exact Hk|exact E].
      split; [exact Hd|]. rewrite E. split; assumption.
    + intros Ho. contradiction.
Qed.

Lemma static_bank_of_entry (dv : arm_smmu_device) (e : static_cbndx_entry) :
  In e (static_cbndx_list dv) -> type e = TYPE_TRANS ->
  static_bank dv (cbndx e) = true.
Proof.
  intros Hin Hty. unfold static_bank.
  destruct (get_static_entry_from_context_some dv e Hin Hty) as [e' ->].
  reflexivity.
Qed.

Lemma step_static (s : system) i d' (e : static_cbndx_entry) :
  inv s ->
  In e (static_cbndx_list (dev s)) -> type e = TYPE_TRANS ->
  cfg_cbndx d' = cbndx e ->
  step_ok s i d' (dev s).
Proof.
  intros Hinv Hin Hty Hc. apply step_unowned; [exact Hinv| |].
  - intros (_ & _ & Hs). rewrite Hc, (static_bank_of_entry _ _ Hin Hty) in Hs.
    discriminate.
  - intros _ _. rewrite Hc.
    destruct (inv_wf s Hinv) as (_ & Hn & Hr). specialize (Hr e Hin Hty).
    unfold INVALID_CBNDX. lia.
Qed.

Lemma init_domain_context_ok (s : system) i env streamids :
  inv s -> attr_dynamic (doms s i) = false ->
  let '(ret, d', dv') :=
    arm_smmu_init_domain_context env (doms s i) (dev s) streamids in
  step_ok s i d' dv' /\ attr_dynamic d' = false.
Proof.
  intros Hinv Hd. unfold arm_smmu_init_domain_context.
  destruct (smmu (doms s i)) eqn:Hlive.
  { split; [|exact Hd]. apply step_keep; auto. intros _ _.
    apply (inv_live s Hinv); assumption. }
  set (st2 := if Z.land (features (dev s)) ARM_SMMU_FEAT_TRANS_S2 =? 0
              then ARM_SMMU_DOMAIN_S1 else _).
  destruct (negb _).
  { split; [|exact Hd]. apply step_keep; auto. }
  set (start := if st2 =? ARM_SMMU_DOMAIN_S1
                then num_s2_context_banks (dev s) else 0).
  assert (Hstart : 0 <= start).
  { destruct (inv_wf s Hinv) as (H0 & _). subst start.
    destruct (st2 =? ARM_SMMU_DOMAIN_S1); lia. }
  destruct (inv_wf s Hinv) as (_ & Hn & Hrange).
  destruct (cfg_cbndx (doms s i) =? INVALID_CBNDX) eqn:Hcb.
  - pose proof (alloc_context_idx_cases (dev s) start
                  (num_context_banks (dev s)) streamids) as Hc.
    destruct (arm_smmu_alloc_context_idx (dev s) start
                (num_context_banks (dev s)) streamids) as [ret dv1].
    destruct Hc as [[-> (e & Hin & Hty & ->)]|[[-> ->]|(Hr & Hclr & ->)]].
    + specialize (Hrange e Hin Hty).
      assert (Herr : IS_ERR_VALUE (cbndx e) = false).
      { unfold IS_ERR_VALUE. apply andb_false_iff. right. apply Z.ltb_ge. lia. }
      rewrite Herr. cbn [andb].
      assert (Hu : u8 (cbndx e) = cbndx e).
      { unfold u8. apply Z.mod_small. lia. }
      destruct (pgtbl_ops_ok env); (split; [|exact Hd]);
        apply (step_static s i _ e); auto.
    + cbn [andb]. replace (IS_ERR_VALUE (- ENOSPC)) with true by reflexivity.
      split; [|exact Hd]. apply step_keep; auto.
    + assert (Herr : IS_ERR_VALUE ret = false).
      { unfold IS_ERR_VALUE. apply andb_false_iff. right. apply Z.ltb_ge. lia. }
      rewrite Herr. cbn [andb].
      assert (Hu : u8 ret = ret).
      { unfold u8. apply Z.mod_small. lia. }
      destruct (pgtbl_ops_ok env); (split; [|exact Hd]);
        apply (step_claim s i _ ret); auto; lia.
  - cbn [andb]. apply Z.eqb_neq in Hcb.
    destruct (pgtbl_ops_ok env); (split; [|exact Hd]);
      apply step_keep; auto.
Qed.

Lemma destroy_domain_context_ok (s : system) i :
  inv s -> attr_dynamic (doms s i) = false ->
  let '(d', dv') := arm_smmu_destroy_domain_context (doms s i) (dev s) in
  step_ok s i d' dv' /\ attr_dynamic d' = false.
Proof.
  intros Hinv Hd. unfold arm_smmu_destroy_domain_context.
  split; [|exact Hd]. apply step_free; auto.
Qed.

Lemma populate_cb_ok (s : system) i streamids :
  inv s ->
  let '(ret, d') := arm_smmu_populate_cb (dev s) (doms s i) streamids in
  step_ok s i d' (dev s) /\ attr_dynamic d' = attr_dynamic (doms s i).
Proof.
  intros Hinv. unfold arm_smmu_populate_cb.
  assert (Hsame : step_ok s i (doms s i) (dev s)).
  { apply step_keep; auto. apply (inv_live s Hinv). }
  cbv zeta.
  destruct (arm_smmu_get_static_entry_from_sid (dev s) _) as [e|] eqn:He;
    [|auto].
  destruct (type e =? TYPE_TRANS) eqn:Hty; [|auto].
  split; [|reflexivity]. apply Z.eqb_eq in Hty.
  apply find_some in He. destruct He as [Hin _].
  apply (step_static s i _ e); auto.
Qed.

Lemma upd_upd (ds : nat -> arm_smmu_domain) i d1 d2 k :
  upd (upd ds i d1) i d2 k = upd ds i d2 k.
Proof. unfold upd. destruct (Nat.eqb k i); reflexivity. Qed.

Lemma upd_id (ds : nat -> arm_smmu_domain) i k : upd ds i (ds i) k = ds k.
Proof. unfold upd. destruct (Nat.eqb_spec k i); [subst|]; reflexivity. Qed.

Lemma inv_after (ds : nat -> arm_smmu_domain) i d1 d2 dv2 :
  inv {| dev := dv2; doms := upd (upd ds i d1) i d2 |} ->
  inv {| dev := dv2; doms := upd ds i d2 |}.
Proof.
  apply inv_ext; [reflexivity|]. intros k. cbn. symmetry. apply upd_upd.
Qed.

Lemma attach_dev_inv (s : system) i env streamids :
  inv s ->
  let '(ret, d', dv') :=
    arm_smmu_attach_dev env (doms s i) (dev s) streamids in
  inv {| dev := dv'; doms := upd (doms s) i d' |}.
Proof.
  intros Hinv. unfold arm_smmu_attach_dev.
  destruct (attr_dynamic (doms s i)) eqn:Hdyn.
  { (* dynamic: the bank is the caller's, the device is not touched *)
    assert (Hk : forall d', attr_dynamic d' = true ->
                 inv {| dev := dev s; doms := upd (doms s) i d' |}).
    { intros d' Hd'. apply step_ok_inv; [exact Hinv|].
      apply step_unowned; [exact Hinv| |]; unfold owns; rewrite Hd';
        [intros (H & _)|intros H]; discriminate. }
    unfold arm_smmu_attach_dynamic.
    repeat match goal with
           | |- context [if ?b then _ else _] => destruct b
           end; apply Hk; assumption. }
  (* populate_cb when the device has static context banks *)
  set (r0 := if arm_smmu_is_static_cb (dev s) then _ else _).
  assert (H0 : inv {| dev := dev s; doms := upd (doms s) i (snd r0) |}
               /\ attr_dynamic (snd r0) = false).
  { subst r0. destruct (arm_smmu_is_static_cb (dev s)).
    - pose proof (populate_cb_ok s i streamids Hinv) as Hp.
      destruct (arm_smmu_populate_cb (dev s) (doms s i) streamids) as [r d].
      destruct Hp as [Hp Ha]. rewrite Hdyn in Ha.
      destruct (r =? 0); cbn [snd]; (split; [|exact Ha]).
      + apply step_ok_inv; [exact Hinv|].
        destruct Hp as (m & Hm & H1 & H2 & H3). exists m. auto.
      + apply step_ok_inv; assumption.
    - cbn [snd]. split; [|exact Hdyn].
      revert Hinv. apply inv_ext; [reflexivity|]. intros k. apply upd_id. }
  destruct r0 as [ret0 dom0]. cbn [snd] in H0. destruct H0 as [HinvA HdA].
  destruct (negb (ret0 =? 0)); [exact HinvA|].
  pose proof (init_domain_context_ok _ i env streamids HinvA) as Hi.
  cbn [dev doms] in Hi. rewrite upd_same in Hi. specialize (Hi HdA).
  destruct (arm_smmu_init_domain_context env dom0 (dev s) streamids)
    as [[ret dom1] dev1].
  destruct Hi as [Hi HdB].
  pose proof (step_ok_inv _ _ _ _ HinvA Hi) as HinvB. cbn [dev doms] in HinvB.
  destruct (IS_ERR_VALUE ret); [exact (inv_after _ _ _ _ _ HinvB)|].
  destruct (negb (add_master_ret env =? 0));
    [|exact (inv_after _ _ _ _ _ HinvB)].
  pose proof (destroy_domain_context_ok _ i HinvB) as Hx.
  cbn [dev doms] in Hx. rewrite upd_same in Hx. specialize (Hx HdB).
  destruct (arm_smmu_destroy_domain_context dom1 dev1) as [dom2 dev2].
  destruct Hx as [Hx _].
  pose proof (step_ok_inv _ _ _ _ HinvB Hx) as HinvC. cbn [dev doms] in HinvC.
  apply inv_after in HinvC. apply inv_after in HinvC. exact HinvC.
Qed.

Lemma exec_inv (o : op) (s : system) :
  inv s -> ~ releases_chosen_bank o s -> inv (exec o s).
Proof.
  intros Hinv Hal. destruct o as [i sids env|i|i dyn|i data]; cbn [exec].
  - pose proof (attach_dev_inv s i env sids Hinv) as H.
    destruct (arm_smmu_attach_dev env (doms s i) (dev s) sids) as [[r d] dv].
    exact H.
  - unfold arm_smmu_detach_dev.
    destruct (negb (smmu (doms s i))).
    { revert Hinv. apply inv_ext; [reflexivity|]. intros k. apply upd_id. }
    destruct (attr_dynamic (doms s i)) eqn:Hdyn.
    + apply step_ok_inv; [exact Hinv|].
      apply step_unowned; [exact Hinv| |]; unfold owns; cbn; rewrite ?Hdyn;
        [intros (H & _)|intros H]; discriminate.
    + pose proof (destroy_domain_context_ok s i Hinv Hdyn) as H.
      destruct (arm_smmu_destroy_domain_context (doms s i) (dev s)) as [d dv].
      apply step_ok_inv; tauto.
  - cbn [releases_chosen_bank] in Hal. unfold set_attr_dynamic.
    destruct (smmu (doms s i)) eqn:Hlive; cbn [snd].
    { revert Hinv. apply inv_ext; [reflexivity|]. intros k. apply upd_id. }
    apply step_ok_inv; [exact Hinv|].
    destruct (Z.eqb_spec dyn 0) as [Hz|Hz]; cbn [negb].
    + destruct (attr_dynamic (doms s i)) eqn:Hdyn.
      * (* a dynamic domain without a bank becomes an ordinary one *)
        assert (Hcb : cfg_cbndx (doms s i) = INVALID_CBNDX).
        { destruct (Z.eq_dec (cfg_cbndx (doms s i)) INVALID_CBNDX) as [E|E];
            [exact E|]. exfalso. apply Hal. auto. }
        apply step_unowned; [exact Hinv| |]; unfold owns; cbn.
        -- intros (_ & H & _). contradiction.
        -- intros _ H. discriminate.
      * (* nothing changes *)
        apply step_keep; [exact Hinv| | |]; cbn; auto;
          intros _ H; discriminate.
    + apply step_unowned; [exact Hinv| |]; unfold owns; cbn.
      * intros (H & _). discriminate.
      * intros H. discriminate.
  - unfold set_attr_context_bank.
    destruct (smmu (doms s i)) eqn:Hlive; cbn [snd].
    { revert Hinv. apply inv_ext; [reflexivity|]. intros k. apply upd_id. }
    destruct (attr_dynamic (doms s i)) eqn:Hdyn; cbn [negb snd].
    + apply step_ok_inv; [exact Hinv|].
      apply step_unowned; [exact Hinv| |]; unfold owns; cbn; rewrite ?Hdyn;
        [intros (H & _)|intros H]; discriminate.
    + revert Hinv. apply inv_ext; [reflexivity|]. intros k. apply upd_id.
Qed.

Lemma boot_inv (dv : arm_smmu_device) : dev_wf dv -> inv (boot dv).
Proof.
  intros Hwf. split; cbn.
  - exact Hwf.
  - intros _ (_ & H & _). contradiction.
  - intros _ _ _ (_ & H & _). contradiction.
  - intros _ _ H. discriminate.
Qed.

Lemma run_inv (ops : list op) (s : system) :
  inv s -> keeps_chosen_banks ops s -> inv (run ops s).
Proof.
  revert s. induction ops as [|o ops IH]; intros s Hinv Hk.
  - exact Hinv.
  - destruct Hk as [Ho Hk]. cbn [run fold_left]. apply IH; [|exact Hk].
    apply exec_inv; assumption.
Qed.


(** A device with four banks, no firmware binding, dynamic domains
    enabled. *)
Definition c1_device : arm_smmu_device :=
  {| features := ARM_SMMU_FEAT_TRANS_S1; options := ARM_SMMU_OPT_DYNAMIC;
     num_context_banks := 4; num_s2_context_banks := 0;
     context_map := 0; smr_map := 0; static_cbndx_list := [] |}.

Definition env_ok : attach_env :=
  {| pgtbl_ops_ok := true; add_master_ret := 0; asid_ret := 6 |}.

Lemma c1_device_wf : dev_wf c1_device.
Proof.
  unfold dev_wf. cbn. split; [lia|]. split; [lia|]. intros e [].
Qed.

(** Domains 0 and 1 attach and receive banks 0 and 1 of the pool; domain
    2 is made dynamic, is told to use bank 1 and attaches. *)
Definition c1_witness_ops : list op :=
  [OpAttach 0 [5] env_ok; OpAttach 1 [6] env_ok; OpSetDynamic 2 1;
   OpSetContextBank 2 1; OpAttach 2 [] env_ok].


(** Domain 0 attaches for stream ID 5 and receives bank 0; domain 1 is
    made dynamic, is told to use bank 0 and attaches: both are live on
    bank 0. *)
Definition c1_ops : list op :=
  [OpAttach 0 [5] env_ok; OpSetDynamic 1 1; OpSetContextBank 1 0;
   OpAttach 1 [] env_ok].

Example c1_shared_bank :
  let s := run c1_ops (boot c1_device) in
  smmu (doms s 0%nat) = true /\ smmu (doms s 1%nat) = true /\
  cfg_cbndx (doms s 0%nat) = 0 /\ cfg_cbndx (doms s 1%nat) = 0.
Proof. repeat split; reflexivity. Qed.

(** After domain 0 detaches, bank 0 is free again and a third domain
    receives it while the dynamic domain 1 still refers to it. *)
Example c1_freed_while_referenced :
  let s := run (c1_ops ++ [OpDetach 0; OpAttach 2 [9] env_ok])
               (boot c1_device) in
  smmu (doms s 1%nat) = true /\ smmu (doms s 2%nat) = true /\
  cfg_cbndx (doms s 1%nat) = 0 /\ cfg_cbndx (doms s 2%nat) = 0.
Proof. repeat split; reflexivity. Qed.


(** Why the amended claim excepts the clearing of DOMAIN_ATTR_DYNAMIC:
    domain 1 is made dynamic, told to use bank 0, made ordinary again and
    attached.  It is then a live non-dynamic domain on the pool bank of
    domain 0, and when it is detached the bit of bank 0 is cleared while
    domain 0 still holds the bank. *)
Definition c1_cleared_ops : list op :=
  [OpAttach 0 [5] env_ok; OpSetDynamic 1 1; OpSetContextBank 1 0;
   OpSetDynamic 1 0; OpAttach 1 [7] env_ok].

Example c1_cleared_dynamic_shares :
  let s := run c1_cleared_ops (boot c1_device) in
  let s' := exec (OpDetach 1) s in
  (smmu (doms s 0%nat) = true /\ attr_dynamic (doms s 0%nat) = false /\
   cfg_cbndx (doms s 0%nat) = 0) /\
  (smmu (doms s 1%nat) = true /\ attr_dynamic (doms s 1%nat) = false /\
   cfg_cbndx (doms s 1%nat) = 0) /\
  static_bank (dev s) 0 = false /\
  smmu (doms s' 0%nat) = true /\ cfg_cbndx (doms s' 0%nat) = 0 /\
  Z.testbit (context_map (dev s')) 0 = false.
Proof. repeat split; reflexivity. Qed.

End Alloc.

(** ** Power / clock gate *)

Module Power.

(** Calls into the regulator, bus-scaling and clock subsystems, and the
    kernel's WARN, in the order they are made. *)
Inductive call :=
| RegulatorEnable
| RegulatorDisable
| RegulatorDisableDeferred
| BusUpdateRequest (v : Z)
| ClkPrepare (i : nat)
| ClkUnprepare (i : nat)
| ClkEnable (i : nat)
| ClkDisable (i : nat)
| Warn.

(** What those subsystems hold for this device: the regulator votes of
    the driver, the bus use case last requested, and per clock the
    prepare and enable counts. *)
Record platform := {
  regulator_votes : Z;
  bus_vote : Z;
  clk_prepare_count : list Z;
  clk_enable_count : list Z
}.

(** The power fields of [struct arm_smmu_device] (all three
    [unsigned int]), with the platform behind them. *)
Record gate := {
  power_count : Z;
  clock_refs_count : Z;
  attach_count : Z;
  plat : platform
}.

(** The configuration fields of [struct arm_smmu_device] the gate reads:
    [gdsc] is true when the regulator pointer is set. *)
Record clk_cfg := {
  num_clocks : nat;
  gdsc : bool;
  bus_client : Z;
  options : Z
}.

(** Return codes of the subsystem calls that can fail. *)
Record penv := {
  regulator_enable_ret : Z;
  regulator_disable_deferred_ret : Z;
  bus_update_ret : Z -> Z;
  clk_prepare_ret : nat -> Z;
  clk_enable_ret : nat -> Z
}.

Definition set_power_count (g : gate) (v : Z) : gate :=
  {| power_count := v; clock_refs_count := clock_refs_count g;
     attach_count := attach_count g; plat := plat g |}.

Definition set_clock_refs_count (g : gate) (v : Z) : gate :=
  {| power_count := power_count g; clock_refs_count := v;
     attach_count := attach_count g; plat := plat g |}.

Definition set_attach_count (g : gate) (v : Z) : gate :=
  {| power_count := power_count g; clock_refs_count := clock_refs_count g;
     attach_count := v; plat := plat g |}.

Definition set_plat (g : gate) (p : platform) : gate :=
  {| power_count := power_count g; clock_refs_count := clock_refs_count g;
     attach_count := attach_count g; plat := p |}.

(** Code over the gate: a result, the new gate, the calls made. *)
Definition M (A : Type) : Type := gate -> A * gate * list call.

Definition ret {A : Type} (a : A) : M A := fun g => (a, g, []).

Definition bind {A B : Type} (m : M A) (k : A -> M B) : M B :=
  fun g =>
    let '(a, g1, t1) := m g in
    let '(b, g2, t2) := k a g1 in
    (b, g2, t1 ++ t2).

Notation "x <~ m ;; k" := (bind m (fun x => k))
  (at level 90, m at level 80, right associativity).
Notation "m ;;; k" := (bind m (fun _ => k))
  (at level 90, right associativity).

Definition when (b : bool) (m : M unit) : M unit := if b then m else ret tt.

Definition emit (c : call) : M unit := fun g => (tt, g, [c]).

(** Modelled from the spec: the regulator, bus-scaling and clock
    subsystems are not under src/; they are consumed through an
    enable/disable contract: a call that succeeds (returns 0, or returns
    nothing) takes or drops one vote, a call that fails changes nothing. *)
Definition regulator_enable (env : penv) : M Z := fun g =>
  let r := regulator_enable_ret env in
  (r,
   if r =? 0
   then set_plat g {| regulator_votes := regulator_votes (plat g) + 1;
                      bus_vote := bus_vote (plat g);
                      clk_prepare_count := clk_prepare_count (plat g);
                      clk_enable_count := clk_enable_count (plat g) |}
   else g,
   [RegulatorEnable]).

Definition drop_regulator (g : gate) : gate :=
  set_plat g {| regulator_votes := regulator_votes (plat g) - 1;
                bus_vote := bus_vote (plat g);
                clk_prepare_count := clk_prepare_count (plat g);
                clk_enable_count := clk_enable_count (plat g) |}.

Definition regulator_disable : M unit := fun g =>
  (tt, drop_regulator g, [RegulatorDisable]).

Definition regulator_disable_deferred (env : penv) : M Z := fun g =>
  let r := regulator_disable_deferred_ret env in
  (r, if r =? 0 then drop_regulator g else g, [RegulatorDisableDeferred]).

Definition msm_bus_scale_client_update_request (env : penv) (v : Z) : M Z :=
  fun g =>
    let r := bus_update_ret env v in
    (r,
     if r =? 0
     then set_plat g {| regulator_votes := regulator_votes (plat g);
                        bus_vote := v;
                        clk_prepare_count := clk_prepare_count (plat g);
                        clk_enable_count := clk_enable_count (plat g) |}
     else g,
     [BusUpdateRequest v]).

Definition with_prepare (g : gate) (l : list Z) : gate :=
  set_plat g {| regulator_votes := regulator_votes (plat g);
                bus_vote := bus_vote (plat g);
                clk_prepare_count := l;
                clk_enable_count := clk_enable_count (plat g) |}.

Definition with_enable (g : gate) (l : list Z) : gate :=
  set_plat g {| regulator_votes := regulator_votes (plat g);
                bus_vote := bus_vote (plat g);
                clk_prepare_count := clk_prepare_count (plat g);
                clk_enable_count := l |}.

Definition alter_prepare (f : Z -> Z) (i : nat) (g : gate) : gate :=
  with_prepare g (alter f i (clk_prepare_count (plat g))).

Definition alter_enable (f : Z -> Z) (i : nat) (g : gate) : gate :=
  with_enable g (alter f i (clk_enable_count (plat g))).

Definition clk_prepare (env : penv) (i : nat) : M Z := fun g =>
  let r := clk_prepare_ret env i in
  (r, if r =? 0 then alter_prepare Z.succ i g else g, [ClkPrepare i]).

Definition clk_unprepare (i : nat) : M unit := fun g =>
  (tt, alter_prepare Z.pred i g, [ClkUnprepare i]).

Definition clk_enable (env : penv) (i : nat) : M Z := fun g =>
  let r := clk_enable_ret env i in
  (r, if r =? 0 then alter_enable Z.succ i g else g, [ClkEnable i]).

Definition clk_disable (i : nat) : M unit := fun g =>
  (tt, alter_enable Z.pred i g, [ClkDisable i]).

(** [while (i--) clk_unprepare(smmu->clocks[i])], and the loop of
    [arm_smmu_unprepare_clocks], which is the same walk from
    [num_clocks]. *)
Fixpoint unprepare_down (i : nat) : M unit :=
  match i with
  | O => ret tt
  | S j => clk_unprepare j ;;; unprepare_down j
  end.

Definition arm_smmu_unprepare_clocks (cfg : clk_cfg) : M unit :=
  unprepare_down (num_clocks cfg).

(** The loop of [arm_smmu_prepare_clocks] from clock [i], [n] clocks
    left. *)
Fixpoint prepare_from (env : penv) (n : nat) (i : nat) : M Z :=
  match n with
  | O => ret 0
  | S n' =>
      r <~ clk_prepare env i ;;
      if negb (r =? 0) then unprepare_down i ;;; ret r
      else prepare_from env n' (S i)
  end.

Definition arm_smmu_prepare_clocks (cfg : clk_cfg) (env : penv) : M Z :=
  prepare_from env (num_clocks cfg) 0.

Definition arm_smmu_request_bus (cfg : clk_cfg) (env : penv) : M Z :=
  if bus_client cfg =? 0 then ret 0
  else msm_bus_scale_client_update_request env 1.

Definition arm_smmu_unrequest_bus (cfg : clk_cfg) (env : penv) : M Z :=
  if bus_client cfg =? 0 then ret 0
  else msm_bus_scale_client_update_request env 0.

(** [arm_smmu_disable_regulators]. *)
Definition arm_smmu_disable_regulators (cfg : clk_cfg) (env : penv) : M Z :=
  fun g =>
    if power_count g =? 0 then (- EINVAL, g, [Warn])
    else if 1 <? power_count g
    then (0, set_power_count g (u32 (power_count g - 1)), [])
    else
      (arm_smmu_unprepare_clocks cfg ;;;
       _ <~ arm_smmu_unrequest_bus cfg env ;;
       r <~ (if gdsc cfg
             then r <~ regulator_disable_deferred env ;;
                  when (negb (r =? 0)) (emit Warn) ;;; ret r
             else ret 0) ;;
       fun g' => (r, set_power_count g' 0, [])) g.

(** [arm_smmu_enable_regulators]. *)
Definition arm_smmu_enable_regulators (cfg : clk_cfg) (env : penv) : M Z :=
  fun g =>
    if negb (power_count g =? 0)
    then (0, set_power_count g (u32 (power_count g + 1)), [])
    else
      (r1 <~ (if gdsc cfg then regulator_enable env else ret 0) ;;
       if negb (r1 =? 0) then emit Warn ;;; ret r1
       else
         r2 <~ arm_smmu_request_bus cfg env ;;
         if negb (r2 =? 0)
         then emit Warn ;;; when (gdsc cfg) regulator_disable ;;; ret r2
         else
           r3 <~ arm_smmu_prepare_clocks cfg env ;;
           if negb (r3 =? 0)
           then emit Warn ;;;
                _ <~ arm_smmu_unrequest_bus cfg env ;;
                when (gdsc cfg) regulator_disable ;;; ret r3
           else fun g' => (r3, set_power_count g' 1, [])) g.

(** [while (i--) clk_disable(smmu->clocks[i])] and the loop of
    [arm_smmu_disable_clocks_atomic]. *)
Fixpoint disable_down (i : nat) : M unit :=
  match i with
  | O => ret tt
  | S j => clk_disable j ;;; disable_down j
  end.

Fixpoint enable_from (env : penv) (n : nat) (i : nat) : M Z :=
  match n with
  | O => ret 0
  | S n' =>
      r <~ clk_enable env i ;;
      if negb (r =? 0)
      then emit Warn ;;; disable_down i ;;;
           (fun g => (r, set_clock_refs_count g (u32 (clock_refs_count g - 1)), []))
      else enable_from env n' (S i)
  end.

(** [arm_smmu_enable_clocks_atomic]: [clock_refs_count++ > 0]. *)
Definition arm_smmu_enable_clocks_atomic (cfg : clk_cfg) (env : penv) : M Z :=
  fun g =>
    let old := clock_refs_count g in
    let g1 := set_clock_refs_count g (u32 (old + 1)) in
    if 0 <? old then (0, g1, [])
    else enable_from env (num_clocks cfg) 0 g1.

(** [arm_smmu_disable_clocks_atomic]: [clock_refs_count-- > 1]. *)
Definition arm_smmu_disable_clocks_atomic (cfg : clk_cfg) : M unit :=
  fun g =>
    let old := clock_refs_count g in
    let g1 := set_clock_refs_count g (u32 (old - 1)) in
    if 1 <? old then (tt, g1, [])
    else disable_down (num_clocks cfg) g1.

(** [arm_smmu_enable_clocks]. *)
Definition arm_smmu_enable_clocks (cfg : clk_cfg) (env : penv) : M Z :=
  r <~ arm_smmu_enable_regulators cfg env ;;
  if negb (r =? 0) then ret r
  else
    r' <~ arm_smmu_enable_clocks_atomic cfg env ;;
    if negb (r' =? 0)
    then _ <~ arm_smmu_disable_regulators cfg env ;; ret r'
    else ret r'.

(** [arm_smmu_disable_clocks]. *)
Definition arm_smmu_disable_clocks (cfg : clk_cfg) (env : penv) : M unit :=
  arm_smmu_disable_clocks_atomic cfg ;;;
  _ <~ arm_smmu_disable_regulators cfg env ;; ret tt.

(** *** Attach and detach, seen from the gate *)

Definition ARM_SMMU_OPT_REGISTER_SAVE : Z := 8.

Definition register_save (cfg : clk_cfg) : bool :=
  negb (Z.land (options cfg) ARM_SMMU_OPT_REGISTER_SAVE =? 0).

(** How the part of attach between the power votes and the return went:
    it touches no vote itself.  [BodyErr] is a failure that leaves through
    [err_atomic_ctx] (no valid static bank, no master record, no context
    bank or page table), [BodyErrDestroy] one that leaves through
    [err_destroy_domain_context] (the stream-match entries could not be
    set up). *)
Inductive body_result :=
| BodyOk
| BodyErr (r : Z)
| BodyErrDestroy (r : Z).

Definition get_attach_count : M Z := fun g => (attach_count g, g, []).

Definition put_attach_count (v : Z) : M unit :=
  fun g => (tt, set_attach_count g v, []).

(** [arm_smmu_destroy_domain_context], the clock votes around the write
    that disables the bank. *)
Definition destroy_domain_context_clocks (cfg : clk_cfg) (env : penv) : M unit :=
  r <~ arm_smmu_enable_clocks cfg env ;;
  if negb (r =? 0) then ret tt else arm_smmu_disable_clocks cfg env.

(** [arm_smmu_domain_remove_master], the clock votes around the S2CR
    writes. *)
Definition remove_master_clocks (cfg : clk_cfg) (env : penv) : M unit :=
  r <~ arm_smmu_enable_clocks cfg env ;;
  if negb (r =? 0) then ret tt else arm_smmu_disable_clocks cfg env.

(** The labels at the end of [arm_smmu_attach_dev]. *)
Definition err_disable_regulators (cfg : clk_cfg) (env : penv) (r : Z) : M Z :=
  ac <~ get_attach_count ;;
  (if (ac =? 0) && negb (register_save cfg)
   then _ <~ arm_smmu_disable_regulators cfg env ;; ret tt
   else ret tt) ;;;
  ret r.

Definition err_disable_clocks (cfg : clk_cfg) (env : penv) (r : Z) : M Z :=
  arm_smmu_disable_clocks cfg env ;;;
  ac <~ get_attach_count ;;
  put_attach_count (u32 (ac - 1)) ;;;
  err_disable_regulators cfg env r.

Definition err_atomic_ctx (cfg : clk_cfg) (env : penv) (atomic_ctx : bool)
  (r : Z) : M Z :=
  (if atomic_ctx then _ <~ arm_smmu_disable_regulators cfg env ;; ret tt
   else ret tt) ;;;
  err_disable_clocks cfg env r.

(** [arm_smmu_attach_dev] for a domain that is not dynamic.  [already] is
    [dev->archdata.iommu] being set. *)
Definition arm_smmu_attach_dev (cfg : clk_cfg) (env : penv)
  (atomic_ctx already : bool) (body : body_result) : M Z :=
  if already then ret (- EEXIST)
  else
    ac <~ get_attach_count ;;
    pre <~ (if ac =? 0
            then
              r1 <~ (if register_save cfg then ret 0
                     else arm_smmu_enable_regulators cfg env) ;;
              if negb (r1 =? 0) then ret r1
              else
                r2 <~ arm_smmu_enable_clocks cfg env ;;
                if negb (r2 =? 0) then err_disable_regulators cfg env r2
                else ret 0
            else arm_smmu_enable_clocks cfg env) ;;
    if negb (pre =? 0) then ret pre
    else
      ac' <~ get_attach_count ;;
      put_attach_count (u32 (ac' + 1)) ;;;
      r3 <~ (if atomic_ctx then arm_smmu_enable_regulators cfg env else ret 0) ;;
      if negb (r3 =? 0) then err_disable_clocks cfg env r3
      else
        match body with
        | BodyOk => arm_smmu_disable_clocks cfg env ;;; ret 0
        | BodyErr r => err_atomic_ctx cfg env atomic_ctx r
        | BodyErrDestroy r =>
            destroy_domain_context_clocks cfg env ;;;
            err_atomic_ctx cfg env atomic_ctx r
        end.

(** [arm_smmu_power_off]. *)
Definition arm_smmu_power_off (cfg : clk_cfg) (env : penv) : M unit :=
  r <~ arm_smmu_enable_clocks cfg env ;;
  if negb (r =? 0) then ret tt
  else
    arm_smmu_disable_clocks cfg env ;;;
    if register_save cfg then ret tt
    else _ <~ arm_smmu_disable_regulators cfg env ;; ret tt.

(** [arm_smmu_detach_dev] for an attached domain that is not dynamic. *)
Definition arm_smmu_detach_dev (cfg : clk_cfg) (env : penv)
  (atomic_ctx : bool) : M unit :=
  remove_master_clocks cfg env ;;;
  destroy_domain_context_clocks cfg env ;;;
  ac <~ get_attach_count ;;
  put_attach_count (u32 (ac - 1)) ;;;
  (if u32 (ac - 1) =? 0 then arm_smmu_power_off cfg env else ret tt) ;;;
  if atomic_ctx then _ <~ arm_smmu_disable_regulators cfg env ;; ret tt
  else ret tt.

(** [arm_smmu_detach_dynamic], the clock votes around the TLB
    invalidation: taken only while something is attached through
    [arm_smmu_attach_dev]. *)
Definition arm_smmu_detach_dynamic (cfg : clk_cfg) (env : penv) : M unit :=
  ac <~ get_attach_count ;;
  if 0 <? ac
  then r <~ arm_smmu_enable_clocks cfg env ;;
       if negb (r =? 0) then ret tt else arm_smmu_disable_clocks cfg env
  else ret tt.

(** [arm_smmu_detach_dev] for an attached dynamic domain: a regulator
    vote is dropped for an atomic domain, although
    [arm_smmu_attach_dynamic] takes none. *)
Definition arm_smmu_detach_dev_dynamic (cfg : clk_cfg) (env : penv)
  (atomic_ctx : bool) : M unit :=
  arm_smmu_detach_dynamic cfg env ;;;
  if atomic_ctx then _ <~ arm_smmu_disable_regulators cfg env ;; ret tt
  else ret tt.

(** [arm_smmu_enable_config_clocks] and [arm_smmu_disable_config_clocks]
    on an attached domain. *)
Definition arm_smmu_enable_config_clocks (cfg : clk_cfg) (env : penv) : M Z :=
  arm_smmu_enable_clocks cfg env.

Definition arm_smmu_disable_config_clocks (cfg : clk_cfg) (env : penv)
  : M unit :=
  arm_smmu_disable_clocks cfg env.

(** The device and the domains attached to it, each with its
    DOMAIN_ATTR_ATOMIC bit: [attached] are the domains attached through
    the ordinary path, which the attach count counts, [dynamic] the
    attached dynamic domains, which it does not count. *)
Record sys := {
  gt : gate;
  attached : list bool;
  dynamic : list bool
}.

(** The calls that touch the gate or decide what a later call does to
    it.  [AttachDynamic] is an [arm_smmu_attach_dynamic] that leaves the
    [smmu] pointer of the domain set (every other outcome changes
    nothing); it takes no vote.  [SetAtomic] and [SetAtomicDynamic] are
    DOMAIN_ATTR_ATOMIC set on an attached domain, which the driver
    accepts. *)
Inductive op :=
| Attach (atomic_ctx : bool) (env : penv) (body : body_result)
| Detach (k : nat) (env : penv)
| AttachDynamic (atomic_ctx : bool)
| DetachDynamic (k : nat) (env : penv)
| SetAtomic (k : nat) (v : bool)
| SetAtomicDynamic (k : nat) (v : bool)
| EnableConfigClocks (env : penv)
| DisableConfigClocks (env : penv).

Definition exec (cfg : clk_cfg) (o : op) (s : sys) : sys :=
  match o with
  | Attach atomic_ctx env body =>
      let '(r, g', _) := arm_smmu_attach_dev cfg env atomic_ctx false body (gt s) in
      {| gt := g';
         attached := if r =? 0 then atomic_ctx :: attached s else attached s;
         dynamic := dynamic s |}
  | Detach k env =>
      match attached s !! k with
      | None => s
      | Some atomic_ctx =>
          let '(_, g', _) := arm_smmu_detach_dev cfg env atomic_ctx (gt s) in
          {| gt := g'; attached := delete k (attached s);
             dynamic := dynamic s |}
      end
  | AttachDynamic atomic_ctx =>
      {| gt := gt s; attached := attached s;
         dynamic := atomic_ctx :: dynamic s |}
  | DetachDynamic k env =>
      match dynamic s !! k with
      | None => s
      | Some atomic_ctx =>
          let '(_, g', _) :=
            arm_smmu_detach_dev_dynamic cfg env atomic_ctx (gt s) in
          {| gt := g'; attached := attached s;
             dynamic := delete k (dynamic s) |}
      end
  | SetAtomic k v =>
      {| gt := gt s; attached := <[k := v]> (attached s);
         dynamic := dynamic s |}
  | SetAtomicDynamic k v =>
      {| gt := gt s; attached := attached s;
         dynamic := <[k := v]> (dynamic s) |}
  | EnableConfigClocks env =>
      let '(_, g', _) := arm_smmu_enable_config_clocks cfg env (gt s) in
      {| gt := g'; attached := attached s; dynamic := dynamic s |}
  | DisableConfigClocks env =>
      let '(_, g', _) := arm_smmu_disable_config_clocks cfg env (gt s) in
      {| gt := g'; attached := attached s; dynamic := dynamic s |}
  end.

Definition run (cfg : clk_cfg) (ops : list op) (s : sys) : sys :=
  fold_left (fun s o => exec cfg o s) ops s.

(** Rail on, bus voted, every clock prepared and enabled. *)
Definition powered_and_clocked (p : platform) : Prop :=
  0 < regulator_votes p /\ bus_vote p = 1 /\
  Forall (fun c => 0 < c) (clk_prepare_count p) /\
  Forall (fun c => 0 < c) (clk_enable_count p).

(** *** Counts of the clocks after a walk *)

Fixpoint alter_up (f : Z -> Z) (i n : nat) (l : list Z) : list Z :=
  match n with
  | O => l
  | S n' => alter_up f (S i) n' (alter f i l)
  end.

Fixpoint alter_down (f : Z -> Z) (n : nat) (l : list Z) : list Z :=
  match n with
  | O => l
  | S j => alter_down f j (alter f j l)
  end.

Lemma alter_up_lookup (f : Z -> Z) (n i k : nat) (l : list Z) :
  alter_up f i n l !! k
  = if decide (i <= k < i + n)%nat then f <$> l !! k else l !! k.
Proof.
  revert i l. induction n as [|n IH]; intros i l; cbn [alter_up].
  - destruct (decide _); [lia|reflexivity].
  - rewrite IH. rewrite list_lookup_alter.
    repeat destruct (decide _); subst; try lia; reflexivity.
Qed.

Lemma alter_down_lookup (f : Z -> Z) (n k : nat) (l : list Z) :
  alter_down f n l !! k = if decide (k < n)%nat then f <$> l !! k else l !! k.
Proof.
  revert l. induction n as [|n IH]; intros l; cbn [alter_down].
  - destruct (decide _); [lia|reflexivity].
  - rewrite IH. rewrite list_lookup_alter.
    repeat destruct (decide _); subst; try lia; reflexivity.
Qed.

Lemma alter_down_up (n : nat) (l : list Z) :
  alter_down Z.pred n (alter_up Z.succ 0 n l) = l.
Proof.
  apply list_eq. intros k. rewrite alter_down_lookup, alter_up_lookup.
  repeat destruct (decide _); try lia; try reflexivity.
  destruct (l !! k); cbn; [f_equal; lia|reflexivity].
Qed.

Lemma unprepare_down_run (n : nat) (g : gate) :
  unprepare_down n g
  = (tt, with_prepare g (alter_down Z.pred n (clk_prepare_count (plat g))),
     map ClkUnprepare (rev (seq 0 n))).
Proof.
  revert g. induction n as [|n IH]; intros g.
  - destruct g as [pc rc ac [rv bv cp ce]]. reflexivity.
  - cbn [unprepare_down]. unfold bind. cbn [clk_unprepare].
    rewrite IH. rewrite seq_S, rev_app_distr. reflexivity.
Qed.

Lemma disable_down_run (n : nat) (g : gate) :
  disable_down n g
  = (tt, with_enable g (alter_down Z.pred n (clk_enable_count (plat g))),
     map ClkDisable (rev (seq 0 n))).
Proof.
  revert g. induction n as [|n IH]; intros g.
  - destruct g as [pc rc ac [rv bv cp ce]]. reflexivity.
  - cbn [disable_down]. unfold bind. cbn [clk_disable].
    rewrite IH. rewrite seq_S, rev_app_distr. reflexivity.
Qed.

(** A prepare loop that returns 0 has prepared every clock once, in
    registration order. *)
Lemma prepare_from_ret0 (env : penv) (n i : nat) (g g' : gate) (t : list call) :
  prepare_from env n i g = (0, g', t) ->
  g' = with_prepare g (alter_up Z.succ i n (clk_prepare_count (plat g)))
  /\ t = map ClkPrepare (seq i n).
Proof.
  revert i g g' t. induction n as [|n IH]; intros i g g' t; cbn [prepare_from].
  - intros [= <- <-]. destruct g as [pc rc ac [rv bv cp ce]]. split; reflexivity.
  - unfold bind at 1. unfold clk_prepare.
    destruct (clk_prepare_ret env i =? 0) eqn:Hr; cbn [negb].
    + destruct (prepare_from env n (S i) (alter_prepare Z.succ i g))
        as [[r g1] t1] eqn:Hp.
      intros [= -> <- <-]. apply IH in Hp. destruct Hp as [-> ->].
      split; reflexivity.
    + unfold bind. rewrite unprepare_down_run. cbn [ret].
      intros [= E _ _]. rewrite E in Hr. discriminate.
Qed.

(** *** Bring-up and teardown *)

Definition plat_up (cfg : clk_cfg) (p : platform) : platform :=
  {| regulator_votes := if gdsc cfg then regulator_votes p + 1
                        else regulator_votes p;
     bus_vote := if bus_client cfg =? 0 then bus_vote p else 1;
     clk_prepare_count := alter_up Z.succ 0 (num_clocks cfg) (clk_prepare_count p);
     clk_enable_count := clk_enable_count p |}.

Definition plat_down (cfg : clk_cfg) (p : platform) : platform :=
  {| regulator_votes := if gdsc cfg then regulator_votes p - 1
                        else regulator_votes p;
     bus_vote := if bus_client cfg =? 0 then bus_vote p else 0;
     clk_prepare_count := alter_down Z.pred (num_clocks cfg) (clk_prepare_count p);
     clk_enable_count := clk_enable_count p |}.

Definition bring_up_calls (cfg : clk_cfg) : list call :=
  (if gdsc cfg then [RegulatorEnable] else [])
  ++ (if bus_client cfg =? 0 then [] else [BusUpdateRequest 1])
  ++ map ClkPrepare (seq 0 (num_clocks cfg)).

Definition tear_down_calls (cfg : clk_cfg) : list call :=
  map ClkUnprepare (rev (seq 0 (num_clocks cfg)))
  ++ (if bus_client cfg =? 0 then [] else [BusUpdateRequest 0])
  ++ (if gdsc cfg then [RegulatorDisableDeferred] else []).

Lemma enable_regulators_up (cfg : clk_cfg) (env : penv) (g g' : gate)
  (t : list call) :
  power_count g = 0 ->
  arm_smmu_enable_regulators cfg env g = (0, g', t) ->
  g' = {| power_count := 1; clock_refs_count := clock_refs_count g;
          attach_count := attach_count g; plat := plat_up cfg (plat g) |}
  /\ t = bring_up_calls cfg.
Proof.
  intros Hpc. unfold arm_smmu_enable_regulators. rewrite Hpc. cbn [Z.eqb negb].
  unfold bind, arm_smmu_request_bus, arm_smmu_unrequest_bus,
    arm_smmu_prepare_clocks, when, emit, ret, regulator_enable,
    regulator_disable, msm_bus_scale_client_update_request, plat_up,
    bring_up_calls.
  destruct g as [pc rc ac [rv bv cp ce]]. cbn in Hpc. subst pc.
  destruct (gdsc cfg); [destruct (regulator_enable_ret env =? 0) eqn:Hr1|];
    cbn [negb Z.eqb];
    (destruct (bus_client cfg =? 0);
     [|destruct (bus_update_ret env 1 =? 0) eqn:Hr2]);
    cbn [negb Z.eqb].
  all: try match goal with
    | |- context [prepare_from ?e ?n ?i ?g] =>
        destruct (prepare_from e n i g) as [[r3 g3] t3] eqn:Hp;
        destruct (r3 =? 0) eqn:Hr3; cbn [negb]
    end.
  all: intros [= E1 E2 E3]; subst.
  all: try (apply prepare_from_ret0 in Hp; destruct Hp as [-> ->]; cbn;
            rewrite ?app_nil_r; split; reflexivity).
  all: try discriminate.
  all: try (rewrite Z.eqb_refl in *; discriminate).
  all: match goal with
       | E : ?x = 0, H : (?x =? 0) = false |- _ => rewrite E in H; discriminate
       end.
Qed.

Definition release_ok (cfg : clk_cfg) (env : penv) : Prop :=
  (bus_client cfg <> 0 -> bus_update_ret env 0 = 0) /\
  (gdsc cfg = true -> regulator_disable_deferred_ret env = 0).

Lemma disable_regulators_down (cfg : clk_cfg) (env : penv) (g : gate) :
  power_count g = 1 -> release_ok cfg env ->
  arm_smmu_disable_regulators cfg env g
  = (0, {| power_count := 0; clock_refs_count := clock_refs_count g;
           attach_count := attach_count g;
           plat := plat_down cfg (plat g) |}, tear_down_calls cfg).
Proof.
  intros Hpc [Hbus Hreg]. unfold arm_smmu_disable_regulators. rewrite Hpc.
  cbn [Z.eqb Z.ltb Z.compare Pos.compare].
  unfold bind, arm_smmu_unprepare_clocks. rewrite unprepare_down_run.
  unfold arm_smmu_unrequest_bus, when, emit, ret, regulator_disable_deferred,
    msm_bus_scale_client_update_request, plat_down, tear_down_calls.
  destruct g as [pc rc ac [rv bv cp ce]]. cbn in Hpc. subst pc.
  destruct (bus_client cfg =? 0) eqn:Hb.
  - destruct (gdsc cfg).
    + rewrite (Hreg eq_refl). cbn. rewrite ?app_nil_r. reflexivity.
    + cbn. rewrite ?app_nil_r. reflexivity.
  - apply Z.eqb_neq in Hb. rewrite (Hbus Hb). destruct (gdsc cfg).
    + rewrite (Hreg eq_refl). cbn. rewrite ?app_nil_r. reflexivity.
    + cbn. rewrite ?app_nil_r. reflexivity.
Qed.


Definition mirror (c : call) : call :=
  match c with
  | RegulatorEnable => RegulatorDisableDeferred
  | BusUpdateRequest _ => BusUpdateRequest 0
  | ClkPrepare i => ClkUnprepare i
  | ClkEnable i => ClkDisable i
  | c => c
  end.

Lemma tear_down_mirrors_bring_up (cfg : clk_cfg) :
  tear_down_calls cfg = map mirror (rev (bring_up_calls cfg)).
Proof.
  unfold tear_down_calls, bring_up_calls.
  rewrite !rev_app_distr, !map_app, <- map_rev, map_map, <- app_assoc.
  cbn [mirror]. f_equal. f_equal; [destruct (bus_client cfg =? 0)|destruct (gdsc cfg)]; reflexivity.
Qed.

Definition gate_wf (cfg : clk_cfg) (g : gate) : Prop :=
  0 <= power_count g <= UINT_MAX /\
  (power_count g = 0 -> bus_client cfg <> 0 -> bus_vote (plat g) = 0).

Lemma plat_down_up (cfg : clk_cfg) (p : platform) :
  (bus_client cfg <> 0 -> bus_vote p = 0) ->
  plat_down cfg (plat_up cfg p) = p.
Proof.
  intros Hb. destruct p as [rv bv cp ce]. unfold plat_down, plat_up. cbn.
  rewrite alter_down_up. f_equal.
  - destruct (gdsc cfg); lia.
  - destruct (bus_client cfg =? 0) eqn:E; [reflexivity|].
    apply Z.eqb_neq in E. symmetry. apply (Hb E).
Qed.

Lemma enable_regulators_inc (cfg : clk_cfg) (env : penv) (g : gate) :
  power_count g <> 0 ->
  arm_smmu_enable_regulators cfg env g
  = (0, set_power_count g (u32 (power_count g + 1)), []).
Proof.
  intros H. unfold arm_smmu_enable_regulators.
  apply Z.eqb_neq in H. rewrite H. reflexivity.
Qed.

Lemma disable_regulators_dec (cfg : clk_cfg) (env : penv) (g : gate) :
  1 < power_count g ->
  arm_smmu_disable_regulators cfg env g
  = (0, set_power_count g (u32 (power_count g - 1)), []).
Proof.
  intros H. unfold arm_smmu_disable_regulators.
  destruct (power_count g =? 0) eqn:E; [apply Z.eqb_eq in E; lia|].
  apply Z.ltb_lt in H. rewrite H. reflexivity.
Qed.

Lemma disable_regulators_mismatch (cfg : clk_cfg) (env : penv) (g : gate) :
  power_count g = 0 ->
  arm_smmu_disable_regulators cfg env g = (- EINVAL, g, [Warn]).
Proof.
  intros H. unfold arm_smmu_disable_regulators. rewrite H. reflexivity.
Qed.

Lemma u32_small (x : Z) : 0 <= x <= UINT_MAX -> u32 x = x.
Proof. intros H. unfold u32. apply Z.mod_small. unfold UINT_MAX in H. lia. Qed.

(** One acquire that succeeds is undone by one release. *)
Lemma enable_then_disable (cfg : clk_cfg) (ea er : penv) (g g1 : gate)
  (t1 : list call) :
  gate_wf cfg g -> power_count g < UINT_MAX -> release_ok cfg er ->
  arm_smmu_enable_regulators cfg ea g = (0, g1, t1) ->
  (exists t2, arm_smmu_disable_regulators cfg er g1 = (0, g, t2)) /\
  gate_wf cfg g1 /\ power_count g1 = power_count g + 1.
Proof.
  intros [Hr Hidle] Hlt Hok He.
  destruct (Z.eq_dec (power_count g) 0) as [H0|Hn0].
  - destruct (enable_regulators_up cfg ea g g1 t1 H0 He) as [-> ->].
    split; [|split].
    + exists (tear_down_calls cfg).
      rewrite disable_regulators_down by (auto; reflexivity). cbn.
      rewrite plat_down_up by auto.
      destruct g as [pc rc ac p]. cbn in H0. subst pc. reflexivity.
    + split; cbn; [unfold UINT_MAX; lia|]. intros; lia.
    + cbn. lia.
  - rewrite enable_regulators_inc in He by assumption.
    injection He as <- <-.
    assert (Hu : u32 (power_count g + 1) = power_count g + 1)
      by (apply u32_small; lia).
    split; [|split].
    + exists []. rewrite disable_regulators_dec by (cbn; lia). cbn.
      rewrite Hu. replace (power_count g + 1 - 1) with (power_count g) by lia.
      rewrite u32_small by lia. destruct g. reflexivity.
    + split; cbn; [lia|]. intros; lia.
    + cbn. exact Hu.
Qed.

Fixpoint enable_many (cfg : clk_cfg) (envs : list penv) : M (list Z) :=
  match envs with
  | [] => ret []
  | e :: es =>
      r <~ arm_smmu_enable_regulators cfg e ;;
      rs <~ enable_many cfg es ;;
      ret (r :: rs)
  end.

Fixpoint disable_many (cfg : clk_cfg) (envs : list penv) : M (list Z) :=
  match envs with
  | [] => ret []
  | e :: es =>
      r <~ arm_smmu_disable_regulators cfg e ;;
      rs <~ disable_many cfg es ;;
      ret (r :: rs)
  end.

Lemma disable_many_app (cfg : clk_cfg) (l1 l2 : list penv) (g : gate) :
  disable_many cfg (l1 ++ l2) g
  = let '(rs1, g1, t1) := disable_many cfg l1 g in
    let '(rs2, g2, t2) := disable_many cfg l2 g1 in
    (rs1 ++ rs2, g2, t1 ++ t2).
Proof.
  revert g. induction l1 as [|e l1 IH]; intros g.
  - cbn. destruct (disable_many cfg l2 g) as [[rs g2] t2]. reflexivity.
  - cbn [app disable_many]. unfold bind.
    destruct (arm_smmu_disable_regulators cfg e g) as [[r g1] t1].
    rewrite IH.
    destruct (disable_many cfg l1 g1) as [[rs1 g2] t2]. cbn.
    destruct (disable_many cfg l2 g2) as [[rs2 g3] t3].
    cbn. rewrite !app_nil_r, app_assoc. reflexivity.
Qed.

Lemma many_round_trip (cfg : clk_cfg) (acq : list penv) :
  forall (rel : list penv) (g : gate),
    length acq = length rel ->
    gate_wf cfg g ->
    power_count g + Z.of_nat (length acq) <= UINT_MAX ->
    Forall (release_ok cfg) rel ->
    Forall (eq 0) (enable_many cfg acq g).1.1 ->
    (disable_many cfg rel (enable_many cfg acq g).1.2).1.2 = g /\
    Forall (eq 0) (disable_many cfg rel (enable_many cfg acq g).1.2).1.1.
Proof.
  induction acq as [|ea acq IH]; intros rel g Hlen Hwf Hbound Hrel Hacq.
  - destruct rel; [|discriminate]. cbn. split; [reflexivity|constructor].
  - destruct (exists_last (l:=rel)) as (front & er & ->).
    { intros ->. discriminate. }
    rewrite length_app in Hlen. cbn in Hlen.
    apply Forall_app in Hrel. destruct Hrel as [Hfront Her].
    apply Forall_inv in Her.
    cbn [enable_many] in *. unfold bind in *.
    destruct (arm_smmu_enable_regulators cfg ea g) as [[r g1] t1] eqn:He.
    destruct (enable_many cfg acq g1) as [[rs g2] t2] eqn:Hm.
    cbn in Hacq |- *. apply Forall_cons in Hacq. destruct Hacq as [<- Hrs].
    cbn [length] in Hbound.
    destruct (enable_then_disable cfg ea er g g1 t1 Hwf ltac:(lia) Her He)
      as ((t3 & Hd) & Hwf1 & Hpc1).
    specialize (IH front g1 ltac:(lia) Hwf1 ltac:(lia) Hfront).
    rewrite Hm in IH. cbn in IH. specialize (IH Hrs). destruct IH as [IHg IHr].
    rewrite disable_many_app.
    destruct (disable_many cfg front g2) as [[rs1 g3] t4]. cbn in IHg, IHr.
    subst g3. cbn [disable_many]. unfold bind. rewrite Hd. cbn.
    split; [reflexivity|]. apply Forall_app. split; [exact IHr|].
    constructor; [reflexivity|constructor].
Qed.

(** C6.  N acquires that succeed followed by N releases leave the gate as
    it was: the reference count, the regulator vote, the bus vote and the
    prepare count of every clock.  The release that takes the count from 1
    to 0 issues the mirror image of the calls of the 0-to-1 bring-up, in
    reverse order.  A release with the count at zero warns, returns
    -EINVAL and changes nothing. *)
Theorem power_gate_acquire_release (cfg : clk_cfg) (acq rel : list penv)
  (g : gate) :
  gate_wf cfg g ->
  length acq = length rel ->
  power_count g + Z.of_nat (length acq) <= UINT_MAX ->
  Forall (release_ok cfg) rel ->
  Forall (eq 0) (enable_many cfg acq g).1.1 ->
  let g1 := (enable_many cfg acq g).1.2 in
  (disable_many cfg rel g1).1.2 = g /\
  Forall (eq 0) (disable_many cfg rel g1).1.1 /\
  (forall ea er,
      power_count g = 0 -> release_ok cfg er ->
      (arm_smmu_enable_regulators cfg ea g).1.1 = 0 ->
      arm_smmu_disable_regulators cfg er
        (arm_smmu_enable_regulators cfg ea g).1.2
      = (0, g, map mirror (rev (arm_smmu_enable_regulators cfg ea g).2))) /\
  (forall er,
      power_count g = 0 ->
      arm_smmu_disable_regulators cfg er (disable_many cfg rel g1).1.2
      = (- EINVAL, g, [Warn])).
Proof.
  intros Hwf Hlen Hbound Hrel Hacq g1.
  destruct (many_round_trip cfg acq rel g Hlen Hwf Hbound Hrel Hacq)
    as [Hg Hr].
  split; [exact Hg|]. split; [exact Hr|]. split.
  - intros ea er H0 Her He.
    destruct (arm_smmu_enable_regulators cfg ea g) as [[r g'] t] eqn:E.
    cbn in He |- *. subst r.
    destruct (enable_regulators_up cfg ea g g' t H0 E) as [-> ->].
    rewrite disable_regulators_down by (auto; reflexivity). cbn.
    destruct Hwf as [_ Hidle].
    rewrite plat_down_up by auto. rewrite tear_down_mirrors_bring_up.
    destruct g as [pc rc ac p]. cbn in H0. subst pc. reflexivity.
  - intros er H0. subst g1. rewrite Hg.
    apply disable_regulators_mismatch, H0.
Qed.

(** A regulator, a bus client and two clocks; nothing is on. *)
Definition c6_cfg : clk_cfg :=
  {| num_clocks := 2; gdsc := true; bus_client := 1; options := 0 |}.

Definition env_all_ok : penv :=
  {| regulator_enable_ret := 0; regulator_disable_deferred_ret := 0;
     bus_update_ret := fun _ => 0; clk_prepare_ret := fun _ => 0;
     clk_enable_ret := fun _ => 0 |}.

Definition idle_gate : gate :=
  {| power_count := 0; clock_refs_count := 0; attach_count := 0;
     plat := {| regulator_votes := 0; bus_vote := 0;
                clk_prepare_count := [0; 0]; clk_enable_count := [0; 0] |} |}.

Lemma release_ok_all (cfg : clk_cfg) : release_ok cfg env_all_ok.
Proof. split; reflexivity. Qed.

Lemma power_gate_acquire_release_witness :
  let acq := [env_all_ok; env_all_ok; env_all_ok] in
  let rel := [env_all_ok; env_all_ok; env_all_ok] in
  let g1 := (enable_many c6_cfg acq idle_gate).1.2 in
  (disable_many c6_cfg rel g1).1.2 = idle_gate /\
  Forall (eq 0) (disable_many c6_cfg rel g1).1.1 /\
  (forall ea er,
      power_count idle_gate = 0 -> release_ok c6_cfg er ->
      (arm_smmu_enable_regulators c6_cfg ea idle_gate).1.1 = 0 ->
      arm_smmu_disable_regulators c6_cfg er
        (arm_smmu_enable_regulators c6_cfg ea idle_gate).1.2
      = (0, idle_gate,
         map mirror (rev (arm_smmu_enable_regulators c6_cfg ea idle_gate).2))) /\
  (forall er,
      power_count idle_gate = 0 ->
      arm_smmu_disable_regulators c6_cfg er (disable_many c6_cfg rel g1).1.2
      = (- EINVAL, idle_gate, [Warn])).
Proof.
  intros acq rel.
  apply (power_gate_acquire_release c6_cfg acq rel idle_gate).
  - split; cbn; [unfold UINT_MAX; lia|reflexivity].
  - reflexivity.
  - cbn. unfold UINT_MAX. lia.
  - repeat constructor.
  - vm_compute. repeat constructor.
Defined.

(** The calls of one bring-up and of the matching teardown. *)
Example c6_traces :
  (arm_smmu_enable_regulators c6_cfg env_all_ok idle_gate).2
  = [RegulatorEnable; BusUpdateRequest 1; ClkPrepare 0; ClkPrepare 1]
  /\ (arm_smmu_disable_regulators c6_cfg env_all_ok
        (arm_smmu_enable_regulators c6_cfg env_all_ok idle_gate).1.2).2
     = [ClkUnprepare 1; ClkUnprepare 0; BusUpdateRequest 0;
        RegulatorDisableDeferred].
Proof. split; reflexivity. Qed.

(** *** The gate between operations *)

(** Result and final gate of a computation, without the calls. *)
Definition res {A : Type} (m : M A) (g : gate) : A * gate := (m g).1.

Lemma res_bind {A B : Type} (m : M A) (k : A -> M B) (g : gate) :
  res (bind m k) g = let '(a, g1) := res m g in res (k a) g1.
Proof.
  unfold res, bind. destruct (m g) as [[a g1] t1]. cbn.
  destruct (k a g1) as [[b g2] t2]. reflexivity.
Qed.

Lemma res_ret {A : Type} (a : A) (g : gate) : res (ret a) g = (a, g).
Proof. reflexivity. Qed.

(** Every subsystem call succeeds. *)
Definition calls_succeed (env : penv) : Prop :=
  regulator_enable_ret env = 0 /\
  regulator_disable_deferred_ret env = 0 /\
  (forall v, bus_update_ret env v = 0) /\
  (forall i, clk_prepare_ret env i = 0) /\
  (forall i, clk_enable_ret env i = 0).

Definition clocks_on (cfg : clk_cfg) (p : platform) : platform :=
  {| regulator_votes := regulator_votes p; bus_vote := bus_vote p;
     clk_prepare_count := clk_prepare_count p;
     clk_enable_count := alter_up Z.succ 0 (num_clocks cfg) (clk_enable_count p) |}.

(** The platform as a function of the two counts, over the platform [p0]
    found at probe. *)
Definition plat_of (cfg : clk_cfg) (p0 : platform) (pc rc : Z) : platform :=
  let p1 := if pc =? 0 then p0 else plat_up cfg p0 in
  if rc =? 0 then p1 else clocks_on cfg p1.

Definition G (cfg : clk_cfg) (p0 : platform) (pc rc ac : Z) : gate :=
  {| power_count := pc; clock_refs_count := rc; attach_count := ac;
     plat := plat_of cfg p0 pc rc |}.

Lemma prepare_from_ok (env : penv) (n i : nat) (g : gate) :
  (forall k, clk_prepare_ret env k = 0) ->
  prepare_from env n i g
  = (0, with_prepare g (alter_up Z.succ i n (clk_prepare_count (plat g))),
     map ClkPrepare (seq i n)).
Proof.
  intros Hok. revert i g. induction n as [|n IH]; intros i g.
  - destruct g as [pc rc ac [rv bv cp ce]]. reflexivity.
  - cbn [prepare_from]. unfold bind, clk_prepare. rewrite Hok. cbn [Z.eqb negb].
    rewrite IH. reflexivity.
Qed.

Lemma enable_from_ok (env : penv) (n i : nat) (g : gate) :
  (forall k, clk_enable_ret env k = 0) ->
  enable_from env n i g
  = (0, with_enable g (alter_up Z.succ i n (clk_enable_count (plat g))),
     map ClkEnable (seq i n)).
Proof.
  intros Hok. revert i g. induction n as [|n IH]; intros i g.
  - destruct g as [pc rc ac [rv bv cp ce]]. reflexivity.
  - cbn [enable_from]. unfold bind, clk_enable. rewrite Hok. cbn [Z.eqb negb].
    rewrite IH. reflexivity.
Qed.

Section Normal.
Variable cfg : clk_cfg.
Variable p0 : platform.
Variable env : penv.
Hypothesis Hidle : bus_client cfg <> 0 -> bus_vote p0 = 0.
Hypothesis Hok : calls_succeed env.

Lemma enable_regulators_G (pc rc ac : Z) :
  0 <= pc < UINT_MAX ->
  res (arm_smmu_enable_regulators cfg env) (G cfg p0 pc rc ac)
  = (0, G cfg p0 (pc + 1) rc ac).
Proof.
  intros Hpc. destruct Hok as (H1 & H2 & H3 & H4 & H5).
  unfold res, arm_smmu_enable_regulators, G. cbn [power_count].
  destruct (pc =? 0) eqn:E; cbn [negb].
  - apply Z.eqb_eq in E. subst pc.
    unfold bind, arm_smmu_request_bus, arm_smmu_prepare_clocks,
      regulator_enable, msm_bus_scale_client_update_request, ret.
    rewrite H1, H3. 
    destruct (gdsc cfg) eqn:Hg, (bus_client cfg =? 0) eqn:Hb; cbn [Z.eqb negb];
      rewrite prepare_from_ok by assumption; cbn;
      unfold plat_of, plat_up, clocks_on; cbn; rewrite ?Hg, ?Hb;
      destruct (rc =? 0); reflexivity.
  - cbn. unfold set_power_count. cbn. f_equal. unfold G.
    rewrite u32_small by lia. f_equal. unfold plat_of. rewrite E.
    destruct (pc + 1 =? 0) eqn:E'; [apply Z.eqb_eq in E'; lia|]. reflexivity.
Qed.


Lemma disable_regulators_G (pc rc ac : Z) :
  1 <= pc <= UINT_MAX ->
  res (arm_smmu_disable_regulators cfg env) (G cfg p0 pc rc ac)
  = (0, G cfg p0 (pc - 1) rc ac).
Proof.
  intros Hpc. destruct Hok as (H1 & H2 & H3 & H4 & H5).
  unfold res. destruct (Z.eq_dec pc 1) as [->|Hne].
  - rewrite disable_regulators_down; [|reflexivity|split; auto].
    change (1 - 1) with 0. cbn. unfold G. f_equal. f_equal. unfold plat_of.
    cbn [Z.eqb].
    destruct (rc =? 0).
    + apply plat_down_up, Hidle.
    + unfold plat_down, plat_up, clocks_on. cbn. rewrite alter_down_up.
      destruct p0 as [rv bv cp ce]. cbn in *. f_equal.
      * destruct (gdsc cfg); lia.
      * destruct (bus_client cfg =? 0) eqn:E; [reflexivity|].
        apply Z.eqb_neq in E. symmetry. apply (Hidle E).
  - rewrite disable_regulators_dec by (cbn; lia). cbn.
    unfold set_power_count, G. cbn. rewrite u32_small by lia.
    f_equal. f_equal. unfold plat_of.
    destruct (pc =? 0) eqn:E; [apply Z.eqb_eq in E; lia|].
    destruct (pc - 1 =? 0) eqn:E'; [apply Z.eqb_eq in E'; lia|]. reflexivity.
Qed.

Lemma enable_clocks_atomic_G (pc rc ac : Z) :
  0 <= rc < UINT_MAX ->
  res (arm_smmu_enable_clocks_atomic cfg env) (G cfg p0 pc rc ac)
  = (0, G cfg p0 pc (rc + 1) ac).
Proof.
  intros Hrc. destruct Hok as (H1 & H2 & H3 & H4 & H5).
  unfold res, arm_smmu_enable_clocks_atomic, G. cbn [clock_refs_count].
  rewrite u32_small by lia.
  destruct (0 <? rc) eqn:E.
  - apply Z.ltb_lt in E. cbn. unfold set_clock_refs_count. cbn.
    f_equal. f_equal. unfold plat_of.
    destruct (rc =? 0) eqn:E1; [apply Z.eqb_eq in E1; lia|].
    destruct (rc + 1 =? 0) eqn:E2; [apply Z.eqb_eq in E2; lia|]. reflexivity.
  - apply Z.ltb_ge in E. assert (rc = 0) by lia. subst rc.
    rewrite enable_from_ok by assumption. cbn. reflexivity.
Qed.

Lemma disable_clocks_atomic_G (pc rc ac : Z) :
  1 <= rc <= UINT_MAX ->
  res (arm_smmu_disable_clocks_atomic cfg) (G cfg p0 pc rc ac)
  = (tt, G cfg p0 pc (rc - 1) ac).
Proof.
  intros Hrc.
  unfold res, arm_smmu_disable_clocks_atomic, G. cbn [clock_refs_count].
  rewrite u32_small by lia.
  destruct (1 <? rc) eqn:E.
  - apply Z.ltb_lt in E. cbn. unfold set_clock_refs_count. cbn.
    f_equal. f_equal. unfold plat_of.
    destruct (rc =? 0) eqn:E1; [apply Z.eqb_eq in E1; lia|].
    destruct (rc - 1 =? 0) eqn:E2; [apply Z.eqb_eq in E2; lia|]. reflexivity.
  - apply Z.ltb_ge in E. assert (rc = 1) by lia. subst rc.
    rewrite disable_down_run. cbn. unfold with_enable, set_plat, plat_of.
    cbn. f_equal. f_equal. unfold clocks_on. cbn. rewrite alter_down_up.
    destruct (if pc =? 0 then p0 else plat_up cfg p0). reflexivity.
Qed.

Lemma enable_clocks_G (pc rc ac : Z) :
  0 <= pc < UINT_MAX -> 0 <= rc < UINT_MAX ->
  res (arm_smmu_enable_clocks cfg env) (G cfg p0 pc rc ac)
  = (0, G cfg p0 (pc + 1) (rc + 1) ac).
Proof.
  intros Hpc Hrc. unfold arm_smmu_enable_clocks.
  rewrite res_bind, enable_regulators_G by assumption. cbn [Z.eqb negb].
  rewrite res_bind, enable_clocks_atomic_G by assumption. reflexivity.
Qed.

Lemma disable_clocks_G (pc rc ac : Z) :
  1 <= pc <= UINT_MAX -> 1 <= rc <= UINT_MAX ->
  res (arm_smmu_disable_clocks cfg env) (G cfg p0 pc rc ac)
  = (tt, G cfg p0 (pc - 1) (rc - 1) ac).
Proof.
  intros Hpc Hrc. unfold arm_smmu_disable_clocks.
  rewrite res_bind, disable_clocks_atomic_G by assumption.
  rewrite res_bind, disable_regulators_G by assumption. reflexivity.
Qed.


Definition b2z (b : bool) : Z := if b then 1 else 0.

Lemma get_attach_count_G (pc rc ac : Z) :
  res get_attach_count (G cfg p0 pc rc ac) = (ac, G cfg p0 pc rc ac).
Proof. reflexivity. Qed.

Lemma put_attach_count_G (pc rc ac v : Z) :
  res (put_attach_count v) (G cfg p0 pc rc ac) = (tt, G cfg p0 pc rc v).
Proof. reflexivity. Qed.

Ltac gate_step :=
  rewrite ?res_bind;
  first [ rewrite enable_clocks_G by (unfold UINT_MAX in *; lia)
        | rewrite disable_clocks_G by (unfold UINT_MAX in *; lia)
        | rewrite enable_regulators_G by (unfold UINT_MAX in *; lia)
        | rewrite disable_regulators_G by (unfold UINT_MAX in *; lia)
        | rewrite get_attach_count_G
        | rewrite put_attach_count_G
        | rewrite res_ret
        | rewrite u32_small by (unfold UINT_MAX in *; lia) ];
  cbn [Z.eqb negb andb].

Ltac gate_eq := solve [reflexivity | f_equal; f_equal; lia].

Hypothesis Hsave : register_save cfg = false.

Lemma destroy_domain_context_clocks_G (pc rc ac : Z) :
  0 <= pc < UINT_MAX -> 0 <= rc < UINT_MAX ->
  res (destroy_domain_context_clocks cfg env) (G cfg p0 pc rc ac)
  = (tt, G cfg p0 pc rc ac).
Proof.
  intros Hpc Hrc. unfold destroy_domain_context_clocks.
  repeat gate_step. gate_eq.
Qed.

Lemma remove_master_clocks_G (pc rc ac : Z) :
  0 <= pc < UINT_MAX -> 0 <= rc < UINT_MAX ->
  res (remove_master_clocks cfg env) (G cfg p0 pc rc ac)
  = (tt, G cfg p0 pc rc ac).
Proof. apply destroy_domain_context_clocks_G. Qed.

Lemma err_disable_clocks_G (pc ac r : Z) :
  1 <= pc <= UINT_MAX -> 1 <= ac <= UINT_MAX -> (ac = 1 -> 2 <= pc) ->
  res (err_disable_clocks cfg env r) (G cfg p0 pc 1 ac)
  = (r, if ac =? 1 then G cfg p0 (pc - 2) 0 0
        else G cfg p0 (pc - 1) 0 (ac - 1)).
Proof.
  intros Hpc Hac H2. unfold err_disable_clocks, err_disable_regulators.
  rewrite Hsave. cbn [negb].
  destruct (ac =? 1) eqn:E.
  - apply Z.eqb_eq in E. subst ac. repeat gate_step.
    change (1 - 1) with 0. cbn [Z.eqb andb]. repeat gate_step.
    gate_eq.
  - apply Z.eqb_neq in E. repeat gate_step.
    destruct (ac - 1 =? 0) eqn:E'; [apply Z.eqb_eq in E'; lia|]. cbn [andb].
    repeat gate_step. reflexivity.
Qed.

Lemma err_atomic_ctx_G (atomic_ctx : bool) (pc ac r : Z) :
  1 + b2z atomic_ctx <= pc <= UINT_MAX -> 1 <= ac <= UINT_MAX ->
  (ac = 1 -> 2 + b2z atomic_ctx <= pc) ->
  res (err_atomic_ctx cfg env atomic_ctx r) (G cfg p0 pc 1 ac)
  = (r, if ac =? 1 then G cfg p0 (pc - b2z atomic_ctx - 2) 0 0
        else G cfg p0 (pc - b2z atomic_ctx - 1) 0 (ac - 1)).
Proof.
  intros Hpc Hac H2. unfold err_atomic_ctx.
  destruct atomic_ctx; cbn [b2z] in *.
  - repeat gate_step.
    rewrite err_disable_clocks_G by (unfold UINT_MAX in *; lia). reflexivity.
  - repeat gate_step.
    rewrite err_disable_clocks_G by (unfold UINT_MAX in *; lia).
    replace (pc - 0 - 2) with (pc - 2) by lia.
    replace (pc - 0 - 1) with (pc - 1) by lia. reflexivity.
Qed.

(** The first attach on a device without register save. *)
Lemma attach_first_G (atomic_ctx : bool) (body : body_result) :
  res (arm_smmu_attach_dev cfg env atomic_ctx false body) (G cfg p0 0 0 0)
  = match body with
    | BodyOk => (0, G cfg p0 (1 + b2z atomic_ctx) 0 1)
    | BodyErr r | BodyErrDestroy r => (r, G cfg p0 0 0 0)
    end.
Proof.
  unfold arm_smmu_attach_dev. rewrite Hsave.
  destruct atomic_ctx, body as [|r|r]; cbn [b2z]; repeat gate_step;
    rewrite ?destroy_domain_context_clocks_G by (unfold UINT_MAX; lia);
    rewrite ?err_atomic_ctx_G by (unfold UINT_MAX; cbn; lia);
    cbn [Z.eqb Pos.eqb b2z]; gate_eq.
Qed.

(** A later attach. *)
Lemma attach_next_G (atomic_ctx : bool) (body : body_result) (pc ac : Z) :
  1 <= pc < UINT_MAX - 2 -> 1 <= ac < UINT_MAX ->
  res (arm_smmu_attach_dev cfg env atomic_ctx false body) (G cfg p0 pc 0 ac)
  = match body with
    | BodyOk => (0, G cfg p0 (pc + b2z atomic_ctx) 0 (ac + 1))
    | BodyErr r | BodyErrDestroy r => (r, G cfg p0 pc 0 ac)
    end.
Proof.
  intros Hpc Hac. unfold arm_smmu_attach_dev.
  gate_step.
  destruct (ac =? 0) eqn:E; [apply Z.eqb_eq in E; lia|].
  assert (Hne : (ac + 1 =? 1) = false) by (apply Z.eqb_neq; lia).
  destruct atomic_ctx, body as [|r|r]; cbn [b2z]; repeat gate_step;
    rewrite ?destroy_domain_context_clocks_G by (unfold UINT_MAX in *; lia);
    rewrite ?err_atomic_ctx_G by (unfold UINT_MAX in *; cbn; lia);
    rewrite ?Hne; cbn [b2z]; gate_eq.
Qed.

(** Detach: the last domain powers the device off. *)
Lemma detach_G (atomic_ctx : bool) (pc ac : Z) :
  1 + b2z atomic_ctx <= pc < UINT_MAX - 1 -> 1 <= ac <= UINT_MAX ->
  res (arm_smmu_detach_dev cfg env atomic_ctx) (G cfg p0 pc 0 ac)
  = (tt, if ac =? 1 then G cfg p0 (pc - 1 - b2z atomic_ctx) 0 0
         else G cfg p0 (pc - b2z atomic_ctx) 0 (ac - 1)).
Proof.
  intros Hpc Hac. unfold arm_smmu_detach_dev, arm_smmu_power_off.
  assert (Hb : 0 <= b2z atomic_ctx) by (destruct atomic_ctx; cbn; lia).
  rewrite Hsave.
  rewrite res_bind, remove_master_clocks_G by (unfold UINT_MAX in *; lia).
  cbv beta iota.
  rewrite res_bind, destroy_domain_context_clocks_G
    by (unfold UINT_MAX in *; lia).
  cbv beta iota.
  destruct (ac =? 1) eqn:E.
  - apply Z.eqb_eq in E. subst ac. repeat gate_step.
    change (1 - 1) with 0. cbn [Z.eqb].
    destruct atomic_ctx; cbn [b2z] in *; repeat gate_step;
      gate_eq.
  - apply Z.eqb_neq in E. repeat gate_step.
    destruct (ac - 1 =? 0) eqn:E'; [apply Z.eqb_eq in E'; lia|].
    destruct atomic_ctx; cbn [b2z] in *; repeat gate_step;
      gate_eq.
Qed.

(** The detach of a dynamic domain that is not atomic gives back what it
    takes. *)
Lemma detach_dynamic_G (pc ac : Z) :
  0 <= pc < UINT_MAX ->
  res (arm_smmu_detach_dev_dynamic cfg env false) (G cfg p0 pc 0 ac)
  = (tt, G cfg p0 pc 0 ac).
Proof.
  intros Hpc. unfold arm_smmu_detach_dev_dynamic, arm_smmu_detach_dynamic.
  repeat gate_step.
  destruct (0 <? ac); repeat gate_step; gate_eq.
Qed.

End Normal.

Fixpoint atomic_votes (l : list bool) : Z :=
  match l with
  | [] => 0
  | b :: l' => b2z b + atomic_votes l'
  end.

(** The power votes the attached domains account for: one for the
    device while anything is attached, one more per atomic domain. *)
Definition expected_power (l : list bool) : Z :=
  match l with
  | [] => 0
  | _ => 1 + atomic_votes l
  end.

(** The conditions of the amended claim on one call made in state [s]:
    the platform calls succeed, a failing body reports a non-zero error and
    the attach count stays clear of the top of its range; the domain a
    dynamic detach removes is not atomic; DOMAIN_ATTR_ATOMIC set on a
    domain attached through the ordinary path does not change its value;
    the configuration clocks are not taken. *)
Definition in_protocol (o : op) (s : sys) : Prop :=
  match o with
  | Attach _ env body =>
      calls_succeed env /\
      Z.of_nat (length (attached s)) < UINT_MAX - 4 /\
      match body with
      | BodyOk => True
      | BodyErr r | BodyErrDestroy r => r <> 0
      end
  | Detach _ env => calls_succeed env
  | AttachDynamic _ => True
  | DetachDynamic k env => calls_succeed env /\ dynamic s !! k <> Some true
  | SetAtomic k v => forall b, attached s !! k = Some b -> v = b
  | SetAtomicDynamic _ _ => True
  | EnableConfigClocks _ | DisableConfigClocks _ => False
  end.

(** Every call of [ops], made one after the other from state [s], meets
    them. *)
Fixpoint follows_protocol (cfg : clk_cfg) (ops : list op) (s : sys) : Prop :=
  match ops with
  | [] => True
  | o :: rest =>
      in_protocol o s /\ follows_protocol cfg rest (exec cfg o s)
  end.

Definition boot (p0 : platform) : sys :=
  {| gt := {| power_count := 0; clock_refs_count := 0; attach_count := 0;
              plat := p0 |};
     attached := []; dynamic := [] |}.

Definition between_ops (cfg : clk_cfg) (p0 : platform) (s : sys) : Prop :=
  gt s = G cfg p0 (expected_power (attached s)) 0
           (Z.of_nat (length (attached s))) /\
  Z.of_nat (length (attached s)) <= UINT_MAX - 4.

Lemma atomic_votes_bounds (l : list bool) :
  0 <= atomic_votes l <= Z.of_nat (length l).
Proof.
  induction l as [|b l IH]; cbn [atomic_votes length]; [lia|].
  destruct b; cbn [b2z]; lia.
Qed.

Lemma atomic_votes_delete (l : list bool) (k : nat) (b : bool) :
  l !! k = Some b ->
  atomic_votes (delete k l) = atomic_votes l - b2z b /\
  Z.of_nat (length (delete k l)) = Z.of_nat (length l) - 1 /\
  b2z b <= atomic_votes l.
Proof.
  revert k. induction l as [|a l IH]; intros k Hk; [discriminate|].
  destruct k as [|k]; cbn in Hk.
  - injection Hk as ->. change (delete 0%nat (b :: l)) with l.
    cbn [atomic_votes length]. pose proof (atomic_votes_bounds l). lia.
  - change (delete (S k) (a :: l)) with (a :: delete k l).
    cbn [atomic_votes length].
    destruct (IH k Hk) as (H1 & H2 & H3). destruct a; cbn [b2z]; lia.
Qed.

Lemma exec_between_ops (cfg : clk_cfg) (p0 : platform) (o : op) (s : sys) :
  register_save cfg = false ->
  (bus_client cfg <> 0 -> bus_vote p0 = 0) ->
  between_ops cfg p0 s -> in_protocol o s -> between_ops cfg p0 (exec cfg o s).
Proof.
  intros Hsave Hidle [Hg Hlen] Hal.
  destruct o as [atomic_ctx env body|k env|atomic_ctx|k env|k v|k v|env|env];
    cbn [exec in_protocol] in *.
  - destruct Hal as (Hok & Hroom & Hbody).
    destruct (arm_smmu_attach_dev cfg env atomic_ctx false body (gt s))
      as [[r g'] t] eqn:E.
    assert (Er : res (arm_smmu_attach_dev cfg env atomic_ctx false body) (gt s)
                 = (r, g')) by (unfold res; rewrite E; reflexivity).
    rewrite Hg in Er. clear E.
    destruct (attached s) as [|b l] eqn:Hl.
    + cbn [expected_power length Z.of_nat] in Er.
      rewrite attach_first_G in Er by assumption.
      destruct body as [|r0|r0]; injection Er as <- <-.
      * cbn. unfold between_ops. cbn. split; [f_equal; lia|unfold UINT_MAX; lia].
      * apply Z.eqb_neq in Hbody. rewrite Hbody. unfold between_ops. cbn.
        split; [reflexivity|unfold UINT_MAX; lia].
      * apply Z.eqb_neq in Hbody. rewrite Hbody. unfold between_ops. cbn.
        split; [reflexivity|unfold UINT_MAX; lia].
    + pose proof (atomic_votes_bounds (b :: l)) as Hav.
      cbn [expected_power] in Er.
      rewrite attach_next_G in Er
        by (try assumption; cbn [length] in *; unfold UINT_MAX in *; lia).
      destruct body as [|r0|r0]; injection Er as <- <-.
      * cbn [Z.eqb]. unfold between_ops. cbn [gt attached].
        split; [|cbn [length] in *; lia].
        cbn [expected_power atomic_votes length]. f_equal; lia.
      * apply Z.eqb_neq in Hbody. rewrite Hbody. unfold between_ops.
        cbn [gt attached]. split; [reflexivity|assumption].
      * apply Z.eqb_neq in Hbody. rewrite Hbody. unfold between_ops.
        cbn [gt attached]. split; [reflexivity|assumption].
  - destruct (attached s !! k) as [b|] eqn:Hk; [|split; assumption].
    destruct (arm_smmu_detach_dev cfg env b (gt s)) as [[u g'] t] eqn:E.
    assert (Er : res (arm_smmu_detach_dev cfg env b) (gt s) = (u, g'))
      by (unfold res; rewrite E; reflexivity).
    rewrite Hg in Er. clear E.
    destruct (atomic_votes_delete _ _ _ Hk) as (Hd1 & Hd2 & Hd3).
    pose proof (atomic_votes_bounds (attached s)) as Hav.
    assert (Hne : attached s <> []) by (intros H; rewrite H in Hk; discriminate).
    assert (Hexp : expected_power (attached s) = 1 + atomic_votes (attached s)).
    { destruct (attached s); [contradiction|reflexivity]. }
    assert (Hpos : 1 <= Z.of_nat (length (attached s))).
    { destruct (attached s); [contradiction|cbn [length]; lia]. }
    rewrite Hexp in Er.
    rewrite detach_G in Er
      by (try assumption; destruct b; cbn [b2z] in *; unfold UINT_MAX in *; lia).
    injection Er as _ <-. unfold between_ops. cbn [gt attached].
    split; [|lia]. rewrite Hd2.
    destruct (Z.of_nat (length (attached s)) =? 1) eqn:E1.
    + apply Z.eqb_eq in E1.
      assert (Hnil : delete k (attached s) = []).
      { destruct (delete k (attached s)); [reflexivity|cbn [length] in Hd2; lia]. }
      rewrite Hnil in *. cbn [expected_power atomic_votes] in *.
      rewrite E1. f_equal; lia.
    + apply Z.eqb_neq in E1.
      assert (Hexp' : expected_power (delete k (attached s))
                      = 1 + atomic_votes (delete k (attached s))).
      { destruct (delete k (attached s)); [cbn [length] in Hd2; lia|reflexivity]. }
      rewrite Hexp', Hd1. f_equal; lia.
  - split; assumption.
  - destruct Hal as [Hok Hna].
    destruct (dynamic s !! k) as [b|] eqn:Hk; [|split; assumption].
    destruct b; [contradiction|].
    destruct (arm_smmu_detach_dev_dynamic cfg env false (gt s))
      as [[u g'] t] eqn:E.
    assert (Er : res (arm_smmu_detach_dev_dynamic cfg env false) (gt s)
                 = (u, g')) by (unfold res; rewrite E; reflexivity).
    rewrite Hg in Er. clear E.
    pose proof (atomic_votes_bounds (attached s)) as Hav.
    rewrite (detach_dynamic_G cfg p0 env Hidle Hok) in Er.
    + injection Er as _ <-. split; [reflexivity|exact Hlen].
    + destruct (attached s); cbn [expected_power length] in *;
        unfold UINT_MAX in *; lia.
  - assert (Hid : <[k := v]> (attached s) = attached s).
    { destruct (attached s !! k) as [b|] eqn:Hk.
      - rewrite (Hal b eq_refl). apply list_insert_id. exact Hk.
      - apply list_insert_ge. apply lookup_ge_None. exact Hk. }
    unfold between_ops. cbn [gt attached]. rewrite Hid.
    split; assumption.
  - split; assumption.
  - contradiction.
  - contradiction.
Qed.

Lemma run_between_ops (cfg : clk_cfg) (p0 : platform) (ops : list op)
  (s : sys) :
  register_save cfg = false ->
  (bus_client cfg <> 0 -> bus_vote p0 = 0) ->
  between_ops cfg p0 s -> follows_protocol cfg ops s ->
  between_ops cfg p0 (run cfg ops s).
Proof.
  intros Hsave Hidle. revert s.
  induction ops as [|o ops IH]; intros s Hb Hp.
  - exact Hb.
  - destruct Hp as [Ho Hp]. cbn [run fold_left]. apply IH; [|exact Hp].
    apply exec_between_ops; assumption.
Qed.

Lemma boot_between_ops (cfg : clk_cfg) (p0 : platform) :
  between_ops cfg p0 (boot p0).
Proof. split; [reflexivity|cbn; unfold UINT_MAX; lia]. Qed.


Lemma calls_succeed_all : calls_succeed env_all_ok.
Proof. repeat split. Qed.

(** An atomic and an ordinary domain attach, a dynamic domain attaches and
    is detached, the atomic domain is detached. *)
Definition c7_witness_ops : list op :=
  [Attach true env_all_ok BodyOk; Attach false env_all_ok BodyOk;
   AttachDynamic false; SetAtomic 0 false; DetachDynamic 0 env_all_ok;
   Detach 1 env_all_ok].


(** The same device with the register-save option. *)
Definition c7_cfg : clk_cfg :=
  {| num_clocks := 2; gdsc := true; bus_client := 1;
     options := ARM_SMMU_OPT_REGISTER_SAVE |}.

(** After a successful attach of a domain that is not atomic, the attach
    count is 1 and nothing is held: no regulator vote, no bus vote, no
    clock prepared or enabled. *)
Example c7_attached_unpowered :
  gt (exec c7_cfg (Attach false env_all_ok BodyOk) (boot (plat idle_gate)))
  = {| power_count := 0; clock_refs_count := 0; attach_count := 1;
       plat := plat idle_gate |}.
Proof. reflexivity. Qed.

(** With register save an atomic domain still holds a vote while it is
    attached. *)
Example c7_register_save_atomic_vote :
  gt (exec c7_cfg (Attach true env_all_ok BodyOk) (boot (plat idle_gate)))
  = {| power_count := 1; clock_refs_count := 0; attach_count := 1;
       plat := {| regulator_votes := 1; bus_vote := 1;
                  clk_prepare_count := [1; 1]; clk_enable_count := [0; 0] |} |}.
Proof. reflexivity. Qed.

(** Without register save the vote is held, but the clocks are only
    prepared, not enabled. *)
Example c7_attached_clocks_gated :
  gt (exec c6_cfg (Attach false env_all_ok BodyOk) (boot (plat idle_gate)))
  = {| power_count := 1; clock_refs_count := 0; attach_count := 1;
       plat := {| regulator_votes := 1; bus_vote := 1;
                  clk_prepare_count := [1; 1]; clk_enable_count := [0; 0] |} |}.
Proof. reflexivity. Qed.

(** Why the amended claim excepts three things.  The detach of an atomic
    dynamic domain drops the vote of an attached ordinary domain: the
    attach count is 1 and nothing is powered. *)
Example c7_dynamic_atomic_detach :
  gt (run c6_cfg [Attach false env_all_ok BodyOk; AttachDynamic true;
                  DetachDynamic 0 env_all_ok] (boot (plat idle_gate)))
  = {| power_count := 0; clock_refs_count := 0; attach_count := 1;
       plat := plat idle_gate |}.
Proof. reflexivity. Qed.

(** DOMAIN_ATTR_ATOMIC cleared on an attached atomic domain: its detach
    leaves the vote taken for it behind, with nothing attached. *)
Example c7_atomic_cleared_while_attached :
  gt (run c6_cfg [Attach true env_all_ok BodyOk; SetAtomic 0 false;
                  Detach 0 env_all_ok] (boot (plat idle_gate)))
  = {| power_count := 1; clock_refs_count := 0; attach_count := 0;
       plat := {| regulator_votes := 1; bus_vote := 1;
                  clk_prepare_count := [1; 1]; clk_enable_count := [0; 0] |} |}.
Proof. reflexivity. Qed.

(** The configuration clocks taken for a dynamic domain: the clocks are
    enabled between operations, with an attach count of 0. *)
Example c7_config_clocks_held :
  gt (run c6_cfg [AttachDynamic false; EnableConfigClocks env_all_ok]
        (boot (plat idle_gate)))
  = {| power_count := 1; clock_refs_count := 1; attach_count := 0;
       plat := {| regulator_votes := 1; bus_vote := 1;
                  clk_prepare_count := [1; 1]; clk_enable_count := [1; 1] |} |}.
Proof. reflexivity. Qed.


End Power.

(** ** Secure page-table ownership tracking, map and unmap *)

Module Secure.

(** Modelled from the spec: the VMID numbers come from the secure-world
    headers, which are not under src/; the spec only distinguishes "no
    secure owner" from a secure VM. *)
Definition VMID_INVAL : Z := -1.
Definition VMID_HLOS : Z := 3.

(** What leaves the driver towards the hypervisor and the page allocator:
    one ownership transfer to the secure VM, one transfer back, one
    [free_pages_exact]. *)
Inductive sec_event :=
| HypAssign (virt_addr : Z)
| HypUnassign (virt_addr : Z)
| FreePagesExact (virt_addr : Z) (size : Z).

(** The fields of [struct arm_smmu_domain] used by map and unmap.
    [pgtbl_ops] and [smmu] stand for the pointers being set;
    [pte_info_list] holds the [virt_addr] of each pending-assign record,
    [unassign_list] and [secure_pool_list] hold (address, size). *)
Record arm_smmu_domain := {
  smmu : bool;
  pgtbl_ops : bool;
  attr_atomic : bool;
  slave_side_secure : bool;
  secure_vmid : Z;                       (* u32 *)
  pte_info_list : list Z;
  unassign_list : list (Z * Z);
  secure_pool_list : list (Z * Z)
}.

Definition arm_smmu_has_secure_vmid (d : arm_smmu_domain) : bool :=
  negb (secure_vmid d =? u32 VMID_INVAL).

Definition arm_smmu_is_slave_side_secure (d : arm_smmu_domain) : bool :=
  arm_smmu_has_secure_vmid d && slave_side_secure d.

Definition arm_smmu_is_master_side_secure (d : arm_smmu_domain) : bool :=
  arm_smmu_has_secure_vmid d && negb (slave_side_secure d).

Definition set_pte_info_list (d : arm_smmu_domain) (l : list Z) : arm_smmu_domain :=
  {| smmu := smmu d; pgtbl_ops := pgtbl_ops d; attr_atomic := attr_atomic d;
     slave_side_secure := slave_side_secure d; secure_vmid := secure_vmid d;
     pte_info_list := l; unassign_list := unassign_list d;
     secure_pool_list := secure_pool_list d |}.

Definition set_unassign_list (d : arm_smmu_domain) (l : list (Z * Z))
  : arm_smmu_domain :=
  {| smmu := smmu d; pgtbl_ops := pgtbl_ops d; attr_atomic := attr_atomic d;
     slave_side_secure := slave_side_secure d; secure_vmid := secure_vmid d;
     pte_info_list := pte_info_list d; unassign_list := l;
     secure_pool_list := secure_pool_list d |}.

Definition set_secure_pool_list (d : arm_smmu_domain) (l : list (Z * Z))
  : arm_smmu_domain :=
  {| smmu := smmu d; pgtbl_ops := pgtbl_ops d; attr_atomic := attr_atomic d;
     slave_side_secure := slave_side_secure d; secure_vmid := secure_vmid d;
     pte_info_list := pte_info_list d; unassign_list := unassign_list d;
     secure_pool_list := l |}.

(** [arm_smmu_secure_pool_remove]: the first chunk of that size leaves
    the pool and its address is returned, 0 (NULL) when there is none. *)
Fixpoint pool_remove (l : list (Z * Z)) (size : Z) : Z * list (Z * Z) :=
  match l with
  | [] => (0, [])
  | (addr, sz) :: l' =>
      if sz =? size then (addr, l')
      else let '(r, l'') := pool_remove l' size in (r, (addr, sz) :: l'')
  end.

Definition arm_smmu_secure_pool_remove (d : arm_smmu_domain) (size : Z)
  : Z * arm_smmu_domain :=
  let '(r, l) := pool_remove (secure_pool_list d) size in
  (r, set_secure_pool_list d l).

(** [arm_smmu_secure_pool_add]; [chunk_ok] is the outcome of its
    [kmalloc]. *)
Definition arm_smmu_secure_pool_add (d : arm_smmu_domain) (addr size : Z)
  (chunk_ok : bool) : Z * arm_smmu_domain :=
  if chunk_ok
  then (0, set_secure_pool_list d ((addr, size) :: secure_pool_list d))
  else (- ENOMEM, d).

(** [arm_smmu_prepare_pgtable] and [arm_smmu_unprepare_pgtable];
    [info_ok] is the outcome of their [kzalloc].  Both are reached for
    master-side-secure domains only (the BUG_ON in front). *)
Definition arm_smmu_prepare_pgtable (d : arm_smmu_domain) (addr : Z)
  (info_ok : bool) : arm_smmu_domain :=
  if info_ok then set_pte_info_list d (pte_info_list d ++ [addr]) else d.

Definition arm_smmu_unprepare_pgtable (d : arm_smmu_domain) (addr size : Z)
  (info_ok : bool) : arm_smmu_domain :=
  if info_ok then set_unassign_list d (unassign_list d ++ [(addr, size)]) else d.

(** [arm_smmu_alloc_pages_exact]; [page] is what the kernel's
    [alloc_pages_exact] returns when it is asked (0 for NULL). *)
Definition arm_smmu_alloc_pages_exact (d : arm_smmu_domain) (size : Z)
  (page : Z) (info_ok : bool) : Z * arm_smmu_domain :=
  if negb (arm_smmu_is_master_side_secure d) then (page, d)
  else
    let '(r, d1) := arm_smmu_secure_pool_remove d size in
    if negb (r =? 0) then (r, d1)
    else if negb (page =? 0)
         then (page, arm_smmu_prepare_pgtable d1 page info_ok)
         else (page, d1).

(** [arm_smmu_free_pages_exact]. *)
Definition arm_smmu_free_pages_exact (d : arm_smmu_domain) (virt size : Z)
  (chunk_ok info_ok : bool) : arm_smmu_domain * list sec_event :=
  if negb (arm_smmu_is_master_side_secure d)
  then (d, [FreePagesExact virt size])
  else
    let '(r, d1) := arm_smmu_secure_pool_add d virt size chunk_ok in
    if negb (r =? 0)
    then (arm_smmu_unprepare_pgtable d1 virt size info_ok, [])
    else (d1, []).

(** The page-table library during one [ops->map] or [ops->unmap]: the
    page allocations and frees it asks for through the callbacks, in
    order. *)
Inductive pt_action :=
| PtAlloc (size : Z) (page : Z) (info_ok : bool)
| PtFree (virt size : Z) (chunk_ok info_ok : bool).

Fixpoint run_pgtable (d : arm_smmu_domain) (script : list pt_action)
  : arm_smmu_domain * list sec_event :=
  match script with
  | [] => (d, [])
  | PtAlloc size page info_ok :: rest =>
      let '(_, d1) := arm_smmu_alloc_pages_exact d size page info_ok in
      run_pgtable d1 rest
  | PtFree virt size chunk_ok info_ok :: rest =>
      let '(d1, t1) := arm_smmu_free_pages_exact d virt size chunk_ok info_ok in
      let '(d2, t2) := run_pgtable d1 rest in
      (d2, t1 ++ t2)
  end.

(** The first loop of [arm_smmu_assign_table]: one [hyp_assign_phys] per
    record, until one fails; [hyp] is the hypervisor's answer. *)
Fixpoint assign_loop (hyp : Z -> Z) (l : list Z) : Z * list sec_event :=
  match l with
  | [] => (0, [])
  | a :: l' =>
      let r := hyp a in
      if negb (r =? 0) then (r, [HypAssign a])
      else let '(r', t) := assign_loop hyp l' in (r', HypAssign a :: t)
  end.

(** [arm_smmu_assign_table]: the second loop empties the list whatever
    the first did. *)
Definition arm_smmu_assign_table (hyp : Z -> Z) (d : arm_smmu_domain)
  : Z * arm_smmu_domain * list sec_event :=
  if negb (arm_smmu_is_master_side_secure d) then (0, d, [])
  else
    let '(r, t) := assign_loop hyp (pte_info_list d) in
    (r, set_pte_info_list d [], t).

(** The first loop of [arm_smmu_unassign_table]: a page is freed only
    after its transfer back succeeded. *)
Fixpoint unassign_loop (hyp : Z -> Z) (l : list (Z * Z)) : list sec_event :=
  match l with
  | [] => []
  | (a, sz) :: l' =>
      if negb (hyp a =? 0) then [HypUnassign a]
      else HypUnassign a :: FreePagesExact a sz :: unassign_loop hyp l'
  end.

(** [arm_smmu_unassign_table]. *)
Definition arm_smmu_unassign_table (hyp : Z -> Z) (d : arm_smmu_domain)
  : arm_smmu_domain * list sec_event :=
  if negb (arm_smmu_is_master_side_secure d) then (d, [])
  else (set_unassign_list d [], unassign_loop hyp (unassign_list d)).

(** One call of map or unmap: what the page-table library does and
    returns, what the hypervisor answers per page, how the platform calls
    of the gate go. *)
Record call_env := {
  script : list pt_action;
  ops_ret : Z;
  hyp_assign : Z -> Z;
  hyp_unassign : Z -> Z;
  penv : Power.penv
}.

(** [arm_smmu_map]. *)
Definition arm_smmu_map (env : call_env) (d : arm_smmu_domain)
  : Z * arm_smmu_domain * list sec_event :=
  if negb (pgtbl_ops d) then (- ENODEV, d, [])
  else
    let '(d1, t1) := run_pgtable d (script env) in
    let ret := ops_ret env in
    if ret =? 0
    then let '(r, d2, t2) := arm_smmu_assign_table (hyp_assign env) d1 in
         (r, d2, t1 ++ t2)
    else (ret, d1, t1).

(** How a call ends: it returns a value or runs into BUG. *)
Inductive outcome :=
| Returned (v : Z)
| Bug.

(** [arm_smmu_unmap]; the gate is the device's. *)
Definition arm_smmu_unmap (cfg : Power.clk_cfg) (env : call_env)
  (d : arm_smmu_domain) (g : Power.gate)
  : outcome * arm_smmu_domain * Power.gate * list sec_event :=
  if negb (pgtbl_ops d) then (Returned 0, d, g, [])
  else if arm_smmu_is_slave_side_secure d && attr_atomic d
  then (Returned 0, d, g, [])
  else if attr_atomic d && negb (smmu d) then (Bug, d, g, [])
  else
    let '(r, g1, _) :=
      if attr_atomic d
      then Power.arm_smmu_enable_clocks_atomic cfg (penv env) g
      else if smmu d then Power.arm_smmu_enable_clocks cfg (penv env) g
           else (0, g, []) in
    if negb (r =? 0) then (Returned 0, d, g1, [])
    else
      let '(d1, t1) := run_pgtable d (script env) in
      let ret := ops_ret env in
      let '(ra, d2, t2) := arm_smmu_assign_table (hyp_assign env) d1 in
      let '(d3, t3) := arm_smmu_unassign_table (hyp_unassign env) d2 in
      if negb (ra =? 0) then (Returned 0, d3, g1, t1 ++ t2 ++ t3)
      else
        let '(_, g2, _) :=
          if attr_atomic d
          then Power.arm_smmu_disable_clocks_atomic cfg g1
          else if smmu d then Power.arm_smmu_disable_clocks cfg (penv env) g1
               else (tt, g1, []) in
        (Returned ret, d3, g2, t1 ++ t2 ++ t3).

(** *** Draining of the pending lists *)

(** The callbacks change the three lists only. *)
Definition same_config (d d' : arm_smmu_domain) : Prop :=
  smmu d' = smmu d /\ pgtbl_ops d' = pgtbl_ops d /\
  attr_atomic d' = attr_atomic d /\
  slave_side_secure d' = slave_side_secure d /\
  secure_vmid d' = secure_vmid d.

Lemma same_config_master (d d' : arm_smmu_domain) :
  same_config d d' ->
  arm_smmu_is_master_side_secure d' = arm_smmu_is_master_side_secure d.
Proof.
  intros (_ & _ & _ & Hs & Hv).
  unfold arm_smmu_is_master_side_secure, arm_smmu_has_secure_vmid.
  rewrite Hs, Hv. reflexivity.
Qed.

Lemma run_pgtable_master (script : list pt_action) (d : arm_smmu_domain) :
  arm_smmu_is_master_side_secure d = true ->
  same_config d (run_pgtable d script).1 /\ (run_pgtable d script).2 = [].
Proof.
  revert d. induction script as [|a script IH]; intros d Hm.
  - cbn. repeat split.
  - destruct a as [size page info_ok|virt size chunk_ok info_ok];
      cbn [run_pgtable].
    + unfold arm_smmu_alloc_pages_exact. rewrite Hm. cbn [negb].
      unfold arm_smmu_secure_pool_remove.
      destruct (pool_remove (secure_pool_list d) size) as [r l].
      set (d1 := set_secure_pool_list d l).
      assert (H1 : same_config d d1) by (repeat split).
      assert (Hd : forall dx, same_config d dx ->
                 same_config d (run_pgtable dx script).1
                 /\ (run_pgtable dx script).2 = []).
      { intros dx Hx. destruct (IH dx) as [Hc Ht].
        - rewrite (same_config_master d dx Hx). exact Hm.
        - split; [|exact Ht]. destruct Hx as (?&?&?&?&?), Hc as (?&?&?&?&?).
          repeat split; congruence. }
      destruct (negb (r =? 0)); [apply Hd, H1|].
      destruct (negb (page =? 0)); [|apply Hd, H1].
      apply Hd. unfold arm_smmu_prepare_pgtable.
      destruct info_ok; [repeat split|exact H1].
    + unfold arm_smmu_free_pages_exact. rewrite Hm. cbn [negb].
      unfold arm_smmu_secure_pool_add, arm_smmu_unprepare_pgtable.
      assert (Hd : forall dx, same_config d dx ->
                 same_config d (run_pgtable dx script).1
                 /\ (run_pgtable dx script).2 = []).
      { intros dx Hx. destruct (IH dx) as [Hc Ht].
        - rewrite (same_config_master d dx Hx). exact Hm.
        - split; [|exact Ht]. destruct Hx as (?&?&?&?&?), Hc as (?&?&?&?&?).
          repeat split; congruence. }
      destruct chunk_ok; cbv beta iota;
        try change (- ENOMEM =? 0) with false; cbn [negb Z.eqb].
      * specialize (Hd (set_secure_pool_list d ((virt, size) :: secure_pool_list d))
                      ltac:(repeat split)).
        destruct (run_pgtable _ script) as [d2 t2]. cbn in *. exact Hd.
      * destruct info_ok.
        -- specialize (Hd (set_unassign_list d (unassign_list d ++ [(virt, size)]))
                         ltac:(repeat split)).
           destruct (run_pgtable _ script) as [d2 t2]. cbn in *. exact Hd.
        -- specialize (Hd d ltac:(repeat split)).
           destruct (run_pgtable _ script) as [d2 t2]. cbn in *. exact Hd.
Qed.

(** A drain that reports success has made one call per record, in list
    order. *)
Lemma assign_loop_success (hyp : Z -> Z) (l : list Z) :
  (assign_loop hyp l).1 = 0 -> (assign_loop hyp l).2 = map HypAssign l.
Proof.
  induction l as [|a l IH]; cbn [assign_loop]; [reflexivity|].
  destruct (hyp a =? 0) eqn:E; cbn [negb].
  - destruct (assign_loop hyp l) as [r t]. cbn in *. intros H.
    rewrite IH by assumption. reflexivity.
  - cbn. intros H. rewrite H in E. discriminate.
Qed.

(** Whatever the hypervisor answers, no record is the subject of two
    calls: the calls are those of an initial part of the list. *)
Lemma assign_loop_prefix (hyp : Z -> Z) (l : list Z) :
  exists k, (assign_loop hyp l).2 = map HypAssign (take k l).
Proof.
  induction l as [|a l [k IH]]; cbn [assign_loop].
  - exists 0%nat. reflexivity.
  - destruct (negb (hyp a =? 0)).
    + exists 1%nat. reflexivity.
    + destruct (assign_loop hyp l) as [r t]. cbn in *. subst t.
      exists (S k). reflexivity.
Qed.

(** C3 (as amended).  For a master-side-secure domain with a page table:
    when map returns after the page-table library reported success, the
    pending-assign list is empty, and when map returns 0 the hypervisor
    assign calls are exactly one per record pending once the library has
    run, in list order.  When unmap returns it has either left before any
    page-table operation, with the domain untouched, or emptied both the
    pending-assign and the pending-unassign list; when its assign drain
    succeeds the calls are one assign per pending record followed by the
    unassign drain.  Map does not drain the pending-unassign list, and a
    map whose page-table operation fails leaves the pending-assign list as
    the library left it. *)
Theorem secure_lists_drained (cfg : Power.clk_cfg) (env : call_env)
  (d : arm_smmu_domain) (g : Power.gate) :
  arm_smmu_is_master_side_secure d = true ->
  pgtbl_ops d = true ->
  let d1 := (run_pgtable d (script env)).1 in
  (let '(r, d', t) := arm_smmu_map env d in
   (ops_ret env = 0 -> pte_info_list d' = []) /\
   (r = 0 -> t = map HypAssign (pte_info_list d1)) /\
   unassign_list d' = unassign_list d1 /\
   (ops_ret env <> 0 -> r = ops_ret env /\ d' = d1 /\ t = [])) /\
  (let '(o, d', g', t) := arm_smmu_unmap cfg env d g in
   (d' = d /\ t = [] /\ (o = Returned 0 \/ o = Bug)) \/
   (pte_info_list d' = [] /\ unassign_list d' = [] /\
    ((assign_loop (hyp_assign env) (pte_info_list d1)).1 = 0 ->
     t = map HypAssign (pte_info_list d1)
         ++ unassign_loop (hyp_unassign env) (unassign_list d1)))).
Proof.
  intros Hm Hops d1.
  destruct (run_pgtable_master (script env) d Hm) as [Hc Ht].
  pose proof (same_config_master d _ Hc) as Hm1. rewrite Hm in Hm1.
  fold d1 in Hc, Hm1.
  split.
  - unfold arm_smmu_map. rewrite Hops. cbn [negb].
    destruct (run_pgtable d (script env)) as [dx t1] eqn:E.
    cbn in Ht, d1. subst t1 d1.
    destruct (ops_ret env =? 0) eqn:Hr.
    + unfold arm_smmu_assign_table. rewrite Hm1. cbn [negb].
      pose proof (assign_loop_success (hyp_assign env) (pte_info_list dx)) as Hs.
      destruct (assign_loop (hyp_assign env) (pte_info_list dx)) as [r t].
      apply Z.eqb_eq in Hr.
      cbn in *. split; [reflexivity|]. split; [exact Hs|].
      split; [reflexivity|]. intros H. contradiction.
    + apply Z.eqb_neq in Hr. split; [contradiction|].
      split; [intros H; contradiction|]. split; [reflexivity|].
      intros _. repeat split.
  - unfold arm_smmu_unmap. rewrite Hops. cbn [negb].
    assert (Hslave : arm_smmu_is_slave_side_secure d = false).
    { unfold arm_smmu_is_master_side_secure, arm_smmu_is_slave_side_secure in *.
      destruct (arm_smmu_has_secure_vmid d), (slave_side_secure d);
        cbn in *; congruence. }
    rewrite Hslave. cbn [andb].
    destruct (attr_atomic d && negb (smmu d)); [left; auto|].
    destruct (if attr_atomic d then _ else _) as [[r g1] tc].
    destruct (negb (r =? 0)); [left; auto|].
    destruct (run_pgtable d (script env)) as [dx t1] eqn:E.
    cbn in Ht, d1. subst t1 d1.
    unfold arm_smmu_assign_table. rewrite Hm1. cbn [negb].
    pose proof (assign_loop_success (hyp_assign env) (pte_info_list dx)) as Hs.
    destruct (assign_loop (hyp_assign env) (pte_info_list dx)) as [ra t2].
    unfold arm_smmu_unassign_table.
    replace (arm_smmu_is_master_side_secure (set_pte_info_list dx []))
      with true by (symmetry; exact Hm1).
    cbn [negb fst snd] in *.
    destruct (negb (ra =? 0)) eqn:Hra.
    + right. split; [reflexivity|]. split; [reflexivity|].
      intros H. subst ra. discriminate.
    + destruct (if attr_atomic d then _ else _) as [[u g2] tc2].
      right. split; [reflexivity|]. split; [reflexivity|].
      intros H. rewrite Hs by assumption. reflexivity.
Qed.

(** A master-side-secure domain with a page table and nothing pending. *)
Definition c3_domain : arm_smmu_domain :=
  {| smmu := true; pgtbl_ops := true; attr_atomic := false;
     slave_side_secure := false; secure_vmid := 10;
     pte_info_list := []; unassign_list := []; secure_pool_list := [] |}.

(** The library allocates two table pages and succeeds; the hypervisor
    accepts every transfer. *)
Definition c3_env_ok : call_env :=
  {| script := [PtAlloc 4096 0x10000 true; PtAlloc 4096 0x11000 true];
     ops_ret := 0;
     hyp_assign := fun _ => 0; hyp_unassign := fun _ => 0;
     penv := Power.env_all_ok |}.

Lemma secure_lists_drained_witness :
  let d1 := (run_pgtable c3_domain (script c3_env_ok)).1 in
  (let '(r, d', t) := arm_smmu_map c3_env_ok c3_domain in
   (ops_ret c3_env_ok = 0 -> pte_info_list d' = []) /\
   (r = 0 -> t = map HypAssign (pte_info_list d1)) /\
   unassign_list d' = unassign_list d1 /\
   (ops_ret c3_env_ok <> 0 -> r = ops_ret c3_env_ok /\ d' = d1 /\ t = [])) /\
  (let '(o, d', g', t) :=
     arm_smmu_unmap Power.c6_cfg c3_env_ok c3_domain Power.idle_gate in
   (d' = c3_domain /\ t = [] /\ (o = Returned 0 \/ o = Bug)) \/
   (pte_info_list d' = [] /\ unassign_list d' = [] /\
    ((assign_loop (hyp_assign c3_env_ok) (pte_info_list d1)).1 = 0 ->
     t = map HypAssign (pte_info_list d1)
         ++ unassign_loop (hyp_unassign c3_env_ok) (unassign_list d1)))).
Proof.
  apply (secure_lists_drained Power.c6_cfg c3_env_ok c3_domain Power.idle_gate);
    reflexivity.
Defined.

Example c3_map_assigns_each_page_once :
  arm_smmu_map c3_env_ok c3_domain
  = (0, c3_domain, [HypAssign 0x10000; HypAssign 0x11000]).
Proof. reflexivity. Qed.

(** The library allocates a table page and then fails. *)
Definition c3_env_fail : call_env :=
  {| script := [PtAlloc 4096 0x10000 true];
     ops_ret := - ENOMEM;
     hyp_assign := fun _ => 0; hyp_unassign := fun _ => 0;
     penv := Power.env_all_ok |}.

Example c3_map_failed_leaves_pending :
  arm_smmu_map c3_env_fail c3_domain
  = (- ENOMEM, set_pte_info_list c3_domain [0x10000], []).
Proof. reflexivity. Qed.

(** The library frees a table page while the pool record cannot be
    allocated: the page waits on the pending-unassign list, which map
    never drains. *)
Definition c3_env_free : call_env :=
  {| script := [PtFree 0x12000 4096 false true];
     ops_ret := 0;
     hyp_assign := fun _ => 0; hyp_unassign := fun _ => 0;
     penv := Power.env_all_ok |}.

Example c3_map_leaves_unassign :
  arm_smmu_map c3_env_free c3_domain
  = (0, set_unassign_list c3_domain [(0x12000, 4096)], []).
Proof. reflexivity. Qed.

(** C3 as stated fails: a map call can return with a pending list that is
    not empty. *)
Lemma secure_lists_counterexample :
  ~ (forall cfg env d g,
        arm_smmu_is_master_side_secure d = true ->
        pte_info_list d = [] -> unassign_list d = [] ->
        (pte_info_list (arm_smmu_map env d).1.2 = [] /\
         unassign_list (arm_smmu_map env d).1.2 = []) /\
        (pte_info_list (arm_smmu_unmap cfg env d g).1.1.2 = [] /\
         unassign_list (arm_smmu_unmap cfg env d g).1.1.2 = [])).
Proof.
  intros H.
  destruct (H Power.c6_cfg c3_env_fail c3_domain Power.idle_gate
              eq_refl eq_refl eq_refl) as [[Hp _] _].
  rewrite c3_map_failed_leaves_pending in Hp. discriminate.
Qed.

(** C10.  On a domain without page-table operations (never attached) map
    returns -ENODEV, an error, and unmap returns 0; neither changes the
    domain, the gate, or calls the hypervisor or the allocator. *)
Theorem map_unmap_without_pgtbl_ops (cfg : Power.clk_cfg) (env : call_env)
  (d : arm_smmu_domain) (g : Power.gate) :
  pgtbl_ops d = false ->
  arm_smmu_map env d = (- ENODEV, d, []) /\
  IS_ERR_VALUE (- ENODEV) = true /\
  arm_smmu_unmap cfg env d g = (Returned 0, d, g, []).
Proof.
  intros H. unfold arm_smmu_map, arm_smmu_unmap. rewrite H.
  repeat split.
Qed.

(** A domain as [arm_smmu_domain_alloc] leaves it. *)
Definition fresh_domain : arm_smmu_domain :=
  {| smmu := false; pgtbl_ops := false; attr_atomic := false;
     slave_side_secure := false; secure_vmid := u32 VMID_INVAL;
     pte_info_list := []; unassign_list := []; secure_pool_list := [] |}.

Lemma map_unmap_without_pgtbl_ops_witness :
  pgtbl_ops fresh_domain = false /\
  arm_smmu_map c3_env_ok fresh_domain = (- ENODEV, fresh_domain, []) /\
  IS_ERR_VALUE (- ENODEV) = true /\
  arm_smmu_unmap Power.c6_cfg c3_env_ok fresh_domain Power.idle_gate
  = (Returned 0, fresh_domain, Power.idle_gate, []).
Proof.
  split; [reflexivity|].
  apply (map_unmap_without_pgtbl_ops Power.c6_cfg c3_env_ok fresh_domain
           Power.idle_gate).
  reflexivity.
Defined.

End Secure.

(** ** Register access *)

(** The register windows of the device: global space 0 and 1, the
    implementation-defined page 1, and the page of context bank [n]
    ([ARM_SMMU_CB_BASE + ARM_SMMU_CB(smmu, n)]).  A register is a window
    and the byte offset the driver's macros give. *)
Inductive region :=
| GR0
| GR1
| IMPL_DEF1
| CB (n : Z).

Global Instance region_eq_dec : EqDecision region.
Proof. solve_decision. Defined.

(** What the driver sends to the hardware, the secure monitor and the
    kernel log, in order. *)
Inductive event :=
| Writel (r : region) (off : Z) (v : Z)
| Writeq (r : region) (off : Z) (v : Z)
| ScmIoWrite (r : region) (off : Z) (v : Z)
| ScmRestoreSecCfg
| DevErr (msg : string).

Arguments DevErr msg%_string.

Definition u64 (x : Z) : Z := x mod 18446744073709551616.

Lemma u32_idem (x : Z) : u32 (u32 x) = u32 x.
Proof. unfold u32. apply Z.mod_mod. lia. Qed.

Definition ARM_SMMU_GR0_sCR0 : Z := 0x0.
Definition ARM_SMMU_GR0_TLBIVMID : Z := 0x64.
Definition ARM_SMMU_GR0_TLBIALLNSNH : Z := 0x68.
Definition ARM_SMMU_GR0_TLBIALLH : Z := 0x6c.
Definition ARM_SMMU_GR0_sTLBGSYNC : Z := 0x70.
Definition ARM_SMMU_GR0_sTLBGSTATUS : Z := 0x74.
Definition sTLBGSTATUS_GSACTIVE : Z := 1.
Definition TLB_LOOP_TIMEOUT : Z := 500000.
Definition ARM_SMMU_GR0_SMR (n : Z) : Z := 0x800 + Z.shiftl n 2.
Definition ARM_SMMU_GR0_S2CR (n : Z) : Z := 0xc00 + Z.shiftl n 2.
Definition ARM_SMMU_GR1_CBAR (n : Z) : Z := 0x0 + Z.shiftl n 2.
Definition ARM_SMMU_GR1_CBA2R (n : Z) : Z := 0x800 + Z.shiftl n 2.
Definition ARM_SMMU_GR1_CBFRSYNRA (n : Z) : Z := 0x400 + Z.shiftl n 2.
Definition ARM_SMMU_CB_SCTLR : Z := 0x0.
Definition ARM_SMMU_CB_ACTLR : Z := 0x4.
Definition ARM_SMMU_CB_RESUME : Z := 0x8.
Definition ARM_SMMU_CB_TTBCR2 : Z := 0x10.
Definition ARM_SMMU_CB_TTBR0 : Z := 0x20.
Definition ARM_SMMU_CB_TTBR1 : Z := 0x28.
Definition ARM_SMMU_CB_TTBCR : Z := 0x30.
Definition ARM_SMMU_CB_CONTEXTIDR : Z := 0x34.
Definition ARM_SMMU_CB_S1_MAIR0 : Z := 0x38.
Definition ARM_SMMU_CB_S1_MAIR1 : Z := 0x3c.
Definition ARM_SMMU_CB_PAR_LO : Z := 0x50.
Definition ARM_SMMU_CB_PAR_HI : Z := 0x54.
Definition ARM_SMMU_CB_FSR : Z := 0x58.
Definition ARM_SMMU_CB_FAR_LO : Z := 0x60.
Definition ARM_SMMU_CB_FAR_HI : Z := 0x64.
Definition ARM_SMMU_CB_FSYNR0 : Z := 0x68.
Definition ARM_SMMU_CB_S1_TLBIASID : Z := 0x610.
Definition ARM_SMMU_CB_TLBSYNC : Z := 0x7f0.
Definition ARM_SMMU_CB_TLBSTATUS : Z := 0x7f4.
Definition ARM_SMMU_CB_ATS1PR : Z := 0x800.
Definition ARM_SMMU_CB_ATSR : Z := 0x8f0.
Definition IMPL_DEF1_MICRO_MMU_CTRL : Z := 0.
Definition MICRO_MMU_CTRL_LOCAL_HALT_REQ : Z := 4.
Definition MICRO_MMU_CTRL_IDLE : Z := 8.
Definition SCTLR_CFCFG : Z := 128.
Definition CB_PAR_F : Z := 1.
Definition RESUME_TERMINATE : Z := 1.
Definition CBAR_TYPE_S2_TRANS : Z := 0.
Definition FSR_MULTI : Z := 0x80000000.
Definition FSR_SS : Z := 0x40000000.
Definition FSR_UUT : Z := 0x100.
Definition FSR_ASF : Z := 0x80.
Definition FSR_TLBLKF : Z := 0x40.
Definition FSR_TLBMCF : Z := 0x20.
Definition FSR_EF : Z := 0x10.
Definition FSR_PF : Z := 0x8.
Definition FSR_AFF : Z := 0x4.
Definition FSR_TF : Z := 0x2.
Definition FSR_IGN : Z :=
  Z.lor (Z.lor FSR_AFF FSR_ASF) (Z.lor FSR_TLBMCF FSR_TLBLKF).
Definition FSR_FAULT : Z :=
  Z.lor (Z.lor (Z.lor FSR_MULTI FSR_SS) (Z.lor FSR_UUT FSR_EF))
        (Z.lor (Z.lor FSR_PF FSR_TF) FSR_IGN).
Definition FSYNR0_WNR : Z := 16.
Definition ARM_SMMU_V1 : Z := 1.
Definition ARM_SMMU_V2 : Z := 2.
Definition ARM_SMMU_OPT_SECURE_CFG_ACCESS : Z := 1.
Definition ARM_SMMU_OPT_ERRATA_CTX_FAULT_HANG : Z := 32.
Definition ARM_SMMU_OPT_FATAL_ASF : Z := 64.
Definition ARM_SMMU_OPT_STATIC_CB : Z := 4096.

(** [flag & mask] as a C condition. *)
Definition has (x mask : Z) : bool := negb (Z.land x mask =? 0).

(** The loop of [__arm_smmu_tlb_sync] after the write to sTLBGSYNC:
    [status k] is what the [k]-th read of sTLBGSTATUS returns, [n] the
    reads left before [count] reaches TLB_LOOP_TIMEOUT.  The result is
    [true] when the loop gives up. *)
Fixpoint tlb_sync_poll (status : nat -> Z) (n : nat) (k : nat) : bool :=
  if negb (has (u32 (status k)) sTLBGSTATUS_GSACTIVE) then false
  else match n with
       | O => true
       | S n' => if (n' =? 0)%nat then true else tlb_sync_poll status n' (S k)
       end.

(** [__arm_smmu_tlb_sync]. *)
Definition __arm_smmu_tlb_sync (status : nat -> Z) : list event :=
  [Writel GR0 ARM_SMMU_GR0_sTLBGSYNC 0]
  ++ (if tlb_sync_poll status (Z.to_nat TLB_LOOP_TIMEOUT) 0
      then [DevErr "TLB sync timed out -- SMMU may be deadlocked"]
      else []).

(** ** Context faults and the ATOS probe *)

Module Fault.

(** The device and domain fields the fault path reads.  [attached] is the
    domain's [smmu] pointer being set; [phys_mask] is PHYS_MASK, an
    architecture constant that is not under src/.  The code is the
    CONFIG_64BIT build. *)
Record fault_cfg := {
  options : Z;
  version : Z;
  cbndx : Z;
  cbar : Z;
  asid : Z;
  vmid : Z;
  non_fatal_faults : bool;
  attached : bool;
  phys_mask : Z;
  clk : Power.clk_cfg
}.

(** What one hardware probe finds: whether the ATSR poll sees the
    operation complete in time, and the PAR halves. *)
Record probe_in := {
  atsr_poll_ok : bool;
  par_lo_in : Z;
  par_hi_in : Z
}.

(** What the hardware, the secure monitor, the page-table walk and the
    domain owner answer during one fault. *)
Record fault_in := {
  fsr_in : Z;
  fsynr0_in : Z;
  far_lo_in : Z;
  far_hi_in : Z;
  cbfrsynra_in : Z;
  sctlr_in : Z;
  micro_mmu_ctrl_in : Z;
  halt_poll_ok : bool;
  tlbstatus_poll_ok : bool;
  gstatus_in : nat -> Z;
  scm_io_write_ret : Z;
  scm_restore_ret : Z;
  soft_walk : Z;              (* arm_smmu_iova_to_phys *)
  report_ret : Z;             (* report_iommu_fault *)
  ratelimit : bool;
  probe1 : probe_in;
  probe2 : probe_in;
  penv : Power.penv
}.

(** The gate and what has been sent so far. *)
Definition st : Type := Power.gate * list event.

Definition emit (e : event) (s : st) : st := (s.1, s.2 ++ [e]).

Definition writel_relaxed (v : Z) (r : region) (off : Z) (s : st) : st :=
  emit (Writel r off (u32 v)) s.

Definition writeq_relaxed (v : Z) (r : region) (off : Z) (s : st) : st :=
  emit (Writeq r off (u64 v)) s.

Definition dev_err (msg : string) (s : st) : st := emit (DevErr msg) s.

Arguments dev_err msg%_string s.

Definition arm_smmu_enable_clocks (c : fault_cfg) (i : fault_in) (s : st)
  : Z * st :=
  let '(r, g, _) := Power.arm_smmu_enable_clocks (clk c) (penv i) s.1 in
  (r, (g, s.2)).

Definition arm_smmu_disable_clocks (c : fault_cfg) (i : fault_in) (s : st)
  : st :=
  let '(_, g, _) := Power.arm_smmu_disable_clocks (clk c) (penv i) s.1 in
  (g, s.2).

Definition arm_smmu_is_static_cb (c : fault_cfg) : bool :=
  has (options c) ARM_SMMU_OPT_STATIC_CB.

(** [arm_smmu_wait_for_halt]. *)
Definition arm_smmu_wait_for_halt (i : fault_in) (s : st) : Z * st :=
  if halt_poll_ok i then (0, s)
  else (- EBUSY, dev_err "Couldn't halt SMMU!" s).

(** [__arm_smmu_halt]. *)
Definition __arm_smmu_halt (c : fault_cfg) (i : fault_in) (wait : bool)
  (s : st) : Z * st :=
  let reg := Z.lor (u32 (micro_mmu_ctrl_in i)) MICRO_MMU_CTRL_LOCAL_HALT_REQ in
  if arm_smmu_is_static_cb c
  then
    let s1 := emit (ScmIoWrite IMPL_DEF1 IMPL_DEF1_MICRO_MMU_CTRL reg) s in
    if negb (scm_io_write_ret i =? 0)
    then (- EINVAL, dev_err "scm_io_write fail. SMMU might not be halted" s1)
    else if wait then arm_smmu_wait_for_halt i s1 else (0, s1)
  else
    let s1 := writel_relaxed reg IMPL_DEF1 IMPL_DEF1_MICRO_MMU_CTRL s in
    if wait then arm_smmu_wait_for_halt i s1 else (0, s1).

Definition arm_smmu_halt (c : fault_cfg) (i : fault_in) (s : st) : Z * st :=
  __arm_smmu_halt c i true s.

Definition arm_smmu_halt_nowait (c : fault_cfg) (i : fault_in) (s : st)
  : Z * st :=
  __arm_smmu_halt c i false s.

(** [arm_smmu_restore_sec_cfg]. *)
Definition arm_smmu_restore_sec_cfg (c : fault_cfg) (i : fault_in) (s : st)
  : Z * st :=
  if negb (arm_smmu_is_static_cb c) then (0, s)
  else
    let s1 := emit ScmRestoreSecCfg s in
    if negb (scm_restore_ret i =? 0)
    then (- EINVAL, emit (DevErr "scm call IOMMU_SECURE_CFG failed") s1)
    else (0, s1).

(** [arm_smmu_resume]. *)
Definition arm_smmu_resume (c : fault_cfg) (i : fault_in) (s : st) : st :=
  let '(r, s1) := arm_smmu_restore_sec_cfg c i s in
  if negb (r =? 0) then s1
  else
    let reg := Z.land (u32 (micro_mmu_ctrl_in i))
                 (Z.lnot MICRO_MMU_CTRL_LOCAL_HALT_REQ) in
    if arm_smmu_is_static_cb c
    then
      let s2 := emit (ScmIoWrite IMPL_DEF1 IMPL_DEF1_MICRO_MMU_CTRL reg) s1 in
      if negb (scm_io_write_ret i =? 0)
      then dev_err "scm_io_write fail. SMMU might not be resumed" s2
      else s2
    else writel_relaxed reg IMPL_DEF1 IMPL_DEF1_MICRO_MMU_CTRL s1.

(** [arm_smmu_tlb_sync_cb]. *)
Definition arm_smmu_tlb_sync_cb (c : fault_cfg) (i : fault_in) (s : st) : st :=
  let s1 := writel_relaxed 0 (CB (cbndx c)) ARM_SMMU_CB_TLBSYNC s in
  if tlbstatus_poll_ok i then s1 else dev_err "TLBSYNC timeout!" s1.

(** [arm_smmu_tlb_inv_context]. *)
Definition arm_smmu_tlb_inv_context (c : fault_cfg) (i : fault_in) (s : st)
  : st :=
  if negb (attached c) then s
  else if negb (cbar c =? CBAR_TYPE_S2_TRANS)
  then
    arm_smmu_tlb_sync_cb c i
      (writel_relaxed (asid c) (CB (cbndx c)) ARM_SMMU_CB_S1_TLBIASID s)
  else
    let s1 := writel_relaxed (vmid c) GR0 ARM_SMMU_GR0_TLBIVMID s in
    (s1.1, s1.2 ++ __arm_smmu_tlb_sync (gstatus_in i)).

(** [__arm_smmu_iova_to_phys_hard]; [p] is what this probe finds in the
    hardware. *)
Definition __arm_smmu_iova_to_phys_hard (c : fault_cfg) (i : fault_in)
  (p : probe_in) (iova : Z) (do_halt : bool) (s : st) : Z * st :=
  let '(r, s1) := arm_smmu_enable_clocks c i s in
  if negb (r =? 0) then (0, s1)
  else
    let '(rh, s2) := if do_halt then arm_smmu_halt c i s1 else (0, s1) in
    let fail (s' : st) :=
      (0, dev_err "iova to phys failed. software table walk result follows"
            (arm_smmu_disable_clocks c i s')) in
    if negb (rh =? 0) then fail s2
    else
      let va := Z.land (u64 iova) (u64 (Z.lnot 0xfff)) in
      let s3 := if version c =? ARM_SMMU_V2
                then writeq_relaxed va (CB (cbndx c)) ARM_SMMU_CB_ATS1PR s2
                else writel_relaxed va (CB (cbndx c)) ARM_SMMU_CB_ATS1PR s2 in
      if negb (atsr_poll_ok p)
      then
        let s4 := dev_err "iova to phys timed out" s3 in
        fail (if do_halt then arm_smmu_resume c i s4 else s4)
      else
        let phys := Z.lor (u32 (par_lo_in p)) (Z.shiftl (u32 (par_hi_in p)) 32) in
        let s4 := if do_halt then arm_smmu_resume c i s3 else s3 in
        if has phys CB_PAR_F
        then
          (0, arm_smmu_disable_clocks c i
                (dev_err "PAR follows"
                   (dev_err "translation fault!" s4)))
        else
          (Z.lor (Z.land phys (Z.land (phys_mask c) (u64 (Z.lnot 0xfff))))
                 (Z.land (u64 iova) 0xfff),
           arm_smmu_disable_clocks c i s4).

Definition arm_smmu_iova_to_phys_hard (c : fault_cfg) (i : fault_in)
  (p : probe_in) (iova : Z) (s : st) : Z * st :=
  __arm_smmu_iova_to_phys_hard c i p iova true s.

Definition arm_smmu_iova_to_phys_hard_no_halt (c : fault_cfg) (i : fault_in)
  (p : probe_in) (iova : Z) (s : st) : Z * st :=
  __arm_smmu_iova_to_phys_hard c i p iova false s.

(** [arm_smmu_verify_fault]. *)
Definition arm_smmu_verify_fault (c : fault_cfg) (i : fault_in)
  (iova : Z) (fsr : Z) (s : st) : Z * st :=
  let '(_, s1) := arm_smmu_halt_nowait c i s in
  let s2 := writel_relaxed RESUME_TERMINATE (CB (cbndx c)) ARM_SMMU_CB_RESUME s1 in
  let '(_, s3) := arm_smmu_wait_for_halt i s2 in
  let s4 := writel_relaxed fsr (CB (cbndx c)) ARM_SMMU_CB_FSR s3 in
  let sctlr_orig := u32 (sctlr_in i) in
  let sctlr := Z.land sctlr_orig (Z.lnot SCTLR_CFCFG) in
  let s5 := writel_relaxed sctlr (CB (cbndx c)) ARM_SMMU_CB_SCTLR s4 in
  let '(phys, s6) := arm_smmu_iova_to_phys_hard_no_halt c i (probe1 i) iova s5 in
  let '(phys', s7) :=
    if phys =? 0
    then
      let s61 := dev_err "ATOS failed. Will issue a TLBIALL and try again..." s6 in
      let s62 := arm_smmu_tlb_inv_context c i s61 in
      let '(phys2, s63) :=
        arm_smmu_iova_to_phys_hard_no_halt c i (probe2 i) iova s62 in
      if negb (phys2 =? 0)
      then (phys2, dev_err "ATOS succeeded this time." s63)
      else (phys2, dev_err "ATOS still failed." s63)
    else (phys, s6) in
  let s8 := writel_relaxed sctlr_orig (CB (cbndx c)) ARM_SMMU_CB_SCTLR s7 in
  (phys', arm_smmu_resume c i s8).

(** How the interrupt handler ends. *)
Inductive irqreturn :=
| IRQ_NONE
| IRQ_HANDLED
| BUG.

(** [arm_smmu_context_fault]. *)
Definition arm_smmu_context_fault (c : fault_cfg) (i : fault_in) (s : st)
  : irqreturn * st :=
  if negb (attached c)
  then (IRQ_HANDLED, emit (DevErr "took a fault on a detached domain") s)
  else
    let ctx_hang_errata := has (options c) ARM_SMMU_OPT_ERRATA_CTX_FAULT_HANG in
    let fatal_asf := has (options c) ARM_SMMU_OPT_FATAL_ASF in
    let '(r, s1) := arm_smmu_enable_clocks c i s in
    if negb (r =? 0) then (IRQ_NONE, s1)
    else
      let fsr := u32 (fsr_in i) in
      if negb (has fsr FSR_FAULT)
      then (IRQ_NONE, arm_smmu_disable_clocks c i s1)
      else if fatal_asf && has fsr FSR_ASF
      then (BUG, dev_err "Took an address size fault.  Refusing to recover." s1)
      else
        let far := Z.lor (u32 (far_lo_in i)) (Z.shiftl (u32 (far_hi_in i)) 32) in
        let iova := far in
        let tmp := report_ret i in
        let handled := (tmp =? 0) || (tmp =? - EBUSY) in
        let '(ret, s2) :=
          if handled then (IRQ_HANDLED, s1)
          else
            let '(_, sv) := arm_smmu_verify_fault c i iova fsr s1 in
            let sl := if ratelimit i
                      then dev_err "Unhandled context fault" sv else sv in
            if negb (non_fatal_faults c)
            then (BUG,
                  dev_err "Unhandled context faults are fatal on this domain. Going down now..." sl)
            else (IRQ_NONE, sl) in
        match ret with
        | BUG => (BUG, s2)
        | _ =>
            let resume := RESUME_TERMINATE in
            let s3 :=
              if negb (tmp =? - EBUSY)
              then
                let s21 := writel_relaxed fsr (CB (cbndx c)) ARM_SMMU_CB_FSR s2 in
                if has fsr FSR_SS
                then
                  let s22 := if ctx_hang_errata
                             then arm_smmu_tlb_sync_cb c i s21 else s21 in
                  writel_relaxed resume (CB (cbndx c)) ARM_SMMU_CB_RESUME s22
                else s21
              else s2 in
            (ret, arm_smmu_disable_clocks c i s3)
        end.

(** *** The probe with the gate held *)

(** The gate is held by an enclosing caller: both counts are positive
    (and not at the top of their range). *)
Definition gate_held (g : Power.gate) : Prop :=
  1 <= Power.power_count g < UINT_MAX /\
  1 <= Power.clock_refs_count g < UINT_MAX.

(** A nested acquire makes no platform call and cannot fail; the matching
    release gives the gate back as it was. *)
Lemma nested_clocks (cfg : Power.clk_cfg) (env : Power.penv) (g : Power.gate) :
  gate_held g ->
  exists g1,
    Power.arm_smmu_enable_clocks cfg env g = (0, g1, []) /\
    Power.arm_smmu_disable_clocks cfg env g1 = (tt, g, []).
Proof.
  intros [Hp Hr].
  exists (Power.set_clock_refs_count
            (Power.set_power_count g (Power.power_count g + 1))
            (Power.clock_refs_count g + 1)).
  unfold Power.arm_smmu_enable_clocks, Power.arm_smmu_disable_clocks, Power.bind.
  rewrite Power.enable_regulators_inc by lia.
  rewrite Power.u32_small by lia. cbn [negb Z.eqb].
  unfold Power.arm_smmu_enable_clocks_atomic, Power.arm_smmu_disable_clocks_atomic.
  cbn [Power.clock_refs_count Power.set_power_count Power.set_clock_refs_count].
  rewrite !Power.u32_small by lia.
  replace (0 <? Power.clock_refs_count g) with true by (symmetry; apply Z.ltb_lt; lia).
  replace (1 <? Power.clock_refs_count g + 1) with true
    by (symmetry; apply Z.ltb_lt; lia).
  cbn [negb Z.eqb Power.ret]. split; [reflexivity|].
  rewrite Power.disable_regulators_dec by (cbn; lia).
  cbn. rewrite Power.u32_small by lia.
  replace (Power.power_count g + 1 - 1) with (Power.power_count g) by lia.
  replace (Power.clock_refs_count g + 1 - 1) with (Power.clock_refs_count g) by lia.
  destruct g. reflexivity.
Qed.

(** What the probe without halt sends and returns, from the probe's
    inputs alone. *)
Definition probe_value (c : fault_cfg) (p : probe_in) (iova : Z) : Z :=
  let phys := Z.lor (u32 (par_lo_in p)) (Z.shiftl (u32 (par_hi_in p)) 32) in
  if negb (atsr_poll_ok p) then 0
  else if has phys CB_PAR_F then 0
  else Z.lor (Z.land phys (Z.land (phys_mask c) (u64 (Z.lnot 0xfff))))
             (Z.land (u64 iova) 0xfff).

Definition ats1pr_write (c : fault_cfg) (iova : Z) : event :=
  let va := Z.land (u64 iova) (u64 (Z.lnot 0xfff)) in
  if version c =? ARM_SMMU_V2
  then Writeq (CB (cbndx c)) ARM_SMMU_CB_ATS1PR (u64 va)
  else Writel (CB (cbndx c)) ARM_SMMU_CB_ATS1PR (u32 va).

Definition probe_events (c : fault_cfg) (p : probe_in) (iova : Z) : list event :=
  let phys := Z.lor (u32 (par_lo_in p)) (Z.shiftl (u32 (par_hi_in p)) 32) in
  ats1pr_write c iova ::
  (if negb (atsr_poll_ok p)
   then [DevErr "iova to phys timed out";
         DevErr "iova to phys failed. software table walk result follows"]
   else if has phys CB_PAR_F
        then [DevErr "translation fault!"; DevErr "PAR follows"]
        else []).

Lemma probe_no_halt_held (c : fault_cfg) (i : fault_in) (p : probe_in)
  (iova : Z) (g : Power.gate) (t : list event) :
  gate_held g ->
  arm_smmu_iova_to_phys_hard_no_halt c i p iova (g, t)
  = (probe_value c p iova, (g, t ++ probe_events c p iova)).
Proof.
  intros Hg. destruct (nested_clocks (clk c) (penv i) g Hg) as (g1 & He & Hd).
  unfold arm_smmu_iova_to_phys_hard_no_halt, __arm_smmu_iova_to_phys_hard,
    arm_smmu_enable_clocks, arm_smmu_disable_clocks, probe_value, probe_events,
    ats1pr_write, dev_err, writeq_relaxed, writel_relaxed, emit.
  cbn [fst snd]. rewrite He. cbn [negb Z.eqb fst snd].
  destruct (version c =? ARM_SMMU_V2), (atsr_poll_ok p); cbn [negb fst snd];
    try destruct (has _ CB_PAR_F); cbn [fst snd]; rewrite Hd;
    cbn [fst snd]; rewrite <- ?app_assoc; reflexivity.
Qed.

(** What the helpers of the fault path send. *)
Definition wait_for_halt_events (i : fault_in) : list event :=
  if halt_poll_ok i then [] else [DevErr "Couldn't halt SMMU!"].

Definition halt_nowait_events (c : fault_cfg) (i : fault_in) : list event :=
  let reg := Z.lor (u32 (micro_mmu_ctrl_in i)) MICRO_MMU_CTRL_LOCAL_HALT_REQ in
  if arm_smmu_is_static_cb c
  then ScmIoWrite IMPL_DEF1 IMPL_DEF1_MICRO_MMU_CTRL reg ::
       (if negb (scm_io_write_ret i =? 0)
        then [DevErr "scm_io_write fail. SMMU might not be halted"] else [])
  else [Writel IMPL_DEF1 IMPL_DEF1_MICRO_MMU_CTRL (u32 reg)].

Definition resume_events (c : fault_cfg) (i : fault_in) : list event :=
  let reg := Z.land (u32 (micro_mmu_ctrl_in i))
               (Z.lnot MICRO_MMU_CTRL_LOCAL_HALT_REQ) in
  if arm_smmu_is_static_cb c
  then ScmRestoreSecCfg ::
       (if negb (scm_restore_ret i =? 0)
        then [DevErr "scm call IOMMU_SECURE_CFG failed"]
        else ScmIoWrite IMPL_DEF1 IMPL_DEF1_MICRO_MMU_CTRL reg ::
             (if negb (scm_io_write_ret i =? 0)
              then [DevErr "scm_io_write fail. SMMU might not be resumed"]
              else []))
  else [Writel IMPL_DEF1 IMPL_DEF1_MICRO_MMU_CTRL (u32 reg)].

Definition tlb_sync_cb_events (c : fault_cfg) (i : fault_in) : list event :=
  Writel (CB (cbndx c)) ARM_SMMU_CB_TLBSYNC (u32 0) ::
  (if tlbstatus_poll_ok i then [] else [DevErr "TLBSYNC timeout!"]).

Definition tlb_inv_context_events (c : fault_cfg) (i : fault_in) : list event :=
  if negb (attached c) then []
  else if negb (cbar c =? CBAR_TYPE_S2_TRANS)
  then Writel (CB (cbndx c)) ARM_SMMU_CB_S1_TLBIASID (u32 (asid c))
       :: tlb_sync_cb_events c i
  else Writel GR0 ARM_SMMU_GR0_TLBIVMID (u32 (vmid c))
       :: __arm_smmu_tlb_sync (gstatus_in i).

Lemma halt_nowait_run (c : fault_cfg) (i : fault_in) (g : Power.gate)
  (t : list event) :
  (arm_smmu_halt_nowait c i (g, t)).2 = (g, t ++ halt_nowait_events c i).
Proof.
  unfold arm_smmu_halt_nowait, __arm_smmu_halt, halt_nowait_events,
    dev_err, writel_relaxed, emit.
  destruct (arm_smmu_is_static_cb c); [destruct (negb _)|];
    cbn [fst snd]; rewrite <- ?app_assoc; reflexivity.
Qed.

Lemma wait_for_halt_run (i : fault_in) (g : Power.gate) (t : list event) :
  (arm_smmu_wait_for_halt i (g, t)).2 = (g, t ++ wait_for_halt_events i).
Proof.
  unfold arm_smmu_wait_for_halt, wait_for_halt_events, dev_err, emit.
  destruct (halt_poll_ok i); cbn [fst snd]; rewrite ?app_nil_r; reflexivity.
Qed.

Lemma resume_run (c : fault_cfg) (i : fault_in) (g : Power.gate)
  (t : list event) :
  arm_smmu_resume c i (g, t) = (g, t ++ resume_events c i).
Proof.
  unfold arm_smmu_resume, arm_smmu_restore_sec_cfg, resume_events,
    dev_err, writel_relaxed, emit.
  destruct (arm_smmu_is_static_cb c); cbn [negb fst snd];
    [destruct (negb (scm_restore_ret i =? 0)); cbn [negb Z.eqb fst snd];
     [|destruct (negb (scm_io_write_ret i =? 0))]|];
    cbn [fst snd]; rewrite <- ?app_assoc; reflexivity.
Qed.

Lemma tlb_sync_cb_run (c : fault_cfg) (i : fault_in) (g : Power.gate)
  (t : list event) :
  arm_smmu_tlb_sync_cb c i (g, t) = (g, t ++ tlb_sync_cb_events c i).
Proof.
  unfold arm_smmu_tlb_sync_cb, tlb_sync_cb_events, dev_err, writel_relaxed, emit.
  destruct (tlbstatus_poll_ok i); cbn [fst snd]; rewrite <- ?app_assoc;
    reflexivity.
Qed.

Lemma tlb_inv_context_run (c : fault_cfg) (i : fault_in) (g : Power.gate)
  (t : list event) :
  arm_smmu_tlb_inv_context c i (g, t) = (g, t ++ tlb_inv_context_events c i).
Proof.
  unfold arm_smmu_tlb_inv_context, tlb_inv_context_events.
  destruct (negb (attached c)); [rewrite app_nil_r; reflexivity|].
  destruct (negb (cbar c =? CBAR_TYPE_S2_TRANS)).
  - unfold writel_relaxed, emit. cbn [fst snd]. rewrite tlb_sync_cb_run.
    rewrite <- app_assoc. reflexivity.
  - unfold writel_relaxed, emit. cbn [fst snd]. rewrite <- app_assoc.
    reflexivity.
Qed.

(** The writes of [arm_smmu_verify_fault] before the first probe and
    after the last. *)
Definition before_probe_events (c : fault_cfg) (i : fault_in) (fsr : Z)
  : list event :=
  halt_nowait_events c i
  ++ [Writel (CB (cbndx c)) ARM_SMMU_CB_RESUME (u32 RESUME_TERMINATE)]
  ++ wait_for_halt_events i
  ++ [Writel (CB (cbndx c)) ARM_SMMU_CB_FSR (u32 fsr);
      Writel (CB (cbndx c)) ARM_SMMU_CB_SCTLR
        (u32 (Z.land (u32 (sctlr_in i)) (Z.lnot SCTLR_CFCFG)))].

Definition after_probe_events (c : fault_cfg) (i : fault_in) : list event :=
  Writel (CB (cbndx c)) ARM_SMMU_CB_SCTLR (u32 (u32 (sctlr_in i)))
  :: resume_events c i.

(** [arm_smmu_verify_fault] with the gate held, written out. *)
Lemma verify_fault_held (c : fault_cfg) (i : fault_in) (iova fsr : Z)
  (g : Power.gate) (t : list event) :
  gate_held g ->
  let v1 := probe_value c (probe1 i) iova in
  let v2 := probe_value c (probe2 i) iova in
  arm_smmu_verify_fault c i iova fsr (g, t)
  = (if v1 =? 0 then v2 else v1,
     (g, t ++ before_probe_events c i fsr
           ++ probe_events c (probe1 i) iova
           ++ (if v1 =? 0
               then [DevErr "ATOS failed. Will issue a TLBIALL and try again..."]
                    ++ tlb_inv_context_events c i
                    ++ probe_events c (probe2 i) iova
                    ++ [if negb (v2 =? 0)
                        then DevErr "ATOS succeeded this time."
                        else DevErr "ATOS still failed."]
               else [])
           ++ after_probe_events c i)).
Proof.
  intros Hg v1 v2. unfold arm_smmu_verify_fault.
  pose proof (halt_nowait_run c i g t) as H1.
  destruct (arm_smmu_halt_nowait c i (g, t)) as [r1 s1]. cbn [snd] in H1.
  subst s1. unfold writel_relaxed at 1, emit. cbn [fst snd].
  match goal with
  | |- context [arm_smmu_wait_for_halt i (g, ?tt)] =>
      pose proof (wait_for_halt_run i g tt) as H2;
      destruct (arm_smmu_wait_for_halt i (g, tt)) as [r2 s2]
  end.
  cbn [snd] in H2. subst s2.
  unfold writel_relaxed at 1 2, emit. cbn [fst snd].
  rewrite probe_no_halt_held by assumption. fold v1.
  destruct (v1 =? 0) eqn:E1.
  - unfold dev_err at 1, emit. cbn [fst snd].
    rewrite tlb_inv_context_run, probe_no_halt_held by assumption. fold v2.
    destruct (negb (v2 =? 0)); unfold dev_err, writel_relaxed, emit;
      cbn [fst snd]; rewrite resume_run;
      unfold before_probe_events, after_probe_events;
      repeat (rewrite <- ?app_assoc; cbn [app]); reflexivity.
  - unfold writel_relaxed, emit. cbn [fst snd]. rewrite resume_run.
    unfold before_probe_events, after_probe_events.
    repeat (rewrite <- ?app_assoc; cbn [app]). reflexivity.
Qed.

(** A probe is issued by the write to ATS1PR. *)
Definition is_ats1pr (e : event) : bool :=
  match e with
  | Writel (CB _) off _ | Writeq (CB _) off _ => off =? ARM_SMMU_CB_ATS1PR
  | _ => false
  end.

Fixpoint probes_issued (t : list event) : nat :=
  match t with
  | [] => 0%nat
  | e :: t' => ((if is_ats1pr e then 1 else 0) + probes_issued t')%nat
  end.

(** The write that starts the invalidation of the context's TLB entries. *)
Definition tlbi_write (c : fault_cfg) : event :=
  if negb (cbar c =? CBAR_TYPE_S2_TRANS)
  then Writel (CB (cbndx c)) ARM_SMMU_CB_S1_TLBIASID (u32 (asid c))
  else Writel GR0 ARM_SMMU_GR0_TLBIVMID (u32 (vmid c)).

Lemma probes_issued_app (t1 t2 : list event) :
  probes_issued (t1 ++ t2) = (probes_issued t1 + probes_issued t2)%nat.
Proof.
  induction t1 as [|e t1 IH]; cbn [app probes_issued]; [reflexivity|].
  rewrite IH. lia.
Qed.

Lemma probes_issued_probe (c : fault_cfg) (p : probe_in) (iova : Z) :
  probes_issued (probe_events c p iova) = 1%nat.
Proof.
  unfold probe_events, ats1pr_write.
  destruct (version c =? ARM_SMMU_V2), (negb (atsr_poll_ok p));
    try destruct (has _ CB_PAR_F); reflexivity.
Qed.

Lemma probes_issued_before (c : fault_cfg) (i : fault_in) (fsr : Z) :
  probes_issued (before_probe_events c i fsr) = 0%nat.
Proof.
  unfold before_probe_events, halt_nowait_events, wait_for_halt_events.
  destruct (arm_smmu_is_static_cb c), (negb (scm_io_write_ret i =? 0)),
    (halt_poll_ok i); reflexivity.
Qed.

Lemma probes_issued_after (c : fault_cfg) (i : fault_in) :
  probes_issued (after_probe_events c i) = 0%nat.
Proof.
  unfold after_probe_events, resume_events.
  destruct (arm_smmu_is_static_cb c), (negb (scm_restore_ret i =? 0)),
    (negb (scm_io_write_ret i =? 0)); reflexivity.
Qed.

Lemma probes_issued_tlb_sync (status : nat -> Z) :
  probes_issued (__arm_smmu_tlb_sync status) = 0%nat.
Proof.
  unfold __arm_smmu_tlb_sync. destruct (tlb_sync_poll _ _ _); reflexivity.
Qed.

Lemma probes_issued_tlb_inv (c : fault_cfg) (i : fault_in) :
  probes_issued (tlb_inv_context_events c i) = 0%nat.
Proof.
  unfold tlb_inv_context_events, tlb_sync_cb_events.
  destruct (negb (attached c)); [reflexivity|].
  destruct (negb (cbar c =? CBAR_TYPE_S2_TRANS)).
  - destruct (tlbstatus_poll_ok i); reflexivity.
  - cbn [probes_issued is_ats1pr]. apply probes_issued_tlb_sync.
Qed.


(** *** Writes to the fault-status and RESUME registers *)

Definition is_status_write (e : event) : bool :=
  match e with
  | Writel (CB _) off _ =>
      (off =? ARM_SMMU_CB_FSR) || (off =? ARM_SMMU_CB_RESUME)
  | _ => false
  end.

(** The writes to FSR and RESUME among what was sent, in order. *)
Definition status_writes (t : list event) : list event :=
  List.filter is_status_write t.

Lemma status_writes_app (t1 t2 : list event) :
  status_writes (t1 ++ t2) = status_writes t1 ++ status_writes t2.
Proof. apply List.filter_app. Qed.

Lemma enable_clocks_trace (c : fault_cfg) (i : fault_in) (s : st) :
  (arm_smmu_enable_clocks c i s).2.2 = s.2.
Proof.
  unfold arm_smmu_enable_clocks.
  destruct (Power.arm_smmu_enable_clocks _ _ _) as [[r g] t]. reflexivity.
Qed.

Lemma disable_clocks_trace (c : fault_cfg) (i : fault_in) (s : st) :
  (arm_smmu_disable_clocks c i s).2 = s.2.
Proof.
  unfold arm_smmu_disable_clocks.
  destruct (Power.arm_smmu_disable_clocks _ _ _) as [[r g] t]. reflexivity.
Qed.

(** A probe without halt adds no write to FSR or RESUME. *)
Lemma probe_no_halt_status (c : fault_cfg) (i : fault_in) (p : probe_in)
  (iova : Z) (s : st) :
  exists d,
    (arm_smmu_iova_to_phys_hard_no_halt c i p iova s).2.2 = s.2 ++ d /\
    status_writes d = [].
Proof.
  unfold arm_smmu_iova_to_phys_hard_no_halt, __arm_smmu_iova_to_phys_hard.
  pose proof (enable_clocks_trace c i s) as He.
  destruct (arm_smmu_enable_clocks c i s) as [r s1]. cbn [fst snd] in He.
  destruct (negb (r =? 0)).
  { exists []. cbn [fst snd]. rewrite He, app_nil_r. split; reflexivity. }
  cbn [negb Z.eqb].
  unfold dev_err, writeq_relaxed, writel_relaxed, emit.
  destruct (version c =? ARM_SMMU_V2), (negb (atsr_poll_ok p));
    try destruct (has _ CB_PAR_F);
    cbn [fst snd]; rewrite ?disable_clocks_trace; cbn [fst snd];
    rewrite He, <- ?app_assoc; eexists; (split; [reflexivity|reflexivity]).
Qed.

Lemma status_writes_cons (e : event) (t : list event) :
  status_writes (e :: t)
  = (if is_status_write e then [e] else []) ++ status_writes t.
Proof.
  unfold status_writes. cbn [List.filter]. destruct (is_status_write e);
    reflexivity.
Qed.

Ltac status_norm :=
  repeat first
    [ rewrite status_writes_app
    | rewrite status_writes_cons
    | progress cbn [is_status_write app]
    | progress simpl (_ =? _)
    | progress cbn [orb] ].

Lemma status_writes_halt_nowait (c : fault_cfg) (i : fault_in) :
  status_writes (halt_nowait_events c i) = [].
Proof.
  unfold halt_nowait_events.
  destruct (arm_smmu_is_static_cb c), (negb (scm_io_write_ret i =? 0));
    reflexivity.
Qed.

Lemma status_writes_wait_for_halt (i : fault_in) :
  status_writes (wait_for_halt_events i) = [].
Proof. unfold wait_for_halt_events. destruct (halt_poll_ok i); reflexivity. Qed.

Lemma status_writes_resume (c : fault_cfg) (i : fault_in) :
  status_writes (resume_events c i) = [].
Proof.
  unfold resume_events.
  destruct (arm_smmu_is_static_cb c), (negb (scm_restore_ret i =? 0)),
    (negb (scm_io_write_ret i =? 0)); reflexivity.
Qed.

Lemma status_writes_tlb_sync_cb (c : fault_cfg) (i : fault_in) :
  status_writes (tlb_sync_cb_events c i) = [].
Proof.
  unfold tlb_sync_cb_events. destruct (tlbstatus_poll_ok i); reflexivity.
Qed.

Lemma status_writes_tlb_inv (c : fault_cfg) (i : fault_in) :
  status_writes (tlb_inv_context_events c i) = [].
Proof.
  unfold tlb_inv_context_events.
  destruct (negb (attached c)); [reflexivity|].
  destruct (negb (cbar c =? CBAR_TYPE_S2_TRANS)).
  - cbn [status_writes List.filter is_status_write].
    change (ARM_SMMU_CB_S1_TLBIASID =? ARM_SMMU_CB_FSR) with false.
    change (ARM_SMMU_CB_S1_TLBIASID =? ARM_SMMU_CB_RESUME) with false.
    cbn [orb]. apply status_writes_tlb_sync_cb.
  - unfold __arm_smmu_tlb_sync. destruct (tlb_sync_poll _ _ _); reflexivity.
Qed.

(** The diagnostic probe terminates the stalled transaction and clears
    the fault status before it probes; nothing else it sends goes to
    these two registers. *)
Lemma verify_fault_status (c : fault_cfg) (i : fault_in) (iova fsr : Z)
  (g : Power.gate) (t : list event) :
  exists d,
    (arm_smmu_verify_fault c i iova fsr (g, t)).2.2 = t ++ d /\
    status_writes d
    = [Writel (CB (cbndx c)) ARM_SMMU_CB_RESUME (u32 RESUME_TERMINATE);
       Writel (CB (cbndx c)) ARM_SMMU_CB_FSR (u32 fsr)].
Proof.
  unfold arm_smmu_verify_fault.
  pose proof (halt_nowait_run c i g t) as H1.
  destruct (arm_smmu_halt_nowait c i (g, t)) as [r1 s1]. cbn [snd] in H1.
  subst s1. unfold writel_relaxed at 1, emit. cbn [fst snd].
  match goal with
  | |- context [arm_smmu_wait_for_halt i (g, ?tt)] =>
      pose proof (wait_for_halt_run i g tt) as H2;
      destruct (arm_smmu_wait_for_halt i (g, tt)) as [r2 s2]
  end.
  cbn [snd] in H2. subst s2.
  unfold writel_relaxed at 1 2, emit. cbn [fst snd].
  match goal with
  | |- context [arm_smmu_iova_to_phys_hard_no_halt c i (probe1 i) iova ?s] =>
      destruct (probe_no_halt_status c i (probe1 i) iova s) as (d1 & Hd1 & Hs1);
      destruct (arm_smmu_iova_to_phys_hard_no_halt c i (probe1 i) iova s)
        as [phys [g6 t6]]
  end.
  cbn [fst snd] in Hd1. subst t6.
  destruct (phys =? 0).
  - unfold dev_err at 1, emit. cbn [fst snd]. rewrite tlb_inv_context_run.
    match goal with
    | |- context [arm_smmu_iova_to_phys_hard_no_halt c i (probe2 i) iova ?s] =>
        destruct (probe_no_halt_status c i (probe2 i) iova s) as (d2 & Hd2 & Hs2);
        destruct (arm_smmu_iova_to_phys_hard_no_halt c i (probe2 i) iova s)
          as [phys2 [g7 t7]]
    end.
    cbn [fst snd] in Hd2. subst t7.
    destruct (negb (phys2 =? 0)); unfold dev_err, writel_relaxed, emit;
      cbn [fst snd]; rewrite resume_run; cbn [fst snd];
      repeat (rewrite <- ?app_assoc; cbn [app]);
      (eexists; split; [reflexivity|]);
      status_norm;
      rewrite ?status_writes_halt_nowait, ?status_writes_wait_for_halt,
        ?status_writes_resume, ?status_writes_tlb_inv, ?Hs1, ?Hs2;
      reflexivity.
  - unfold writel_relaxed, emit. cbn [fst snd]. rewrite resume_run.
    cbn [fst snd]. repeat (rewrite <- ?app_assoc; cbn [app]).
    eexists. split; [reflexivity|].
    status_norm.
    rewrite ?status_writes_halt_nowait, ?status_writes_wait_for_halt,
      ?status_writes_resume, ?Hs1.
    reflexivity.
Qed.

(** *** The interrupt handler *)

(** The handler gets as far as the owner's callback: the domain is
    attached, the clocks come up, the status register shows a fault, and
    the fault is not an address-size fault on a device that refuses to
    recover from one. *)
Definition callback_reached (c : fault_cfg) (i : fault_in) (s : st) : Prop :=
  attached c = true /\
  (arm_smmu_enable_clocks c i s).1 = 0 /\
  has (u32 (fsr_in i)) FSR_FAULT = true /\
  (has (options c) ARM_SMMU_OPT_FATAL_ASF && has (u32 (fsr_in i)) FSR_ASF)
  = false.

(** What one run of the handler sends. *)
Definition handler_events (c : fault_cfg) (i : fault_in) (s : st)
  : list event :=
  drop (length s.2) (arm_smmu_context_fault c i s).2.2.

Definition clear_fsr (c : fault_cfg) (i : fault_in) : event :=
  Writel (CB (cbndx c)) ARM_SMMU_CB_FSR (u32 (fsr_in i)).

Definition resume_terminate (c : fault_cfg) : event :=
  Writel (CB (cbndx c)) ARM_SMMU_CB_RESUME RESUME_TERMINATE.

Definition stalled (i : fault_in) : bool := has (u32 (fsr_in i)) FSR_SS.

(** The handler's own tail: clear the status, then resume if stalled. *)
Definition clear_then_resume (c : fault_cfg) (i : fault_in) : list event :=
  clear_fsr c i ::
  (if stalled i
   then (if has (options c) ARM_SMMU_OPT_ERRATA_CTX_FAULT_HANG
         then tlb_sync_cb_events c i else [])
        ++ [resume_terminate c]
   else []).

Lemma status_writes_clear_then_resume (c : fault_cfg) (i : fault_in) :
  status_writes (clear_then_resume c i)
  = clear_fsr c i :: (if stalled i then [resume_terminate c] else []).
Proof.
  unfold clear_then_resume, clear_fsr, resume_terminate.
  destruct (stalled i); status_norm; [|reflexivity].
  destruct (has (options c) ARM_SMMU_OPT_ERRATA_CTX_FAULT_HANG);
    rewrite ?status_writes_tlb_sync_cb; reflexivity.
Qed.

(** The handler's tail as run on a state. *)
Lemma handler_tail_run (c : fault_cfg) (i : fault_in) (g : Power.gate)
  (t : list event) :
  (arm_smmu_disable_clocks c i
     (let s21 := writel_relaxed (u32 (fsr_in i)) (CB (cbndx c))
                   ARM_SMMU_CB_FSR (g, t) in
      if has (u32 (fsr_in i)) FSR_SS
      then
        let s22 := if has (options c) ARM_SMMU_OPT_ERRATA_CTX_FAULT_HANG
                   then arm_smmu_tlb_sync_cb c i s21 else s21 in
        writel_relaxed RESUME_TERMINATE (CB (cbndx c)) ARM_SMMU_CB_RESUME s22
      else s21)).2
  = t ++ clear_then_resume c i.
Proof.
  rewrite disable_clocks_trace. cbv zeta.
  unfold clear_then_resume, stalled, clear_fsr, resume_terminate.
  destruct (has (u32 (fsr_in i)) FSR_SS);
    [destruct (has (options c) ARM_SMMU_OPT_ERRATA_CTX_FAULT_HANG)|];
    unfold writel_relaxed, emit; cbn [fst snd];
    rewrite ?tlb_sync_cb_run; cbn [fst snd];
    rewrite ?u32_idem, <- ?app_assoc; reflexivity.
Qed.

Lemma drop_prefix (t d : list event) : drop (length t) (t ++ d) = d.
Proof. induction t as [|e t IH]; [apply drop_0 | exact IH]. Qed.

Ltac enter_handler Hr :=
  destruct Hr as (Hatt & Hclk & Hfault & Hasf);
  unfold arm_smmu_context_fault; rewrite Hatt; cbn [negb];
  match goal with
  | |- context [arm_smmu_enable_clocks ?c ?i ?s] =>
      pose proof (enable_clocks_trace c i s) as Htr;
      destruct (arm_smmu_enable_clocks c i s) as [r [g1 t1]];
      cbn [fst snd] in Hclk, Htr; subst r t1
  end;
  cbn [Z.eqb negb]; cbv zeta; rewrite Hfault, Hasf; cbn [negb].

(** Busy: the handler sends nothing at all. *)
Lemma context_fault_busy (c : fault_cfg) (i : fault_in) (g : Power.gate)
  (t : list event) :
  callback_reached c i (g, t) -> report_ret i = - EBUSY ->
  (arm_smmu_context_fault c i (g, t)).1 = IRQ_HANDLED /\
  (arm_smmu_context_fault c i (g, t)).2.2 = t.
Proof.
  intros Hr Hb. enter_handler Hr. rewrite Hb.
  change (- EBUSY =? 0) with false. rewrite Z.eqb_refl. cbn [orb negb fst snd].
  rewrite disable_clocks_trace. split; reflexivity.
Qed.

(** Success: the handler clears the status and resumes a stalled
    transaction. *)
Lemma context_fault_success (c : fault_cfg) (i : fault_in) (g : Power.gate)
  (t : list event) :
  callback_reached c i (g, t) -> report_ret i = 0 ->
  (arm_smmu_context_fault c i (g, t)).1 = IRQ_HANDLED /\
  (arm_smmu_context_fault c i (g, t)).2.2 = t ++ clear_then_resume c i.
Proof.
  intros Hr Hb. enter_handler Hr. rewrite Hb.
  change (0 =? - EBUSY) with false. cbn [Z.eqb orb negb fst snd].
  split; [reflexivity|]. apply handler_tail_run.
Qed.

(** Any other result: the diagnostic probe runs first. *)
Lemma context_fault_unhandled (c : fault_cfg) (i : fault_in) (g : Power.gate)
  (t : list event) :
  callback_reached c i (g, t) ->
  report_ret i <> 0 -> report_ret i <> - EBUSY ->
  exists dv,
    status_writes dv = [resume_terminate c; clear_fsr c i] /\
    if non_fatal_faults c
    then (arm_smmu_context_fault c i (g, t)).1 = IRQ_NONE /\
         (arm_smmu_context_fault c i (g, t)).2.2
         = t ++ dv ++ clear_then_resume c i
    else (arm_smmu_context_fault c i (g, t)).1 = BUG /\
         (arm_smmu_context_fault c i (g, t)).2.2 = t ++ dv.
Proof.
  intros Hr H0 Hb. enter_handler Hr.
  apply Z.eqb_neq in H0, Hb. rewrite H0, Hb. cbn [orb negb].
  match goal with
  | |- context [arm_smmu_verify_fault c i ?iova ?fsr (g1, t)] =>
      destruct (verify_fault_status c i iova fsr g1 t) as (d & Hd & Hs);
      destruct (arm_smmu_verify_fault c i iova fsr (g1, t)) as [ph [gv tv]]
  end.
  cbn [fst snd] in Hd. subst tv. rewrite u32_idem in Hs.
  exists (d ++ (if ratelimit i then [DevErr "Unhandled context fault"] else [])
            ++ (if non_fatal_faults c then []
                else [DevErr "Unhandled context faults are fatal on this domain. Going down now..."])).
  split.
  { rewrite !status_writes_app, Hs.
    destruct (ratelimit i), (non_fatal_faults c); reflexivity. }
  destruct (non_fatal_faults c); cbn [negb fst snd].
  - split; [destruct (ratelimit i); reflexivity|].
    destruct (ratelimit i); unfold dev_err, emit; cbn [fst snd];
      rewrite handler_tail_run, ?app_nil_r, <- ?app_assoc; reflexivity.
  - split; [reflexivity|].
    destruct (ratelimit i); unfold dev_err, emit; cbn [fst snd];
      rewrite <- ?app_assoc; reflexivity.
Qed.

(** **** Concrete faults *)

(** A stage-1 bank on a version-2 device whose owner tolerates unhandled
    faults. *)
Definition fault_cfg0 : fault_cfg :=
  {| options := 0; version := ARM_SMMU_V2; cbndx := 3; cbar := 1;
     asid := 3; vmid := 0; non_fatal_faults := true; attached := true;
     phys_mask := 0xffffffffffff; clk := Power.c6_cfg |}.

Definition probe_hit : probe_in :=
  {| atsr_poll_ok := true; par_lo_in := 0x80001000; par_hi_in := 0 |}.

Definition probe_miss : probe_in :=
  {| atsr_poll_ok := true; par_lo_in := 1; par_hi_in := 0 |}.

(** A fault with status [fsr] to which the owner answers [ret]; every
    collaborator succeeds and both probes miss. *)
Definition fault_in0 (fsr ret : Z) : fault_in :=
  {| fsr_in := fsr; fsynr0_in := 0; far_lo_in := 0x1000; far_hi_in := 0;
     cbfrsynra_in := 0; sctlr_in := 0xc3; micro_mmu_ctrl_in := 0;
     halt_poll_ok := true; tlbstatus_poll_ok := true;
     gstatus_in := fun _ => 0; scm_io_write_ret := 0; scm_restore_ret := 0;
     soft_walk := 0; report_ret := ret; ratelimit := true;
     probe1 := probe_miss; probe2 := probe_miss;
     penv := Power.env_all_ok |}.

Definition held_gate : Power.gate :=
  Power.set_clock_refs_count (Power.set_power_count Power.idle_gate 1) 1.

(** An unhandled translation fault that is not stalled: RESUME is written
    although the stall bit is clear, and the status is cleared twice. *)
Example unhandled_fault_writes :
  status_writes (handler_events fault_cfg0 (fault_in0 FSR_TF (- EINVAL))
                   (Power.idle_gate, []))
  = [Writel (CB 3) ARM_SMMU_CB_RESUME 1;
     Writel (CB 3) ARM_SMMU_CB_FSR 2;
     Writel (CB 3) ARM_SMMU_CB_FSR 2].
Proof. vm_compute. reflexivity. Qed.

(** A stalled fault the owner handled: the handler clears the status and
    terminates the transaction itself. *)
Example handled_fault_writes :
  handler_events fault_cfg0 (fault_in0 (Z.lor FSR_TF FSR_SS) 0)
    (Power.idle_gate, [])
  = [Writel (CB 3) ARM_SMMU_CB_FSR 0x40000002;
     Writel (CB 3) ARM_SMMU_CB_RESUME 1].
Proof. vm_compute. reflexivity. Qed.

Lemma callback_reached0 (fsr ret : Z) :
  has (u32 fsr) FSR_FAULT = true ->
  callback_reached fault_cfg0 (fault_in0 fsr ret) (Power.idle_gate, []).
Proof.
  intros H. split; [reflexivity|]. split; [vm_compute; reflexivity|].
  split; [exact H|reflexivity].
Qed.

(** C4 as stated fails: after a result that is neither success nor busy
    the status register is written more than once and RESUME is written
    before it, stalled or not. *)
Lemma fsr_cleared_once_counterexample :
  ~ (forall (c : fault_cfg) (i : fault_in) (s : st),
        callback_reached c i s -> report_ret i <> - EBUSY ->
        status_writes (handler_events c i s)
        = clear_fsr c i :: (if stalled i then [resume_terminate c] else [])).
Proof.
  intros H.
  specialize (H fault_cfg0 (fault_in0 FSR_TF (- EINVAL)) (Power.idle_gate, [])
                (callback_reached0 FSR_TF (- EINVAL) eq_refl)).
  assert (Hne : report_ret (fault_in0 FSR_TF (- EINVAL)) <> - EBUSY)
    by (vm_compute; discriminate).
  specialize (H Hne). vm_compute in H. discriminate H.
Qed.

(** C4, amended.  For a context fault that reaches the owner's callback:
    a busy result makes the handler write neither the fault-status nor the
    RESUME register; after success the handler writes the fault-status
    register exactly once, with the value it read, and only afterwards
    RESUME (terminate), and only when the stall bit was set in that value;
    after any other result the diagnostic probe first writes RESUME
    (terminate) and then the value read to the fault-status register, and
    the handler then stops on a domain whose unhandled faults are fatal,
    or else writes the fault-status register once more and afterwards
    RESUME when the stall bit was set. *)
Theorem context_fault_status_writes (c : fault_cfg) (i : fault_in)
  (g : Power.gate) (t : list event) :
  callback_reached c i (g, t) ->
  let r := arm_smmu_context_fault c i (g, t) in
  let tail := clear_fsr c i
              :: (if stalled i then [resume_terminate c] else []) in
  r.2.2 = t ++ handler_events c i (g, t) /\
  status_writes (handler_events c i (g, t))
  = (if report_ret i =? - EBUSY then []
     else if report_ret i =? 0 then tail
     else [resume_terminate c; clear_fsr c i]
          ++ (if non_fatal_faults c then tail else [])) /\
  (r.1 = BUG <->
   report_ret i <> 0 /\ report_ret i <> - EBUSY /\ non_fatal_faults c = false).
Proof.
  intros Hr r tail. subst r. unfold handler_events. cbn [snd].
  destruct (Z.eqb_spec (report_ret i) (- EBUSY)) as [Hb|Hb].
  - destruct (context_fault_busy c i g t Hr Hb) as [H1 H2].
    rewrite H1, H2, drop_all, app_nil_r.
    split; [reflexivity|]. split; [reflexivity|].
    split; [discriminate|]. intros (_ & Hn & _). contradiction.
  - destruct (Z.eqb_spec (report_ret i) 0) as [H0|H0].
    + destruct (context_fault_success c i g t Hr H0) as [H1 H2].
      rewrite H1, H2, drop_prefix.
      split; [reflexivity|].
      split; [apply status_writes_clear_then_resume|].
      split; [discriminate|]. intros (Hn & _). contradiction.
    + destruct (context_fault_unhandled c i g t Hr H0 Hb) as (dv & Hs & Hc).
      destruct (non_fatal_faults c); destruct Hc as [H1 H2];
        rewrite H1, H2, drop_prefix.
      * split; [reflexivity|]. split.
        -- rewrite status_writes_app, Hs, status_writes_clear_then_resume.
           reflexivity.
        -- split; [discriminate|]. intros (_ & _ & Hn). discriminate Hn.
      * split; [reflexivity|]. split; [rewrite Hs; reflexivity|].
        split; auto.
Qed.

Lemma context_fault_status_writes_witness :
  let c := fault_cfg0 in
  let i := fault_in0 (Z.lor FSR_TF FSR_SS) (- EINVAL) in
  status_writes (handler_events c i (Power.idle_gate, []))
  = [resume_terminate c; clear_fsr c i; clear_fsr c i; resume_terminate c].
Proof.
  intros c i.
  exact (proj1 (proj2 (context_fault_status_writes c i Power.idle_gate []
                         (callback_reached0 (Z.lor FSR_TF FSR_SS) (- EINVAL)
                            eq_refl)))).
Defined.

(** C5 as stated fails: when the owner's callback returns success the
    handler does clear the status and resume. *)
Lemma owner_success_counterexample :
  ~ (forall (c : fault_cfg) (i : fault_in) (s : st),
        callback_reached c i s ->
        report_ret i = 0 \/ report_ret i = - EBUSY ->
        status_writes (handler_events c i s) = []).
Proof.
  intros H.
  specialize (H fault_cfg0 (fault_in0 (Z.lor FSR_TF FSR_SS) 0)
                (Power.idle_gate, [])
                (callback_reached0 (Z.lor FSR_TF FSR_SS) 0 eq_refl)
                (or_introl eq_refl)).
  vm_compute in H. discriminate H.
Qed.

(** C5, amended.  For a context fault whose owner callback returns
    success or busy the handler reports the interrupt handled.  After busy
    it sends nothing: the fault status is not cleared and RESUME is not
    written, both are left to the owner.  After success it clears the
    fault status with the value read and, when the stall bit was set,
    terminates the stalled transaction by a write to RESUME (after a
    TLB sync on hardware with the context-fault-hang erratum), and sends
    nothing else. *)
Theorem context_fault_handled_by_owner (c : fault_cfg) (i : fault_in)
  (g : Power.gate) (t : list event) :
  callback_reached c i (g, t) ->
  report_ret i = 0 \/ report_ret i = - EBUSY ->
  (arm_smmu_context_fault c i (g, t)).1 = IRQ_HANDLED /\
  (arm_smmu_context_fault c i (g, t)).2.2 = t ++ handler_events c i (g, t) /\
  handler_events c i (g, t)
  = (if report_ret i =? - EBUSY then [] else clear_then_resume c i).
Proof.
  intros Hr Hret. unfold handler_events. cbn [snd].
  destruct Hret as [H0|Hb].
  - destruct (context_fault_success c i g t Hr H0) as [H1 H2].
    rewrite H1, H2, drop_prefix, H0. change (0 =? - EBUSY) with false.
    repeat split.
  - destruct (context_fault_busy c i g t Hr Hb) as [H1 H2].
    rewrite H1, H2, drop_all, app_nil_r, Hb, Z.eqb_refl. repeat split.
Qed.

Lemma context_fault_handled_by_owner_witness :
  let c := fault_cfg0 in
  let i := fault_in0 (Z.lor FSR_TF FSR_SS) (- EBUSY) in
  (arm_smmu_context_fault c i (Power.idle_gate, [])).1 = IRQ_HANDLED /\
  handler_events c i (Power.idle_gate, []) = [].
Proof.
  intros c i.
  destruct (context_fault_handled_by_owner c i Power.idle_gate []
              (callback_reached0 (Z.lor FSR_TF FSR_SS) (- EBUSY) eq_refl)
              (or_intror eq_refl))
    as (H1 & _ & H3).
  split; [exact H1 | exact H3].
Defined.


End Fault.

(** ** Suspend and resume *)

Module PM.

Definition ARM_SMMU_MAX_CBS : Z := 128.
Definition ARM_SMMU_MAX_SMRS : Z := 128.
Definition SAVE_ARM_SMMU_MAX_CNT : Z := 11.
Definition MAX_GLOBAL_REG_SAVE_ENTRIES : Z := 2 * ARM_SMMU_MAX_SMRS + 1.

(** The register file: the 32-bit word behind each window and byte
    offset.  A 64-bit register is the word at its offset (low half) and
    the word four bytes on (high half). *)
Definition hw : Type := region -> Z -> Z.

Definition poke (r : region) (off v : Z) (h : hw) : hw :=
  fun r' off' =>
    if bool_decide (r' = r) && (off' =? off) then v else h r' off'.

Definition readl_relaxed (h : hw) (r : region) (off : Z) : Z := u32 (h r off).

Definition readq_relaxed (h : hw) (r : region) (off : Z) : Z :=
  Z.lor (readl_relaxed h r off) (Z.shiftl (readl_relaxed h r (off + 4)) 32).

Definition writel_relaxed (v : Z) (r : region) (off : Z) (h : hw) : hw :=
  poke r off (u32 v) h.

Definition writeq_relaxed (v : Z) (r : region) (off : Z) (h : hw) : hw :=
  poke r (off + 4) (u32 (Z.shiftr v 32)) (poke r off (u32 v) h).

(** What a write that was sent does to the register file. *)
Definition apply (h : hw) (e : event) : hw :=
  match e with
  | Writel r off v => writel_relaxed v r off h
  | Writeq r off v => writeq_relaxed v r off h
  | _ => h
  end.

(** Register accesses and log lines, in order. *)
Inductive access :=
| Readl (r : region) (off : Z)
| Readq (r : region) (off : Z)
| Sent (e : event).

(** The fields of [struct arm_smmu_device] that suspend and resume use.
    [regs] and [reg_global] are the arrays
    [u64 regs[ARM_SMMU_MAX_CBS * SAVE_ARM_SMMU_MAX_CNT]] and
    [u64 reg_global[MAX_GLOBAL_REG_SAVE_ENTRIES]]; [attach_count] is in
    the gate. *)
Record arm_smmu_device := {
  options : Z;
  num_context_banks : Z;
  num_mapping_groups : Z;
  regs : list Z;
  reg_global : list Z;
  clk : Power.clk_cfg;
  gate : Power.gate
}.

(** What the clock framework and the hardware answer during one call. *)
Record pm_env := {
  penv : Power.penv;
  gstatus_in : nat -> Z
}.

(** [ARM_SMMU_GR0_NS(smmu)], as an offset into global space 0. *)
Definition ARM_SMMU_GR0_NS (d : arm_smmu_device) : Z :=
  if has (options d) ARM_SMMU_OPT_SECURE_CFG_ACCESS then 0x400 else 0.

(** [for (j = j0; j < j0 + n; j++) body]. *)
Fixpoint for_range {A : Type} (n : nat) (j : Z) (body : Z -> A -> A) (a : A)
  : A :=
  match n with
  | O => a
  | S n' => for_range n' (j + 1) body (body j a)
  end.

(** *** Suspend *)

(** The index [k], the buffer being filled, and the accesses made.  A
    store past the end of the array is undefined in C; here it is dropped,
    and the theorems take the counts within the arrays. *)
Definition save_cursor : Type := nat * list Z * list access.

(** [buf[k++] = readl_relaxed(r + off)]. *)
Definition save_readl (h : hw) (r : region) (off : Z) (c : save_cursor)
  : save_cursor :=
  let '(k, buf, log) := c in
  (S k, <[k := readl_relaxed h r off]> buf, log ++ [Readl r off]).

(** [buf[k++] = readq_relaxed(r + off)]. *)
Definition save_readq (h : hw) (r : region) (off : Z) (c : save_cursor)
  : save_cursor :=
  let '(k, buf, log) := c in
  (S k, <[k := readq_relaxed h r off]> buf, log ++ [Readq r off]).

(** The body of the first loop of [arm_smmu_pm_suspend]. *)
Definition suspend_cb (h : hw) (j : Z) (c : save_cursor) : save_cursor :=
  let base := CB j in
  let c := save_readl h base ARM_SMMU_CB_SCTLR c in
  let c := save_readl h base ARM_SMMU_CB_ACTLR c in
  let c := save_readl h base ARM_SMMU_CB_TTBCR2 c in
  let c := save_readq h base ARM_SMMU_CB_TTBR0 c in
  let c := save_readq h base ARM_SMMU_CB_TTBR1 c in
  let c := save_readl h base ARM_SMMU_CB_TTBCR c in
  let c := save_readl h base ARM_SMMU_CB_CONTEXTIDR c in
  let c := save_readl h base ARM_SMMU_CB_S1_MAIR0 c in
  let c := save_readl h base ARM_SMMU_CB_S1_MAIR1 c in
  let c := save_readl h GR1 (ARM_SMMU_GR1_CBA2R j) c in
  save_readl h GR1 (ARM_SMMU_GR1_CBAR j) c.

(** The body of its second loop. *)
Definition suspend_group (h : hw) (j : Z) (c : save_cursor) : save_cursor :=
  let c := save_readl h GR0 (ARM_SMMU_GR0_S2CR j) c in
  save_readl h GR0 (ARM_SMMU_GR0_SMR j) c.

Definition set_saved (d : arm_smmu_device) (rs rg : list Z) (g : Power.gate)
  : arm_smmu_device :=
  {| options := options d; num_context_banks := num_context_banks d;
     num_mapping_groups := num_mapping_groups d;
     regs := rs; reg_global := rg; clk := clk d; gate := g |}.

(** [arm_smmu_pm_suspend]; [smmu] is the driver data of the device, [h]
    the register file at the time of the call. *)
Definition arm_smmu_pm_suspend (smmu : option arm_smmu_device) (env : pm_env)
  (h : hw) : Z * option arm_smmu_device * list access :=
  match smmu with
  | None => (- ENODEV, None, [])
  | Some d =>
      if Power.attach_count (gate d) =? 0 then (0, Some d, [])
      else
        let '(r, g1, _) :=
          Power.arm_smmu_enable_clocks (clk d) (penv env) (gate d) in
        if negb (r =? 0)
        then (- EINVAL, Some (set_saved d (regs d) (reg_global d) g1),
              [Sent (DevErr "failed to enable clocks for smmu")])
        else
          let cb_count := num_context_banks d in
          let '(_, regs1, log1) :=
            for_range (Z.to_nat cb_count) 0 (suspend_cb h)
              (0%nat, regs d, []) in
          let '(k, rg1, log2) :=
            for_range (Z.to_nat (num_mapping_groups d)) 0 (suspend_group h)
              (0%nat, reg_global d, log1) in
          let '(_, rg2, log3) :=
            save_readl h GR0 (ARM_SMMU_GR0_NS d + ARM_SMMU_GR0_sCR0)
              (k, rg1, log2) in
          let '(_, g2, _) :=
            Power.arm_smmu_disable_clocks (clk d) (penv env) g1 in
          (0, Some (set_saved d regs1 rg2 g2), log3)
  end.

(** *** Resume *)

(** The index [k], the register file being written, and the accesses
    made.  A load past the end of the array is undefined in C; here it
    reads 0. *)
Definition load_cursor : Type := nat * hw * list access.

(** A write: it is logged with the value the bus carries and changes the
    register file accordingly. *)
Definition send (e : event) (s : hw * list access) : hw * list access :=
  (apply s.1 e, s.2 ++ [Sent e]).

(** [writel_relaxed(buf[k++], r + off)]. *)
Definition load_writel (buf : list Z) (r : region) (off : Z) (c : load_cursor)
  : load_cursor :=
  let '(k, h, log) := c in
  let s := send (Writel r off (u32 (buf !!! k))) (h, log) in
  (S k, s.1, s.2).

(** [writeq_relaxed(buf[k++], r + off)]. *)
Definition load_writeq (buf : list Z) (r : region) (off : Z) (c : load_cursor)
  : load_cursor :=
  let '(k, h, log) := c in
  let s := send (Writeq r off (u64 (buf !!! k))) (h, log) in
  (S k, s.1, s.2).

(** The body of the first loop of [arm_smmu_pm_resume]. *)
Definition resume_cb (buf : list Z) (j : Z) (c : load_cursor) : load_cursor :=
  let base := CB j in
  let c := load_writel buf base ARM_SMMU_CB_SCTLR c in
  let c := load_writel buf base ARM_SMMU_CB_ACTLR c in
  let c := load_writel buf base ARM_SMMU_CB_TTBCR2 c in
  let c := load_writeq buf base ARM_SMMU_CB_TTBR0 c in
  let c := load_writeq buf base ARM_SMMU_CB_TTBR1 c in
  let c := load_writel buf base ARM_SMMU_CB_TTBCR c in
  let c := load_writel buf base ARM_SMMU_CB_CONTEXTIDR c in
  let c := load_writel buf base ARM_SMMU_CB_S1_MAIR0 c in
  let c := load_writel buf base ARM_SMMU_CB_S1_MAIR1 c in
  let c := load_writel buf GR1 (ARM_SMMU_GR1_CBA2R j) c in
  load_writel buf GR1 (ARM_SMMU_GR1_CBAR j) c.

(** The body of its second loop. *)
Definition resume_group (buf : list Z) (j : Z) (c : load_cursor)
  : load_cursor :=
  let c := load_writel buf GR0 (ARM_SMMU_GR0_S2CR j) c in
  load_writel buf GR0 (ARM_SMMU_GR0_SMR j) c.

(** [arm_smmu_pm_resume]; [h] is the register file the device wakes up
    with. *)
Definition arm_smmu_pm_resume (smmu : option arm_smmu_device) (env : pm_env)
  (h : hw) : Z * option arm_smmu_device * hw * list access :=
  match smmu with
  | None => (- ENODEV, None, h, [])
  | Some d =>
      if Power.attach_count (gate d) =? 0 then (0, Some d, h, [])
      else
        let '(r, g1, _) :=
          Power.arm_smmu_enable_clocks (clk d) (penv env) (gate d) in
        if negb (r =? 0)
        then (- EINVAL, Some (set_saved d (regs d) (reg_global d) g1), h,
              [Sent (DevErr "failed to enable clocks for smmu")])
        else
          let cb_count := num_context_banks d in
          let '(_, h1, log1) :=
            for_range (Z.to_nat cb_count) 0 (resume_cb (regs d))
              (0%nat, h, []) in
          let '(k, h2, log2) :=
            for_range (Z.to_nat (num_mapping_groups d)) 0
              (resume_group (reg_global d)) (0%nat, h1, log1) in
          let '(_, h3, log3) :=
            load_writel (reg_global d) GR0
              (ARM_SMMU_GR0_NS d + ARM_SMMU_GR0_sCR0) (k, h2, log2) in
          let s := send (Writel GR0 ARM_SMMU_GR0_TLBIALLH 0) (h3, log3) in
          let s := send (Writel GR0 ARM_SMMU_GR0_TLBIALLNSNH 0) s in
          let s := foldl (fun s e => send e s) s
                     (__arm_smmu_tlb_sync (gstatus_in env)) in
          let '(_, g2, _) :=
            Power.arm_smmu_disable_clocks (clk d) (penv env) g1 in
          (0, Some (set_saved d (regs d) (reg_global d) g2), s.1, s.2)
  end.


(** *** The captured registers *)

Inductive width := W32 | W64.

(** A register as suspend and resume access it. *)
Record slot := { sw : width; sr : region; so : Z }.

Definition l32 (r : region) (off : Z) : slot :=
  {| sw := W32; sr := r; so := off |}.

Definition l64 (r : region) (off : Z) : slot :=
  {| sw := W64; sr := r; so := off |}.

(** Per context bank, in the order of the loop body. *)
Definition ctx_slots (j : Z) : list slot :=
  [ l32 (CB j) ARM_SMMU_CB_SCTLR; l32 (CB j) ARM_SMMU_CB_ACTLR;
    l32 (CB j) ARM_SMMU_CB_TTBCR2; l64 (CB j) ARM_SMMU_CB_TTBR0;
    l64 (CB j) ARM_SMMU_CB_TTBR1; l32 (CB j) ARM_SMMU_CB_TTBCR;
    l32 (CB j) ARM_SMMU_CB_CONTEXTIDR; l32 (CB j) ARM_SMMU_CB_S1_MAIR0;
    l32 (CB j) ARM_SMMU_CB_S1_MAIR1; l32 GR1 (ARM_SMMU_GR1_CBA2R j);
    l32 GR1 (ARM_SMMU_GR1_CBAR j) ].

(** Per mapping group. *)
Definition group_slots (j : Z) : list slot :=
  [ l32 GR0 (ARM_SMMU_GR0_S2CR j); l32 GR0 (ARM_SMMU_GR0_SMR j) ].

Definition scr0_slot (d : arm_smmu_device) : slot :=
  l32 GR0 (ARM_SMMU_GR0_NS d + ARM_SMMU_GR0_sCR0).

Definition captured_ctx (d : arm_smmu_device) : list slot :=
  seqZ 0 (num_context_banks d) ≫= ctx_slots.

Definition captured_global (d : arm_smmu_device) : list slot :=
  (seqZ 0 (num_mapping_groups d) ≫= group_slots) ++ [scr0_slot d].

(** Everything suspend captures, in order. *)
Definition captured (d : arm_smmu_device) : list slot :=
  captured_ctx d ++ captured_global d.

Definition read_slot (h : hw) (s : slot) : Z :=
  match sw s with
  | W32 => readl_relaxed h (sr s) (so s)
  | W64 => readq_relaxed h (sr s) (so s)
  end.

Definition read_access (s : slot) : access :=
  match sw s with
  | W32 => Readl (sr s) (so s)
  | W64 => Readq (sr s) (so s)
  end.

Definition write_event (s : slot) (v : Z) : event :=
  match sw s with
  | W32 => Writel (sr s) (so s) (u32 v)
  | W64 => Writeq (sr s) (so s) (u64 v)
  end.

Definition save_slot (h : hw) (c : save_cursor) (s : slot) : save_cursor :=
  match sw s with
  | W32 => save_readl h (sr s) (so s) c
  | W64 => save_readq h (sr s) (so s) c
  end.

Definition load_slot (buf : list Z) (c : load_cursor) (s : slot)
  : load_cursor :=
  match sw s with
  | W32 => load_writel buf (sr s) (so s) c
  | W64 => load_writeq buf (sr s) (so s) c
  end.

(** Writing [f s] to every register of a list, in order. *)
Definition write_all (f : slot -> Z) (h : hw) (l : list slot) : hw :=
  foldl (fun h s => apply h (write_event s (f s))) h l.

Lemma suspend_cb_slots (h : hw) (j : Z) (c : save_cursor) :
  suspend_cb h j c = foldl (save_slot h) c (ctx_slots j).
Proof. reflexivity. Qed.

Lemma suspend_group_slots (h : hw) (j : Z) (c : save_cursor) :
  suspend_group h j c = foldl (save_slot h) c (group_slots j).
Proof. reflexivity. Qed.

Lemma resume_cb_slots (buf : list Z) (j : Z) (c : load_cursor) :
  resume_cb buf j c = foldl (load_slot buf) c (ctx_slots j).
Proof. reflexivity. Qed.

Lemma resume_group_slots (buf : list Z) (j : Z) (c : load_cursor) :
  resume_group buf j c = foldl (load_slot buf) c (group_slots j).
Proof. reflexivity. Qed.

Lemma for_range_slots {A : Type} (step : A -> slot -> A) (f : Z -> list slot)
  (body : Z -> A -> A) (n : nat) :
  (forall j a, body j a = foldl step a (f j)) ->
  forall j a,
    for_range n j body a = foldl step a (seqZ j (Z.of_nat n) ≫= f).
Proof.
  intros Hbody. induction n as [|n IH]; intros j a.
  - reflexivity.
  - cbn [for_range]. rewrite IH, Hbody.
    rewrite (seqZ_cons j (Z.of_nat (S n))) by lia.
    rewrite bind_cons, foldl_app.
    replace (Z.pred (Z.of_nat (S n))) with (Z.of_nat n) by lia.
    replace (Z.succ j) with (j + 1) by lia. reflexivity.
Qed.

Lemma save_all (h : hw) (l : list slot) :
  forall (k : nat) (buf : list Z) (log : list access),
    (k + length l <= length buf)%nat ->
    foldl (save_slot h) (k, buf, log) l
    = ((k + length l)%nat,
       take k buf ++ map (read_slot h) l ++ drop (k + length l) buf,
       log ++ map read_access l).
Proof.
  induction l as [|s l IH]; intros k buf log Hk.
  - cbn. rewrite Nat.add_0_r, take_drop, app_nil_r. reflexivity.
  - cbn [foldl length] in *.
    assert (Hs : save_slot h (k, buf, log) s
                 = (S k, <[k := read_slot h s]> buf, log ++ [read_access s])).
    { unfold save_slot, read_slot, read_access. destruct (sw s); reflexivity. }
    rewrite Hs, IH by (rewrite length_insert; lia).
    f_equal; [f_equal; [lia|]|].
    + rewrite (take_S_r _ _ (read_slot h s))
        by (apply list_lookup_insert_eq; lia).
      rewrite take_insert_ge by lia.
      rewrite drop_insert_lt by lia.
      rewrite <- app_assoc. cbn [map app].
      replace (S k + length l)%nat with (k + S (length l))%nat by lia.
      reflexivity.
    + rewrite <- app_assoc. reflexivity.
Qed.

Lemma load_all (buf : list Z) (f : slot -> Z) (l : list slot) :
  forall (k : nat) (h : hw) (log : list access) (rest : list Z),
    drop k buf = map f l ++ rest ->
    foldl (load_slot buf) (k, h, log) l
    = ((k + length l)%nat, write_all f h l,
       log ++ map (fun s => Sent (write_event s (f s))) l).
Proof.
  induction l as [|s l IH]; intros k h log rest Hd.
  - cbn. rewrite Nat.add_0_r, app_nil_r. reflexivity.
  - cbn [foldl length map write_all] in *.
    assert (Hv : buf !!! k = f s).
    { apply list_lookup_total_correct.
      rewrite <- (Nat.add_0_r k), <- lookup_drop, Hd. reflexivity. }
    assert (Hs : load_slot buf (k, h, log) s
                 = (S k, apply h (write_event s (f s)),
                    log ++ [Sent (write_event s (f s))])).
    { unfold load_slot, write_event, load_writel, load_writeq, send.
      destruct (sw s); cbn [fst snd]; rewrite Hv; reflexivity. }
    rewrite Hs. rewrite (IH (S k) _ _ rest).
    + f_equal; [f_equal; lia|]. rewrite <- app_assoc. reflexivity.
    + replace (S k) with (k + 1)%nat by lia.
      rewrite <- drop_drop, Hd. reflexivity.
Qed.


(** *** Reading back what was written *)

Definition trunc (s : slot) (v : Z) : Z :=
  match sw s with W32 => u32 v | W64 => u64 v end.

Definition span (s : slot) : Z :=
  match sw s with W32 => 4 | W64 => 8 end.

(** Two registers that share no word. *)
Definition far (s s' : slot) : Prop :=
  sr s <> sr s' \/ so s + span s <= so s' \/ so s' + span s' <= so s.

(** Registers that pairwise share no word. *)
Fixpoint apart (l : list slot) : Prop :=
  match l with
  | [] => True
  | s :: r => Forall (far s) r /\ apart r
  end.

Lemma poke_eq (r : region) (off v : Z) (h : hw) : poke r off v h r off = v.
Proof.
  unfold poke. rewrite bool_decide_eq_true_2 by reflexivity.
  rewrite Z.eqb_refl. reflexivity.
Qed.

Lemma poke_ne (r r' : region) (off off' v : Z) (h : hw) :
  r' <> r \/ off' <> off -> poke r off v h r' off' = h r' off'.
Proof.
  intros [H|H]; unfold poke.
  - rewrite bool_decide_eq_false_2 by exact H. reflexivity.
  - apply Z.eqb_neq in H. rewrite H, andb_false_r. reflexivity.
Qed.

Lemma u64_idem (x : Z) : u64 (u64 x) = u64 x.
Proof. unfold u64. apply Z.mod_mod. lia. Qed.

Lemma u64_halves (v : Z) :
  Z.lor (u32 (u32 v)) (Z.shiftl (u32 (u32 (Z.shiftr v 32))) 32) = u64 v.
Proof.
  rewrite !u32_idem. unfold u32, u64.
  change 4294967296 with (2 ^ 32). change 18446744073709551616 with (2 ^ 64).
  apply Z.bits_inj'. intros n Hn.
  rewrite Z.lor_spec, Z.shiftl_spec by lia.
  rewrite !Z.testbit_mod_pow2 by lia.
  destruct (Z.ltb_spec n 32) as [H32|H32].
  - rewrite (Z.testbit_neg_r _ (n - 32)) by lia.
    replace (n <? 64) with true by (symmetry; apply Z.ltb_lt; lia).
    rewrite andb_false_r, orb_false_r. reflexivity.
  - rewrite Z.shiftr_spec by lia. replace (n - 32 + 32) with n by lia.
    cbn [orb andb].
    destruct (Z.ltb_spec n 64) as [H64|H64].
    + replace (n - 32 <? 32) with true by (symmetry; apply Z.ltb_lt; lia).
      reflexivity.
    + replace (n - 32 <? 32) with false by (symmetry; apply Z.ltb_ge; lia).
      reflexivity.
Qed.

Lemma read_write_same (h : hw) (s : slot) (v : Z) :
  read_slot (apply h (write_event s v)) s = trunc s v.
Proof.
  unfold read_slot, write_event, trunc.
  destruct (sw s); cbn [apply].
  - unfold readl_relaxed, writel_relaxed. rewrite poke_eq, !u32_idem.
    reflexivity.
  - unfold readq_relaxed, readl_relaxed, writeq_relaxed.
    rewrite poke_eq. rewrite poke_ne by (right; lia). rewrite poke_eq.
    rewrite u64_halves. apply u64_idem.
Qed.

Lemma read_write_far (h : hw) (s s' : slot) (v : Z) :
  far s s' -> read_slot (apply h (write_event s' v)) s = read_slot h s.
Proof.
  unfold far, span, read_slot, write_event.
  intros Hf.
  destruct (sw s), (sw s'); cbn [apply];
    unfold readq_relaxed, readl_relaxed, writeq_relaxed, writel_relaxed;
    rewrite !poke_ne; try reflexivity;
    (destruct Hf as [Hf|Hf]; [left; exact Hf | right; lia]).
Qed.

Lemma write_all_far (f : slot -> Z) (s : slot) (l : list slot) :
  forall h, Forall (far s) l -> read_slot (write_all f h l) s = read_slot h s.
Proof.
  induction l as [|s' l IH]; intros h Hf; [reflexivity|].
  apply Forall_cons in Hf as [Hs Hl]. cbn [write_all foldl].
  fold (write_all f (apply h (write_event s' (f s'))) l).
  rewrite IH by exact Hl. apply read_write_far, Hs.
Qed.

Lemma write_all_read (f : slot -> Z) (s : slot) (l : list slot) :
  forall h, apart l -> s ∈ l -> read_slot (write_all f h l) s = trunc s (f s).
Proof.
  induction l as [|s' l IH]; intros h Ha Hin.
  - apply elem_of_nil in Hin. contradiction.
  - destruct Ha as [Hf Ha]. cbn [write_all foldl].
    fold (write_all f (apply h (write_event s' (f s'))) l).
    apply elem_of_cons in Hin as [->|Hin].
    + rewrite write_all_far by exact Hf. apply read_write_same.
    + apply IH; assumption.
Qed.

Lemma readq_u64 (h : hw) (r : region) (off : Z) :
  u64 (readq_relaxed h r off) = readq_relaxed h r off.
Proof.
  unfold readq_relaxed, readl_relaxed, u32, u64.
  change 4294967296 with (2 ^ 32). change 18446744073709551616 with (2 ^ 64).
  apply Z.bits_inj'. intros n Hn.
  rewrite Z.testbit_mod_pow2 by lia.
  destruct (Z.ltb_spec n 64) as [H64|H64]; [reflexivity|].
  rewrite Z.lor_spec, Z.shiftl_spec, !Z.testbit_mod_pow2 by lia.
  replace (n <? 32) with false by (symmetry; apply Z.ltb_ge; lia).
  replace (n - 32 <? 32) with false by (symmetry; apply Z.ltb_ge; lia).
  reflexivity.
Qed.

Lemma trunc_read (h : hw) (s : slot) : trunc s (read_slot h s) = read_slot h s.
Proof.
  unfold trunc, read_slot. destruct (sw s).
  - apply u32_idem.
  - apply readq_u64.
Qed.


(** *** The captured registers share no word *)

Lemma apart_app (a b : list slot) :
  apart a -> apart b -> (forall s s', s ∈ a -> s' ∈ b -> far s s') ->
  apart (a ++ b).
Proof.
  induction a as [|x a IH]; intros Ha Hb Hab; [exact Hb|].
  destruct Ha as [Hx Ha]. cbn [app apart]. split.
  - apply Forall_app. split; [exact Hx|].
    apply Forall_forall. intros s' Hs'. apply Hab; [left|exact Hs'].
  - apply IH; [exact Ha | exact Hb |].
    intros s s' Hs Hs'. apply Hab; [right; exact Hs | exact Hs'].
Qed.

Lemma apart_bind (f : Z -> list slot) (n : nat) :
  forall lo,
    (forall j, apart (f j)) ->
    (forall j j' s s',
        lo <= j < j' -> j' < lo + Z.of_nat n ->
        s ∈ f j -> s' ∈ f j' -> far s s') ->
    apart (seqZ lo (Z.of_nat n) ≫= f).
Proof.
  induction n as [|n IH]; intros lo Hin Hout; [exact I|].
  rewrite (seqZ_cons lo (Z.of_nat (S n))) by lia. rewrite bind_cons.
  replace (Z.pred (Z.of_nat (S n))) with (Z.of_nat n) by lia.
  apply apart_app.
  - apply Hin.
  - apply IH; [exact Hin|]. intros j j' s s' Hj Hj'. apply Hout; lia.
  - intros s s' Hs Hs'. apply list_elem_of_bind in Hs' as (j' & Hs' & Hj').
    apply elem_of_seqZ in Hj'. apply (Hout lo j'); [lia | lia | exact Hs | exact Hs'].
Qed.

Lemma shl2 (j : Z) : Z.shiftl j 2 = 4 * j.
Proof. rewrite Z.shiftl_mul_pow2 by lia. lia. Qed.

Ltac slot_cases H :=
  repeat (apply elem_of_cons in H as [->|H]);
  [..|apply elem_of_nil in H; contradiction].

Ltac far_solve :=
  unfold far, span, scr0_slot, l32, l64, ARM_SMMU_GR0_NS,
    ARM_SMMU_GR1_CBA2R, ARM_SMMU_GR1_CBAR, ARM_SMMU_GR0_S2CR,
    ARM_SMMU_GR0_SMR, ARM_SMMU_GR0_sCR0, ARM_SMMU_GR0_TLBIALLH,
    ARM_SMMU_GR0_TLBIALLNSNH, ARM_SMMU_GR0_sTLBGSYNC,
    ARM_SMMU_CB_SCTLR, ARM_SMMU_CB_ACTLR, ARM_SMMU_CB_TTBCR2,
    ARM_SMMU_CB_TTBR0, ARM_SMMU_CB_TTBR1, ARM_SMMU_CB_TTBCR,
    ARM_SMMU_CB_CONTEXTIDR, ARM_SMMU_CB_S1_MAIR0, ARM_SMMU_CB_S1_MAIR1;
  cbn [sw sr so]; rewrite ?shl2;
  first [ left; congruence
        | left; intros E; injection E; lia
        | right; lia ].

Lemma apart_ctx_slots (j : Z) : apart (ctx_slots j).
Proof.
  unfold ctx_slots. cbn [apart].
  repeat (split; [repeat (apply Forall_cons; split; [far_solve|]);
                  apply Forall_nil; exact I|]).
  exact I.
Qed.

Lemma far_ctx_slots (j j' : Z) (s s' : slot) :
  0 <= j < j' -> j' < 512 -> s ∈ ctx_slots j -> s' ∈ ctx_slots j' -> far s s'.
Proof.
  intros Hj Hj' Hs Hs'. unfold ctx_slots in Hs, Hs'.
  slot_cases Hs; slot_cases Hs'; far_solve.
Qed.

Lemma apart_group_slots (j : Z) : apart (group_slots j).
Proof.
  unfold group_slots. cbn [apart].
  repeat (split; [repeat (apply Forall_cons; split; [far_solve|]);
                  apply Forall_nil; exact I|]).
  exact I.
Qed.

Lemma far_group_slots (j j' : Z) (s s' : slot) :
  0 <= j < j' -> j' < 256 -> s ∈ group_slots j -> s' ∈ group_slots j' ->
  far s s'.
Proof.
  intros Hj Hj' Hs Hs'. unfold group_slots in Hs, Hs'.
  slot_cases Hs; slot_cases Hs'; far_solve.
Qed.


(** *** The gate leaves the attach count alone *)

Definition keeps {A : Type} (m : Power.M A) : Prop :=
  forall g, Power.attach_count (m g).1.2 = Power.attach_count g.

Lemma keeps_ret {A : Type} (a : A) : keeps (Power.ret a).
Proof. intros g. reflexivity. Qed.

Lemma keeps_bind {A B : Type} (m : Power.M A) (k : A -> Power.M B) :
  keeps m -> (forall a, keeps (k a)) -> keeps (Power.bind m k).
Proof.
  intros Hm Hk g. unfold Power.bind. specialize (Hm g).
  destruct (m g) as [[a g1] t1]. specialize (Hk a g1).
  destruct (k a g1) as [[b g2] t2]. cbn [fst snd] in *. congruence.
Qed.

Lemma keeps_emit (c : Power.call) : keeps (Power.emit c).
Proof. intros g. reflexivity. Qed.

Lemma keeps_when (b : bool) (m : Power.M unit) :
  keeps m -> keeps (Power.when b m).
Proof. intros Hm. destruct b; [exact Hm | apply keeps_ret]. Qed.

Lemma keeps_if {A : Type} (b : bool) (m1 m2 : Power.M A) :
  keeps m1 -> keeps m2 -> keeps (if b then m1 else m2).
Proof. destruct b; auto. Qed.

Create HintDb keeps.
#[local] Hint Resolve keeps_ret keeps_bind keeps_emit keeps_when keeps_if
  : keeps.

Lemma keeps_regulator_enable (env : Power.penv) :
  keeps (Power.regulator_enable env).
Proof.
  intros g. unfold Power.regulator_enable. cbn [fst snd].
  destruct (_ =? 0); reflexivity.
Qed.

Lemma keeps_regulator_disable : keeps Power.regulator_disable.
Proof. intros g. reflexivity. Qed.

Lemma keeps_regulator_disable_deferred (env : Power.penv) :
  keeps (Power.regulator_disable_deferred env).
Proof.
  intros g. unfold Power.regulator_disable_deferred. cbn [fst snd].
  destruct (_ =? 0); reflexivity.
Qed.

Lemma keeps_bus_update (env : Power.penv) (v : Z) :
  keeps (Power.msm_bus_scale_client_update_request env v).
Proof.
  intros g. unfold Power.msm_bus_scale_client_update_request. cbn [fst snd].
  destruct (_ =? 0); reflexivity.
Qed.

Lemma keeps_clk_prepare (env : Power.penv) (i : nat) :
  keeps (Power.clk_prepare env i).
Proof.
  intros g. unfold Power.clk_prepare. cbn [fst snd].
  destruct (_ =? 0); reflexivity.
Qed.

Lemma keeps_clk_unprepare (i : nat) : keeps (Power.clk_unprepare i).
Proof. intros g. reflexivity. Qed.

Lemma keeps_clk_enable (env : Power.penv) (i : nat) :
  keeps (Power.clk_enable env i).
Proof.
  intros g. unfold Power.clk_enable. cbn [fst snd].
  destruct (_ =? 0); reflexivity.
Qed.

Lemma keeps_clk_disable (i : nat) : keeps (Power.clk_disable i).
Proof. intros g. reflexivity. Qed.

#[local] Hint Resolve keeps_regulator_enable keeps_regulator_disable
  keeps_regulator_disable_deferred keeps_bus_update keeps_clk_prepare
  keeps_clk_unprepare keeps_clk_enable keeps_clk_disable : keeps.

Lemma keeps_unprepare_down (i : nat) : keeps (Power.unprepare_down i).
Proof. induction i; cbn [Power.unprepare_down]; auto with keeps. Qed.

Lemma keeps_disable_down (i : nat) : keeps (Power.disable_down i).
Proof. induction i; cbn [Power.disable_down]; auto with keeps. Qed.

#[local] Hint Resolve keeps_unprepare_down keeps_disable_down : keeps.

Lemma keeps_prepare_from (env : Power.penv) (n : nat) :
  forall i, keeps (Power.prepare_from env n i).
Proof.
  induction n as [|n IH]; intros i; cbn [Power.prepare_from];
    auto 6 with keeps.
Qed.

Lemma keeps_set_power_count {A : Type} (a : A) (f : Power.gate -> Z) :
  keeps (fun g => (a, Power.set_power_count g (f g), [])).
Proof. intros g. reflexivity. Qed.

Lemma keeps_set_clock_refs_count {A : Type} (a : A) (f : Power.gate -> Z) :
  keeps (fun g => (a, Power.set_clock_refs_count g (f g), [])).
Proof. intros g. reflexivity. Qed.

Lemma keeps_enable_from (env : Power.penv) (n : nat) :
  forall i, keeps (Power.enable_from env n i).
Proof.
  induction n as [|n IH]; intros i; cbn [Power.enable_from];
    [auto with keeps|].
  apply keeps_bind; [auto with keeps|]. intros r.
  apply keeps_if; [|apply IH].
  apply keeps_bind; [auto with keeps|]. intros _.
  apply keeps_bind; [auto with keeps|]. intros _.
  apply (keeps_set_clock_refs_count r
           (fun g => u32 (Power.clock_refs_count g - 1))).
Qed.

Lemma keeps_disable_regulators (cfg : Power.clk_cfg) (env : Power.penv) :
  keeps (Power.arm_smmu_disable_regulators cfg env).
Proof.
  intros g. unfold Power.arm_smmu_disable_regulators.
  destruct (Power.power_count g =? 0); [reflexivity|].
  destruct (1 <? Power.power_count g); [reflexivity|].
  revert g.
  change (keeps
    (Power.bind (Power.arm_smmu_unprepare_clocks cfg) (fun _ =>
     Power.bind (Power.arm_smmu_unrequest_bus cfg env) (fun _ =>
     Power.bind (if Power.gdsc cfg
                 then Power.bind (Power.regulator_disable_deferred env)
                        (fun r => Power.bind
                                    (Power.when (negb (r =? 0))
                                       (Power.emit Power.Warn))
                                    (fun _ => Power.ret r))
                 else Power.ret 0)
       (fun r g' => (r, Power.set_power_count g' 0, [])))))).
  unfold Power.arm_smmu_unprepare_clocks, Power.arm_smmu_unrequest_bus.
  repeat first
    [ apply keeps_bind; [|intros ?]
    | apply keeps_if
    | apply (keeps_set_power_count _ (fun _ => 0))
    | solve [auto with keeps] ].
Qed.

Lemma keeps_enable_regulators (cfg : Power.clk_cfg) (env : Power.penv) :
  keeps (Power.arm_smmu_enable_regulators cfg env).
Proof.
  intros g. unfold Power.arm_smmu_enable_regulators.
  destruct (negb (Power.power_count g =? 0)); [reflexivity|].
  revert g.
  match goal with
  | |- forall g, Power.attach_count (?m g).1.2 = _ => change (keeps m)
  end.
  unfold Power.arm_smmu_request_bus, Power.arm_smmu_unrequest_bus,
    Power.arm_smmu_prepare_clocks.
  repeat first
    [ apply keeps_bind; [|intros ?]
    | apply keeps_if
    | apply keeps_prepare_from
    | apply (keeps_set_power_count _ (fun _ => 1))
    | solve [auto with keeps] ].
Qed.

Lemma keeps_enable_clocks_atomic (cfg : Power.clk_cfg) (env : Power.penv) :
  keeps (Power.arm_smmu_enable_clocks_atomic cfg env).
Proof.
  intros g. unfold Power.arm_smmu_enable_clocks_atomic. cbv zeta.
  destruct (0 <? Power.clock_refs_count g); [reflexivity|].
  rewrite keeps_enable_from. reflexivity.
Qed.

Lemma keeps_disable_clocks_atomic (cfg : Power.clk_cfg) :
  keeps (Power.arm_smmu_disable_clocks_atomic cfg).
Proof.
  intros g. unfold Power.arm_smmu_disable_clocks_atomic. cbv zeta.
  destruct (1 <? Power.clock_refs_count g); [reflexivity|].
  rewrite keeps_disable_down. reflexivity.
Qed.

Lemma keeps_enable_clocks (cfg : Power.clk_cfg) (env : Power.penv) :
  keeps (Power.arm_smmu_enable_clocks cfg env).
Proof.
  unfold Power.arm_smmu_enable_clocks.
  repeat first
    [ apply keeps_bind; [|intros ?]
    | apply keeps_if
    | apply keeps_enable_regulators
    | apply keeps_disable_regulators
    | apply keeps_enable_clocks_atomic
    | apply keeps_ret ].
Qed.

Lemma keeps_disable_clocks (cfg : Power.clk_cfg) (env : Power.penv) :
  keeps (Power.arm_smmu_disable_clocks cfg env).
Proof.
  unfold Power.arm_smmu_disable_clocks.
  repeat first
    [ apply keeps_bind; [|intros ?]
    | apply keeps_disable_regulators
    | apply keeps_disable_clocks_atomic
    | apply keeps_ret ].
Qed.


(** *** Suspend then resume *)

(** The counts fit the arrays, and the arrays have their declared sizes. *)
Definition well_formed (d : arm_smmu_device) : Prop :=
  0 <= num_context_banks d <= ARM_SMMU_MAX_CBS /\
  0 <= num_mapping_groups d <= ARM_SMMU_MAX_SMRS /\
  length (regs d) = Z.to_nat (ARM_SMMU_MAX_CBS * SAVE_ARM_SMMU_MAX_CNT) /\
  length (reg_global d) = Z.to_nat MAX_GLOBAL_REG_SAVE_ENTRIES.

(** The gate can be taken at suspend and, as suspend leaves it, at
    resume. *)
Definition clocks_ok (d : arm_smmu_device) (e0 e1 : pm_env) : Prop :=
  let r0 := Power.arm_smmu_enable_clocks (clk d) (penv e0) (gate d) in
  let g2 := (Power.arm_smmu_disable_clocks (clk d) (penv e0) r0.1.2).1.2 in
  r0.1.1 = 0 /\
  (Power.arm_smmu_enable_clocks (clk d) (penv e1) g2).1.1 = 0.

(** The flush at the end of resume. *)
Definition tlb_flush (e : pm_env) : list event :=
  [Writel GR0 ARM_SMMU_GR0_TLBIALLH 0; Writel GR0 ARM_SMMU_GR0_TLBIALLNSNH 0]
  ++ __arm_smmu_tlb_sync (gstatus_in e).

Lemma length_bind_slots (f : Z -> list slot) (c : nat) (l : list Z) :
  (forall j, length (f j) = c) -> length (l ≫= f) = (c * length l)%nat.
Proof.
  intros Hc. induction l as [|j l IH]; [cbn; lia|].
  rewrite bind_cons, length_app, Hc, IH. cbn [length]. lia.
Qed.

Lemma length_captured_ctx (d : arm_smmu_device) :
  length (captured_ctx d) = (11 * Z.to_nat (num_context_banks d))%nat.
Proof.
  unfold captured_ctx. rewrite (length_bind_slots _ 11) by reflexivity.
  rewrite length_seqZ. reflexivity.
Qed.

Lemma length_captured_global (d : arm_smmu_device) :
  length (captured_global d)
  = (2 * Z.to_nat (num_mapping_groups d) + 1)%nat.
Proof.
  unfold captured_global.
  rewrite length_app, (length_bind_slots _ 2) by reflexivity.
  rewrite length_seqZ. reflexivity.
Qed.

Lemma send_all (evs : list event) :
  forall s : hw * list access,
    foldl (fun s e => send e s) s evs
    = (foldl apply s.1 evs, s.2 ++ map Sent evs).
Proof.
  induction evs as [|e evs IH]; intros [h log].
  - cbn. rewrite app_nil_r. reflexivity.
  - cbn [foldl]. rewrite IH. unfold send. cbn [fst snd map].
    rewrite <- app_assoc. reflexivity.
Qed.

(** What suspend leaves in the arrays and in the log. *)
Lemma pm_suspend_run (d : arm_smmu_device) (e : pm_env) (h : hw) :
  well_formed d ->
  Power.attach_count (gate d) <> 0 ->
  (Power.arm_smmu_enable_clocks (clk d) (penv e) (gate d)).1.1 = 0 ->
  let g1 := (Power.arm_smmu_enable_clocks (clk d) (penv e) (gate d)).1.2 in
  let g2 := (Power.arm_smmu_disable_clocks (clk d) (penv e) g1).1.2 in
  arm_smmu_pm_suspend (Some d) e h
  = (0,
     Some (set_saved d
             (map (read_slot h) (captured_ctx d)
              ++ drop (length (captured_ctx d)) (regs d))
             (map (read_slot h) (captured_global d)
              ++ drop (length (captured_global d)) (reg_global d))
             g2),
     map read_access (captured d)).
Proof.
  intros (Hcb & Hng & Hregs & Hrg) Hac Hclk g1 g2. subst g1 g2.
  unfold arm_smmu_pm_suspend.
  apply Z.eqb_neq in Hac. rewrite Hac.
  destruct (Power.arm_smmu_enable_clocks (clk d) (penv e) (gate d))
    as [[r g1] t1].
  cbn [fst snd] in *. subst r. cbn [Z.eqb negb]. cbv zeta.
  pose proof (length_captured_ctx d) as Hl1.
  pose proof (length_captured_global d) as Hl2.
  unfold MAX_GLOBAL_REG_SAVE_ENTRIES, ARM_SMMU_MAX_CBS, ARM_SMMU_MAX_SMRS,
    SAVE_ARM_SMMU_MAX_CNT in *.
  rewrite (for_range_slots (save_slot h) ctx_slots)
    by (intros; apply suspend_cb_slots).
  rewrite Z2Nat.id by lia. fold (captured_ctx d).
  rewrite save_all by (cbn [Nat.add]; lia).
  rewrite take_0. cbn [app Nat.add].
  rewrite (for_range_slots (save_slot h) group_slots)
    by (intros; apply suspend_group_slots).
  rewrite Z2Nat.id by lia.
  destruct (foldl (save_slot h) (0%nat, reg_global d, _) _)
    as [[k rg1] log2] eqn:Eg.
  assert (Hg : foldl (save_slot h) (0%nat, reg_global d,
                 map read_access (captured_ctx d)) (captured_global d)
               = save_readl h GR0 (ARM_SMMU_GR0_NS d + ARM_SMMU_GR0_sCR0)
                   (k, rg1, log2)).
  { unfold captured_global. rewrite foldl_app, Eg. reflexivity. }
  rewrite save_all in Hg by (cbn [Nat.add]; lia).
  rewrite take_0 in Hg. cbn [app Nat.add] in Hg. rewrite <- Hg.
  destruct (Power.arm_smmu_disable_clocks (clk d) (penv e) g1) as [[u g2] t2].
  cbn [fst snd]. unfold captured. rewrite map_app. reflexivity.
Qed.

(** What resume writes when the arrays hold [f] of each captured
    register. *)
Lemma pm_resume_run (d : arm_smmu_device) (e : pm_env) (h : hw)
  (f : slot -> Z) (rest1 rest2 : list Z) :
  0 <= num_context_banks d -> 0 <= num_mapping_groups d ->
  regs d = map f (captured_ctx d) ++ rest1 ->
  reg_global d = map f (captured_global d) ++ rest2 ->
  Power.attach_count (gate d) <> 0 ->
  (Power.arm_smmu_enable_clocks (clk d) (penv e) (gate d)).1.1 = 0 ->
  let r := arm_smmu_pm_resume (Some d) e h in
  r.1.1.1 = 0 /\
  r.1.2 = foldl apply (write_all f h (captured d)) (tlb_flush e) /\
  r.2 = map (fun s => Sent (write_event s (f s))) (captured d)
        ++ map Sent (tlb_flush e).
Proof.
  intros Hcb Hng Hregs Hrg Hac Hclk r. subst r.
  unfold arm_smmu_pm_resume.
  apply Z.eqb_neq in Hac. rewrite Hac.
  destruct (Power.arm_smmu_enable_clocks (clk d) (penv e) (gate d))
    as [[r g1] t1].
  cbn [fst snd] in *. subst r. cbn [Z.eqb negb]. cbv zeta.
  rewrite (for_range_slots (load_slot (regs d)) ctx_slots)
    by (intros; apply resume_cb_slots).
  rewrite Z2Nat.id by lia. fold (captured_ctx d).
  rewrite (load_all (regs d) f _ 0 h [] rest1) by exact Hregs.
  cbn [app Nat.add].
  rewrite (for_range_slots (load_slot (reg_global d)) group_slots)
    by (intros; apply resume_group_slots).
  rewrite Z2Nat.id by lia.
  destruct (foldl (load_slot (reg_global d)) _ _) as [[k h2] log2] eqn:Eg.
  assert (Hg : foldl (load_slot (reg_global d))
                 (0%nat, write_all f h (captured_ctx d),
                  map (fun s => Sent (write_event s (f s))) (captured_ctx d))
                 (captured_global d)
               = load_writel (reg_global d) GR0
                   (ARM_SMMU_GR0_NS d + ARM_SMMU_GR0_sCR0) (k, h2, log2)).
  { unfold captured_global. rewrite foldl_app, Eg. reflexivity. }
  rewrite (load_all (reg_global d) f _ 0 _ _ rest2) in Hg by exact Hrg.
  rewrite <- Hg. rewrite send_all. unfold send. cbn [fst snd].
  destruct (Power.arm_smmu_disable_clocks (clk d) (penv e) g1) as [[u g2] t2].
  cbn [fst snd]. split; [reflexivity|].
  unfold captured, tlb_flush, write_all.
  rewrite !foldl_app, !map_app. cbn [foldl map].
  rewrite <- !app_assoc. cbn [app]. split; reflexivity.
Qed.

Lemma apart_captured (d : arm_smmu_device) :
  well_formed d -> apart (captured d).
Proof.
  intros (Hcb & Hng & _). unfold ARM_SMMU_MAX_CBS, ARM_SMMU_MAX_SMRS in *.
  unfold captured, captured_ctx, captured_global.
  rewrite <- (Z2Nat.id (num_context_banks d)) by lia.
  rewrite <- (Z2Nat.id (num_mapping_groups d)) by lia.
  apply apart_app.
  - apply apart_bind; [apply apart_ctx_slots|].
    intros j j' s s' Hj Hj'. apply far_ctx_slots; lia.
  - apply apart_app.
    + apply apart_bind; [apply apart_group_slots|].
      intros j j' s s' Hj Hj'. apply far_group_slots; lia.
    + split; [apply Forall_nil; exact I | exact I].
    + intros s s' Hs Hs'. apply list_elem_of_bind in Hs as (j & Hs & Hj).
      apply elem_of_seqZ in Hj. apply list_elem_of_singleton in Hs'. subst s'.
      unfold group_slots in Hs. slot_cases Hs;
        unfold scr0_slot, ARM_SMMU_GR0_NS;
        destruct (has (options d) ARM_SMMU_OPT_SECURE_CFG_ACCESS); far_solve.
  - intros s s' Hs Hs'. apply list_elem_of_bind in Hs as (j & Hs & Hj).
    apply elem_of_app in Hs' as [Hs'|Hs'].
    + apply list_elem_of_bind in Hs' as (j' & Hs' & Hj').
      unfold ctx_slots in Hs. unfold group_slots in Hs'.
      slot_cases Hs; slot_cases Hs'; far_solve.
    + apply list_elem_of_singleton in Hs'. subst s'.
      unfold ctx_slots in Hs. slot_cases Hs; far_solve.
Qed.

(** The flush touches none of the captured registers. *)
Lemma flush_far (d : arm_smmu_device) (e : pm_env) (h : hw) (s : slot) :
  0 <= num_context_banks d -> 0 <= num_mapping_groups d ->
  s ∈ captured d ->
  read_slot (foldl apply h (tlb_flush e)) s = read_slot h s.
Proof.
  intros Hcb Hng Hs.
  assert (Hfar : forall off,
             off = ARM_SMMU_GR0_TLBIALLH \/ off = ARM_SMMU_GR0_TLBIALLNSNH \/
             off = ARM_SMMU_GR0_sTLBGSYNC ->
             far s (l32 GR0 off)).
  { intros off Hoff. unfold captured, captured_global in Hs.
    rewrite !elem_of_app in Hs. destruct Hs as [Hs|[Hs|Hs]].
    - apply list_elem_of_bind in Hs as (j & Hs & Hj).
      unfold ctx_slots in Hs.
      slot_cases Hs; destruct Hoff as [ -> | [ -> | -> ] ]; far_solve.
    - apply list_elem_of_bind in Hs as (j & Hs & Hj).
      apply elem_of_seqZ in Hj. unfold group_slots in Hs.
      slot_cases Hs; destruct Hoff as [ -> | [ -> | -> ] ]; far_solve.
    - apply list_elem_of_singleton in Hs. subst s.
      unfold scr0_slot, ARM_SMMU_GR0_NS.
      destruct (has (options d) ARM_SMMU_OPT_SECURE_CFG_ACCESS);
        destruct Hoff as [ -> | [ -> | -> ] ]; far_solve. }
  assert (Hw : forall h' off,
             off = ARM_SMMU_GR0_TLBIALLH \/ off = ARM_SMMU_GR0_TLBIALLNSNH \/
             off = ARM_SMMU_GR0_sTLBGSYNC ->
             read_slot (apply h' (Writel GR0 off 0)) s = read_slot h' s).
  { intros h' off Hoff.
    change (Writel GR0 off 0) with (write_event (l32 GR0 off) 0).
    apply read_write_far, Hfar, Hoff. }
  unfold tlb_flush, __arm_smmu_tlb_sync.
  destruct (tlb_sync_poll _ _ _); cbn [app foldl].
  - match goal with
    | |- context [apply ?x (DevErr ?m)] => change (apply x (DevErr m)) with x
    end.
    rewrite !Hw by auto. reflexivity.
  - rewrite !Hw by auto. reflexivity.
Qed.


(** C8.  With an attach count of zero suspend and resume return 0 and
    access no register.  Otherwise (the arrays being as declared and the
    gate available) suspend returns 0 after reading, for each context bank
    in turn, SCTLR, ACTLR, TTBCR2, the 64-bit TTBR0 and TTBR1, TTBCR,
    CONTEXTIDR, MAIR0, MAIR1, CBA2R and CBAR into the flat per-bank array,
    then per mapping group S2CR and SMR and last the global sCR0 into the
    global array; resume returns 0 after writing exactly those values back
    in the same order, followed by the two global TLB invalidate-all
    writes and a sync; and whatever the register file held at resume,
    every captured register then reads as it did at suspend. *)
Theorem pm_snapshot_round_trip (d : arm_smmu_device) (e0 e1 : pm_env)
  (h0 h1 : hw) :
  well_formed d ->
  let r0 := arm_smmu_pm_suspend (Some d) e0 h0 in
  let r1 := arm_smmu_pm_resume r0.1.2 e1 h1 in
  (Power.attach_count (gate d) = 0 ->
   r0 = (0, Some d, []) /\ r1 = (0, Some d, h1, [])) /\
  (Power.attach_count (gate d) <> 0 -> clocks_ok d e0 e1 ->
   r0.1.1 = 0 /\
   r0.2 = map read_access (captured d) /\
   (exists d1,
       r0.1.2 = Some d1 /\
       regs d1 = map (read_slot h0) (captured_ctx d)
                 ++ drop (length (captured_ctx d)) (regs d) /\
       reg_global d1 = map (read_slot h0) (captured_global d)
                       ++ drop (length (captured_global d)) (reg_global d)) /\
   r1.1.1.1 = 0 /\
   r1.2 = map (fun s => Sent (write_event s (read_slot h0 s))) (captured d)
          ++ map Sent (tlb_flush e1) /\
   forall s, s ∈ captured d -> read_slot r1.1.2 s = read_slot h0 s).
Proof.
  intros Hwf r0 r1. split.
  - intros Hz. subst r1 r0. unfold arm_smmu_pm_suspend.
    rewrite Hz. cbn [Z.eqb fst snd]. unfold arm_smmu_pm_resume.
    rewrite Hz. split; reflexivity.
  - intros Hac [Hc0 Hc1]. subst r1 r0.
    rewrite (pm_suspend_run d e0 h0 Hwf Hac Hc0). cbn [fst snd].
    set (g2 := (Power.arm_smmu_disable_clocks _ _ _).1.2) in *.
    set (d1 := set_saved d _ _ g2).
    assert (Hg2 : Power.attach_count g2 = Power.attach_count (gate d)).
    { subst g2. rewrite keeps_disable_clocks, keeps_enable_clocks.
      reflexivity. }
    destruct Hwf as (Hcb & Hng & Hwf).
    destruct (pm_resume_run d1 e1 h1 (read_slot h0)
                (drop (length (captured_ctx d)) (regs d))
                (drop (length (captured_global d)) (reg_global d)))
      as (Hr & Hh & Hl); try reflexivity.
    + apply Hcb.
    + apply Hng.
    + cbn [gate d1 set_saved]. rewrite Hg2. exact Hac.
    + exact Hc1.
    + change (captured d1) with (captured d) in *.
      split; [reflexivity|]. split; [reflexivity|].
      split; [exists d1; repeat split|].
      split; [exact Hr|]. split; [exact Hl|].
      intros s Hs. rewrite Hh.
      rewrite (flush_far d) by (assumption || apply Hcb || apply Hng).
      rewrite write_all_read.
      * apply trunc_read.
      * apply apart_captured. repeat split; (apply Hcb || apply Hng || apply Hwf).
      * exact Hs.
Qed.

(** Two context banks, two mapping groups, one attached domain. *)
Definition pm_device : arm_smmu_device :=
  {| options := 0; num_context_banks := 2; num_mapping_groups := 2;
     regs := replicate 1408 0; reg_global := replicate 257 0;
     clk := Power.c6_cfg;
     gate := Power.set_attach_count Power.idle_gate 1 |}.

Definition pm_env_ok : pm_env :=
  {| penv := Power.env_all_ok; gstatus_in := fun _ => 0 |}.

(** A register file in which every captured register differs. *)
Definition pm_hw : hw :=
  fun r off =>
    match r with
    | GR0 => 0x10000 + off
    | GR1 => 0x20000 + off
    | IMPL_DEF1 => 0x30000 + off
    | CB n => 0x100000 * (n + 1) + off
    end.

(** The register file after power collapse. *)
Definition pm_hw_reset : hw := fun _ _ => 0.

Lemma pm_snapshot_round_trip_witness :
  let r0 := arm_smmu_pm_suspend (Some pm_device) pm_env_ok pm_hw in
  let r1 := arm_smmu_pm_resume r0.1.2 pm_env_ok pm_hw_reset in
  r0.1.1 = 0 /\ r1.1.1.1 = 0 /\
  forall s, s ∈ captured pm_device -> read_slot r1.1.2 s = read_slot pm_hw s.
Proof.
  intros r0 r1.
  assert (Hwf : well_formed pm_device).
  { repeat split; vm_compute; congruence. }
  assert (Hac : Power.attach_count (gate pm_device) <> 0)
    by (vm_compute; discriminate).
  assert (Hclk : clocks_ok pm_device pm_env_ok pm_env_ok)
    by (split; vm_compute; reflexivity).
  destruct (pm_snapshot_round_trip pm_device pm_env_ok pm_env_ok pm_hw
              pm_hw_reset Hwf) as [_ H].
  destruct (H Hac Hclk) as (H0 & _ & _ & H1 & _ & Hrt).
  split; [exact H0|]. split; [exact H1 | exact Hrt].
Defined.

(** What suspend reads, and what resume sends, for one bank and one
    group. *)
Example pm_one_bank_trace :
  let d := {| options := 0; num_context_banks := 1; num_mapping_groups := 1;
              regs := replicate 1408 0; reg_global := replicate 257 0;
              clk := Power.c6_cfg;
              gate := Power.set_attach_count Power.idle_gate 1 |} in
  let r0 := arm_smmu_pm_suspend (Some d) pm_env_ok pm_hw in
  let r1 := arm_smmu_pm_resume r0.1.2 pm_env_ok pm_hw_reset in
  r0.2 = [Readl (CB 0) 0x0; Readl (CB 0) 0x4; Readl (CB 0) 0x10;
          Readq (CB 0) 0x20; Readq (CB 0) 0x28; Readl (CB 0) 0x30;
          Readl (CB 0) 0x34; Readl (CB 0) 0x38; Readl (CB 0) 0x3c;
          Readl GR1 0x800; Readl GR1 0x0;
          Readl GR0 0xc00; Readl GR0 0x800; Readl GR0 0x0] /\
  r1.2 = [Sent (Writel (CB 0) 0x0 0x100000); Sent (Writel (CB 0) 0x4 0x100004);
          Sent (Writel (CB 0) 0x10 0x100010);
          Sent (Writeq (CB 0) 0x20 0x10002400100020);
          Sent (Writeq (CB 0) 0x28 0x10002c00100028);
          Sent (Writel (CB 0) 0x30 0x100030); Sent (Writel (CB 0) 0x34 0x100034);
          Sent (Writel (CB 0) 0x38 0x100038); Sent (Writel (CB 0) 0x3c 0x10003c);
          Sent (Writel GR1 0x800 0x20800); Sent (Writel GR1 0x0 0x20000);
          Sent (Writel GR0 0xc00 0x10c00); Sent (Writel GR0 0x800 0x10800);
          Sent (Writel GR0 0x0 0x10000);
          Sent (Writel GR0 0x6c 0); Sent (Writel GR0 0x68 0);
          Sent (Writel GR0 0x70 0)].
Proof. vm_compute. split; reflexivity. Qed.

End PM.


(** ** The registry of bus masters *)

Module Registry.

Definition MAX_MASTER_STREAMIDS : Z := 45.

(** [struct arm_smmu_master]: the device-tree node the tree is ordered by
    (its address) and, from [cfg], the stream IDs.  [streamids] is the
    array [u16 streamids[MAX_MASTER_STREAMIDS]]. *)
Record arm_smmu_master := {
  of_node : Z;
  num_streamids : Z;
  streamids : list Z
}.

(** [struct iommus_entry]. *)
Record iommus_entry := {
  node : Z;
  entry_streamids : list Z;
  num_sids : Z
}.

(** The tree [smmu->masters]. *)
Inductive rb_node :=
| Leaf
| Node (rb_left : rb_node) (master : arm_smmu_master) (rb_right : rb_node).

(** What [rb_first] / [rb_next] walk through. *)
Fixpoint inorder (t : rb_node) : list arm_smmu_master :=
  match t with
  | Leaf => []
  | Node l m r => inorder l ++ m :: inorder r
  end.

(** [find_smmu_master]. *)
Fixpoint find_smmu_master (t : rb_node) (dev_node : Z)
  : option arm_smmu_master :=
  match t with
  | Leaf => None
  | Node l master r =>
      if dev_node <? of_node master then find_smmu_master l dev_node
      else if of_node master <? dev_node then find_smmu_master r dev_node
      else Some master
  end.

(** The inner loop of [find_smmu_master_by_sid]. *)
Definition has_streamid (m : arm_smmu_master) (sid : Z) : bool :=
  existsb (fun x => x =? sid) (take (Z.to_nat (num_streamids m)) (streamids m)).

(** [find_smmu_master_by_sid]. *)
Definition find_smmu_master_by_sid (t : rb_node) (sid : Z)
  : option arm_smmu_master :=
  List.find (fun m => has_streamid m sid) (inorder t).

(** The descent of [insert_smmu_master] and its [rb_link_node]: the new
    node is hung where the descent leaves the tree; [None] is the
    [-EEXIST] exit. *)
Fixpoint rb_link_node (t : rb_node) (master : arm_smmu_master)
  : option rb_node :=
  match t with
  | Leaf => Some (Node Leaf master Leaf)
  | Node l this r =>
      if of_node master <? of_node this
      then match rb_link_node l master with
           | Some l' => Some (Node l' this r)
           | None => None
           end
      else if of_node this <? of_node master
      then match rb_link_node r master with
           | Some r' => Some (Node l this r')
           | None => None
           end
      else None
  end.

(** The loop of [register_smmu_master] that copies the stream IDs into
    the zeroed master record. *)
Fixpoint copy_streamids (n : nat) (i : nat) (src dst : list Z) : list Z :=
  match n with
  | O => dst
  | S n' => copy_streamids n' (S i) src (<[i := src !!! i]> dst)
  end.

Section Tree.

(** Modelled from the spec: [rb_insert_color] is the kernel's red-black
    tree library (not under src/).  It recolours and rotates; all that is
    used of it is that it keeps the sequence of the nodes. *)
Variable rb_insert_color : rb_node -> rb_node.
Hypothesis rb_insert_color_inorder :
  forall t, inorder (rb_insert_color t) = inorder t.

(** [insert_smmu_master]. *)
Definition insert_smmu_master (t : rb_node) (master : arm_smmu_master)
  : Z * rb_node :=
  match rb_link_node t master with
  | None => (- EEXIST, t)
  | Some t' => (0, rb_insert_color t')
  end.

(** [register_smmu_master]; [alloc_ok] is the outcome of its
    [devm_kzalloc]. *)
Definition register_smmu_master (t : rb_node) (entry : iommus_entry)
  (alloc_ok : bool) : Z * rb_node :=
  match find_smmu_master t (node entry) with
  | Some _ => (- EBUSY, t)
  | None =>
      if MAX_MASTER_STREAMIDS <? num_sids entry then (- ENOSPC, t)
      else if negb alloc_ok then (- ENOMEM, t)
      else
        insert_smmu_master t
          {| of_node := node entry;
             num_streamids := num_sids entry;
             streamids :=
               copy_streamids (Z.to_nat (num_sids entry)) 0
                 (entry_streamids entry)
                 (replicate (Z.to_nat MAX_MASTER_STREAMIDS) 0) |}
  end.

(** The nodes of the tree are in ascending order of their key. *)
Fixpoint ascending (l : list Z) : Prop :=
  match l with
  | [] => True
  | x :: r => Forall (Z.lt x) r /\ ascending r
  end.

Definition ordered (t : rb_node) : Prop :=
  ascending (map of_node (inorder t)).

Lemma ascending_app (a b : list Z) :
  ascending (a ++ b) <->
  ascending a /\ ascending b /\ forall x y, x ∈ a -> y ∈ b -> x < y.
Proof.
  induction a as [|x a IH]; cbn [app ascending].
  - split; [intros H; repeat split; auto; intros ? ? Hx; inversion Hx|tauto].
  - rewrite IH, Forall_app, !Forall_forall. split.
    + intros ((Ha & Hb) & Hasc & Hbsc & Hab). repeat split; auto.
      intros x' y Hx' Hy. apply elem_of_cons in Hx' as [->|Hx']; auto.
    + intros ((Ha & Hasc) & Hbsc & Hab). repeat split; auto.
      * intros y Hy. apply Hab; [left|exact Hy].
      * intros x' y Hx' Hy. apply Hab; [right; exact Hx'|exact Hy].
Qed.

Lemma ordered_node (l r : rb_node) (m : arm_smmu_master) :
  ordered (Node l m r) <->
  ordered l /\ ordered r /\
  (forall x, x ∈ inorder l -> of_node x < of_node m) /\
  (forall y, y ∈ inorder r -> of_node m < of_node y).
Proof.
  unfold ordered. cbn [inorder]. rewrite map_app. cbn [map].
  rewrite ascending_app. cbn [ascending]. rewrite Forall_forall.
  split.
  - intros (Hl & (Hm & Hr) & Hlr). repeat split; auto.
    + intros x Hx. apply Hlr; [|left].
      apply list_elem_of_fmap. exists x. auto.
    + intros y Hy. apply Hm. apply list_elem_of_fmap. exists y. auto.
  - intros (Hl & Hr & Hlm & Hmr). repeat split; auto.
    + intros y Hy. apply list_elem_of_fmap in Hy as (y' & -> & Hy'). auto.
    + intros x y Hx Hy. apply list_elem_of_fmap in Hx as (x' & -> & Hx').
      apply elem_of_cons in Hy as [->|Hy]; [auto|].
      apply list_elem_of_fmap in Hy as (y' & -> & Hy').
      specialize (Hlm x' Hx'). specialize (Hmr y' Hy'). lia.
Qed.

(** The descent finds a node exactly when the tree holds one with that
    key. *)
Lemma find_smmu_master_spec (t : rb_node) (k : Z) :
  ordered t ->
  match find_smmu_master t k with
  | Some m => m ∈ inorder t /\ of_node m = k
  | None => forall m, m ∈ inorder t -> of_node m <> k
  end.
Proof.
  induction t as [|l IHl m r IHr]; intros Ho.
  - cbn. intros m Hm. inversion Hm.
  - apply ordered_node in Ho as (Hl & Hr & Hlm & Hmr).
    cbn [find_smmu_master inorder].
    destruct (Z.ltb_spec k (of_node m)) as [Hlt|Hge].
    + specialize (IHl Hl). destruct (find_smmu_master l k) as [x|].
      * destruct IHl as [Hx Hk]. split; [|exact Hk].
        apply elem_of_app. left. exact Hx.
      * intros x Hx. apply elem_of_app in Hx as [Hx|Hx]; [auto|].
        apply elem_of_cons in Hx as [->|Hx]; [lia|].
        specialize (Hmr x Hx). lia.
    + destruct (Z.ltb_spec (of_node m) k) as [Hgt|Hle].
      * specialize (IHr Hr). destruct (find_smmu_master r k) as [x|].
        -- destruct IHr as [Hx Hk]. split; [|exact Hk].
           apply elem_of_app. right. right. exact Hx.
        -- intros x Hx. apply elem_of_app in Hx as [Hx|Hx].
           ++ specialize (Hlm x Hx). lia.
           ++ apply elem_of_cons in Hx as [->|Hx]; [lia|auto].
      * split; [|lia]. apply elem_of_app. right. left.
Qed.

(** Linking succeeds exactly when the key is new, and adds the node and
    nothing else, in order. *)
Lemma rb_link_node_spec (t : rb_node) (m : arm_smmu_master) :
  ordered t ->
  match rb_link_node t m with
  | Some t' =>
      ordered t' /\
      (forall x, x ∈ inorder t' <-> x = m \/ x ∈ inorder t) /\
      (forall x, x ∈ inorder t -> of_node x <> of_node m)
  | None => exists x, x ∈ inorder t /\ of_node x = of_node m
  end.
Proof.
  induction t as [|l IHl this r IHr]; intros Ho.
  - cbn. split; [split; [constructor|exact I]|]. split.
    + intros x. rewrite list_elem_of_singleton. split; [auto|].
      intros [H|H]; [exact H|inversion H].
    + intros x Hx. inversion Hx.
  - apply ordered_node in Ho as (Hl & Hr & Hlm & Hmr).
    cbn [rb_link_node].
    destruct (Z.ltb_spec (of_node m) (of_node this)) as [Hlt|Hge].
    + specialize (IHl Hl). destruct (rb_link_node l m) as [l'|].
      * destruct IHl as (Ho' & Hin & Hne). split; [|split].
        -- apply ordered_node. repeat split; auto.
           intros x Hx. apply Hin in Hx as [->|Hx]; auto.
        -- intros x. cbn [inorder]. rewrite !elem_of_app, Hin. tauto.
        -- intros x Hx. cbn [inorder] in Hx.
           apply elem_of_app in Hx as [Hx|Hx]; [auto|].
           apply elem_of_cons in Hx as [->|Hx]; [lia|].
           specialize (Hmr x Hx). lia.
      * destruct IHl as (x & Hx & Hk). exists x. split; [|exact Hk].
        cbn [inorder]. apply elem_of_app. left. exact Hx.
    + destruct (Z.ltb_spec (of_node this) (of_node m)) as [Hgt|Hle].
      * specialize (IHr Hr). destruct (rb_link_node r m) as [r'|].
        -- destruct IHr as (Ho' & Hin & Hne). split; [|split].
           ++ apply ordered_node. repeat split; auto.
              intros y Hy. apply Hin in Hy as [->|Hy]; auto.
           ++ intros x. cbn [inorder].
              rewrite !elem_of_app, !elem_of_cons, Hin. tauto.
           ++ intros x Hx. cbn [inorder] in Hx.
              apply elem_of_app in Hx as [Hx|Hx].
              ** specialize (Hlm x Hx). lia.
              ** apply elem_of_cons in Hx as [->|Hx]; [lia|auto].
        -- destruct IHr as (x & Hx & Hk). exists x. split; [|exact Hk].
           cbn [inorder]. apply elem_of_app. right. right. exact Hx.
      * exists this. split; [|lia]. cbn [inorder].
        apply elem_of_app. right. left.
Qed.

Lemma ordered_rb_insert_color (t : rb_node) :
  ordered t -> ordered (rb_insert_color t).
Proof. unfold ordered. rewrite rb_insert_color_inorder. auto. Qed.


Lemma ascending_inj (l : list arm_smmu_master) (x y : arm_smmu_master) :
  ascending (map of_node l) -> x ∈ l -> y ∈ l -> of_node x = of_node y ->
  x = y.
Proof.
  induction l as [|a l IH]; intros Ha Hx Hy He; [inversion Hx|].
  cbn [map ascending] in Ha. destruct Ha as [Hf Ha].
  rewrite Forall_forall in Hf.
  assert (Hlt : forall z, z ∈ l -> of_node a < of_node z).
  { intros z Hz. apply Hf. apply list_elem_of_fmap. exists z. auto. }
  apply elem_of_cons in Hx as [->|Hx]; apply elem_of_cons in Hy as [->|Hy].
  - reflexivity.
  - specialize (Hlt y Hy). lia.
  - specialize (Hlt x Hx). lia.
  - apply IH; assumption.
Qed.

(** On an ordered tree the result of a lookup depends on the nodes only,
    not on the shape. *)
Lemma find_smmu_master_nodes (t1 t2 : rb_node) (k : Z) :
  ordered t1 -> ordered t2 ->
  (forall x, of_node x = k -> x ∈ inorder t2 <-> x ∈ inorder t1) ->
  find_smmu_master t2 k = find_smmu_master t1 k.
Proof.
  intros H1 H2 Hin.
  pose proof (find_smmu_master_spec t1 k H1) as S1.
  pose proof (find_smmu_master_spec t2 k H2) as S2.
  destruct (find_smmu_master t1 k) as [a|], (find_smmu_master t2 k) as [b|].
  - destruct S1 as [Ha Hka], S2 as [Hb Hkb]. f_equal.
    apply (ascending_inj (inorder t2)); [exact H2 | exact Hb | | congruence].
    apply Hin; assumption.
  - destruct S1 as [Ha Hka]. exfalso. apply (S2 a); [|exact Hka].
    apply Hin; assumption.
  - destruct S2 as [Hb Hkb]. exfalso. apply (S1 b); [|exact Hkb].
    apply Hin; assumption.
  - reflexivity.
Qed.

Lemma length_copy_streamids (src : list Z) (n : nat) :
  forall (i : nat) (dst : list Z),
    length (copy_streamids n i src dst) = length dst.
Proof.
  induction n as [|n IH]; intros i dst; cbn [copy_streamids]; [reflexivity|].
  rewrite IH, length_insert. reflexivity.
Qed.

Lemma copy_streamids_lookup (src : list Z) (n : nat) :
  forall (i : nat) (dst : list Z) (j : nat),
    copy_streamids n i src dst !! j
    = if bool_decide (i <= j < i + n)%nat && bool_decide (j < length dst)%nat
      then Some (src !!! j) else dst !! j.
Proof.
  induction n as [|n IH]; intros i dst j; cbn [copy_streamids].
  - rewrite bool_decide_eq_false_2 by lia. reflexivity.
  - rewrite IH, length_insert.
    destruct (decide (j = i)) as [->|Hne].
    + rewrite (bool_decide_eq_false_2 (S i <= i < _)%nat) by lia.
      rewrite (bool_decide_eq_true_2 (i <= i < _)%nat) by lia.
      cbn [andb]. destruct (decide (i < length dst)%nat) as [Hlt|Hge].
      * rewrite bool_decide_eq_true_2 by exact Hlt.
        apply list_lookup_insert_eq. exact Hlt.
      * rewrite bool_decide_eq_false_2 by exact Hge.
        rewrite list_insert_ge by lia. reflexivity.
    + rewrite list_lookup_insert_ne by auto.
      destruct (decide (S i <= j < S i + n)%nat) as [H1|H1].
      * rewrite (bool_decide_eq_true_2 _ H1).
        rewrite (bool_decide_eq_true_2 (i <= j < i + S n)%nat) by lia.
        reflexivity.
      * rewrite (bool_decide_eq_false_2 _ H1).
        rewrite (bool_decide_eq_false_2 (i <= j < i + S n)%nat) by lia.
        reflexivity.
Qed.


(** Registration of a new master with at most MAX_MASTER_STREAMIDS stream
    IDs succeeds; the tree stays ordered; a lookup of the node then finds
    the new record, which carries the node, the count and the first
    [num_sids] stream IDs of the entry (the rest of the array is zero);
    and the lookup of every other node answers as before. *)
Theorem register_then_find (t : rb_node) (entry : iommus_entry) :
  ordered t ->
  find_smmu_master t (node entry) = None ->
  0 <= num_sids entry <= MAX_MASTER_STREAMIDS ->
  let r := register_smmu_master t entry true in
  r.1 = 0 /\ ordered r.2 /\
  (exists m,
      find_smmu_master r.2 (node entry) = Some m /\
      of_node m = node entry /\ num_streamids m = num_sids entry /\
      length (streamids m) = Z.to_nat MAX_MASTER_STREAMIDS /\
      forall i : nat,
        streamids m !! i
        = if bool_decide (Z.of_nat i < num_sids entry)
          then Some (entry_streamids entry !!! i)
          else if bool_decide (Z.of_nat i < MAX_MASTER_STREAMIDS)
               then Some 0 else None) /\
  (forall k, k <> node entry ->
             find_smmu_master r.2 k = find_smmu_master t k).
Proof.
  intros Ho Hnew Hn r. subst r. unfold register_smmu_master.
  rewrite Hnew.
  replace (MAX_MASTER_STREAMIDS <? num_sids entry) with false
    by (symmetry; apply Z.ltb_ge; lia).
  cbn [negb]. unfold insert_smmu_master.
  set (m := {| of_node := node entry; num_streamids := num_sids entry;
               streamids := _ |}).
  pose proof (rb_link_node_spec t m Ho) as Hl.
  destruct (rb_link_node t m) as [t'|].
  - destruct Hl as (Ho' & Hin & Hne). cbn [fst snd].
    assert (Hoc : ordered (rb_insert_color t'))
      by (apply ordered_rb_insert_color, Ho').
    split; [reflexivity|]. split; [exact Hoc|]. split.
    + exists m.
      pose proof (find_smmu_master_spec (rb_insert_color t') (node entry) Hoc)
        as Hf.
      destruct (find_smmu_master (rb_insert_color t') (node entry)) as [x|].
      * destruct Hf as [Hx Hk]. rewrite rb_insert_color_inorder in Hx.
        apply Hin in Hx as [->|Hx];
          [|exfalso; apply (Hne x Hx); exact Hk].
        split; [reflexivity|]. split; [reflexivity|]. split; [reflexivity|].
        split.
        { cbn [streamids m].
          rewrite length_copy_streamids, length_replicate. reflexivity. }
        intros i. cbn [streamids m]. rewrite copy_streamids_lookup.
        rewrite length_replicate.
        unfold MAX_MASTER_STREAMIDS in *.
        destruct (decide (Z.of_nat i < num_sids entry)) as [H1|H1].
        -- rewrite (bool_decide_eq_true_2 _ H1).
           rewrite !bool_decide_eq_true_2 by lia. reflexivity.
        -- rewrite (bool_decide_eq_false_2 _ H1).
           rewrite (bool_decide_eq_false_2 (0 <= i < _)%nat) by lia.
           cbn [andb].
           destruct (decide (Z.of_nat i < 45)) as [H2|H2].
           ++ rewrite (bool_decide_eq_true_2 _ H2).
              apply lookup_replicate_2. lia.
           ++ rewrite (bool_decide_eq_false_2 _ H2).
              apply lookup_replicate_None. lia.
      * exfalso. apply (Hf m); [|reflexivity].
        rewrite rb_insert_color_inorder. apply Hin. left. reflexivity.
    + intros k Hk. apply find_smmu_master_nodes; [exact Ho | exact Hoc |].
      intros x Hx. rewrite rb_insert_color_inorder, Hin. split; [|auto].
      intros [->|H]; [|exact H]. cbn in Hx. congruence.
  - destruct Hl as (x & Hx & Hkx). exfalso.
    pose proof (find_smmu_master_spec t (node entry) Ho) as Hf.
    rewrite Hnew in Hf. apply (Hf x Hx). exact Hkx.
Qed.

(** A registration that fails leaves the tree as it was, and the three
    ways to fail are: the node is already registered (-EBUSY), too many
    stream IDs (-ENOSPC), no memory (-ENOMEM).  The -EEXIST of the insertion
    is never seen: the lookup in front excludes it. *)
Theorem register_rejects (t : rb_node) (entry : iommus_entry)
  (alloc_ok : bool) :
  ordered t ->
  let r := register_smmu_master t entry alloc_ok in
  (r.1 <> 0 -> r.2 = t) /\
  (r.1 = - EBUSY <-> exists m, m ∈ inorder t /\ of_node m = node entry) /\
  (r.1 = - ENOSPC <->
   find_smmu_master t (node entry) = None /\
   MAX_MASTER_STREAMIDS < num_sids entry) /\
  (r.1 = - ENOMEM <->
   find_smmu_master t (node entry) = None /\
   num_sids entry <= MAX_MASTER_STREAMIDS /\ alloc_ok = false) /\
  r.1 <> - EEXIST.
Proof.
  intros Ho r. subst r. unfold register_smmu_master.
  pose proof (find_smmu_master_spec t (node entry) Ho) as Hf.
  destruct (find_smmu_master t (node entry)) as [x|]; cbn [fst snd].
  - destruct Hf as [Hx Hk]. split; [reflexivity|]. split.
    + split; [intros _; exists x; auto | reflexivity].
    + repeat split; try discriminate; intros (H & _); discriminate.
  - assert (Hno : ~ exists m, m ∈ inorder t /\ of_node m = node entry).
    { intros (m & Hm & Hk). apply (Hf m Hm Hk). }
    destruct (Z.ltb_spec MAX_MASTER_STREAMIDS (num_sids entry)) as [Hgt|Hle];
      cbn [fst snd].
    + split; [reflexivity|]. split; [split; [discriminate|tauto]|].
      split; [tauto|]. split; [|discriminate].
      split; [discriminate|]. intros (_ & H & _). lia.
    + destruct alloc_ok; cbn [negb fst snd].
      * unfold insert_smmu_master.
        match goal with
        | |- context [rb_link_node t ?m] =>
            pose proof (rb_link_node_spec t m Ho) as Hl;
            destruct (rb_link_node t m) as [t'|]
        end.
        -- cbn [fst snd]. split; [intros H; contradiction|].
           split; [split; [discriminate|tauto]|].
           split; [split; [discriminate|intros (_ & H); lia]|].
           split; [|discriminate].
           split; [discriminate|]. intros (_ & _ & H). discriminate.
        -- exfalso. apply Hno. exact Hl.
      * split; [reflexivity|]. split; [split; [discriminate|tauto]|].
        split; [split; [discriminate|intros (_ & H); lia]|].
        split; [|discriminate]. split; auto.
Qed.

(** A lookup by stream ID answers with a registered master that holds the
    ID among its first [num_streamids], and answers nothing only when no
    registered master does. *)
Theorem find_by_sid_sound (t : rb_node) (sid : Z) :
  match find_smmu_master_by_sid t sid with
  | Some m =>
      m ∈ inorder t /\
      exists i : nat, Z.of_nat i < num_streamids m /\
                      streamids m !! i = Some sid
  | None =>
      forall m (i : nat), m ∈ inorder t -> Z.of_nat i < num_streamids m ->
                          streamids m !! i <> Some sid
  end.
Proof.
  unfold find_smmu_master_by_sid.
  assert (Hhas : forall m, has_streamid m sid = true <->
            exists i : nat, Z.of_nat i < num_streamids m /\
                            streamids m !! i = Some sid).
  { intros m. unfold has_streamid. rewrite existsb_exists. split.
    - intros (x & Hx & He). apply Z.eqb_eq in He. subst x.
      apply list_elem_of_In, list_elem_of_lookup in Hx as (i & Hi).
      apply lookup_take_Some in Hi as [Hi Hlt]. exists i. split; [lia|exact Hi].
    - intros (i & Hlt & Hi). exists sid. split; [|apply Z.eqb_refl].
      apply list_elem_of_In, list_elem_of_lookup. exists i.
      apply lookup_take_Some. split; [exact Hi|lia]. }
  destruct (List.find _ (inorder t)) as [m|] eqn:E.
  - apply find_some in E as [Hin Hh]. split.
    + apply list_elem_of_In. exact Hin.
    + apply Hhas. exact Hh.
  - intros m i Hm Hlt Hi.
    pose proof (find_none _ _ E m) as Hn.
    rewrite <- list_elem_of_In in Hn. specialize (Hn Hm).
    assert (Ht : has_streamid m sid = true) by (apply Hhas; eauto).
    congruence.
Qed.

End Tree.

(** A rotation at the root, as the rebalancing does them. *)
Definition rotate_left (t : rb_node) : rb_node :=
  match t with
  | Node a x (Node b y c) => Node (Node a x b) y c
  | _ => t
  end.

Lemma rotate_left_inorder (t : rb_node) : inorder (rotate_left t) = inorder t.
Proof.
  destruct t as [|a x [|b y c]]; cbn [rotate_left inorder]; try reflexivity.
  rewrite <- app_assoc. reflexivity.
Qed.

Definition master_a : arm_smmu_master :=
  {| of_node := 0x1000; num_streamids := 1;
     streamids := 7 :: replicate 44 0 |}.

Definition entry_b : iommus_entry :=
  {| node := 0x2000; entry_streamids := 9 :: 10 :: replicate 43 0;
     num_sids := 2 |}.

Lemma register_then_find_witness :
  let t := Node Leaf master_a Leaf in
  let r := register_smmu_master rotate_left t entry_b true in
  r.1 = 0 /\
  (exists m, find_smmu_master r.2 0x2000 = Some m /\ num_streamids m = 2) /\
  find_smmu_master r.2 0x1000 = Some master_a.
Proof.
  intros t r.
  assert (Ho : ordered t) by (repeat constructor).
  destruct (register_then_find rotate_left rotate_left_inorder t entry_b Ho
              eq_refl)
    as (H0 & _ & (m & Hm & _ & Hn & _) & Hk).
  { unfold MAX_MASTER_STREAMIDS. cbn. lia. }
  split; [exact H0|]. split; [exists m; split; [exact Hm|exact Hn]|].
  apply (Hk 0x1000). cbn. lia.
Defined.

Lemma register_rejects_witness :
  let t := Node Leaf master_a Leaf in
  let e := {| node := 0x1000; entry_streamids := replicate 45 0;
              num_sids := 0 |} in
  register_smmu_master rotate_left t e true = (- EBUSY, t).
Proof.
  intros t e.
  assert (Ho : ordered t) by (repeat constructor).
  destruct (register_rejects rotate_left t e true Ho)
    as (Hsame & Hbusy & _).
  assert (Hr : (register_smmu_master rotate_left t e true).1 = - EBUSY).
  { apply Hbusy. exists master_a. split; [left|reflexivity]. }
  destruct (register_smmu_master rotate_left t e true) as [c t'].
  cbn [fst snd] in *. subst c. rewrite Hsame by discriminate. reflexivity.
Defined.

End Registry.


(** ** Stream-match registers of a master *)

Module Smr.

Definition ARM_SMMU_FEAT_STREAM_MATCH : Z := 2.
Definition SMR_VALID : Z := 0x80000000.
Definition SMR_MASK_SHIFT : Z := 16.
Definition SMR_ID_SHIFT : Z := 0.
Definition S2CR_TYPE_TRANS : Z := 0.
Definition S2CR_TYPE_BYPASS : Z := 0x10000.

(** [struct arm_smmu_smr]. *)
Record arm_smmu_smr := {
  idx : Z;      (* u8 *)
  mask : Z;     (* u16 *)
  id : Z        (* u16 *)
}.

(** [struct arm_smmu_master_cfg]: [streamids] is the array cut at
    [num_streamids], [smrs] the pointer ([None] for NULL). *)
Record arm_smmu_master_cfg := {
  streamids : list Z;
  smrs : option (list arm_smmu_smr)
}.

(** The allocator's fields of the device, and the number of mapping
    groups. *)
Record arm_smmu_device := {
  alloc : Alloc.arm_smmu_device;
  num_mapping_groups : Z
}.

Definition set_alloc (smmu : arm_smmu_device) (a : Alloc.arm_smmu_device)
  : arm_smmu_device :=
  {| alloc := a; num_mapping_groups := num_mapping_groups smmu |}.

(** The first loop of [arm_smmu_master_configure_smrs]: [done] are the
    entries filled so far; the result is [inl] of the whole array, or
    [inr] of the entries filled when an allocation failed. *)
Fixpoint alloc_smrs (smmu : arm_smmu_device) (sids : list Z)
  (done : list arm_smmu_smr)
  : (list arm_smmu_smr + list arm_smmu_smr) * arm_smmu_device :=
  match sids with
  | [] => (inl done, smmu)
  | s :: rest =>
      let '(i, a) :=
        Alloc.arm_smmu_alloc_smr_idx (alloc smmu) 0 (num_mapping_groups smmu) s in
      if IS_ERR_VALUE i then (inr done, set_alloc smmu a)
      else alloc_smrs (set_alloc smmu a) rest
             (done ++ [{| idx := u8 i; mask := 0; id := s |}])
  end.

(** Freeing the indexes of a list of entries, in list order. *)
Definition free_smr_idxs (smmu : arm_smmu_device) (l : list arm_smmu_smr)
  : arm_smmu_device :=
  foldl (fun s e => set_alloc s (Alloc.arm_smmu_free_smr_idx (alloc s) (idx e)))
    smmu l.

(** The value its second loop writes for one entry. *)
Definition smr_reg (e : arm_smmu_smr) : Z :=
  Z.lor (Z.lor SMR_VALID (Z.shiftl (id e) SMR_ID_SHIFT))
        (Z.shiftl (mask e) SMR_MASK_SHIFT).

(** [arm_smmu_master_configure_smrs]; [kmalloc_ok] is the outcome of its
    [kmalloc_array].  The error path frees in reverse order
    ([while (--i >= 0)]). *)
Definition arm_smmu_master_configure_smrs (smmu : arm_smmu_device)
  (cfg : arm_smmu_master_cfg) (kmalloc_ok : bool)
  : Z * arm_smmu_device * arm_smmu_master_cfg * list event :=
  if negb (has (Alloc.features (alloc smmu)) ARM_SMMU_FEAT_STREAM_MATCH)
  then (0, smmu, cfg, [])
  else
    match smrs cfg with
    | Some _ => (- EEXIST, smmu, cfg, [])
    | None =>
        if negb kmalloc_ok
        then (- ENOMEM, smmu, cfg, [DevErr "failed to allocate SMRs"])
        else
          match alloc_smrs smmu (streamids cfg) [] with
          | (inl l, smmu1) =>
              (0, smmu1, {| streamids := streamids cfg; smrs := Some l |},
               map (fun e => Writel GR0 (ARM_SMMU_GR0_SMR (idx e))
                               (u32 (smr_reg e))) l)
          | (inr l, smmu1) =>
              (- ENOSPC, free_smr_idxs smmu1 (rev l), cfg,
               [DevErr "failed to allocate free SMR"])
          end
    end.

(** [arm_smmu_master_free_smrs]: each entry is invalidated, then its
    index freed. *)
Definition arm_smmu_master_free_smrs (smmu : arm_smmu_device)
  (cfg : arm_smmu_master_cfg)
  : arm_smmu_device * arm_smmu_master_cfg * list event :=
  match smrs cfg with
  | None => (smmu, cfg, [])
  | Some l =>
      (free_smr_idxs smmu l,
       {| streamids := streamids cfg; smrs := None |},
       map (fun e => Writel GR0 (ARM_SMMU_GR0_SMR (idx e))
                       (u32 (Z.lnot SMR_VALID))) l)
  end.

(** The index [cfg->smrs ? cfg->smrs[i].idx : cfg->streamids[i]] for
    every [i < num_streamids]. *)
Definition s2cr_idxs (cfg : arm_smmu_master_cfg) : list Z :=
  match smrs cfg with
  | Some l => map idx (take (length (streamids cfg)) l)
  | None => streamids cfg
  end.

(** [arm_smmu_domain_add_master]; [cbndx] is the domain's bank. *)
Definition arm_smmu_domain_add_master (cbndx : Z) (smmu : arm_smmu_device)
  (cfg : arm_smmu_master_cfg) (kmalloc_ok : bool)
  : Z * arm_smmu_device * arm_smmu_master_cfg * list event :=
  let '(ret, smmu1, cfg1, t) :=
    arm_smmu_master_configure_smrs smmu cfg kmalloc_ok in
  if negb (ret =? 0)
  then ((if ret =? - EEXIST then 0 else ret), smmu1, cfg1, t)
  else
    (0, smmu1, cfg1,
     t ++ map (fun i => Writel GR0 (ARM_SMMU_GR0_S2CR i)
                          (u32 (Z.lor S2CR_TYPE_TRANS
                                  (Z.shiftl cbndx Alloc.S2CR_CBNDX_SHIFT))))
            (s2cr_idxs cfg1)).

(** [arm_smmu_domain_remove_master]; the gate is the device's. *)
Definition arm_smmu_domain_remove_master (clk : Power.clk_cfg)
  (env : Power.penv) (smmu : arm_smmu_device) (cfg : arm_smmu_master_cfg)
  (g : Power.gate)
  : arm_smmu_device * arm_smmu_master_cfg * Power.gate * list event :=
  if has (Alloc.features (alloc smmu)) ARM_SMMU_FEAT_STREAM_MATCH
     && negb (bool_decide (is_Some (smrs cfg)))
  then (smmu, cfg, g, [])
  else
    let '(r, g1, _) := Power.arm_smmu_enable_clocks clk env g in
    if negb (r =? 0) then (smmu, cfg, g1, [])
    else
      let t1 := map (fun i => Writel GR0 (ARM_SMMU_GR0_S2CR i)
                                (u32 S2CR_TYPE_BYPASS)) (s2cr_idxs cfg) in
      let '(smmu1, cfg1, t2) := arm_smmu_master_free_smrs smmu cfg in
      let '(_, g2, _) := Power.arm_smmu_disable_clocks clk env g1 in
      (smmu1, cfg1, g2, t1 ++ t2).


(** *** Rollback and round trip *)

(** Every static entry has its stream-match index, a [u8], reserved in
    [smr_map], and the mapping groups fit a [u8] index: what
    [arm_smmu_add_static_cbndx] and the probe establish. *)
Definition smr_wf (smmu : arm_smmu_device) : Prop :=
  0 <= num_mapping_groups smmu <= 256 /\
  forall e, In e (Alloc.static_cbndx_list (alloc smmu)) ->
            0 <= Alloc.smr_idx e < 256 /\
            Z.testbit (Alloc.smr_map (alloc smmu)) (Alloc.smr_idx e) = true.

Lemma set_alloc_id (smmu : arm_smmu_device) : set_alloc smmu (alloc smmu) = smmu.
Proof. destruct smmu. reflexivity. Qed.

Lemma set_smr_map_id (a : Alloc.arm_smmu_device) :
  Alloc.set_smr_map a (Alloc.smr_map a) = a.
Proof. destruct a. reflexivity. Qed.

Lemma u8_small (x : Z) : 0 <= x < 256 -> u8 x = x.
Proof. intros H. unfold u8. apply Z.mod_small. lia. Qed.

Lemma clearbit_setbit (m i : Z) :
  0 <= i -> Z.testbit m i = false -> Z.clearbit (Z.setbit m i) i = m.
Proof.
  intros Hi Hb. apply Z.bits_inj'. intros n Hn.
  rewrite Z.clearbit_eqb, Z.setbit_eqb by exact Hi.
  destruct (Z.eqb_spec i n) as [->|Hne]; cbn [orb negb andb].
  - rewrite Hb. reflexivity.
  - rewrite andb_true_r. reflexivity.
Qed.

(** Freeing the index of a static entry changes nothing. *)
Lemma free_static_smr (a : Alloc.arm_smmu_device) (e : Alloc.static_cbndx_entry) :
  In e (Alloc.static_cbndx_list a) ->
  Alloc.arm_smmu_free_smr_idx a (Alloc.smr_idx e) = a.
Proof.
  intros Hin. unfold Alloc.arm_smmu_free_smr_idx,
    Alloc.arm_smmu_get_static_entry_from_smr.
  destruct (List.find _ (Alloc.static_cbndx_list a)) as [e'|] eqn:Hf;
    [reflexivity|].
  pose proof (find_none _ _ Hf e Hin) as Hn. cbv beta in Hn.
  rewrite Z.eqb_refl in Hn. discriminate.
Qed.

(** Freeing an index just taken from the bitmap gives the map back. *)
Lemma free_claimed_smr (a : Alloc.arm_smmu_device) (i : Z) :
  (forall e, In e (Alloc.static_cbndx_list a) ->
             Z.testbit (Alloc.smr_map a) (Alloc.smr_idx e) = true) ->
  0 <= i -> Z.testbit (Alloc.smr_map a) i = false ->
  Alloc.arm_smmu_free_smr_idx
    (Alloc.set_smr_map a (Z.setbit (Alloc.smr_map a) i)) i = a.
Proof.
  intros Hres Hi Hb. unfold Alloc.arm_smmu_free_smr_idx,
    Alloc.arm_smmu_get_static_entry_from_smr.
  cbn [Alloc.static_cbndx_list Alloc.set_smr_map Alloc.smr_map].
  destruct (List.find _ (Alloc.static_cbndx_list a)) as [e'|] eqn:Hf.
  - apply find_some in Hf as [Hin He]. apply Z.eqb_eq in He.
    specialize (Hres e' Hin). rewrite He in Hres. congruence.
  - unfold Alloc.__arm_smmu_free_bitmap, Alloc.clear_bit.
    rewrite clearbit_setbit by assumption.
    destruct a. reflexivity.
Qed.

(** The allocation loop, followed by freeing what it filled in reverse
    order, gives the device back; the entries it filled carry the stream
    IDs in order, with mask 0. *)
Lemma alloc_smrs_undo (sids : list Z) :
  forall (smmu : arm_smmu_device) (done : list arm_smmu_smr),
    smr_wf smmu ->
    exists new,
      ((alloc_smrs smmu sids done).1 = inl (done ++ new) /\
       map id new = sids /\ Forall (fun e => mask e = 0) new
       \/ (alloc_smrs smmu sids done).1 = inr (done ++ new)) /\
      free_smr_idxs (alloc_smrs smmu sids done).2 (rev new) = smmu.
Proof.
  induction sids as [|s sids IH]; intros smmu done Hwf.
  - exists []. cbn. rewrite app_nil_r. split; [left; auto|reflexivity].
  - cbn [alloc_smrs]. destruct Hwf as [Hn Hst].
    unfold Alloc.arm_smmu_alloc_smr_idx.
    destruct (Alloc.arm_smmu_get_static_entry_from_sid (alloc smmu) s)
      as [e|] eqn:Hsid.
    + apply find_some in Hsid as [Hin _].
      destruct (Hst e Hin) as [Hr Hbit].
      replace (IS_ERR_VALUE (Alloc.smr_idx e)) with false
        by (unfold IS_ERR_VALUE; symmetry; apply andb_false_iff; right;
            apply Z.ltb_ge; lia).
      rewrite set_alloc_id.
      destruct (IH smmu (done ++ [{| idx := u8 (Alloc.smr_idx e);
                                     mask := 0; id := s |}])
                  (conj Hn Hst)) as (new & Hres & Hfree).
      exists ({| idx := u8 (Alloc.smr_idx e); mask := 0; id := s |} :: new).
      split.
      * rewrite <- app_assoc in Hres. cbn [app] in Hres.
        destruct Hres as [(H1 & H2 & H3)|H1]; [left|right; exact H1].
        split; [exact H1|]. split; [cbn; f_equal; exact H2|].
        constructor; [reflexivity|exact H3].
      * cbn [rev]. unfold free_smr_idxs in *. rewrite foldl_app, Hfree.
        cbn [foldl idx]. rewrite u8_small by exact Hr.
        rewrite free_static_smr by exact Hin. apply set_alloc_id.
    + pose proof (Alloc.alloc_bitmap_spec (Alloc.smr_map (alloc smmu)) 0
                    (num_mapping_groups smmu)) as Hspec.
      destruct (Alloc.__arm_smmu_alloc_bitmap (Alloc.smr_map (alloc smmu)) 0
                  (num_mapping_groups smmu)) as [i m].
      destruct Hspec as [[-> ->]|(Hr & Hb & ->)].
      * change (IS_ERR_VALUE (- ENOSPC)) with true. cbv iota.
        exists []. rewrite app_nil_r. split; [right; reflexivity|].
        cbn [snd rev free_smr_idxs foldl]. unfold free_smr_idxs. cbn [foldl].
        rewrite set_smr_map_id. apply set_alloc_id.
      * replace (IS_ERR_VALUE i) with false
          by (unfold IS_ERR_VALUE; symmetry; apply andb_false_iff; right;
              apply Z.ltb_ge; lia).
        set (smmu' := set_alloc smmu _).
        assert (Hwf' : smr_wf smmu').
        { split; [exact Hn|]. intros e He. cbn in He.
          destruct (Hst e He) as [Hr' Hbit]. split; [exact Hr'|].
          cbn. apply Alloc.testbit_setbit_mono. exact Hbit. }
        destruct (IH smmu' (done ++ [{| idx := u8 i; mask := 0; id := s |}])
                    Hwf') as (new & Hres & Hfree).
        exists ({| idx := u8 i; mask := 0; id := s |} :: new).
        split.
        -- rewrite <- app_assoc in Hres. cbn [app] in Hres.
           destruct Hres as [(H1 & H2 & H3)|H1]; [left|right; exact H1].
           split; [exact H1|]. split; [cbn; f_equal; exact H2|].
           constructor; [reflexivity|exact H3].
        -- cbn [rev]. unfold free_smr_idxs in *. rewrite foldl_app, Hfree.
           cbn [foldl idx]. rewrite u8_small by lia.
           subst smmu'. cbn [alloc set_alloc].
           rewrite free_claimed_smr; [destruct smmu; reflexivity| |lia|exact Hb].
           intros e He. apply Hst. exact He.
Qed.


Lemma clearbit_comm (m i j : Z) :
  Z.clearbit (Z.clearbit m i) j = Z.clearbit (Z.clearbit m j) i.
Proof.
  apply Z.bits_inj'. intros n Hn. rewrite !Z.clearbit_eqb.
  rewrite <- !andb_assoc. f_equal. apply andb_comm.
Qed.

Lemma free_smr_idx_comm (a : Alloc.arm_smmu_device) (i j : Z) :
  Alloc.arm_smmu_free_smr_idx (Alloc.arm_smmu_free_smr_idx a i) j
  = Alloc.arm_smmu_free_smr_idx (Alloc.arm_smmu_free_smr_idx a j) i.
Proof.
  unfold Alloc.arm_smmu_free_smr_idx, Alloc.arm_smmu_get_static_entry_from_smr.
  destruct (List.find (fun entry => Alloc.smr_idx entry =? i)
              (Alloc.static_cbndx_list a)) eqn:Ei;
    destruct (List.find (fun entry => Alloc.smr_idx entry =? j)
                (Alloc.static_cbndx_list a)) eqn:Ej;
    cbn [Alloc.static_cbndx_list Alloc.set_smr_map Alloc.smr_map];
    rewrite ?Ei, ?Ej; try reflexivity.
  unfold Alloc.__arm_smmu_free_bitmap, Alloc.clear_bit.
  rewrite clearbit_comm. reflexivity.
Qed.

Lemma free_smr_idxs_cons (l : list arm_smmu_smr) :
  forall (smmu : arm_smmu_device) (e : arm_smmu_smr),
    free_smr_idxs smmu (l ++ [e]) = free_smr_idxs smmu (e :: l).
Proof.
  unfold free_smr_idxs.
  induction l as [|x l IH]; intros smmu e; [reflexivity|].
  cbn [app foldl]. rewrite IH. cbn [foldl alloc set_alloc].
  rewrite free_smr_idx_comm. reflexivity.
Qed.

(** The order in which indexes are freed does not matter. *)
Lemma free_smr_idxs_rev (l : list arm_smmu_smr) (smmu : arm_smmu_device) :
  free_smr_idxs smmu (rev l) = free_smr_idxs smmu l.
Proof.
  revert smmu. induction l as [|x l IH]; intros smmu; [reflexivity|].
  cbn [rev]. rewrite free_smr_idxs_cons. unfold free_smr_idxs in *.
  cbn [foldl]. apply IH.
Qed.

Definition is_log (e : event) : Prop := exists msg, e = DevErr msg.

(** A configuration that fails has changed nothing: every stream-match
    index it had taken is free again, the master has no entries, and no
    register was written. *)
Theorem configure_smrs_failure_undone (smmu : arm_smmu_device)
  (cfg : arm_smmu_master_cfg) (kmalloc_ok : bool) :
  smr_wf smmu ->
  let r := arm_smmu_master_configure_smrs smmu cfg kmalloc_ok in
  r.1.1.1 <> 0 ->
  r.1.1.2 = smmu /\ r.1.2 = cfg /\ Forall is_log r.2 /\
  (r.1.1.1 = - EEXIST \/ r.1.1.1 = - ENOMEM \/ r.1.1.1 = - ENOSPC).
Proof.
  intros Hwf r. subst r. unfold arm_smmu_master_configure_smrs.
  destruct (negb (has _ _)); [intros H; contradiction|].
  destruct (smrs cfg); [intros _; repeat split; auto|].
  destruct kmalloc_ok; cbn [negb].
  - destruct (alloc_smrs_undo (streamids cfg) smmu [] Hwf)
      as (new & Hres & Hfree).
    destruct (alloc_smrs smmu (streamids cfg) []) as [[l|l] smmu1];
      cbn [fst snd] in *.
    + intros H; contradiction.
    + intros _. destruct Hres as [(H & _)|H]; [discriminate|].
      injection H as ->. cbn [app]. split; [exact Hfree|].
      split; [reflexivity|]. split; [|auto].
      constructor; [eexists; reflexivity|constructor].
  - intros _. split; [reflexivity|]. split; [reflexivity|].
    split; [|auto]. constructor; [eexists; reflexivity|constructor].
Qed.

Definition smr_write (e : arm_smmu_smr) : event :=
  Writel GR0 (ARM_SMMU_GR0_SMR (idx e)) (u32 (smr_reg e)).

Definition smr_invalidate (e : arm_smmu_smr) : event :=
  Writel GR0 (ARM_SMMU_GR0_SMR (idx e)) (u32 (Z.lnot SMR_VALID)).

Lemma configure_smrs_success (smmu : arm_smmu_device)
  (cfg : arm_smmu_master_cfg) :
  smr_wf smmu ->
  has (Alloc.features (alloc smmu)) ARM_SMMU_FEAT_STREAM_MATCH = true ->
  smrs cfg = None ->
  let r := arm_smmu_master_configure_smrs smmu cfg true in
  r.1.1.1 = 0 ->
  exists l,
    r.1.2 = {| streamids := streamids cfg; smrs := Some l |} /\
    map id l = streamids cfg /\ Forall (fun e => mask e = 0) l /\
    r.2 = map smr_write l /\
    free_smr_idxs r.1.1.2 l = smmu.
Proof.
  intros Hwf Hsm Hnone r. subst r. unfold arm_smmu_master_configure_smrs.
  rewrite Hsm, Hnone. cbn [negb].
  destruct (alloc_smrs_undo (streamids cfg) smmu [] Hwf)
    as (new & Hres & Hfree).
  destruct (alloc_smrs smmu (streamids cfg) []) as [[l|l] smmu1];
    cbn [fst snd] in *.
  - intros _. destruct Hres as [(H & Hid & Hmask)|H]; [|discriminate].
    injection H as ->. cbn [app]. exists new.
    rewrite free_smr_idxs_rev in Hfree. repeat split; auto.
  - intros H. unfold ENOSPC in H. lia.
Qed.

(** Configure, then free: the allocator is as before and the master has
    no entries again.  In between, the master holds one entry per stream
    ID, in order, each with mask 0; configuration wrote each as a valid
    SMR and the release invalidated each. *)
Theorem configure_then_free_smrs (smmu : arm_smmu_device)
  (cfg : arm_smmu_master_cfg) :
  smr_wf smmu ->
  has (Alloc.features (alloc smmu)) ARM_SMMU_FEAT_STREAM_MATCH = true ->
  smrs cfg = None ->
  let r := arm_smmu_master_configure_smrs smmu cfg true in
  r.1.1.1 = 0 ->
  exists l,
    smrs r.1.2 = Some l /\
    map id l = streamids cfg /\ Forall (fun e => mask e = 0) l /\
    r.2 = map smr_write l /\
    arm_smmu_master_free_smrs r.1.1.2 r.1.2
    = (smmu, cfg, map smr_invalidate l).
Proof.
  intros Hwf Hsm Hnone r H0.
  destruct (configure_smrs_success smmu cfg Hwf Hsm Hnone H0)
    as (l & Hcfg & Hid & Hmask & Ht & Hfree).
  exists l. fold r in Hcfg, Ht, Hfree. rewrite Hcfg. cbn [smrs].
  repeat split; auto.
  unfold arm_smmu_master_free_smrs. cbn [smrs streamids].
  rewrite Hfree. destruct cfg as [sids sm]. cbn in Hnone. subst sm.
  reflexivity.
Qed.


Lemma free_smr_idxs_features (l : list arm_smmu_smr) :
  forall smmu,
    Alloc.features (alloc (free_smr_idxs smmu l))
    = Alloc.features (alloc smmu).
Proof.
  unfold free_smr_idxs. induction l as [|e l IH]; intros smmu; [reflexivity|].
  cbn [foldl]. rewrite IH. cbn [alloc set_alloc].
  unfold Alloc.arm_smmu_free_smr_idx.
  destruct (Alloc.arm_smmu_get_static_entry_from_smr _ _); reflexivity.
Qed.

Definition s2cr_translate (cbndx : Z) (i : Z) : event :=
  Writel GR0 (ARM_SMMU_GR0_S2CR i)
    (u32 (Z.lor S2CR_TYPE_TRANS (Z.shiftl cbndx Alloc.S2CR_CBNDX_SHIFT))).

Definition s2cr_bypass (i : Z) : event :=
  Writel GR0 (ARM_SMMU_GR0_S2CR i) (u32 S2CR_TYPE_BYPASS).

(** Add a master to a domain, then remove it (stream matching, the gate
    available): adding validates one SMR per stream ID and then points the
    S2CR of each at the bank; adding it again, already configured, returns
    0 and writes nothing; removing first sets exactly those S2CRs to
    bypass and only then invalidates exactly those SMRs, and leaves the
    allocator and the master as they were before the add. *)
Theorem add_then_remove_master (cbndx : Z) (clk : Power.clk_cfg)
  (env : Power.penv) (smmu : arm_smmu_device) (cfg : arm_smmu_master_cfg)
  (g : Power.gate) :
  smr_wf smmu ->
  has (Alloc.features (alloc smmu)) ARM_SMMU_FEAT_STREAM_MATCH = true ->
  smrs cfg = None ->
  let a := arm_smmu_domain_add_master cbndx smmu cfg true in
  a.1.1.1 = 0 ->
  (Power.arm_smmu_enable_clocks clk env g).1.1 = 0 ->
  let r := arm_smmu_domain_remove_master clk env a.1.1.2 a.1.2 g in
  exists l,
    map id l = streamids cfg /\
    a.2 = map smr_write l ++ map (s2cr_translate cbndx) (map idx l) /\
    (forall c ok, arm_smmu_domain_add_master c a.1.1.2 a.1.2 ok
                  = (0, a.1.1.2, a.1.2, [])) /\
    r.1.1.1 = smmu /\ r.1.1.2 = cfg /\
    r.2 = map s2cr_bypass (map idx l) ++ map smr_invalidate l.
Proof.
  intros Hwf Hsm Hnone a Ha Hclk r. subst r a.
  unfold arm_smmu_domain_add_master in *.
  pose proof (configure_then_free_smrs smmu cfg Hwf Hsm Hnone) as Hc.
  cbv zeta in Hc.
  pose proof (configure_smrs_failure_undone smmu cfg true Hwf) as Hf.
  cbv zeta in Hf.
  destruct (arm_smmu_master_configure_smrs smmu cfg true)
    as [[[ret smmu1] cfg1] t] eqn:E.
  cbn [fst snd] in *.
  destruct (Z.eqb_spec ret 0) as [->|Hne]; cbn [negb fst snd] in *.
  - destruct (Hc eq_refl) as (l & Hl & Hid & Hmask & Ht & Hfree).
    exists l.
    assert (Hidx : s2cr_idxs cfg1 = map idx l).
    { unfold s2cr_idxs. rewrite Hl.
      assert (Hs : streamids cfg1 = streamids cfg).
      { unfold arm_smmu_master_configure_smrs in E.
        rewrite Hsm, Hnone in E. cbn [negb] in E.
        destruct (alloc_smrs smmu (streamids cfg) []) as [[x|x] y];
          [injection E as <- <- <-; reflexivity
          |injection E as E1 _ _ _; unfold ENOSPC in E1; lia]. }
      rewrite Hs, <- Hid, length_map, firstn_all. reflexivity. }
    assert (Hft : Alloc.features (alloc smmu1) = Alloc.features (alloc smmu)).
    { unfold arm_smmu_master_free_smrs in Hfree. rewrite Hl in Hfree.
      injection Hfree as Hd _. rewrite <- Hd.
      symmetry. apply free_smr_idxs_features. }
    split; [exact Hid|]. split; [rewrite Ht, Hidx; reflexivity|]. split.
    + intros c ok. unfold arm_smmu_master_configure_smrs.
      rewrite Hft, Hsm, Hl. cbn [negb]. reflexivity.
    + unfold arm_smmu_domain_remove_master. rewrite Hft, Hsm, Hl.
      rewrite bool_decide_eq_true_2 by (eexists; reflexivity).
      cbn [negb andb].
      destruct (Power.arm_smmu_enable_clocks clk env g) as [[rc g1] tc].
      cbn [fst snd] in Hclk. subst rc. cbn [Z.eqb negb].
      rewrite Hfree.
      destruct (Power.arm_smmu_disable_clocks clk env g1) as [[u g2] td].
      cbn [fst snd]. rewrite Hidx. repeat split.
  - destruct (Z.eqb_spec ret (- EEXIST)) as [Hx|Hx].
    + exfalso. subst ret. unfold arm_smmu_master_configure_smrs in E.
      rewrite Hsm, Hnone in E. cbn [negb] in E.
      destruct (alloc_smrs smmu (streamids cfg) []) as [[x|x] y];
        injection E as E1 _ _ _; unfold EEXIST, ENOSPC in E1; lia.
    + cbn [fst] in Ha. contradiction.
Qed.

(** Eight mapping groups on a stream-matching device; firmware bound
    stream ID 7 to bank 2 through stream-match register 1. *)
Definition smr_device : arm_smmu_device :=
  {| alloc :=
       Alloc.arm_smmu_add_static_cbndx
         {| Alloc.features := Z.lor ARM_SMMU_FEAT_STREAM_MATCH
                                Alloc.ARM_SMMU_FEAT_TRANS_S1;
            Alloc.options := 0;
            Alloc.num_context_banks := 4; Alloc.num_s2_context_banks := 0;
            Alloc.context_map := 0; Alloc.smr_map := 1;
            Alloc.static_cbndx_list := [] |}
         2 7 1;
     num_mapping_groups := 8 |}.

Lemma smr_device_wf : smr_wf smr_device.
Proof.
  split; [cbn; lia|]. intros e [<-|[]].
  split; [vm_compute; split; [discriminate|reflexivity]|reflexivity].
Qed.

(** With three mapping groups, two of them taken, the second claim
    fails. *)
Definition smr_device_full : arm_smmu_device :=
  {| alloc := alloc smr_device; num_mapping_groups := 3 |}.

Lemma smr_device_full_wf : smr_wf smr_device_full.
Proof.
  split; [cbn; lia|]. intros e [<-|[]].
  split; [vm_compute; split; [discriminate|reflexivity]|reflexivity].
Qed.

Definition master_579 : arm_smmu_master_cfg :=
  {| streamids := [5; 7; 9]; smrs := None |}.

Lemma configure_smrs_failure_undone_witness :
  arm_smmu_master_configure_smrs smr_device_full master_579 true
  = (- ENOSPC, smr_device_full, master_579,
     [DevErr "failed to allocate free SMR"]).
Proof.
  destruct (configure_smrs_failure_undone smr_device_full master_579 true
              smr_device_full_wf) as (Hd & Hc & _ & _).
  { vm_compute. discriminate. }
  destruct (arm_smmu_master_configure_smrs smr_device_full master_579 true)
    as [[[c d] m] t] eqn:E.
  cbn [fst snd] in Hd, Hc. subst d m.
  vm_compute in E. injection E as <- <-. reflexivity.
Defined.

Lemma configure_then_free_smrs_witness :
  let r := arm_smmu_master_configure_smrs smr_device master_579 true in
  map idx (default [] (smrs r.1.2)) = [2; 1; 3] /\
  arm_smmu_master_free_smrs r.1.1.2 r.1.2
  = (smr_device, master_579,
     map smr_invalidate (default [] (smrs r.1.2))).
Proof.
  intros r.
  destruct (configure_then_free_smrs smr_device master_579 smr_device_wf
              eq_refl eq_refl) as (l & Hl & _ & _ & _ & Hfree).
  { vm_compute. reflexivity. }
  fold r in Hl, Hfree. rewrite Hl. cbn [default].
  split; [|exact Hfree].
  assert (E : smrs r.1.2 = Some [{| idx := 2; mask := 0; id := 5 |};
                                 {| idx := 1; mask := 0; id := 7 |};
                                 {| idx := 3; mask := 0; id := 9 |}])
    by (vm_compute; reflexivity).
  rewrite Hl in E. injection E as ->. reflexivity.
Defined.

Lemma add_then_remove_master_witness :
  let a := arm_smmu_domain_add_master 2 smr_device master_579 true in
  let r := arm_smmu_domain_remove_master Power.c6_cfg Power.env_all_ok
             a.1.1.2 a.1.2 Power.idle_gate in
  a.1.1.1 = 0 /\ r.1.1.1 = smr_device /\ r.1.1.2 = master_579.
Proof.
  intros a r.
  assert (Ha : a.1.1.1 = 0) by (vm_compute; reflexivity).
  destruct (add_then_remove_master 2 Power.c6_cfg Power.env_all_ok
              smr_device master_579 Power.idle_gate smr_device_wf
              eq_refl eq_refl Ha)
    as (l & _ & _ & _ & H1 & H2 & _).
  { vm_compute. reflexivity. }
  split; [exact Ha|]. split; [exact H1 | exact H2].
Defined.

End Smr.


(** ** TLB invalidation by address *)

Module Tlb.

Definition ARM_SMMU_CB_S1_TLBIVA : Z := 0x600.
Definition ARM_SMMU_CB_S1_TLBIVAL : Z := 0x620.
Definition ARM_SMMU_CB_S2_TLBIIPAS2 : Z := 0x630.
Definition ARM_SMMU_CB_S2_TLBIIPAS2L : Z := 0x638.

(** [arm_smmu_tlb_inv_range_nosync] (the CONFIG_64BIT build);
    [atomic_ctx] is the domain's DOMAIN_ATTR_ATOMIC bit, [iova] an
    [unsigned long]; [None] is the BUG_ON. *)
Definition arm_smmu_tlb_inv_range_nosync (c : Fault.fault_cfg)
  (atomic_ctx : bool) (iova size : Z) (leaf : bool)
  : option (list event) :=
  let stage1 := negb (Fault.cbar c =? CBAR_TYPE_S2_TRANS) in
  if atomic_ctx && negb (Fault.attached c) then None
  else if negb (Fault.attached c) then Some []
  else if stage1
  then
    let reg := if leaf then ARM_SMMU_CB_S1_TLBIVAL else ARM_SMMU_CB_S1_TLBIVA in
    if Fault.version c =? ARM_SMMU_V1
    then
      let iova1 := Z.land (u64 iova) (u64 (Z.lnot 12)) in
      let iova2 := Z.lor iova1 (Fault.asid c) in
      Some [Writel (CB (Fault.cbndx c)) reg (u32 iova2)]
    else
      let iova1 := Z.shiftr (u64 iova) 12 in
      let iova2 := Z.lor iova1 (u64 (Z.shiftl (Fault.asid c) 48)) in
      Some [Writeq (CB (Fault.cbndx c)) reg (u64 iova2)]
  else if Fault.version c =? ARM_SMMU_V2
  then
    let reg := if leaf then ARM_SMMU_CB_S2_TLBIIPAS2L
               else ARM_SMMU_CB_S2_TLBIIPAS2 in
    Some [Writeq (CB (Fault.cbndx c)) reg (u64 (Z.shiftr (u64 iova) 12))]
  else
    Some [Writel GR0 ARM_SMMU_GR0_TLBIVMID (u32 (Fault.vmid c))].

(** [arm_smmu_tlb_sync]. *)
Definition arm_smmu_tlb_sync (c : Fault.fault_cfg) (i : Fault.fault_in)
  (s : Fault.st) : Fault.st :=
  if negb (Fault.attached c) then s else Fault.arm_smmu_tlb_sync_cb c i s.


Lemma testbit_above (x k n : Z) :
  0 <= k -> 0 <= x < 2 ^ k -> k <= n -> Z.testbit x n = false.
Proof.
  intros Hk Hx Hn. rewrite <- (Z.mod_small x (2 ^ k)) by exact Hx.
  rewrite Z.testbit_mod_pow2 by exact Hk.
  replace (n <? k) with false by (symmetry; apply Z.ltb_ge; exact Hn).
  reflexivity.
Qed.

Lemma u64_small (x : Z) : 0 <= x < 2 ^ 64 -> u64 x = x.
Proof. intros H. unfold u64. apply Z.mod_small. exact H. Qed.

(** The 64-bit stage-1 operand for any address: the low 48 bits are
    those of the page number, and the four top bits of the address meet
    the ASID in bits 48 and up. *)
Lemma tlbiva_operand_bits (iova asid : Z) :
  0 <= asid < 2 ^ 16 ->
  let page := u64 iova / 4096 in
  let v := u64 (Z.lor (Z.shiftr (u64 iova) 12) (u64 (Z.shiftl asid 48))) in
  Z.land v (Z.ones 48) = page mod 2 ^ 48 /\
  Z.shiftr v 48 = Z.lor (page / 2 ^ 48) asid.
Proof.
  intros Ha page v.
  assert (Hu : 0 <= u64 iova < 2 ^ 64)
    by (unfold u64; apply Z.mod_pos_bound; lia).
  assert (Hs : 0 <= Z.shiftl asid 48 < 2 ^ 64)
    by (rewrite Z.shiftl_mul_pow2 by lia; lia).
  assert (Hp : 0 <= page < 2 ^ 52).
  { subst page. split; [apply Z.div_pos; lia|].
    apply Z.div_lt_upper_bound; lia. }
  assert (Hpage : Z.shiftr (u64 iova) 12 = page)
    by (rewrite Z.shiftr_div_pow2 by lia; reflexivity).
  assert (Hv : v = Z.lor page (Z.shiftl asid 48)).
  { subst v. rewrite Hpage, (u64_small (Z.shiftl asid 48)) by exact Hs.
    apply u64_small. split; [apply Z.lor_nonneg; lia|].
    destruct (Z.eq_dec (Z.lor page (Z.shiftl asid 48)) 0) as [->|Hne];
      [lia|].
    apply Z.log2_lt_cancel. rewrite Z.log2_pow2 by lia.
    rewrite Z.log2_lor by lia. apply Z.max_lub_lt.
    - destruct (Z.eq_dec page 0) as [->|H0]; [cbn; lia|].
      apply Z.log2_lt_pow2; lia.
    - destruct (Z.eq_dec (Z.shiftl asid 48) 0) as [->|H0]; [cbn; lia|].
      apply Z.log2_lt_pow2; lia. }
  rewrite Hv. split.
  - apply Z.bits_inj'. intros n Hn.
    rewrite Z.land_spec, Z.lor_spec, Z.shiftl_spec, Z.testbit_mod_pow2
      by lia.
    destruct (Z.ltb_spec n 48) as [Hlt|Hge].
    + rewrite Z.ones_spec_low by lia.
      rewrite (Z.testbit_neg_r asid) by lia.
      rewrite orb_false_r, andb_true_r. reflexivity.
    + rewrite Z.ones_spec_high by lia. apply andb_false_r.
  - apply Z.bits_inj'. intros n Hn.
    rewrite <- Z.shiftr_div_pow2 by lia.
    rewrite Z.shiftr_spec, !Z.lor_spec, Z.shiftl_spec, Z.shiftr_spec by lia.
    replace (n + 48 - 48) with n by lia. reflexivity.
Qed.

(** The 32-bit stage-1 operand: the address without bits 2 and 3 (the
    mask is [~12UL]), with the ASID. *)
Lemma tlbiva_operand_v1 (iova asid n : Z) :
  0 <= n < 32 ->
  Z.testbit (u32 (Z.lor (Z.land (u64 iova) (u64 (Z.lnot 12))) asid)) n
  = (Z.testbit iova n && negb ((n =? 2) || (n =? 3))) || Z.testbit asid n.
Proof.
  intros Hn. unfold u32, u64.
  change 4294967296 with (2 ^ 32). change 18446744073709551616 with (2 ^ 64).
  rewrite Z.testbit_mod_pow2 by lia.
  replace (n <? 32) with true by (symmetry; apply Z.ltb_lt; lia).
  cbn [andb].
  rewrite Z.lor_spec, Z.land_spec, !Z.testbit_mod_pow2 by lia.
  replace (n <? 64) with true by (symmetry; apply Z.ltb_lt; lia).
  cbn [andb]. rewrite Z.lnot_spec by lia.
  change 12 with (Z.lor (2 ^ 2) (2 ^ 3)).
  rewrite Z.lor_spec, !Z.pow2_bits_eqb by lia.
  rewrite (Z.eqb_sym 2 n), (Z.eqb_sym 3 n). reflexivity.
Qed.

(** On a detached domain the invalidation writes nothing (and is a bug
    for an atomic domain); on an attached one it makes exactly one write,
    which depends on the stage and on the hardware version as the code
    tests them.  Stage 1 on version 1: a 32-bit write to TLBIVA, or
    TLBIVAL for a leaf, of the address without bits 2 and 3, with the
    ASID.  Stage 1 otherwise: a 64-bit write to the same register whose
    low 48 bits are those of the page number and whose bits from 48 up are
    the ASID joined with the page-number bits from 48 up, so the ASID
    alone for an address below 2^60.  Stage 2 on version 2: a 64-bit write
    of the page number to TLBIIPAS2, or TLBIIPAS2L for a leaf.  Stage 2
    otherwise: no range operation at all but a 32-bit write of the VMID to
    the global TLBIVMID.  The ASID is the 16-bit field of the domain. *)
Theorem tlb_inv_range_operand (c : Fault.fault_cfg) (atomic_ctx : bool)
  (iova size : Z) (leaf : bool) :
  0 <= Fault.asid c < 2 ^ 16 ->
  let r := arm_smmu_tlb_inv_range_nosync c atomic_ctx iova size leaf in
  let stage1 := negb (Fault.cbar c =? CBAR_TYPE_S2_TRANS) in
  let page := u64 iova / 4096 in
  (Fault.attached c = false ->
   r = if atomic_ctx then None else Some []) /\
  (Fault.attached c = true ->
   exists e, r = Some [e] /\
     (stage1 = true -> Fault.version c = ARM_SMMU_V1 ->
      exists v,
        e = Writel (CB (Fault.cbndx c))
              (if leaf then ARM_SMMU_CB_S1_TLBIVAL else ARM_SMMU_CB_S1_TLBIVA)
              v /\
        0 <= v < 2 ^ 32 /\
        forall n, 0 <= n < 32 ->
          Z.testbit v n
          = (Z.testbit iova n && negb ((n =? 2) || (n =? 3)))
            || Z.testbit (Fault.asid c) n) /\
     (stage1 = true -> Fault.version c <> ARM_SMMU_V1 ->
      exists v,
        e = Writeq (CB (Fault.cbndx c))
              (if leaf then ARM_SMMU_CB_S1_TLBIVAL else ARM_SMMU_CB_S1_TLBIVA)
              v /\
        Z.land v (Z.ones 48) = page mod 2 ^ 48 /\
        Z.shiftr v 48 = Z.lor (page / 2 ^ 48) (Fault.asid c) /\
        (u64 iova < 2 ^ 60 ->
         Z.land v (Z.ones 48) = page /\ Z.shiftr v 48 = Fault.asid c)) /\
     (stage1 = false -> Fault.version c = ARM_SMMU_V2 ->
      e = Writeq (CB (Fault.cbndx c))
            (if leaf then ARM_SMMU_CB_S2_TLBIIPAS2L
             else ARM_SMMU_CB_S2_TLBIIPAS2) page) /\
     (stage1 = false -> Fault.version c <> ARM_SMMU_V2 ->
      e = Writel GR0 ARM_SMMU_GR0_TLBIVMID (u32 (Fault.vmid c)))).
Proof.
  intros Ha r stage1 page. subst r stage1.
  unfold arm_smmu_tlb_inv_range_nosync. split.
  - intros ->. cbn [negb]. rewrite andb_true_r. destruct atomic_ctx; reflexivity.
  - intros ->. cbn [negb]. rewrite andb_false_r.
    assert (Hu : 0 <= u64 iova < 2 ^ 64)
      by (unfold u64; apply Z.mod_pos_bound; lia).
    assert (Hp : 0 <= page < 2 ^ 52).
    { subst page. split; [apply Z.div_pos; lia|].
      apply Z.div_lt_upper_bound; lia. }
    destruct (negb (Fault.cbar c =? CBAR_TYPE_S2_TRANS)) eqn:Hst.
    + destruct (Z.eqb_spec (Fault.version c) ARM_SMMU_V1) as [H1|H1].
      * eexists. split; [reflexivity|].
        split; [|split; [|split]]; try (intros H; discriminate H).
        -- intros _ _. eexists. split; [reflexivity|].
           split; [unfold u32; apply Z.mod_pos_bound; lia|].
           intros n Hn. apply tlbiva_operand_v1. exact Hn.
        -- intros _ H. contradiction.
      * eexists. split; [reflexivity|].
        split; [|split; [|split]]; try (intros H; discriminate H).
        -- intros _ H. contradiction.
        -- intros _ _. eexists. split; [reflexivity|].
           destruct (tlbiva_operand_bits iova (Fault.asid c) Ha) as [Hlo Hhi].
           fold page in Hlo, Hhi.
           split; [exact Hlo|]. split; [exact Hhi|].
           intros Hsmall.
           assert (Hp48 : 0 <= page < 2 ^ 48).
           { subst page. split; [apply Z.div_pos; lia|].
             apply Z.div_lt_upper_bound; lia. }
           rewrite Hlo, Hhi, Z.mod_small, Z.div_small by exact Hp48.
           split; [reflexivity|]. apply Z.lor_0_l.
    + destruct (Z.eqb_spec (Fault.version c) ARM_SMMU_V2) as [H2|H2].
      * eexists. split; [reflexivity|].
        split; [|split; [|split]]; try (intros H; discriminate H).
        -- intros _ _. f_equal.
           rewrite Z.shiftr_div_pow2 by lia. change (2 ^ 12) with 4096.
           fold page. apply u64_small. lia.
        -- intros _ H. contradiction.
      * eexists. split; [reflexivity|].
        split; [|split; [|split]]; try (intros H; discriminate H).
        -- intros _ H. contradiction.
        -- intros _ _. reflexivity.
Qed.

Lemma tlb_inv_range_operand_witness :
  arm_smmu_tlb_inv_range_nosync Fault.fault_cfg0 false 0x12345000 4096 true
  = Some [Writeq (CB 3) ARM_SMMU_CB_S1_TLBIVAL 0x3000000012345].
Proof.
  destruct (tlb_inv_range_operand Fault.fault_cfg0 false 0x12345000 4096 true)
    as [_ H]; [cbn; lia |].
  destruct (H eq_refl) as (e & He & _). rewrite He.
  vm_compute in He. injection He as <-. reflexivity.
Defined.

(** Stage 2 on version 1 hardware: the whole VMID is invalidated. *)
Example tlb_inv_range_stage2_v1 :
  arm_smmu_tlb_inv_range_nosync
    {| Fault.options := 0; Fault.version := ARM_SMMU_V1; Fault.cbndx := 3;
       Fault.cbar := CBAR_TYPE_S2_TRANS; Fault.asid := 4; Fault.vmid := 5;
       Fault.non_fatal_faults := false; Fault.attached := true;
       Fault.phys_mask := 0; Fault.clk := Power.c6_cfg |}
    false 0x12345000 4096 true
  = Some [Writel GR0 ARM_SMMU_GR0_TLBIVMID 5].
Proof. reflexivity. Qed.

End Tlb.


(** ** Programming a context bank *)

Module Ctx.

Definition CBA2R_RW64_64BIT : Z := 1.
Definition CBAR_VMID_SHIFT : Z := 0.
Definition CBAR_S1_BPSHCFG_SHIFT : Z := 8.
Definition CBAR_S1_BPSHCFG_NSH : Z := 3.
Definition CBAR_S1_MEMATTR_SHIFT : Z := 12.
Definition CBAR_S1_MEMATTR_WB : Z := 0xf.
Definition CBAR_IRPTNDX_SHIFT : Z := 24.
Definition TTBRn_ASID_SHIFT : Z := 48.
Definition SCTLR_S1_ASIDPNE : Z := 0x1000.
Definition SCTLR_HUPCF : Z := 0x100.
Definition SCTLR_CFIE : Z := 0x40.
Definition SCTLR_CFRE : Z := 0x20.
Definition SCTLR_AFE : Z := 0x4.
Definition SCTLR_TRE : Z := 0x2.
Definition SCTLR_M : Z := 0x1.
Definition SCTLR_EAE_SBOP : Z := Z.lor SCTLR_AFE SCTLR_TRE.
Definition ACTLR_QCOM_OSH_SHIFT : Z := 28.
Definition ACTLR_QCOM_OSH : Z := 1.
Definition ACTLR_QCOM_ISH_SHIFT : Z := 29.
Definition ACTLR_QCOM_ISH : Z := 1.
Definition ACTLR_QCOM_NSH_SHIFT : Z := 30.
Definition ACTLR_QCOM_NSH : Z := 1.

Inductive smmu_model_id :=
| SMMU_MODEL_DEFAULT
| SMMU_MODEL_QCOM_V2.

(** The fields of the device, the domain, [struct arm_smmu_cfg] and
    [struct io_pgtable_cfg] that [arm_smmu_init_context_bank] reads.  The
    three [attr_] fields are the domain's attribute bits
    DOMAIN_ATTR_CB_STALL_DISABLE, DOMAIN_ATTR_S1_BYPASS and
    DOMAIN_ATTR_EARLY_MAP. *)
Record bank_cfg := {
  version : Z;
  model : smmu_model_id;
  options : Z;
  secure_vmid : Z;
  attr_cb_stall_disable : bool;
  attr_s1_bypass : bool;
  attr_early_map : bool;
  cbndx : Z;          (* u8 *)
  irptndx : Z;        (* u8 *)
  cbar : Z;           (* u32 *)
  asid : Z;           (* u16 *)
  vmid : Z;           (* u8 *)
  s1_ttbr0 : Z;       (* u64 *)
  s1_ttbr1 : Z;
  s1_tcr : Z;         (* u64 *)
  s1_mair0 : Z;
  s1_mair1 : Z;
  s2_vttbr : Z;
  s2_vtcr : Z
}.

(** What the function sends: register writes, and the call into the
    secure world that sets the bank's format. *)
Inductive ctx_event :=
| Reg (e : event)
| MsmTzSetCbFormat (cb : Z).

Definition writel_relaxed (v : Z) (r : region) (off : Z) : list ctx_event :=
  [Reg (Writel r off (u32 v))].

Definition smmu_writeq (v : Z) (r : region) (off : Z) : list ctx_event :=
  [Reg (Writeq r off (u64 v))].

(** The value written to SCTLR. *)
Definition sctlr_value (c : bank_cfg) (stage1 : bool) : Z :=
  let reg := Z.lor (Z.lor (Z.lor SCTLR_CFCFG SCTLR_CFIE) SCTLR_CFRE)
               SCTLR_EAE_SBOP in
  let reg := if attr_cb_stall_disable c
             then Z.lor (Z.land reg (Z.lnot SCTLR_CFCFG)) SCTLR_HUPCF
             else reg in
  let reg := if (negb (attr_s1_bypass c) && negb (attr_early_map c))
                || negb stage1
             then Z.lor reg SCTLR_M else reg in
  if stage1 then Z.lor reg SCTLR_S1_ASIDPNE else reg.

(** [arm_smmu_init_context_bank] (CONFIG_64BIT, little endian). *)
Definition arm_smmu_init_context_bank (c : bank_cfg) : list ctx_event :=
  let stage1 := negb (cbar c =? CBAR_TYPE_S2_TRANS) in
  let cb := CB (cbndx c) in
  (if ARM_SMMU_V1 <? version c
   then
     (if negb (negb (secure_vmid c =? u32 Secure.VMID_INVAL))
         && has (options c) ARM_SMMU_OPT_STATIC_CB
      then [MsmTzSetCbFormat (cbndx c)] else [])
     ++ writel_relaxed CBA2R_RW64_64BIT GR1 (ARM_SMMU_GR1_CBA2R (cbndx c))
   else [])
  ++ (let reg := cbar c in
      let reg := if version c =? ARM_SMMU_V1
                 then Z.lor reg (Z.shiftl (irptndx c) CBAR_IRPTNDX_SHIFT)
                 else reg in
      let reg := if stage1
                 then Z.lor reg
                        (Z.lor (Z.shiftl CBAR_S1_BPSHCFG_NSH CBAR_S1_BPSHCFG_SHIFT)
                           (Z.shiftl CBAR_S1_MEMATTR_WB CBAR_S1_MEMATTR_SHIFT))
                 else reg in
      let reg := Z.lor reg (Z.shiftl (vmid c) CBAR_VMID_SHIFT) in
      writel_relaxed reg GR1 (ARM_SMMU_GR1_CBAR (cbndx c)))
  ++ (if stage1
      then
        smmu_writeq (Z.lor (s1_ttbr0 c) (Z.shiftl (asid c) TTBRn_ASID_SHIFT))
          cb ARM_SMMU_CB_TTBR0
        ++ smmu_writeq (Z.lor (s1_ttbr1 c) (Z.shiftl (asid c) TTBRn_ASID_SHIFT))
             cb ARM_SMMU_CB_TTBR1
      else smmu_writeq (s2_vttbr c) cb ARM_SMMU_CB_TTBR0)
  ++ (if stage1
      then
        writel_relaxed (s1_tcr c) cb ARM_SMMU_CB_TTBCR
        ++ (if ARM_SMMU_V1 <? version c
            then writel_relaxed (Z.shiftr (u64 (s1_tcr c)) 32) cb
                   ARM_SMMU_CB_TTBCR2
            else [])
      else writel_relaxed (s2_vtcr c) cb ARM_SMMU_CB_TTBCR)
  ++ (if stage1
      then writel_relaxed (s1_mair0 c) cb ARM_SMMU_CB_S1_MAIR0
           ++ writel_relaxed (s1_mair1 c) cb ARM_SMMU_CB_S1_MAIR1
      else [])
  ++ (match model c with
      | SMMU_MODEL_QCOM_V2 =>
          writel_relaxed
            (Z.lor (Z.lor (Z.shiftl ACTLR_QCOM_ISH ACTLR_QCOM_ISH_SHIFT)
                          (Z.shiftl ACTLR_QCOM_OSH ACTLR_QCOM_OSH_SHIFT))
                   (Z.shiftl ACTLR_QCOM_NSH ACTLR_QCOM_NSH_SHIFT))
            cb ARM_SMMU_CB_ACTLR
      | SMMU_MODEL_DEFAULT => []
      end)
  ++ writel_relaxed (sctlr_value c stage1) cb ARM_SMMU_CB_SCTLR.


Definition is_reg_write (e : ctx_event) : bool :=
  match e with Reg _ => true | MsmTzSetCbFormat _ => false end.

Definition region_eqb (r r' : region) : bool :=
  match r, r' with
  | GR0, GR0 | GR1, GR1 | IMPL_DEF1, IMPL_DEF1 => true
  | CB a, CB b => a =? b
  | _, _ => false
  end.

Definition writes_to (r : region) (off : Z) (e : ctx_event) : bool :=
  match e with
  | Reg (Writel r' off' _) | Reg (Writeq r' off' _) =>
      region_eqb r' r && (off' =? off)
  | _ => false
  end.

(** The bank is switched on by the last write, to SCTLR: translation is
    enabled (M) unless the domain is a stage-1 domain with the bypass or
    early-map attribute; context faults are reported and raise an
    interrupt (CFRE, CFIE); a faulting transaction stalls (CFCFG) unless
    the stall-disable attribute is set, in which case HUPCF is set
    instead.  On version 2 hardware CBA2R is the first register written,
    immediately before CBAR.  A stage-2 bank gets no TTBR1, TTBCR2 or MAIR
    write. *)
Theorem init_context_bank_enables_last (c : bank_cfg) :
  let stage1 := negb (cbar c =? CBAR_TYPE_S2_TRANS) in
  let t := arm_smmu_init_context_bank c in
  let v := u32 (sctlr_value c stage1) in
  last t = Some (Reg (Writel (CB (cbndx c)) ARM_SMMU_CB_SCTLR v)) /\
  length (List.filter (writes_to (CB (cbndx c)) ARM_SMMU_CB_SCTLR) t) = 1%nat /\
  Z.testbit v 0 = (negb (attr_s1_bypass c) && negb (attr_early_map c))
                  || negb stage1 /\
  Z.testbit v 5 = true /\ Z.testbit v 6 = true /\
  Z.testbit v 7 = negb (attr_cb_stall_disable c) /\
  Z.testbit v 8 = attr_cb_stall_disable c /\
  Z.testbit v 12 = stage1 /\
  (ARM_SMMU_V1 < version c ->
   exists a w b,
     t = a ++ [Reg (Writel GR1 (ARM_SMMU_GR1_CBA2R (cbndx c)) CBA2R_RW64_64BIT);
               Reg (Writel GR1 (ARM_SMMU_GR1_CBAR (cbndx c)) w)] ++ b /\
     forallb (fun e => negb (is_reg_write e)) a = true) /\
  (stage1 = false ->
   forallb (fun e =>
              negb (writes_to (CB (cbndx c)) ARM_SMMU_CB_TTBR1 e
                    || writes_to (CB (cbndx c)) ARM_SMMU_CB_TTBCR2 e
                    || writes_to (CB (cbndx c)) ARM_SMMU_CB_S1_MAIR0 e
                    || writes_to (CB (cbndx c)) ARM_SMMU_CB_S1_MAIR1 e)) t
   = true).
Proof.
  intros stage1 t v. subst t v. unfold arm_smmu_init_context_bank.
  fold stage1.
  split.
  { rewrite !app_assoc. unfold writel_relaxed at 1. apply last_snoc. }
  split.
  { unfold writel_relaxed, smmu_writeq.
    destruct (ARM_SMMU_V1 <? version c),
      (negb (negb (secure_vmid c =? u32 Secure.VMID_INVAL))
       && has (options c) ARM_SMMU_OPT_STATIC_CB),
      stage1, (model c);
      cbn [app List.filter writes_to region_eqb andb];
      rewrite ?Z.eqb_refl; reflexivity. }
  clearbody stage1.
  assert (Hbits :
    Z.testbit (u32 (sctlr_value c stage1)) 0
    = (negb (attr_s1_bypass c) && negb (attr_early_map c)) || negb stage1 /\
    Z.testbit (u32 (sctlr_value c stage1)) 5 = true /\
    Z.testbit (u32 (sctlr_value c stage1)) 6 = true /\
    Z.testbit (u32 (sctlr_value c stage1)) 7 = negb (attr_cb_stall_disable c) /\
    Z.testbit (u32 (sctlr_value c stage1)) 8 = attr_cb_stall_disable c /\
    Z.testbit (u32 (sctlr_value c stage1)) 12 = stage1).
  { unfold sctlr_value.
    destruct (attr_cb_stall_disable c), (attr_s1_bypass c),
      (attr_early_map c), stage1; vm_compute; repeat split. }
  destruct Hbits as (B0 & B5 & B6 & B7 & B8 & B12).
  split; [exact B0|]. split; [exact B5|]. split; [exact B6|].
  split; [exact B7|]. split; [exact B8|]. split; [exact B12|]. split.
  - intros Hv. apply Z.ltb_lt in Hv. rewrite Hv.
    unfold writel_relaxed at 1 2. rewrite <- !app_assoc.
    destruct (negb (negb (secure_vmid c =? u32 Secure.VMID_INVAL))
              && has (options c) ARM_SMMU_OPT_STATIC_CB).
    + exists [MsmTzSetCbFormat (cbndx c)]. cbn [app].
      eexists _, _. split; reflexivity.
    + exists []. cbn [app]. eexists _, _. split; reflexivity.
  - intros Hs. rewrite Hs. unfold writel_relaxed, smmu_writeq.
    destruct (ARM_SMMU_V1 <? version c),
      (negb (negb (secure_vmid c =? u32 Secure.VMID_INVAL))
       && has (options c) ARM_SMMU_OPT_STATIC_CB), (model c);
      cbn [app forallb writes_to region_eqb andb];
      rewrite ?Z.eqb_refl; reflexivity.
Qed.

End Ctx.


(** ** Bits of truncated values *)

Module Bits.

Lemma testbit_u32 (x n : Z) :
  Z.testbit (u32 x) n = (n <? 32) && Z.testbit x n.
Proof.
  unfold u32. change 4294967296 with (2 ^ 32).
  rewrite Z.testbit_mod_pow2 by lia. reflexivity.
Qed.

Lemma testbit_u64 (x n : Z) :
  Z.testbit (u64 x) n = (n <? 64) && Z.testbit x n.
Proof.
  unfold u64. change 18446744073709551616 with (2 ^ 64).
  rewrite Z.testbit_mod_pow2 by lia. reflexivity.
Qed.

Lemma u32_range (x : Z) : 0 <= u32 x < 2 ^ 32.
Proof. unfold u32. apply Z.mod_pos_bound. lia. Qed.

Lemma u32_of_small (x : Z) : 0 <= x < 2 ^ 32 -> u32 x = x.
Proof. intros H. unfold u32. apply Z.mod_small. lia. Qed.

Lemma u32_land_l (x y : Z) : u32 (Z.land (u32 x) y) = Z.land (u32 x) y.
Proof.
  apply Z.bits_inj'. intros n Hn.
  rewrite testbit_u32, !Z.land_spec, testbit_u32.
  destruct (n <? 32); reflexivity.
Qed.

Lemma u32_lor (x y : Z) : u32 (Z.lor x y) = Z.lor (u32 x) (u32 y).
Proof.
  apply Z.bits_inj'. intros n Hn.
  rewrite testbit_u32, !Z.lor_spec, !testbit_u32.
  destruct (n <? 32); reflexivity.
Qed.

End Bits.


(** ** Acquires that fail *)

Module Unwind.

Import Power.

Ltac in_trace := cbn [app]; rewrite ?elem_of_app, ?elem_of_cons; auto 10.

Lemma alter_up_snoc (f : Z -> Z) (i : nat) (l : list Z) :
  alter_up f 0 (S i) l = alter f i (alter_up f 0 i l).
Proof.
  apply list_eq. intros k.
  rewrite alter_up_lookup, list_lookup_alter.
  destruct (decide (i = k)) as [->|Hne]; rewrite alter_up_lookup;
    repeat destruct (decide _); try lia; try reflexivity.
Qed.

Lemma with_prepare_same (g : gate) :
  with_prepare g (clk_prepare_count (plat g)) = g.
Proof. destruct g as [pc rc ac [rv bv cp ce]]. reflexivity. Qed.

Lemma with_enable_same (g : gate) :
  with_enable g (clk_enable_count (plat g)) = g.
Proof. destruct g as [pc rc ac [rv bv cp ce]]. reflexivity. Qed.

(** The prepare loop from clock [i], entered with clocks [0..i) prepared
    on top of [g0]: a failure unprepares them all. *)
Lemma prepare_from_fail (env : penv) (n i : nat) (g0 g g' : gate) (r : Z)
  (t : list call) :
  g = with_prepare g0 (alter_up Z.succ 0 i (clk_prepare_count (plat g0))) ->
  prepare_from env n i g = (r, g', t) -> r <> 0 ->
  g' = g0 /\ exists j, (i <= j < i + n)%nat /\ r = clk_prepare_ret env j /\
    t = map ClkPrepare (seq i (S j - i)) ++ map ClkUnprepare (rev (seq 0 j)).
Proof.
  revert i g g' t. induction n as [|n IH]; intros i g g' t Hg; cbn [prepare_from].
  - intros [= <- _ _] H. contradiction.
  - unfold bind at 1. unfold clk_prepare.
    destruct (clk_prepare_ret env i =? 0) eqn:Hr; cbn [negb].
    + destruct (prepare_from env n (S i) (alter_prepare Z.succ i g))
        as [[r1 g1] t1] eqn:Hp.
      intros [= -> <- <-] Hne.
      assert (Hg' : alter_prepare Z.succ i g
                    = with_prepare g0 (alter_up Z.succ 0 (S i)
                                         (clk_prepare_count (plat g0)))).
      { rewrite alter_up_snoc. subst g.
        destruct g0 as [pc rc ac [rv bv cp ce]]. reflexivity. }
      destruct (IH (S i) _ _ _ Hg' Hp Hne) as (-> & j & Hj & Hrj & ->).
      split; [reflexivity|]. exists j. split; [lia|]. split; [exact Hrj|].
      replace (S j - i)%nat with (S (S j - S i)) by lia.
      cbn [seq map app]. reflexivity.
    + unfold bind. rewrite unprepare_down_run. cbn [ret].
      intros [= <- <- <-] Hne. split.
      * subst g. destruct g0 as [pc rc ac [rv bv cp ce]].
        unfold with_prepare, set_plat. cbn. rewrite alter_down_up.
        reflexivity.
      * exists i. split; [lia|]. split; [reflexivity|].
        replace (S i - i)%nat with 1%nat by lia. cbn. rewrite app_nil_r.
        reflexivity.
Qed.

(** The same for the enable loop of [arm_smmu_enable_clocks_atomic], which
    also takes its reference back. *)
Lemma enable_from_fail (env : penv) (n i : nat) (g0 g g' : gate) (r : Z)
  (t : list call) :
  g = with_enable g0 (alter_up Z.succ 0 i (clk_enable_count (plat g0))) ->
  enable_from env n i g = (r, g', t) -> r <> 0 ->
  g' = set_clock_refs_count g0 (u32 (clock_refs_count g0 - 1)) /\
  exists j, (i <= j < i + n)%nat /\ r = clk_enable_ret env j /\
    t = map ClkEnable (seq i (S j - i)) ++ [Warn]
        ++ map ClkDisable (rev (seq 0 j)).
Proof.
  revert i g g' t. induction n as [|n IH]; intros i g g' t Hg; cbn [enable_from].
  - intros [= <- _ _] H. contradiction.
  - unfold bind at 1. unfold clk_enable.
    destruct (clk_enable_ret env i =? 0) eqn:Hr; cbn [negb].
    + destruct (enable_from env n (S i) (alter_enable Z.succ i g))
        as [[r1 g1] t1] eqn:Hp.
      intros [= -> <- <-] Hne.
      assert (Hg' : alter_enable Z.succ i g
                    = with_enable g0 (alter_up Z.succ 0 (S i)
                                        (clk_enable_count (plat g0)))).
      { rewrite alter_up_snoc. subst g.
        destruct g0 as [pc rc ac [rv bv cp ce]]. reflexivity. }
      destruct (IH (S i) _ _ _ Hg' Hp Hne) as (-> & j & Hj & Hrj & ->).
      split; [reflexivity|]. exists j. split; [lia|]. split; [exact Hrj|].
      replace (S j - i)%nat with (S (S j - S i)) by lia.
      cbn [seq map app]. reflexivity.
    + unfold bind, emit. rewrite disable_down_run. cbn [ret].
      intros [= <- <- <-] Hne. split.
      * subst g. destruct g0 as [pc rc ac [rv bv cp ce]].
        unfold with_enable, set_plat, set_clock_refs_count. cbn.
        rewrite alter_down_up. reflexivity.
      * exists i. split; [lia|]. split; [reflexivity|].
        replace (S i - i)%nat with 1%nat by lia. cbn. rewrite app_nil_r.
        reflexivity.
Qed.

Lemma enable_regulators_fail (cfg : clk_cfg) (env : penv) (g g' : gate)
  (r : Z) (t : list call) :
  power_count g = 0 ->
  (bus_client cfg <> 0 -> bus_vote (plat g) = 0 /\ bus_update_ret env 0 = 0) ->
  arm_smmu_enable_regulators cfg env g = (r, g', t) -> r <> 0 ->
  g' = g /\ Warn ∈ t.
Proof.
  intros Hpc Hbus. unfold arm_smmu_enable_regulators. rewrite Hpc.
  cbn [Z.eqb negb].
  unfold bind at 1.
  destruct ((if gdsc cfg then regulator_enable env else ret 0) g)
    as [[r1 g1] t1] eqn:H1.
  assert (Hg1 : r1 <> 0 -> g1 = g).
  { destruct (gdsc cfg).
    - unfold regulator_enable in H1. injection H1 as <- <- <-.
      intros H. apply Z.eqb_neq in H. rewrite H. reflexivity.
    - unfold ret in H1. injection H1 as <- <- <-. intros; reflexivity. }
  destruct (r1 =? 0) eqn:E1; cbn [negb].
  2: { unfold bind, emit, ret. intros [= <- <- <-] _.
       split; [apply Hg1; apply Z.eqb_neq; exact E1|]. in_trace. }
  apply Z.eqb_eq in E1. subst r1.
  assert (Hdrop : (when (gdsc cfg) regulator_disable) g1
                  = (tt, g, if gdsc cfg then [RegulatorDisable] else [])).
  { destruct (gdsc cfg); unfold when.
    - unfold regulator_enable in H1. injection H1 as E <- _.
      rewrite E. cbn [Z.eqb]. unfold regulator_disable, drop_regulator.
      destruct g as [pc rc ac [rv bv cp ce]]. cbn. repeat f_equal. lia.
    - unfold ret in H1. injection H1 as <- _. reflexivity. }
  unfold bind at 1.
  destruct (arm_smmu_request_bus cfg env g1) as [[r2 g2] t2] eqn:H2.
  destruct (r2 =? 0) eqn:E2; cbn [negb].
  2: { assert (g2 = g1) as ->.
       { unfold arm_smmu_request_bus in H2.
         destruct (bus_client cfg =? 0).
         - unfold ret in H2. injection H2 as <- <- _. reflexivity.
         - unfold msm_bus_scale_client_update_request in H2.
           injection H2 as <- <- _. rewrite E2. reflexivity. }
       unfold bind at 1. unfold emit at 1. unfold bind at 1.
       rewrite Hdrop. unfold ret. intros [= <- <- <-] _.
       split; [reflexivity|]. in_trace. }
  apply Z.eqb_eq in E2. subst r2.
  unfold bind at 1. unfold arm_smmu_prepare_clocks.
  destruct (prepare_from env (num_clocks cfg) 0 g2) as [[r3 g3] t3] eqn:H3.
  destruct (r3 =? 0) eqn:E3; cbn [negb].
  { intros [= <- _ _] H. apply Z.eqb_eq in E3. contradiction. }
  apply Z.eqb_neq in E3.
  destruct (prepare_from_fail env (num_clocks cfg) 0 g2 g2 g3 r3 t3
              ltac:(cbn; symmetry; apply with_prepare_same) H3 E3)
    as (-> & _).
  assert (Hun : exists t4, arm_smmu_unrequest_bus cfg env g2 = (0, g1, t4)).
  { unfold arm_smmu_request_bus in H2. unfold arm_smmu_unrequest_bus.
    destruct (bus_client cfg =? 0) eqn:Eb.
    - unfold ret in H2 |- *. injection H2 as <- _. eauto.
    - apply Z.eqb_neq in Eb. destruct (Hbus Eb) as [Hv H0].
      unfold msm_bus_scale_client_update_request in H2 |- *.
      injection H2 as E <- _. rewrite E, H0. cbn [Z.eqb].
      eexists. f_equal. f_equal.
      assert (bus_vote (plat g1) = 0) as Hv1.
      { destruct (gdsc cfg).
        - unfold regulator_enable in H1. injection H1 as _ <- _.
          destruct (regulator_enable_ret env =? 0); cbn; exact Hv.
        - unfold ret in H1. injection H1 as <- _. exact Hv. }
      destruct g1 as [pc rc ac [rv bv cp ce]]. cbn in *. subst bv.
      reflexivity. }
  destruct Hun as (t4 & Hun).
  unfold bind at 1. unfold emit at 1. unfold bind at 1. rewrite Hun.
  unfold bind at 1. rewrite Hdrop. unfold ret.
  intros [= <- <- <-] _. split; [reflexivity|]. in_trace.
Qed.


Lemma enable_clocks_atomic_fail (cfg : clk_cfg) (env : penv) (g g' : gate)
  (r : Z) (t : list call) :
  0 <= clock_refs_count g < UINT_MAX ->
  arm_smmu_enable_clocks_atomic cfg env g = (r, g', t) -> r <> 0 ->
  g' = g /\ clock_refs_count g = 0.
Proof.
  intros Hrc. unfold arm_smmu_enable_clocks_atomic.
  destruct (0 <? clock_refs_count g) eqn:E.
  - intros [= <- _ _] H. contradiction.
  - apply Z.ltb_ge in E. assert (H0 : clock_refs_count g = 0) by lia.
    intros He Hr.
    destruct (enable_from_fail env (num_clocks cfg) 0
                (set_clock_refs_count g (u32 (clock_refs_count g + 1)))
                (set_clock_refs_count g (u32 (clock_refs_count g + 1)))
                g' r t
                ltac:(cbn [alter_up]; symmetry; apply with_enable_same) He Hr)
      as (-> & _).
    split; [|exact H0]. cbn. rewrite H0. cbn.
    destruct g as [pc rc ac p]. cbn in H0. subst rc. reflexivity.
Qed.

Lemma enable_clocks_fail (cfg : clk_cfg) (env : penv) (g g' : gate) (r : Z)
  (t : list call) :
  0 <= power_count g < UINT_MAX ->
  0 <= clock_refs_count g < UINT_MAX ->
  (power_count g = 0 -> bus_client cfg <> 0 -> bus_vote (plat g) = 0) ->
  release_ok cfg env ->
  arm_smmu_enable_clocks cfg env g = (r, g', t) -> r <> 0 -> g' = g.
Proof.
  intros Hpc Hrc Hidle Hrel. unfold arm_smmu_enable_clocks.
  unfold bind at 1.
  destruct (arm_smmu_enable_regulators cfg env g) as [[r1 g1] t1] eqn:H1.
  destruct (r1 =? 0) eqn:E1; cbn [negb].
  2: { unfold ret. intros [= <- <- <-] Hr.
       destruct (Z.eq_dec (power_count g) 0) as [H0|Hn0].
       - apply (enable_regulators_fail cfg env g g1 r1 t1 H0); auto.
         intros Hb. split; [auto|]. apply Hrel. exact Hb.
       - rewrite enable_regulators_inc in H1 by exact Hn0.
         injection H1 as <- _ _. contradiction. }
  apply Z.eqb_eq in E1. subst r1.
  unfold bind at 1.
  destruct (arm_smmu_enable_clocks_atomic cfg env g1) as [[r2 g2] t2] eqn:H2.
  destruct (r2 =? 0) eqn:E2; cbn [negb].
  { unfold ret. intros [= <- _ _] H. apply Z.eqb_eq in E2. contradiction. }
  apply Z.eqb_neq in E2.
  assert (Hrc1 : clock_refs_count g1 = clock_refs_count g).
  { destruct (Z.eq_dec (power_count g) 0) as [H0|Hn0].
    - destruct (enable_regulators_up cfg env g g1 t1 H0 H1) as [-> _].
      reflexivity.
    - rewrite enable_regulators_inc in H1 by exact Hn0.
      injection H1 as <- _. reflexivity. }
  destruct (enable_clocks_atomic_fail cfg env g1 g2 r2 t2
              ltac:(rewrite Hrc1; exact Hrc) H2 E2) as [-> _].
  assert (Hwf : gate_wf cfg g).
  { split; [unfold UINT_MAX in *; lia|exact Hidle]. }
  destruct (enable_then_disable cfg env env g g1 t1 Hwf ltac:(lia) Hrel H1)
    as ((t3 & Hd) & _).
  unfold bind. rewrite Hd. unfold ret. intros [= _ <- _] _. reflexivity.
Qed.

(** [arm_smmu_enable_clocks] that fails leaves the gate as it found it,
    whichever step failed: both reference counts, the regulator and bus
    votes, and the prepare and enable count of every clock. *)
Theorem enable_clocks_failure_undone (cfg : clk_cfg) (env : penv) (g : gate) :
  0 <= power_count g < UINT_MAX ->
  0 <= clock_refs_count g < UINT_MAX ->
  (power_count g = 0 -> bus_client cfg <> 0 -> bus_vote (plat g) = 0) ->
  release_ok cfg env ->
  let r := arm_smmu_enable_clocks cfg env g in
  r.1.1 <> 0 -> r.1.2 = g.
Proof.
  intros Hpc Hrc Hidle Hrel r Hr. subst r.
  destruct (arm_smmu_enable_clocks cfg env g) as [[r g'] t] eqn:E.
  cbn [fst snd] in *. apply (enable_clocks_fail cfg env g g' r t); auto.
Qed.

Lemma enable_from_ret0 (env : penv) (n i : nat) (g g' : gate) (t : list call) :
  enable_from env n i g = (0, g', t) ->
  g' = with_enable g (alter_up Z.succ i n (clk_enable_count (plat g)))
  /\ t = map ClkEnable (seq i n).
Proof.
  revert i g g' t. induction n as [|n IH]; intros i g g' t; cbn [enable_from].
  - intros [= <- <-]. destruct g as [pc rc ac [rv bv cp ce]]. split; reflexivity.
  - unfold bind at 1. unfold clk_enable.
    destruct (clk_enable_ret env i =? 0) eqn:Hr; cbn [negb].
    + destruct (enable_from env n (S i) (alter_enable Z.succ i g))
        as [[r g1] t1] eqn:Hp.
      intros [= -> <- <-]. apply IH in Hp. destruct Hp as [-> ->].
      split; reflexivity.
    + unfold bind, emit. rewrite disable_down_run. cbn [ret].
      intros [= E _ _]. rewrite E in Hr. discriminate.
Qed.

(** An atomic acquire that succeeds is undone by the atomic release. *)
Lemma enable_disable_atomic (cfg : clk_cfg) (env : penv) (g g2 : gate)
  (t2 : list call) :
  0 <= clock_refs_count g < UINT_MAX ->
  arm_smmu_enable_clocks_atomic cfg env g = (0, g2, t2) ->
  (arm_smmu_disable_clocks_atomic cfg g2).1.2 = g.
Proof.
  intros Hrc. unfold arm_smmu_enable_clocks_atomic.
  assert (Hu : u32 (clock_refs_count g + 1) = clock_refs_count g + 1)
    by (apply u32_small; lia).
  destruct (0 <? clock_refs_count g) eqn:E.
  - apply Z.ltb_lt in E. intros [= <- _].
    unfold arm_smmu_disable_clocks_atomic. cbn [clock_refs_count set_clock_refs_count].
    rewrite Hu.
    replace (1 <? clock_refs_count g + 1) with true
      by (symmetry; apply Z.ltb_lt; lia).
    cbn [fst snd]. replace (clock_refs_count g + 1 - 1) with (clock_refs_count g) by lia.
    rewrite u32_small by lia. destruct g. reflexivity.
  - apply Z.ltb_ge in E. assert (H0 : clock_refs_count g = 0) by lia.
    intros He. apply enable_from_ret0 in He as [-> _].
    unfold arm_smmu_disable_clocks_atomic.
    cbn [clock_refs_count set_clock_refs_count with_enable set_plat].
    rewrite Hu, H0. cbn [Z.add Z.ltb Z.compare Pos.compare].
    rewrite disable_down_run. cbn [fst snd].
    destruct g as [pc rc ac [rv bv cp ce]]. cbn in *. subst rc.
    rewrite alter_down_up. reflexivity.
Qed.


Lemma enable_clocks_atomic_keeps (cfg : clk_cfg) (env : penv) (g g2 : gate)
  (t2 : list call) :
  arm_smmu_enable_clocks_atomic cfg env g = (0, g2, t2) ->
  power_count g2 = power_count g.
Proof.
  unfold arm_smmu_enable_clocks_atomic.
  destruct (0 <? clock_refs_count g).
  - intros [= <- _]. reflexivity.
  - intros He. apply enable_from_ret0 in He as [-> _]. reflexivity.
Qed.

Lemma enable_disable_clocks (cfg : clk_cfg) (ea er : penv) (g g1 : gate)
  (t1 : list call) :
  0 <= power_count g < UINT_MAX ->
  0 <= clock_refs_count g < UINT_MAX ->
  (power_count g = 0 -> bus_client cfg <> 0 -> bus_vote (plat g) = 0) ->
  release_ok cfg er ->
  arm_smmu_enable_clocks cfg ea g = (0, g1, t1) ->
  (arm_smmu_disable_clocks cfg er g1).1.2 = g.
Proof.
  intros Hpc Hrc Hidle Hrel. unfold arm_smmu_enable_clocks.
  unfold bind at 1.
  destruct (arm_smmu_enable_regulators cfg ea g) as [[r1 gr] tr] eqn:H1.
  destruct (r1 =? 0) eqn:E1; cbn [negb].
  2: { unfold ret. intros [= -> _ _]. discriminate. }
  apply Z.eqb_eq in E1. subst r1.
  unfold bind at 1.
  destruct (arm_smmu_enable_clocks_atomic cfg ea gr) as [[r2 g2] t2] eqn:H2.
  destruct (r2 =? 0) eqn:E2; cbn [negb].
  2: { unfold bind.
       destruct (arm_smmu_disable_regulators cfg ea g2) as [[r3 g3] t3].
       unfold ret. intros [= -> _ _]. discriminate. }
  apply Z.eqb_eq in E2. subst r2. unfold ret. intros [= <- _].
  assert (Hwf : gate_wf cfg g).
  { split; [unfold UINT_MAX in *; lia|exact Hidle]. }
  destruct (enable_then_disable cfg ea er g gr tr Hwf ltac:(lia) Hrel H1)
    as ((t3 & Hd) & _ & Hpc1).
  assert (Hrc1 : clock_refs_count gr = clock_refs_count g).
  { destruct (Z.eq_dec (power_count g) 0) as [H0|Hn0].
    - destruct (enable_regulators_up cfg ea g gr tr H0 H1) as [-> _].
      reflexivity.
    - rewrite enable_regulators_inc in H1 by exact Hn0.
      injection H1 as <- _. reflexivity. }
  pose proof (enable_disable_atomic cfg ea gr g2 t2
                ltac:(rewrite Hrc1; exact Hrc) H2) as Ha.
  unfold arm_smmu_disable_clocks. unfold bind at 1.
  destruct (arm_smmu_disable_clocks_atomic cfg g2) as [[u ga] ta].
  cbn [fst snd] in Ha. subst ga. unfold bind. rewrite Hd. reflexivity.
Qed.

(** [arm_smmu_enable_clocks] that succeeds followed by
    [arm_smmu_disable_clocks] leaves the gate as it was before: both
    reference counts, the votes, and the prepare and enable count of every
    clock. *)
Theorem enable_then_disable_clocks (cfg : clk_cfg) (ea er : penv) (g : gate) :
  0 <= power_count g < UINT_MAX ->
  0 <= clock_refs_count g < UINT_MAX ->
  (power_count g = 0 -> bus_client cfg <> 0 -> bus_vote (plat g) = 0) ->
  release_ok cfg er ->
  let r := arm_smmu_enable_clocks cfg ea g in
  r.1.1 = 0 -> (arm_smmu_disable_clocks cfg er r.1.2).1.2 = g.
Proof.
  intros Hpc Hrc Hidle Hrel r Hr. subst r.
  destruct (arm_smmu_enable_clocks cfg ea g) as [[r g1] t1] eqn:E.
  cbn [fst snd] in *. subst r.
  apply (enable_disable_clocks cfg ea er g g1 t1); auto.
Qed.

(** *** The regulator notifier *)

(** Modelled from the spec: the regulator events come from the regulator
    framework's header, which is not under src/; the notifier tells
    PRE_DISABLE and ENABLE from every other event. *)
Inductive regulator_event :=
| REGULATOR_EVENT_PRE_DISABLE
| REGULATOR_EVENT_ENABLE
| REGULATOR_EVENT_OTHER.

Inductive notify := NOTIFY_OK.

(** [regulator_notifier]: the gate, the calls into the clock framework and
    what is sent to the hardware. *)
Definition regulator_notifier (c : Fault.fault_cfg) (i : Fault.fault_in)
  (ev : regulator_event) (g : gate)
  : notify * gate * list call * list event :=
  match ev with
  | REGULATOR_EVENT_OTHER => (NOTIFY_OK, g, [], [])
  | _ =>
      let '(r, g1, t1) :=
        arm_smmu_prepare_clocks (Fault.clk c) (Fault.penv i) g in
      if negb (r =? 0) then (NOTIFY_OK, g1, t1, [])
      else
        let '(r', g2, t2) :=
          arm_smmu_enable_clocks_atomic (Fault.clk c) (Fault.penv i) g1 in
        if negb (r' =? 0)
        then
          let '(_, g3, t3) := arm_smmu_unprepare_clocks (Fault.clk c) g2 in
          (NOTIFY_OK, g3, t1 ++ t2 ++ t3, [])
        else
          let s :=
            match ev with
            | REGULATOR_EVENT_PRE_DISABLE => (Fault.arm_smmu_halt c i (g2, [])).2
            | _ => Fault.arm_smmu_resume c i (g2, [])
            end in
          let '(_, g3, t3) :=
            arm_smmu_disable_clocks_atomic (Fault.clk c) s.1 in
          let '(_, g4, t4) := arm_smmu_unprepare_clocks (Fault.clk c) g3 in
          (NOTIFY_OK, g4, t1 ++ t2 ++ t3 ++ t4, s.2)
  end.

Definition is_halt_request (e : event) : bool :=
  match e with
  | Writel IMPL_DEF1 off v | ScmIoWrite IMPL_DEF1 off v =>
      (off =? IMPL_DEF1_MICRO_MMU_CTRL)
      && Z.testbit v 2
  | _ => false
  end.

Lemma halt_gate (c : Fault.fault_cfg) (i : Fault.fault_in) (wait : bool)
  (s : Fault.st) :
  (Fault.__arm_smmu_halt c i wait s).2.1 = s.1.
Proof.
  unfold Fault.__arm_smmu_halt, Fault.arm_smmu_wait_for_halt,
    Fault.writel_relaxed, Fault.dev_err, Fault.emit.
  destruct (Fault.arm_smmu_is_static_cb c), wait,
    (negb (Fault.scm_io_write_ret i =? 0)), (Fault.halt_poll_ok i);
    reflexivity.
Qed.

Lemma resume_gate (c : Fault.fault_cfg) (i : Fault.fault_in) (s : Fault.st) :
  (Fault.arm_smmu_resume c i s).1 = s.1.
Proof.
  unfold Fault.arm_smmu_resume, Fault.arm_smmu_restore_sec_cfg,
    Fault.writel_relaxed, Fault.dev_err, Fault.emit.
  destruct (Fault.arm_smmu_is_static_cb c),
    (negb (Fault.scm_restore_ret i =? 0)),
    (negb (Fault.scm_io_write_ret i =? 0)); reflexivity.
Qed.

Lemma prepare_from_any (env : penv) (n : nat) (g g' : gate) (r : Z)
  (t : list call) :
  prepare_from env n 0 g = (r, g', t) ->
  if r =? 0
  then g' = with_prepare g (alter_up Z.succ 0 n (clk_prepare_count (plat g)))
  else g' = g.
Proof.
  intros H. destruct (r =? 0) eqn:E.
  - apply Z.eqb_eq in E. subst r. apply prepare_from_ret0 in H. apply H.
  - apply Z.eqb_neq in E.
    apply (prepare_from_fail env n 0 g g g' r t); auto.
    cbn. symmetry. apply with_prepare_same.
Qed.

Lemma resume_no_halt (c : Fault.fault_cfg) (i : Fault.fault_in)
  (g : gate) :
  forallb (fun e => negb (is_halt_request e))
    (Fault.arm_smmu_resume c i (g, [])).2 = true.
Proof.
  assert (Hb : forall x, Z.testbit
            (u32 (Z.land (u32 x) (Z.lnot MICRO_MMU_CTRL_LOCAL_HALT_REQ))) 2
            = false).
  { intros x. rewrite Bits.testbit_u32, Z.land_spec.
    replace (Z.testbit (Z.lnot MICRO_MMU_CTRL_LOCAL_HALT_REQ) 2) with false
      by reflexivity.
    rewrite !andb_false_r. reflexivity. }
  assert (Hb' : forall x, Z.testbit
            (Z.land (u32 x) (Z.lnot MICRO_MMU_CTRL_LOCAL_HALT_REQ)) 2
            = false).
  { intros x. rewrite Z.land_spec.
    replace (Z.testbit (Z.lnot MICRO_MMU_CTRL_LOCAL_HALT_REQ) 2) with false
      by reflexivity.
    apply andb_false_r. }
  unfold Fault.arm_smmu_resume, Fault.arm_smmu_restore_sec_cfg,
    Fault.writel_relaxed, Fault.dev_err, Fault.emit.
  destruct (Fault.arm_smmu_is_static_cb c),
    (negb (Fault.scm_restore_ret i =? 0)),
    (negb (Fault.scm_io_write_ret i =? 0));
    cbn [negb fst snd app forallb is_halt_request Z.eqb andb];
    rewrite ?Hb, ?Hb'; reflexivity.
Qed.

(** The notifier takes nothing it does not give back: whatever the event
    and whichever call fails, the gate afterwards is the gate before (the
    prepare and enable count of every clock and the clock reference
    count), and it always answers NOTIFY_OK.  Only PRE_DISABLE requests a
    halt, and an event other than PRE_DISABLE and ENABLE touches neither
    clocks nor hardware. *)
Theorem regulator_notifier_balanced (c : Fault.fault_cfg)
  (i : Fault.fault_in) (event : regulator_event) (g : gate) :
  0 <= clock_refs_count g < UINT_MAX ->
  let '(ret, g', calls, sent) := regulator_notifier c i event g in
  ret = NOTIFY_OK /\ g' = g /\
  (event = REGULATOR_EVENT_OTHER -> calls = [] /\ sent = []) /\
  (event <> REGULATOR_EVENT_PRE_DISABLE ->
   forallb (fun e => negb (is_halt_request e)) sent = true).
Proof.
  intros Hrc. unfold regulator_notifier.
  destruct event.
  3: { repeat split; try reflexivity. }
  all: unfold arm_smmu_prepare_clocks.
  all: destruct (prepare_from (Fault.penv i) (num_clocks (Fault.clk c)) 0 g)
         as [[r g1] t1] eqn:Hp.
  all: pose proof (prepare_from_any _ _ _ _ _ _ Hp) as Hg1.
  all: destruct (r =? 0) eqn:Er; cbn [negb].
  all: try (subst g1; repeat split; try reflexivity; try discriminate;
            intros; reflexivity).
  all: destruct (arm_smmu_enable_clocks_atomic (Fault.clk c) (Fault.penv i) g1)
         as [[r' g2] t2] eqn:He.
  all: assert (Hrc1 : clock_refs_count g1 = clock_refs_count g)
         by (subst g1; reflexivity).
  all: assert (Hback : forall g2',
         clk_enable_count (plat g2') = clk_enable_count (plat g1) ->
         clk_prepare_count (plat g2') = clk_prepare_count (plat g1) ->
         regulator_votes (plat g2') = regulator_votes (plat g1) ->
         bus_vote (plat g2') = bus_vote (plat g1) ->
         power_count g2' = power_count g1 ->
         attach_count g2' = attach_count g1 ->
         clock_refs_count g2' = clock_refs_count g ->
         (arm_smmu_unprepare_clocks (Fault.clk c) g2').1.2 = g).
  1,3: (intros g2' H1 H2 H3 H4 H5 H6 H7;
        unfold arm_smmu_unprepare_clocks; rewrite unprepare_down_run;
        cbn [fst snd]; rewrite H2; subst g1; cbn;
        rewrite alter_down_up;
        destruct g as [pc rc ac [rv bv cp ce]],
                 g2' as [pc' rc' ac' [rv' bv' cp' ce']];
        cbn in *; subst; reflexivity).
  all: destruct (r' =? 0) eqn:Er'; cbn [negb].
  (* enable failed *)
  2,4: (apply Z.eqb_neq in Er';
        destruct (enable_clocks_atomic_fail _ _ _ _ _ _
                    ltac:(rewrite Hrc1; exact Hrc) He Er') as [-> _];
        specialize (Hback g1 eq_refl eq_refl eq_refl eq_refl eq_refl eq_refl
                      Hrc1);
        destruct (arm_smmu_unprepare_clocks (Fault.clk c) g1) as [[u g3] t3];
        cbn [fst snd] in Hback; subst g3;
        repeat split; try reflexivity; try discriminate).
  (* the hardware is reached *)
  all: apply Z.eqb_eq in Er'; subst r'.
  all: pose proof (enable_disable_atomic _ _ _ _ _
                     ltac:(rewrite Hrc1; exact Hrc) He) as Hd.
  - pose proof (halt_gate c i true (g2, [])) as Hs.
    fold (Fault.arm_smmu_halt c i (g2, [])) in Hs. cbn [fst] in Hs.
    rewrite Hs.
    destruct (arm_smmu_disable_clocks_atomic (Fault.clk c) g2)
      as [[u g3] t3]. cbn [fst snd] in Hd. subst g3.
    specialize (Hback g1 eq_refl eq_refl eq_refl eq_refl eq_refl eq_refl Hrc1).
    destruct (arm_smmu_unprepare_clocks (Fault.clk c) g1) as [[u' g4] t4].
    cbn [fst snd] in Hback. subst g4.
    repeat split; try reflexivity; try discriminate.
    intros H. contradiction.
  - pose proof (resume_gate c i (g2, [])) as Hs. cbn [fst] in Hs.
    rewrite Hs.
    destruct (arm_smmu_disable_clocks_atomic (Fault.clk c) g2)
      as [[u g3] t3]. cbn [fst snd] in Hd. subst g3.
    specialize (Hback g1 eq_refl eq_refl eq_refl eq_refl eq_refl eq_refl Hrc1).
    destruct (arm_smmu_unprepare_clocks (Fault.clk c) g1) as [[u' g4] t4].
    cbn [fst snd] in Hback. subst g4.
    repeat split; try reflexivity; try discriminate.
    intros _. apply resume_no_halt.
Qed.

(** The second clock cannot be prepared, respectively enabled. *)
Definition env_prepare_fails : penv :=
  {| regulator_enable_ret := 0; regulator_disable_deferred_ret := 0;
     bus_update_ret := fun _ => 0;
     clk_prepare_ret := fun i => if (i =? 1)%nat then - EINVAL else 0;
     clk_enable_ret := fun _ => 0 |}.

Definition env_enable_fails : penv :=
  {| regulator_enable_ret := 0; regulator_disable_deferred_ret := 0;
     bus_update_ret := fun _ => 0; clk_prepare_ret := fun _ => 0;
     clk_enable_ret := fun i => if (i =? 1)%nat then - EINVAL else 0 |}.


Lemma enable_clocks_failure_undone_witness :
  (arm_smmu_enable_clocks c6_cfg env_enable_fails idle_gate).1.1 = - EINVAL /\
  (arm_smmu_enable_clocks c6_cfg env_enable_fails idle_gate).1.2 = idle_gate.
Proof.
  split; [reflexivity|].
  apply (enable_clocks_failure_undone c6_cfg env_enable_fails idle_gate).
  - vm_compute. split; [discriminate|reflexivity].
  - vm_compute. split; [discriminate|reflexivity].
  - reflexivity.
  - split; reflexivity.
  - vm_compute. discriminate.
Defined.

(** The calls of that failed acquire: the bring-up, the first clock
    enabled and disabled again, and the mirror of the bring-up. *)
Example enable_clocks_failure_calls :
  (arm_smmu_enable_clocks c6_cfg env_enable_fails idle_gate).2
  = [RegulatorEnable; BusUpdateRequest 1; ClkPrepare 0%nat; ClkPrepare 1%nat;
     ClkEnable 0%nat; ClkEnable 1%nat; Warn; ClkDisable 0%nat;
     ClkUnprepare 1%nat; ClkUnprepare 0%nat; BusUpdateRequest 0;
     RegulatorDisableDeferred].
Proof. reflexivity. Qed.

Lemma enable_then_disable_clocks_witness :
  (arm_smmu_enable_clocks c6_cfg env_all_ok idle_gate).1.1 = 0 /\
  (arm_smmu_disable_clocks c6_cfg env_all_ok
     (arm_smmu_enable_clocks c6_cfg env_all_ok idle_gate).1.2).1.2
  = idle_gate.
Proof.
  split; [reflexivity|].
  apply (enable_then_disable_clocks c6_cfg env_all_ok env_all_ok idle_gate).
  - vm_compute. split; [discriminate|reflexivity].
  - vm_compute. split; [discriminate|reflexivity].
  - reflexivity.
  - split; reflexivity.
  - reflexivity.
Defined.

Definition notifier_in : Fault.fault_in :=
  {| Fault.fsr_in := 0; Fault.fsynr0_in := 0; Fault.far_lo_in := 0;
     Fault.far_hi_in := 0; Fault.cbfrsynra_in := 0; Fault.sctlr_in := 0;
     Fault.micro_mmu_ctrl_in := 0; Fault.halt_poll_ok := true;
     Fault.tlbstatus_poll_ok := true; Fault.gstatus_in := fun _ => 0;
     Fault.scm_io_write_ret := 0; Fault.scm_restore_ret := 0;
     Fault.soft_walk := 0; Fault.report_ret := 0; Fault.ratelimit := true;
     Fault.probe1 := Fault.probe_miss; Fault.probe2 := Fault.probe_miss;
     Fault.penv := env_all_ok |}.

Lemma regulator_notifier_balanced_witness :
  regulator_notifier Fault.fault_cfg0 notifier_in REGULATOR_EVENT_PRE_DISABLE
    idle_gate
  = (NOTIFY_OK, idle_gate,
     [ClkPrepare 0%nat; ClkPrepare 1%nat; ClkEnable 0%nat; ClkEnable 1%nat;
      ClkDisable 1%nat; ClkDisable 0%nat; ClkUnprepare 1%nat;
      ClkUnprepare 0%nat],
     [Writel IMPL_DEF1 IMPL_DEF1_MICRO_MMU_CTRL 4]).
Proof.
  pose proof (regulator_notifier_balanced Fault.fault_cfg0 notifier_in
                REGULATOR_EVENT_PRE_DISABLE idle_gate
                ltac:(vm_compute; split; [discriminate|reflexivity])) as H.
  destruct (regulator_notifier Fault.fault_cfg0 notifier_in
              REGULATOR_EVENT_PRE_DISABLE idle_gate) as [[[r g] c] s] eqn:E.
  destruct H as (-> & -> & _). vm_compute in E. injection E as <- <-.
  reflexivity.
Defined.

End Unwind.


(** ** Waiting for the TLB, the halted probe, interrupts that are not
    faults *)

Module FaultPath.

Import Fault.

Definition gsactive (status : nat -> Z) (k : nat) : bool :=
  has (u32 (status k)) sTLBGSTATUS_GSACTIVE.

Lemma tlb_sync_poll_spec (status : nat -> Z) (n k : nat) :
  (0 < n)%nat ->
  tlb_sync_poll status n k = true <->
  forall j, (k <= j < k + n)%nat -> gsactive status j = true.
Proof.
  revert k. induction n as [|n IH]; intros k Hn; [lia|].
  cbn [tlb_sync_poll]. fold (gsactive status k).
  destruct (gsactive status k) eqn:Ek; cbn [negb].
  - destruct n as [|n'].
    + cbn. split; [|reflexivity]. intros _ j Hj.
      replace j with k by lia. exact Ek.
    + cbn [Nat.eqb]. rewrite IH by lia. split.
      * intros H j Hj. destruct (decide (j = k)) as [->|Hne]; [exact Ek|].
        apply H. lia.
      * intros H j Hj. apply H. lia.
  - split; [discriminate|]. intros H. rewrite <- Ek. apply H. lia.
Qed.


(** *** The probe that halts the SMMU *)

(** The halt took effect: the request was delivered and the poll saw the
    SMMU idle. *)
Definition halted (c : fault_cfg) (i : fault_in) : bool :=
  (negb (arm_smmu_is_static_cb c) || (scm_io_write_ret i =? 0))
  && halt_poll_ok i.

Definition is_log (e : event) : bool :=
  match e with DevErr _ => true | _ => false end.

(** A write that takes the halt request back, or the restore of the
    secure configuration in front of it. *)
Definition is_resume (e : event) : bool :=
  match e with
  | ScmRestoreSecCfg => true
  | Writel IMPL_DEF1 off v | ScmIoWrite IMPL_DEF1 off v =>
      (off =? IMPL_DEF1_MICRO_MMU_CTRL) && negb (Z.testbit v 2)
  | _ => false
  end.

Lemma halt_run (c : fault_cfg) (i : fault_in) (g : Power.gate)
  (t : list event) :
  arm_smmu_halt c i (g, t)
  = (if halted c i then 0
     else if arm_smmu_is_static_cb c && negb (scm_io_write_ret i =? 0)
          then - EINVAL else - EBUSY,
     (g, t ++ halt_nowait_events c i
           ++ (if arm_smmu_is_static_cb c && negb (scm_io_write_ret i =? 0)
               then [] else wait_for_halt_events i))).
Proof.
  unfold arm_smmu_halt, __arm_smmu_halt, halted, halt_nowait_events,
    arm_smmu_wait_for_halt, wait_for_halt_events, dev_err, writel_relaxed,
    emit.
  destruct (arm_smmu_is_static_cb c); cbn [negb orb andb fst snd].
  - destruct (scm_io_write_ret i =? 0); cbn [negb andb fst snd];
      [destruct (halt_poll_ok i)|];
      cbn [fst snd]; rewrite <- ?app_assoc, ?app_nil_r; reflexivity.
  - rewrite Bits.u32_lor. rewrite u32_idem.
    destruct (halt_poll_ok i); cbn [fst snd];
      rewrite <- ?app_assoc, ?app_nil_r; reflexivity.
Qed.

Lemma landp_offset (phys mask iova : Z) :
  Z.land (Z.lor (Z.land phys (Z.land mask (u64 (Z.lnot 0xfff))))
                (Z.land (u64 iova) 0xfff)) 0xfff
  = Z.land (u64 iova) 0xfff.
Proof.
  apply Z.bits_inj'. intros n Hn.
  rewrite !Z.land_spec, Z.lor_spec, !Z.land_spec, Bits.testbit_u64.
  rewrite Z.lnot_spec by exact Hn.
  destruct (Z.testbit 0xfff n) eqn:E; cbn [negb];
    rewrite ?andb_false_r, ?andb_true_r, ?orb_false_l; reflexivity.
Qed.

(** What the probe with halt sends. *)
Definition hard_probe_events (c : fault_cfg) (i : fault_in) (p : probe_in)
  (iova : Z) : list event :=
  let phys := Z.lor (u32 (par_lo_in p)) (Z.shiftl (u32 (par_hi_in p)) 32) in
  halt_nowait_events c i
  ++ (if arm_smmu_is_static_cb c && negb (scm_io_write_ret i =? 0)
      then [] else wait_for_halt_events i)
  ++ (if halted c i
      then [ats1pr_write c iova]
           ++ (if atsr_poll_ok p then [] else [DevErr "iova to phys timed out"])
           ++ resume_events c i
           ++ (if negb (atsr_poll_ok p)
               then [DevErr "iova to phys failed. software table walk result follows"]
               else if has phys CB_PAR_F
                    then [DevErr "translation fault!"; DevErr "PAR follows"]
                    else [])
      else [DevErr "iova to phys failed. software table walk result follows"]).

Lemma hard_probe_run (c : fault_cfg) (i : fault_in) (p : probe_in)
  (iova : Z) (g : Power.gate) (t : list event) :
  gate_held g ->
  arm_smmu_iova_to_phys_hard c i p iova (g, t)
  = (if halted c i then probe_value c p iova else 0,
     (g, t ++ hard_probe_events c i p iova)).
Proof.
  intros Hg.
  destruct (nested_clocks (clk c) (penv i) g Hg) as (g1 & He & Hd).
  unfold arm_smmu_iova_to_phys_hard, __arm_smmu_iova_to_phys_hard,
    hard_probe_events.
  unfold arm_smmu_enable_clocks at 1. cbn [fst snd]. rewrite He.
  cbn [negb Z.eqb]. rewrite halt_run.
  assert (Hdis : forall t', arm_smmu_disable_clocks c i (g1, t') = (g, t')).
  { intros t'. unfold arm_smmu_disable_clocks. cbn [fst snd]. rewrite Hd.
    reflexivity. }
  destruct (halted c i) eqn:Eh; cbn [negb Z.eqb].
  - assert (Hw : forall s0 : st,
      (if version c =? ARM_SMMU_V2
       then writeq_relaxed (Z.land (u64 iova) (u64 (Z.lnot 4095)))
              (CB (cbndx c)) ARM_SMMU_CB_ATS1PR s0
       else writel_relaxed (Z.land (u64 iova) (u64 (Z.lnot 4095)))
              (CB (cbndx c)) ARM_SMMU_CB_ATS1PR s0)
      = (s0.1, s0.2 ++ [ats1pr_write c iova])).
    { intros s0. unfold ats1pr_write, writeq_relaxed, writel_relaxed, emit.
      destruct (version c =? ARM_SMMU_V2); reflexivity. }
    rewrite Hw. cbn [fst snd]. unfold probe_value.
    destruct (atsr_poll_ok p); cbn [negb].
    + rewrite resume_run.
      destruct (has _ CB_PAR_F) eqn:Ef.
      * unfold dev_err, emit. cbn [fst snd]. rewrite Hdis.
        rewrite <- !app_assoc. reflexivity.
      * rewrite Hdis. rewrite <- !app_assoc. cbn [app].
        rewrite ?app_nil_r. reflexivity.
    + unfold dev_err at 2. unfold emit. cbn [fst snd].
      rewrite resume_run. rewrite Hdis. unfold dev_err, emit. cbn [fst snd].
      rewrite <- !app_assoc. reflexivity.
  - assert (Hne : negb ((if arm_smmu_is_static_cb c
                            && negb (scm_io_write_ret i =? 0)
                         then - EINVAL else - EBUSY) =? 0) = true).
    { destruct (_ && _); reflexivity. }
    rewrite Hne. rewrite Hdis. unfold dev_err, emit. cbn [fst snd].
    rewrite <- !app_assoc. reflexivity.
Qed.

Lemma probes_issued_halt (c : fault_cfg) (i : fault_in) :
  probes_issued
    (halt_nowait_events c i
     ++ (if arm_smmu_is_static_cb c && negb (scm_io_write_ret i =? 0)
         then [] else wait_for_halt_events i)) = 0%nat.
Proof.
  unfold halt_nowait_events, wait_for_halt_events.
  destruct (arm_smmu_is_static_cb c), (negb (scm_io_write_ret i =? 0)),
    (halt_poll_ok i); reflexivity.
Qed.

Lemma probes_issued_resume (c : fault_cfg) (i : fault_in) :
  probes_issued (resume_events c i) = 0%nat.
Proof.
  unfold resume_events.
  destruct (arm_smmu_is_static_cb c), (negb (scm_restore_ret i =? 0)),
    (negb (scm_io_write_ret i =? 0)); reflexivity.
Qed.

Lemma probes_issued_ats1pr (c : fault_cfg) (iova : Z) :
  probes_issued [ats1pr_write c iova] = 1%nat.
Proof.
  unfold ats1pr_write. destruct (version c =? ARM_SMMU_V2); reflexivity.
Qed.

(** [arm_smmu_iova_to_phys_hard] called with the gate held gives the gate
    back as it was.  When the halt does not take effect it answers 0, sends
    no probe and does not take the halt request back.  When the halt takes
    effect it sends exactly one probe, and the resume follows the probe
    whether or not the probe completes.  An answer other than 0 keeps the
    offset of the address within its page. *)
Theorem hard_probe_halts_and_resumes (c : fault_cfg) (i : fault_in)
  (p : probe_in) (iova : Z) (g : Power.gate) (t : list event) :
  gate_held g ->
  let r := arm_smmu_iova_to_phys_hard c i p iova (g, t) in
  exists new,
    r.2 = (g, t ++ new) /\
    r.1 = (if halted c i then probe_value c p iova else 0) /\
    (halted c i = false ->
     probes_issued new = 0%nat /\
     forallb (fun e => negb (is_resume e)) new = true) /\
    (halted c i = true ->
     probes_issued new = 1%nat /\
     exists mid tail,
       new = halt_nowait_events c i ++ [ats1pr_write c iova] ++ mid
             ++ resume_events c i ++ tail /\
       forallb is_log mid = true /\ forallb is_log tail = true) /\
    (r.1 <> 0 -> Z.land r.1 0xfff = Z.land (u64 iova) 0xfff).
Proof.
  intros Hg r. subst r. rewrite (hard_probe_run c i p iova g t Hg).
  cbn [fst snd]. exists (hard_probe_events c i p iova).
  split; [reflexivity|]. split; [reflexivity|].
  unfold hard_probe_events.
  destruct (halted c i) eqn:Eh.
  - split; [discriminate|]. split.
    + intros _.
      assert (Hst : arm_smmu_is_static_cb c && negb (scm_io_write_ret i =? 0)
                    = false).
      { unfold halted in Eh.
        destruct (arm_smmu_is_static_cb c), (scm_io_write_ret i =? 0);
          try reflexivity; discriminate. }
      assert (Hpoll : wait_for_halt_events i = []).
      { unfold halted in Eh. unfold wait_for_halt_events.
        destruct (halt_poll_ok i); [reflexivity|].
        rewrite andb_false_r in Eh. discriminate. }
      split.
      * rewrite app_assoc, probes_issued_app, probes_issued_halt.
        rewrite !probes_issued_app, probes_issued_ats1pr,
          probes_issued_resume.
        destruct (atsr_poll_ok p); cbn [negb];
          [destruct (has _ CB_PAR_F)|]; reflexivity.
      * rewrite Hst, Hpoll. cbn [app].
        exists (if atsr_poll_ok p then [] else [DevErr "iova to phys timed out"]).
        eexists. split; [reflexivity|].
        destruct (atsr_poll_ok p); cbn [negb];
          [destruct (has _ CB_PAR_F)|]; split; reflexivity.
    + unfold probe_value. destruct (atsr_poll_ok p); cbn [negb];
        [|intros H; contradiction].
      destruct (has _ CB_PAR_F); [intros H; contradiction|].
      intros _. apply landp_offset.
  - split; [|split; [discriminate|intros H; contradiction]].
    intros _. split.
    + rewrite app_assoc, probes_issued_app, probes_issued_halt. reflexivity.
    + rewrite !forallb_app. unfold halt_nowait_events, wait_for_halt_events.
      assert (Hb : forall x,
                Z.testbit (Z.lor (u32 x) MICRO_MMU_CTRL_LOCAL_HALT_REQ) 2
                = true).
      { intros x. rewrite Z.lor_spec.
        replace (Z.testbit MICRO_MMU_CTRL_LOCAL_HALT_REQ 2) with true
          by reflexivity.
        apply orb_true_r. }
      assert (Hb' : forall x,
                Z.testbit (u32 (Z.lor (u32 x) MICRO_MMU_CTRL_LOCAL_HALT_REQ))
                  2 = true).
      { intros x. rewrite Bits.testbit_u32, Hb. reflexivity. }
      destruct (arm_smmu_is_static_cb c),
        (negb (scm_io_write_ret i =? 0)), (halt_poll_ok i);
        cbn [andb forallb is_resume negb Z.eqb];
        rewrite ?Hb, ?Hb'; reflexivity.
Qed.

Lemma hard_probe_halts_and_resumes_witness :
  gate_held held_gate /\
  (arm_smmu_iova_to_phys_hard fault_cfg0 (fault_in0 0 0) probe_hit 0x12345
     (held_gate, [])).2.1 = held_gate /\
  (arm_smmu_iova_to_phys_hard fault_cfg0 (fault_in0 0 0) probe_hit 0x12345
     (held_gate, [])).1 = 0x80001345.
Proof.
  assert (Hg : gate_held held_gate)
    by (vm_compute; repeat split; discriminate).
  split; [exact Hg|].
  destruct (hard_probe_halts_and_resumes fault_cfg0 (fault_in0 0 0) probe_hit
              0x12345 held_gate [] Hg) as (new & H2 & H1 & _).
  split; [rewrite H2; reflexivity|]. rewrite H1. reflexivity.
Defined.

(** *** Interrupts that are not faults *)

Lemma has_asf_fault (fsr : Z) :
  has fsr FSR_ASF = true -> has fsr FSR_FAULT = true.
Proof.
  unfold has. intros H. apply negb_true_iff, Z.eqb_neq in H.
  apply negb_true_iff, Z.eqb_neq. intros H0. apply H.
  apply Z.bits_inj'. intros n Hn. rewrite Z.bits_0, Z.land_spec.
  assert (Hb : Z.testbit (Z.land fsr FSR_FAULT) n = false)
    by (rewrite H0; apply Z.bits_0).
  rewrite Z.land_spec in Hb.
  destruct (Z.eq_dec n 7) as [->|Hne].
  - replace (Z.testbit FSR_FAULT 7) with true in Hb by reflexivity.
    rewrite andb_true_r in Hb. rewrite Hb. reflexivity.
  - replace (Z.testbit FSR_ASF n) with false; [apply andb_false_r|].
    symmetry. unfold FSR_ASF. change 128 with (2 ^ 7).
    rewrite Z.pow2_bits_eqb by lia. apply Z.eqb_neq. lia.
Qed.

(** The handler on an interrupt that is no fault of the domain.  On a
    detached domain it logs and reports the interrupt handled.  When the
    clocks cannot be enabled, or the fault status shows no fault, it
    reports IRQ_NONE, writes no register and leaves the gate as it found
    it; the owner's callback is not consulted.  On a device with the
    fatal-ASF option an address size fault stops the machine before the
    callback, with nothing written and the gate still held. *)
Theorem context_fault_not_a_fault (c : fault_cfg) (i : fault_in)
  (g : Power.gate) (t : list event) :
  0 <= Power.power_count g < UINT_MAX ->
  0 <= Power.clock_refs_count g < UINT_MAX ->
  (Power.power_count g = 0 -> Power.bus_client (clk c) <> 0 ->
   Power.bus_vote (Power.plat g) = 0) ->
  Power.release_ok (clk c) (penv i) ->
  let r := arm_smmu_context_fault c i (g, t) in
  let en := Power.arm_smmu_enable_clocks (clk c) (penv i) g in
  let fsr := u32 (fsr_in i) in
  (attached c = false ->
   r = (IRQ_HANDLED, (g, t ++ [DevErr "took a fault on a detached domain"])))
  /\
  (attached c = true -> en.1.1 <> 0 -> r = (IRQ_NONE, (g, t))) /\
  (attached c = true -> en.1.1 = 0 -> has fsr FSR_FAULT = false ->
   r = (IRQ_NONE, (g, t))) /\
  (attached c = true -> en.1.1 = 0 ->
   has (options c) ARM_SMMU_OPT_FATAL_ASF = true -> has fsr FSR_ASF = true ->
   r = (BUG, (en.1.2,
              t ++ [DevErr "Took an address size fault.  Refusing to recover."]))).
Proof.
  intros Hpc Hrc Hidle Hrel r en fsr. subst r.
  unfold arm_smmu_context_fault.
  destruct (attached c).
  2: { cbn [negb]. split; [reflexivity|]. repeat split; discriminate. }
  cbn [negb]. split; [discriminate|].
  unfold arm_smmu_enable_clocks, arm_smmu_disable_clocks. cbn [fst snd].
  fold en. destruct en as [[re ge] te] eqn:Een. cbn [fst snd].
  destruct (re =? 0) eqn:Er; cbn [negb].
  - apply Z.eqb_eq in Er. subst re. fold fsr.
    split; [intros _ H; contradiction|].
    pose proof (Unwind.enable_disable_clocks (clk c) (penv i) (penv i) g ge te
                  Hpc Hrc Hidle Hrel Een) as Hback.
    destruct (has fsr FSR_FAULT) eqn:Ef; cbn [negb].
    + split; [discriminate|]. intros _ _ Ho Ha. rewrite Ho, Ha. cbn [andb].
      reflexivity.
    + split.
      * intros _ _ _.
        destruct (Power.arm_smmu_disable_clocks (clk c) (penv i) ge)
          as [[u gd] td]. cbn [fst snd] in Hback. subst gd. reflexivity.
      * intros _ _ _ Ha. apply has_asf_fault in Ha. congruence.
  - apply Z.eqb_neq in Er. split.
    + intros _ _.
      rewrite (Unwind.enable_clocks_fail (clk c) (penv i) g ge re te
                 Hpc Hrc Hidle Hrel Een Er). reflexivity.
    + split; intros _ H; contradiction.
Qed.

Lemma context_fault_not_a_fault_witness :
  arm_smmu_context_fault fault_cfg0 (fault_in0 0 0) (Power.idle_gate, [])
  = (IRQ_NONE, (Power.idle_gate, [])).
Proof.
  apply (context_fault_not_a_fault fault_cfg0 (fault_in0 0 0) Power.idle_gate []).
  - vm_compute. split; [discriminate|reflexivity].
  - vm_compute. split; [discriminate|reflexivity].
  - reflexivity.
  - split; reflexivity.
  - reflexivity.
  - reflexivity.
  - reflexivity.
Defined.

End FaultPath.


(** ** The bitmap allocator on its own *)

Module Bitmap.

Import Alloc.

(** [__arm_smmu_alloc_bitmap] hands out the lowest clear bit of the range
    and sets exactly that bit; it reports -ENOSPC exactly when every bit of
    the range is set, and then leaves the map alone.
    [__arm_smmu_free_bitmap] of the index handed out gives the map back. *)
Theorem bitmap_alloc_lowest_free (map start end_ : Z) :
  0 <= start ->
  let r := __arm_smmu_alloc_bitmap map start end_ in
  (r.1 = - ENOSPC <-> forall j, start <= j < end_ -> Z.testbit map j = true)
  /\
  (r.1 = - ENOSPC -> r.2 = map) /\
  (r.1 <> - ENOSPC ->
   start <= r.1 < end_ /\ Z.testbit map r.1 = false /\
   (forall j, start <= j < r.1 -> Z.testbit map j = true) /\
   (forall j, Z.testbit r.2 j = Z.testbit map j || (j =? r.1)) /\
   __arm_smmu_free_bitmap r.2 r.1 = map).
Proof.
  intros Hs r. subst r.
  pose proof (alloc_bitmap_exhausted map start end_ Hs) as Hex.
  unfold __arm_smmu_alloc_bitmap in *. cbn [alloc_bitmap_loop] in *.
  pose proof (find_next_zero_bit_first map end_ start) as Hfirst.
  destruct (find_next_zero_bit_spec map end_ start) as [He|[Hr Hb]];
    cbv zeta in *.
  - rewrite He in *. rewrite Z.eqb_refl in *. cbn [fst snd] in *.
    split; [split; [exact Hex|reflexivity]|]. split; [reflexivity|].
    intros H. contradiction.
  - destruct (find_next_zero_bit map end_ start =? end_) eqn:E.
    { apply Z.eqb_eq in E. lia. }
    unfold test_and_set_bit in *. rewrite Hb in *. cbn [fst snd] in *.
    set (idx := find_next_zero_bit map end_ start) in *.
    split.
    { split; [exact Hex|]. intros Hfull. rewrite Hfull in Hb by lia.
      discriminate. }
    split; [unfold ENOSPC; lia|]. intros _.
    split; [exact Hr|]. split; [exact Hb|]. split; [exact Hfirst|]. split.
    + intros j. rewrite Z.setbit_eqb by lia.
      rewrite orb_comm, (Z.eqb_sym idx j). reflexivity.
    + unfold __arm_smmu_free_bitmap, clear_bit.
      apply Z.bits_inj'. intros n Hn.
      rewrite Z.clearbit_eqb, Z.setbit_eqb by lia.
      destruct (Z.eqb_spec idx n) as [<-|Hne]; cbn [negb orb andb].
      * symmetry. exact Hb.
      * rewrite andb_true_r. reflexivity.
Qed.

Lemma bitmap_alloc_lowest_free_witness :
  __arm_smmu_alloc_bitmap 11 0 8 = (2, 15) /\
  __arm_smmu_free_bitmap 15 2 = 11.
Proof.
  pose proof (bitmap_alloc_lowest_free 11 0 8 ltac:(lia)) as H.
  cbv zeta in H. destruct H as (_ & _ & H).
  split; [reflexivity|].
  apply (H ltac:(vm_compute; discriminate)).
Defined.

End Bitmap.

(** ** Page-table pages of a secure domain *)

Module Pool.

Import Secure.

(** The loop of [arm_smmu_secure_pool_destroy]; [info_ok k] is the outcome
    of the [kzalloc] of the [k]-th [arm_smmu_unprepare_pgtable]. *)
Fixpoint pool_destroy_loop (d : arm_smmu_domain) (l : list (Z * Z))
  (info_ok : nat -> bool) (k : nat) : arm_smmu_domain :=
  match l with
  | [] => d
  | (addr, size) :: l' =>
      pool_destroy_loop (arm_smmu_unprepare_pgtable d addr size (info_ok k))
        l' info_ok (S k)
  end.

(** [arm_smmu_secure_pool_destroy]. *)
Definition arm_smmu_secure_pool_destroy (d : arm_smmu_domain)
  (info_ok : nat -> bool) : arm_smmu_domain :=
  set_secure_pool_list
    (pool_destroy_loop d (secure_pool_list d) info_ok 0) [].

Definition set_pgtbl_ops (d : arm_smmu_domain) (b : bool) : arm_smmu_domain :=
  {| smmu := smmu d; pgtbl_ops := b; attr_atomic := attr_atomic d;
     slave_side_secure := slave_side_secure d; secure_vmid := secure_vmid d;
     pte_info_list := pte_info_list d; unassign_list := unassign_list d;
     secure_pool_list := secure_pool_list d |}.

(** [arm_smmu_domain_free] up to the final [kfree]: [script] is what
    [free_io_pgtable_ops] asks of the callbacks. *)
Definition arm_smmu_domain_free (d : arm_smmu_domain)
  (script : list pt_action) (info_ok : nat -> bool) (hyp : Z -> Z)
  : arm_smmu_domain * list sec_event :=
  if pgtbl_ops d
  then
    let '(d1, t1) := run_pgtable d script in
    let '(d2, t2) :=
      if arm_smmu_is_master_side_secure d1
      then arm_smmu_unassign_table hyp
             (arm_smmu_secure_pool_destroy d1 info_ok)
      else (d1, []) in
    (set_pgtbl_ops d2 false, t1 ++ t2)
  else (d, []).

(** A page freed on a master-side-secure domain goes to the pool, and the
    next allocation of that size takes it from there: the kernel allocator
    is not asked, the hypervisor is not called, and the domain is as
    before the free. *)
Theorem pool_free_then_alloc (d : arm_smmu_domain) (virt size page : Z)
  (info_ok info_ok' : bool) :
  arm_smmu_is_master_side_secure d = true ->
  virt <> 0 ->
  let f := arm_smmu_free_pages_exact d virt size true info_ok in
  f.2 = [] /\
  secure_pool_list f.1 = (virt, size) :: secure_pool_list d /\
  arm_smmu_alloc_pages_exact f.1 size page info_ok' = (virt, d).
Proof.
  intros Hm Hv f. subst f.
  unfold arm_smmu_free_pages_exact. rewrite Hm. cbn [negb].
  unfold arm_smmu_secure_pool_add. cbn [negb Z.eqb fst snd].
  split; [reflexivity|]. split; [reflexivity|].
  unfold arm_smmu_alloc_pages_exact.
  replace (arm_smmu_is_master_side_secure (set_secure_pool_list d _))
    with true by (symmetry; exact Hm).
  cbn [negb]. unfold arm_smmu_secure_pool_remove.
  cbn [secure_pool_list set_secure_pool_list pool_remove].
  rewrite Z.eqb_refl.
  apply Z.eqb_neq in Hv. rewrite Hv. cbn [negb].
  destruct d. reflexivity.
Qed.

Lemma pool_free_then_alloc_witness :
  arm_smmu_alloc_pages_exact
    (arm_smmu_free_pages_exact c3_domain 0x5000 4096 true true).1
    4096 0x9000 true
  = (0x5000, c3_domain).
Proof.
  apply (pool_free_then_alloc c3_domain 0x5000 4096 0x9000 true true).
  - reflexivity.
  - discriminate.
Defined.

(** *** Pages return to the kernel only after the hypervisor gave them
    back *)

Definition unassign_calls (l : list (Z * Z)) : list sec_event :=
  flat_map (fun c => [HypUnassign c.1; FreePagesExact c.1 c.2]) l.

Definition freed_after_unassign (hyp : Z -> Z) (t : list sec_event) : Prop :=
  forall (k : nat) a sz,
    t !! k = Some (FreePagesExact a sz) ->
    exists k', k = S k' /\ t !! k' = Some (HypUnassign a) /\ hyp a = 0.

Lemma unassign_loop_freed (hyp : Z -> Z) (l : list (Z * Z)) :
  freed_after_unassign hyp (unassign_loop hyp l).
Proof.
  induction l as [|[a sz] l IH]; intros k b s; cbn [unassign_loop].
  - intros H. discriminate.
  - destruct (hyp a =? 0) eqn:E; cbn [negb].
    + destruct k as [|[|k]]; cbn.
      * discriminate.
      * intros [= <- <-]. exists 0%nat. apply Z.eqb_eq in E. auto.
      * intros H. destruct (IH k b s H) as (k' & -> & Hk & Hh).
        exists (S (S k')). auto.
    + destruct k as [|k]; cbn; [discriminate|]. intros H. discriminate.
Qed.

Lemma unassign_loop_all (hyp : Z -> Z) (l : list (Z * Z)) :
  (forall a, hyp a = 0) -> unassign_loop hyp l = unassign_calls l.
Proof.
  intros Hh. induction l as [|[a sz] l IH]; cbn [unassign_loop];
    [reflexivity|].
  rewrite Hh. cbn [Z.eqb negb]. rewrite IH. reflexivity.
Qed.

Lemma pool_destroy_loop_lists (l : list (Z * Z)) (d : arm_smmu_domain)
  (info_ok : nat -> bool) (k : nat) :
  let d' := pool_destroy_loop d l info_ok k in
  same_config d d' /\ pte_info_list d' = pte_info_list d /\
  secure_pool_list d' = secure_pool_list d /\
  ((forall j, info_ok j = true) ->
   unassign_list d' = unassign_list d ++ l).
Proof.
  revert d k. induction l as [|[a sz] l IH]; intros d k; cbn [pool_destroy_loop].
  - repeat split. intros _. rewrite app_nil_r. reflexivity.
  - specialize (IH (arm_smmu_unprepare_pgtable d a sz (info_ok k)) (S k)).
    cbv zeta in IH. destruct IH as (Hc & Hp & Hs & Hu).
    unfold arm_smmu_unprepare_pgtable in *.
    destruct (info_ok k) eqn:Ek.
    + split; [exact Hc|]. split; [exact Hp|]. split; [exact Hs|].
      intros Hall. rewrite (Hu Hall). cbn. rewrite <- app_assoc. reflexivity.
    + split; [exact Hc|]. split; [exact Hp|]. split; [exact Hs|].
      intros Hall. rewrite Hall in Ek. discriminate.
Qed.

(** [arm_smmu_domain_free] on a master-side-secure domain hands a page to
    [free_pages_exact] only directly after the hypervisor call that gave
    that page back to the kernel succeeded, whatever else fails.  When no
    allocation fails and the hypervisor always succeeds, the pages pending
    unassign and then the pages of the pool are given back and freed, one
    after the other, in list order.  A domain without page table makes no
    call. *)
Theorem domain_free_unassigns_first (d : arm_smmu_domain)
  (script : list pt_action) (info_ok : nat -> bool) (hyp : Z -> Z) :
  arm_smmu_is_master_side_secure d = true ->
  let t := (arm_smmu_domain_free d script info_ok hyp).2 in
  let d1 := (run_pgtable d script).1 in
  freed_after_unassign hyp t /\
  (pgtbl_ops d = false -> t = []) /\
  (pgtbl_ops d = true -> (forall j, info_ok j = true) ->
   (forall a, hyp a = 0) ->
   t = unassign_calls (unassign_list d1 ++ secure_pool_list d1)).
Proof.
  intros Hm t d1. subst t d1. unfold arm_smmu_domain_free.
  destruct (pgtbl_ops d).
  2: { cbn [snd]. split; [intros k a sz H; discriminate|].
       split; [reflexivity|discriminate]. }
  destruct (run_pgtable_master script d Hm) as [Hc Ht].
  destruct (run_pgtable d script) as [d1 t1]. cbn [fst snd] in *. subst t1.
  rewrite (same_config_master d d1 Hc), Hm.
  unfold arm_smmu_unassign_table, arm_smmu_secure_pool_destroy.
  pose proof (pool_destroy_loop_lists (secure_pool_list d1) d1 info_ok 0)
    as Hl. cbv zeta in Hl. destruct Hl as (Hc2 & _ & _ & Hu).
  set (d2 := pool_destroy_loop d1 (secure_pool_list d1) info_ok 0) in *.
  assert (Hm2 : arm_smmu_is_master_side_secure (set_secure_pool_list d2 [])
                = true).
  { rewrite <- Hm, <- (same_config_master d d1 Hc),
      <- (same_config_master d1 d2 Hc2). reflexivity. }
  rewrite Hm2. cbn [negb fst snd app unassign_list set_secure_pool_list].
  split; [apply unassign_loop_freed|]. split; [discriminate|].
  intros _ Hok Hh. rewrite (Hu Hok). apply unassign_loop_all. exact Hh.
Qed.

Definition pooled_domain : arm_smmu_domain :=
  {| smmu := false; pgtbl_ops := true; attr_atomic := false;
     slave_side_secure := false; secure_vmid := 10;
     pte_info_list := []; unassign_list := [(0x3000, 4096)];
     secure_pool_list := [(0x5000, 4096)] |}.

Lemma domain_free_unassigns_first_witness :
  (arm_smmu_domain_free pooled_domain [PtFree 0x7000 4096 true true]
     (fun _ => true) (fun _ => 0)).2
  = [HypUnassign 0x3000; FreePagesExact 0x3000 4096;
     HypUnassign 0x7000; FreePagesExact 0x7000 4096;
     HypUnassign 0x5000; FreePagesExact 0x5000 4096].
Proof.
  pose proof (domain_free_unassigns_first pooled_domain
                [PtFree 0x7000 4096 true true] (fun _ => true) (fun _ => 0)
                ltac:(reflexivity)) as H.
  cbv zeta in H. destruct H as (_ & _ & H).
  rewrite (H eq_refl (fun _ => eq_refl) (fun _ => eq_refl)). reflexivity.
Defined.

End Pool.


(** ** Debug access to a context bank, and the global fault interrupt *)

Module RegIO.

Import PM.

Definition SZ_4K : Z := 0x1000.
Definition ARM_SMMU_GR0_sGFSR : Z := 0x48.
Definition ARM_SMMU_GR0_sGFSYNR0 : Z := 0x50.
Definition ARM_SMMU_GR0_sGFSYNR1 : Z := 0x54.
Definition ARM_SMMU_GR0_sGFSYNR2 : Z := 0x58.
Definition ARM_SMMU_CB_FSRRESTORE : Z := 0x5c.

(** [arm_smmu_reg_read]; [offset] is an [unsigned long].  The result is
    the value, the gate, and the accesses and log lines. *)
Definition arm_smmu_reg_read (c : Fault.fault_cfg) (env : Power.penv)
  (offset : Z) (g : Power.gate) (h : hw) : Z * Power.gate * list access :=
  let offset := u64 offset in
  if SZ_4K <=? offset then (0, g, [Sent (DevErr "Invalid offset")])
  else if negb (Fault.attached c)
  then (0, g, [Sent (DevErr "Can't read registers of a detached domain")])
  else
    let '(r, g1, _) := Power.arm_smmu_enable_clocks (Fault.clk c) env g in
    if negb (r =? 0) then (0, g1, [])
    else
      let val := readl_relaxed h (CB (Fault.cbndx c)) offset in
      let '(_, g2, _) := Power.arm_smmu_disable_clocks (Fault.clk c) env g1 in
      (val, g2, [Readl (CB (Fault.cbndx c)) offset]).

(** [arm_smmu_reg_write]. *)
Definition arm_smmu_reg_write (c : Fault.fault_cfg) (env : Power.penv)
  (offset val : Z) (g : Power.gate) (h : hw)
  : Power.gate * hw * list access :=
  let offset := u64 offset in
  if SZ_4K <=? offset then (g, h, [Sent (DevErr "Invalid offset")])
  else if negb (Fault.attached c)
  then (g, h, [Sent (DevErr "Can't read registers of a detached domain")])
  else
    let '(r, g1, _) := Power.arm_smmu_enable_clocks (Fault.clk c) env g in
    if negb (r =? 0) then (g1, h, [])
    else
      let e := Writel (CB (Fault.cbndx c)) offset (u32 val) in
      let '(_, g2, _) := Power.arm_smmu_disable_clocks (Fault.clk c) env g1 in
      (g2, apply h e, [Sent e]).

(** [arm_smmu_trigger_fault]. *)
Definition arm_smmu_trigger_fault (c : Fault.fault_cfg) (env : Power.penv)
  (flags : Z) (g : Power.gate) (h : hw) : Power.gate * hw * list access :=
  if negb (Fault.attached c)
  then (g, h, [Sent (DevErr "Can't trigger faults on non-attached domains")])
  else
    let '(r, g1, _) := Power.arm_smmu_enable_clocks (Fault.clk c) env g in
    if negb (r =? 0) then (g1, h, [])
    else
      let e := Writel (CB (Fault.cbndx c)) ARM_SMMU_CB_FSRRESTORE (u32 flags) in
      let '(_, g2, _) := Power.arm_smmu_disable_clocks (Fault.clk c) env g1 in
      (g2, apply h e, [Sent (DevErr "Writing to FSRRESTORE"); Sent e]).

(** [arm_smmu_global_fault]; [rl1] and [rl2] say whether the two
    rate-limited messages are let through. *)
Definition arm_smmu_global_fault (d : arm_smmu_device) (env : Power.penv)
  (rl1 rl2 : bool) (h : hw) : Fault.irqreturn * Power.gate * list access :=
  let gr0 := ARM_SMMU_GR0_NS d in
  let '(r, g1, _) := Power.arm_smmu_enable_clocks (clk d) env (gate d) in
  if negb (r =? 0) then (Fault.IRQ_NONE, g1, [])
  else
    let gfsr := readl_relaxed h GR0 (gr0 + ARM_SMMU_GR0_sGFSR) in
    let reads := [Readl GR0 (gr0 + ARM_SMMU_GR0_sGFSR);
                  Readl GR0 (gr0 + ARM_SMMU_GR0_sGFSYNR0);
                  Readl GR0 (gr0 + ARM_SMMU_GR0_sGFSYNR1);
                  Readl GR0 (gr0 + ARM_SMMU_GR0_sGFSYNR2)] in
    if gfsr =? 0
    then
      let '(_, g2, _) := Power.arm_smmu_disable_clocks (clk d) env g1 in
      (Fault.IRQ_NONE, g2, reads)
    else
      let '(_, g2, _) := Power.arm_smmu_disable_clocks (clk d) env g1 in
      (Fault.IRQ_HANDLED, g2,
       reads
       ++ (if rl1
           then [Sent (DevErr "Unexpected global fault, this could be serious")]
           else [])
       ++ (if rl2 then [Sent (DevErr "GFSR, GFSYNR0, GFSYNR1, GFSYNR2")] else [])
       ++ [Sent (Writel GR0 (gr0 + ARM_SMMU_GR0_sGFSR) (u32 gfsr))]).

(** The gate can be taken and given back. *)
Definition gate_ready (cfg : Power.clk_cfg) (env : Power.penv)
  (g : Power.gate) : Prop :=
  0 <= Power.power_count g < UINT_MAX /\
  0 <= Power.clock_refs_count g < UINT_MAX /\
  (Power.power_count g = 0 -> Power.bus_client cfg <> 0 ->
   Power.bus_vote (Power.plat g) = 0) /\
  Power.release_ok cfg env.

Lemma clocks_bracket (cfg : Power.clk_cfg) (env : Power.penv) (g : Power.gate) :
  gate_ready cfg env g ->
  let en := Power.arm_smmu_enable_clocks cfg env g in
  (en.1.1 <> 0 -> en.1.2 = g) /\
  (en.1.1 = 0 -> (Power.arm_smmu_disable_clocks cfg env en.1.2).1.2 = g).
Proof.
  intros (Hpc & Hrc & Hidle & Hrel) en. subst en.
  destruct (Power.arm_smmu_enable_clocks cfg env g) as [[r g1] t1] eqn:E.
  cbn [fst snd]. split.
  - intros Hr. apply (Unwind.enable_clocks_fail cfg env g g1 r t1); auto.
  - intros ->. apply (Unwind.enable_disable_clocks cfg env env g g1 t1); auto.
Qed.

Lemma u64_offset (offset : Z) : 0 <= offset < SZ_4K -> u64 offset = offset.
Proof.
  intros H. unfold u64. apply Z.mod_small. unfold SZ_4K in H. lia.
Qed.


(** An access is refused, without touching the hardware or the gate, when
    the offset is outside the 4K window of the bank, when the domain is
    detached, and when the clocks cannot be enabled: the read then returns
    0 and the write is dropped. *)
Theorem reg_access_refused (c : Fault.fault_cfg) (env : Power.penv)
  (offset val : Z) (g : Power.gate) (h : hw) :
  gate_ready (Fault.clk c) env g ->
  SZ_4K <= u64 offset \/ Fault.attached c = false \/
  (Power.arm_smmu_enable_clocks (Fault.clk c) env g).1.1 <> 0 ->
  let rd := arm_smmu_reg_read c env offset g h in
  let wr := arm_smmu_reg_write c env offset val g h in
  rd.1.1 = 0 /\ rd.1.2 = g /\ wr.1.1 = g /\ wr.1.2 = h /\
  (forall r off, Readl r off ∉ rd.2) /\
  (forall r off v, Sent (Writel r off v) ∉ wr.2).
Proof.
  intros Hg Hcase rd wr. subst rd wr.
  destruct (clocks_bracket _ _ _ Hg) as [Hfail _].
  unfold arm_smmu_reg_read, arm_smmu_reg_write.
  destruct (SZ_4K <=? u64 offset) eqn:Eo.
  { cbn [fst snd]. repeat split; try reflexivity;
      intros; rewrite list_elem_of_singleton; discriminate. }
  apply Z.leb_gt in Eo.
  destruct (Fault.attached c) eqn:Ea; cbn [negb].
  2: { cbn [fst snd]. repeat split; try reflexivity;
         intros; rewrite list_elem_of_singleton; discriminate. }
  destruct Hcase as [H|[H|H]]; [lia|discriminate|].
  specialize (Hfail H).
  destruct (Power.arm_smmu_enable_clocks (Fault.clk c) env g)
    as [[re g1] t1]. cbn [fst snd] in *. subst g1.
  apply Z.eqb_neq in H. rewrite H. cbn [negb fst snd].
  repeat split; try reflexivity; intros; apply not_elem_of_nil.
Qed.

(** The global fault handler acknowledges exactly what it read: when the
    global fault status reads zero it reports IRQ_NONE and writes nothing;
    otherwise it writes the value read back to sGFSR as its last access
    and reports the interrupt handled.  When the clocks cannot be enabled
    it reports IRQ_NONE without an access.  The gate is left as found. *)
Theorem global_fault_acknowledged (d : arm_smmu_device) (env : Power.penv)
  (rl1 rl2 : bool) (h : hw) :
  gate_ready (clk d) env (gate d) ->
  let r := arm_smmu_global_fault d env rl1 rl2 h in
  let en := Power.arm_smmu_enable_clocks (clk d) env (gate d) in
  let sgfsr := ARM_SMMU_GR0_NS d + ARM_SMMU_GR0_sGFSR in
  let gfsr := readl_relaxed h GR0 sgfsr in
  r.1.2 = gate d /\
  (en.1.1 <> 0 -> r.1.1 = Fault.IRQ_NONE /\ r.2 = []) /\
  (en.1.1 = 0 -> gfsr = 0 ->
   r.1.1 = Fault.IRQ_NONE /\ forall e, Sent e ∉ r.2) /\
  (en.1.1 = 0 -> gfsr <> 0 ->
   r.1.1 = Fault.IRQ_HANDLED /\
   last r.2 = Some (Sent (Writel GR0 sgfsr gfsr)) /\
   forall rg off v, Sent (Writel rg off v) ∈ r.2 ->
                    rg = GR0 /\ off = sgfsr /\ v = gfsr).
Proof.
  intros Hg r en sgfsr gfsr. subst r.
  destruct (clocks_bracket _ _ _ Hg) as [Hfail Hback]. fold en in Hfail, Hback.
  unfold arm_smmu_global_fault. fold en. fold sgfsr. fold gfsr.
  destruct en as [[re g1] t1]. cbn [fst snd] in *.
  destruct (re =? 0) eqn:Er; cbn [negb].
  2: { apply Z.eqb_neq in Er. cbn [fst snd].
       split; [apply Hfail; exact Er|].
       split; [intros _; split; reflexivity|].
       split; intros H; contradiction. }
  apply Z.eqb_eq in Er. subst re. specialize (Hback eq_refl).
  destruct (Power.arm_smmu_disable_clocks (clk d) env g1) as [[u g2] t2].
  cbn [fst snd] in Hback. subst g2.
  destruct (gfsr =? 0) eqn:Eg; cbn [fst snd].
  - apply Z.eqb_eq in Eg. split; [reflexivity|].
    split; [intros H; contradiction|]. split.
    + intros _ _. split; [reflexivity|]. intros e He.
      rewrite !elem_of_cons in He. rewrite elem_of_nil in He.
      destruct He as [He|[He|[He|[He|[]]]]]; discriminate.
    + intros _ H. contradiction.
  - apply Z.eqb_neq in Eg. split; [reflexivity|].
    split; [intros H; contradiction|]. split.
    + intros _ H. contradiction.
    + intros _ _. split; [reflexivity|].
      assert (Hu : u32 gfsr = gfsr)
        by (unfold gfsr, readl_relaxed; apply u32_idem).
      rewrite Hu. split.
      * rewrite !app_assoc. apply last_snoc.
      * intros rg off v He.
        rewrite !elem_of_app, !elem_of_cons, elem_of_nil in He.
        destruct He as [[He|[He|[He|[He|[]]]]]|[He|[He|He]]];
          try discriminate.
        -- destruct rl1; [apply list_elem_of_singleton in He|
                          apply elem_of_nil in He; contradiction].
           discriminate.
        -- destruct rl2; [apply list_elem_of_singleton in He|
                          apply elem_of_nil in He; contradiction].
           discriminate.
        -- destruct He as [He|[]]. injection He as -> -> ->. auto.
Qed.

Lemma gate_ready_idle : gate_ready Power.c6_cfg Power.env_all_ok Power.idle_gate.
Proof.
  split; [vm_compute; split; [discriminate|reflexivity]|].
  split; [vm_compute; split; [discriminate|reflexivity]|].
  split; [reflexivity|]. split; reflexivity.
Qed.


Lemma reg_access_refused_witness :
  (arm_smmu_reg_read Fault.fault_cfg0 Power.env_all_ok 0x1000
     Power.idle_gate pm_hw).1.1 = 0 /\
  (arm_smmu_reg_write Fault.fault_cfg0 Power.env_all_ok 0x1000 7
     Power.idle_gate pm_hw).1.2 = pm_hw.
Proof.
  destruct (reg_access_refused Fault.fault_cfg0 Power.env_all_ok 0x1000 7
              Power.idle_gate pm_hw gate_ready_idle
              ltac:(left; vm_compute; discriminate))
    as (H1 & _ & _ & H2 & _).
  split; [exact H1|exact H2].
Defined.

Lemma global_fault_acknowledged_witness :
  (arm_smmu_global_fault pm_device Power.env_all_ok true true pm_hw).1.1
  = Fault.IRQ_HANDLED /\
  last (arm_smmu_global_fault pm_device Power.env_all_ok true true pm_hw).2
  = Some (Sent (Writel GR0 0x48 0x10048)).
Proof.
  destruct (global_fault_acknowledged pm_device Power.env_all_ok true true
              pm_hw) as (_ & _ & _ & H).
  - split; [vm_compute; split; [discriminate|reflexivity]|].
    split; [vm_compute; split; [discriminate|reflexivity]|].
    split; [reflexivity|]. split; reflexivity.
  - destruct (H eq_refl ltac:(vm_compute; discriminate)) as (H1 & H2 & _).
    split; [exact H1|exact H2].
Defined.

End RegIO.


(** ** Reset of the device *)

Module Reset.

Import PM.

Definition sCR0_CLIENTPD : Z := 0x1.
Definition sCR0_GFRE : Z := 0x2.
Definition sCR0_GFIE : Z := 0x4.
Definition sCR0_GCFGFRE : Z := 0x10.
Definition sCR0_GCFGFIE : Z := 0x20.
Definition sCR0_USFCFG : Z := 0x400.
Definition sCR0_VMIDPNE : Z := 0x800.
Definition sCR0_PTM : Z := 0x1000.
Definition sCR0_FB : Z := 0x2000.
Definition sCR0_BSU_SHIFT : Z := 14.
Definition sCR0_BSU_MASK : Z := 0x3.
Definition ARM_SMMU_OPT_SKIP_INIT : Z := 16.

(** The register file after a sequence of writes. *)
Definition run (h : hw) (t : list event) : hw := foldl apply h t.

(** The value written to sCR0, from the value read. *)
Definition scr0_value (reg : Z) : Z :=
  let reg := Z.lor reg (Z.lor (Z.lor (Z.lor sCR0_GFRE sCR0_GFIE) sCR0_GCFGFRE)
                          sCR0_GCFGFIE) in
  let reg := Z.lor reg (Z.lor sCR0_VMIDPNE sCR0_PTM) in
  let reg := Z.land reg (Z.lnot sCR0_CLIENTPD) in
  let reg := Z.lor reg sCR0_USFCFG in
  let reg := Z.land reg (Z.lnot sCR0_FB) in
  Z.land reg (Z.lnot (Z.shiftl sCR0_BSU_MASK sCR0_BSU_SHIFT)).

Definition reset_group (i : Z) : list event :=
  [Writel GR0 (ARM_SMMU_GR0_SMR i) (u32 0);
   Writel GR0 (ARM_SMMU_GR0_S2CR i) (u32 Smr.S2CR_TYPE_BYPASS)].

Definition reset_bank (i : Z) : list event :=
  [Writel (CB i) ARM_SMMU_CB_SCTLR (u32 0);
   Writel (CB i) ARM_SMMU_CB_FSR (u32 FSR_FAULT)].

(** [arm_smmu_device_reset]: [h] is the register file at the time of the
    call, [status] what the reads of sTLBGSTATUS return.  The result is
    the register file afterwards and the accesses in order. *)
Definition arm_smmu_device_reset (d : arm_smmu_device) (status : nat -> Z)
  (h : hw) : hw * list access :=
  let ns := ARM_SMMU_GR0_NS d in
  let gfsr := readl_relaxed h GR0 (ns + RegIO.ARM_SMMU_GR0_sGFSR) in
  let w1 := [Writel GR0 (ns + RegIO.ARM_SMMU_GR0_sGFSR) (u32 gfsr)] in
  let w2 :=
    if has (options d) ARM_SMMU_OPT_SKIP_INIT then []
    else (seqZ 0 (num_mapping_groups d) ≫= reset_group)
         ++ (seqZ 0 (num_context_banks d) ≫= reset_bank) in
  let w3 := [Writel GR0 ARM_SMMU_GR0_TLBIALLH (u32 0);
             Writel GR0 ARM_SMMU_GR0_TLBIALLNSNH (u32 0)] in
  let h3 := run h (w1 ++ w2 ++ w3) in
  let reg := readl_relaxed h3 GR0 (ns + ARM_SMMU_GR0_sCR0) in
  let w4 := __arm_smmu_tlb_sync status
            ++ [Writel GR0 (ns + ARM_SMMU_GR0_sCR0) (u32 (scr0_value reg))] in
  (run h3 w4,
   [Readl GR0 (ns + RegIO.ARM_SMMU_GR0_sGFSR)]
   ++ map Sent (w1 ++ w2 ++ w3)
   ++ [Readl GR0 (ns + ARM_SMMU_GR0_sCR0)]
   ++ map Sent w4).

(** The 32-bit writes of the reset that land on a word. *)
Definition touches (r : region) (off : Z) (e : event) : bool :=
  match e with
  | Writel r' off' _ => bool_decide (r' = r) && (off' =? off)
  | Writeq r' off' _ =>
      bool_decide (r' = r) && ((off' =? off) || (off' + 4 =? off))
  | _ => false
  end.

Definition untouched (r : region) (off : Z) (t : list event) : bool :=
  forallb (fun e => negb (touches r off e)) t.

Lemma run_app (h : hw) (a b : list event) : run h (a ++ b) = run (run h a) b.
Proof. apply foldl_app. Qed.

Lemma apply_untouched (h : hw) (e : event) (r : region) (off : Z) :
  touches r off e = false -> apply h e r off = h r off.
Proof.
  destruct e as [r' off' v|r' off' v|r' off' v| |m]; cbn [touches apply];
    try reflexivity.
  - intros H. unfold writel_relaxed, poke.
    destruct (bool_decide (r = r')) eqn:Er; [|reflexivity].
    apply bool_decide_eq_true in Er. subst r'.
    rewrite bool_decide_eq_true_2 in H by reflexivity.
    cbn [andb] in H. rewrite Z.eqb_sym, H. reflexivity.
  - intros H. unfold writeq_relaxed, poke.
    destruct (bool_decide (r = r')) eqn:Er; [|reflexivity].
    apply bool_decide_eq_true in Er. subst r'.
    rewrite bool_decide_eq_true_2 in H by reflexivity.
    cbn [andb] in H. apply orb_false_iff in H as [H1 H2].
    rewrite (Z.eqb_sym off), H2, (Z.eqb_sym off), H1. reflexivity.
Qed.

Lemma run_untouched (t : list event) (h : hw) (r : region) (off : Z) :
  untouched r off t = true -> run h t r off = h r off.
Proof.
  revert h. induction t as [|e t IH]; intros h; [reflexivity|].
  cbn [untouched forallb]. intros H. apply andb_true_iff in H as [He Ht].
  cbn [run foldl]. fold (run (apply h e) t). rewrite IH by exact Ht.
  apply apply_untouched. apply negb_true_iff. exact He.
Qed.

Lemma untouched_app (r : region) (off : Z) (a b : list event) :
  untouched r off (a ++ b) = untouched r off a && untouched r off b.
Proof. apply forallb_app. Qed.

Lemma untouched_bind (r : region) (off : Z) (f : Z -> list event)
  (l : list Z) :
  (forall j, j ∈ l -> untouched r off (f j) = true) ->
  untouched r off (l ≫= f) = true.
Proof.
  induction l as [|j l IH]; intros H; [reflexivity|].
  rewrite bind_cons, untouched_app, H by (left).
  cbn [andb]. apply IH. intros j' Hj'. apply H. right. exact Hj'.
Qed.

(** A loop that writes [v] to the register [(r i, off i)] in round [i] and
    does not come back to it later leaves [v] in each of them. *)
Lemma run_bind_written (f : Z -> list event) (r : Z -> region) (off : Z -> Z)
  (v : Z) (n : nat) :
  (forall j h', run h' (f j) (r j) (off j) = v) ->
  (forall j j', 0 <= j < j' -> j' < Z.of_nat n ->
                untouched (r j) (off j) (f j') = true) ->
  forall h i, 0 <= i < Z.of_nat n ->
              run h (seqZ 0 (Z.of_nat n) ≫= f) (r i) (off i) = v.
Proof.
  intros Hw Hu. induction n as [|n IH]; intros h i Hi; [lia|].
  rewrite seqZ_S, bind_app, run_app. cbn [mbind list_bind].
  change (seqZ 0 (Z.of_nat n) ≫= f) with (mbind f (seqZ 0 (Z.of_nat n))).
  rewrite Z.add_0_l.
  replace ((f (Z.of_nat n) ++ [])) with (f (Z.of_nat n))
    by (symmetry; apply app_nil_r).
  destruct (Z.eq_dec i (Z.of_nat n)) as [->|Hne].
  - apply Hw.
  - rewrite run_untouched by (apply Hu; lia).
    apply IH; [|lia]. intros j j' Hj Hj'. apply Hu; lia.
Qed.

Lemma scr0_value_bits (reg n : Z) :
  0 <= n ->
  Z.testbit (scr0_value reg) n
  = if (n =? 1) || (n =? 2) || (n =? 4) || (n =? 5) || (n =? 10)
       || (n =? 11) || (n =? 12)
    then true
    else if (n =? 0) || (n =? 13) || (n =? 14) || (n =? 15) then false
         else Z.testbit reg n.
Proof.
  intros Hn. unfold scr0_value.
  rewrite !Z.land_spec, !Z.lor_spec, !Z.land_spec, !Z.lor_spec.
  rewrite !Z.lnot_spec by exact Hn.
  assert (Hc : forall k, 0 <= k -> forall m, m <> k ->
                         Z.testbit (2 ^ k) m = false).
  { intros k Hk m Hm. rewrite Z.pow2_bits_eqb by exact Hk.
    apply Z.eqb_neq. lia. }
  destruct (Z.le_gt_cases 16 n) as [Hbig|Hsmall].
  - replace (Z.testbit sCR0_GFRE n) with false
      by (symmetry; apply (Hc 1); lia).
    replace (Z.testbit sCR0_GFIE n) with false
      by (symmetry; apply (Hc 2); lia).
    replace (Z.testbit sCR0_GCFGFRE n) with false
      by (symmetry; apply (Hc 4); lia).
    replace (Z.testbit sCR0_GCFGFIE n) with false
      by (symmetry; apply (Hc 5); lia).
    replace (Z.testbit sCR0_VMIDPNE n) with false
      by (symmetry; apply (Hc 11); lia).
    replace (Z.testbit sCR0_PTM n) with false
      by (symmetry; apply (Hc 12); lia).
    replace (Z.testbit sCR0_CLIENTPD n) with false
      by (symmetry; apply (Hc 0); lia).
    replace (Z.testbit sCR0_USFCFG n) with false
      by (symmetry; apply (Hc 10); lia).
    replace (Z.testbit sCR0_FB n) with false
      by (symmetry; apply (Hc 13); lia).
    replace (Z.testbit (Z.shiftl sCR0_BSU_MASK sCR0_BSU_SHIFT) n) with false.
    2: { symmetry. change (Z.shiftl sCR0_BSU_MASK sCR0_BSU_SHIFT)
           with (Z.lor (2 ^ 14) (2 ^ 15)).
         rewrite Z.lor_spec, (Hc 14), (Hc 15) by lia. reflexivity. }
    repeat match goal with
           | |- context [n =? ?k] =>
               replace (n =? k) with false by (symmetry; apply Z.eqb_neq; lia)
           end.
    cbn [orb negb andb]. rewrite !orb_false_r, !andb_true_r. reflexivity.
  - assert (Hk : exists k : nat, n = Z.of_nat k /\ (k < 16)%nat)
      by (exists (Z.to_nat n); lia).
    destruct Hk as (k & -> & Hk).
    do 16 (destruct k as [|k]; [
      cbn; rewrite ?orb_true_r, ?orb_false_r, ?andb_true_r, ?andb_false_r;
      reflexivity|]).
    lia.
Qed.

Lemma untouched_writel (r r' : region) (off off' v : Z) (t : list event) :
  r' <> r \/ off' <> off -> untouched r off t = true ->
  untouched r off (Writel r' off' v :: t) = true.
Proof.
  intros H Ht. cbn [untouched forallb touches]. fold (untouched r off t).
  rewrite Ht, andb_true_r. apply negb_true_iff.
  destruct H as [H|H].
  - rewrite bool_decide_eq_false_2 by exact H. reflexivity.
  - apply Z.eqb_neq in H. rewrite H. apply andb_false_r.
Qed.

Lemma untouched_tlb_sync (r : region) (off : Z) (status : nat -> Z) :
  r <> GR0 \/ off <> ARM_SMMU_GR0_sTLBGSYNC ->
  untouched r off (__arm_smmu_tlb_sync status) = true.
Proof.
  intros H. unfold __arm_smmu_tlb_sync. cbn [app].
  apply untouched_writel.
  - destruct H as [H|H]; [left; congruence|right; congruence].
  - destruct (tlb_sync_poll _ _ _); reflexivity.
Qed.

Ltac offsets :=
  unfold ARM_SMMU_GR0_NS, ARM_SMMU_GR0_SMR, ARM_SMMU_GR0_S2CR,
    ARM_SMMU_GR0_sCR0, ARM_SMMU_GR0_TLBIALLH, ARM_SMMU_GR0_TLBIALLNSNH,
    ARM_SMMU_GR0_sTLBGSYNC, RegIO.ARM_SMMU_GR0_sGFSR, ARM_SMMU_CB_SCTLR,
    ARM_SMMU_CB_FSR in *;
  rewrite ?shl2 in *;
  repeat match goal with
         | |- context [if ?b then _ else _] => destruct b
         end;
  first [ lia
        | left; discriminate
        | left; intros E; injection E; lia
        | right; lia ].

Ltac untouched_tac :=
  repeat first
    [ reflexivity
    | apply untouched_writel; [offsets|]
    | apply untouched_tlb_sync; offsets
    | rewrite untouched_app; apply andb_true_iff; split ].

Lemma reset_group_run (h : hw) (i : Z) :
  run h (reset_group i) GR0 (ARM_SMMU_GR0_SMR i) = 0 /\
  run h (reset_group i) GR0 (ARM_SMMU_GR0_S2CR i) = Smr.S2CR_TYPE_BYPASS.
Proof.
  unfold reset_group, run. cbn [foldl apply]. unfold writel_relaxed. split.
  - rewrite poke_ne by offsets. rewrite poke_eq. reflexivity.
  - rewrite poke_eq. reflexivity.
Qed.

Lemma reset_bank_run (h : hw) (i : Z) :
  run h (reset_bank i) (CB i) ARM_SMMU_CB_SCTLR = 0.
Proof.
  unfold reset_bank, run. cbn [foldl apply]. unfold writel_relaxed.
  rewrite poke_ne by offsets. rewrite poke_eq. reflexivity.
Qed.

Lemma untouched_groups (r : region) (off : Z) (n : Z) :
  (r <> GR0 \/ off < 0x800) ->
  untouched r off (seqZ 0 n ≫= reset_group) = true.
Proof.
  intros H. apply untouched_bind. intros j Hj.
  apply elem_of_seqZ in Hj. unfold reset_group.
  destruct H as [H|H].
  - apply untouched_writel; [left; congruence|].
    apply untouched_writel; [left; congruence|]. reflexivity.
  - apply untouched_writel; [offsets|].
    apply untouched_writel; [offsets|]. reflexivity.
Qed.

Lemma untouched_banks (off : Z) (n : Z) :
  untouched GR0 off (seqZ 0 n ≫= reset_bank) = true.
Proof.
  apply untouched_bind. intros j Hj. unfold reset_bank.
  apply untouched_writel; [left; discriminate|].
  apply untouched_writel; [left; discriminate|]. reflexivity.
Qed.

Lemma groups_written (h : hw) (n i : Z) :
  0 <= n <= 256 -> 0 <= i < n ->
  run h (seqZ 0 n ≫= reset_group) GR0 (ARM_SMMU_GR0_SMR i) = 0 /\
  run h (seqZ 0 n ≫= reset_group) GR0 (ARM_SMMU_GR0_S2CR i)
  = Smr.S2CR_TYPE_BYPASS.
Proof.
  intros Hn Hi. rewrite <- (Z2Nat.id n) in * by lia. split.
  - apply (run_bind_written reset_group (fun _ => GR0) ARM_SMMU_GR0_SMR 0);
      [intros j h'; apply reset_group_run | | lia].
    intros j j' Hj Hj'. unfold reset_group.
    apply untouched_writel; [offsets|].
    apply untouched_writel; [offsets|]. reflexivity.
  - apply (run_bind_written reset_group (fun _ => GR0) ARM_SMMU_GR0_S2CR
             Smr.S2CR_TYPE_BYPASS);
      [intros j h'; apply reset_group_run | | lia].
    intros j j' Hj Hj'. unfold reset_group.
    apply untouched_writel; [offsets|].
    apply untouched_writel; [offsets|]. reflexivity.
Qed.

Lemma banks_written (h : hw) (n j : Z) :
  0 <= j < n ->
  run h (seqZ 0 n ≫= reset_bank) (CB j) ARM_SMMU_CB_SCTLR = 0.
Proof.
  intros Hj. rewrite <- (Z2Nat.id n) in * by lia.
  apply (run_bind_written reset_bank CB (fun _ => ARM_SMMU_CB_SCTLR) 0);
    [intros k h'; apply reset_bank_run | | lia].
  intros k k' Hk Hk'. unfold reset_bank.
  apply untouched_writel; [left; intros E; injection E; lia|].
  apply untouched_writel; [left; intros E; injection E; lia|]. reflexivity.
Qed.

Lemma testbit_u32_low (x n : Z) :
  0 <= n < 32 -> Z.testbit (u32 x) n = Z.testbit x n.
Proof.
  intros Hn. rewrite Bits.testbit_u32.
  replace (n <? 32) with true by (symmetry; apply Z.ltb_lt; lia).
  reflexivity.
Qed.

(** What reset leaves behind.  The last access is the write to sCR0; in
    the value written the fault reporting and fault interrupt bits, VMIDPNE,
    PTM and USFCFG are set, CLIENTPD, FB and the BSU field are clear, and
    every other bit is as it was read.  Unless the device has the skip-init
    option, every stream match register reads 0 (invalid), every S2CR reads
    bypass and the SCTLR of every context bank reads 0 afterwards; with the
    option none of them is written. *)
Theorem device_reset_state (d : arm_smmu_device) (status : nat -> Z)
  (h : hw) :
  0 <= num_mapping_groups d <= 256 ->
  0 <= num_context_banks d ->
  let r := arm_smmu_device_reset d status h in
  let scr0_off := ARM_SMMU_GR0_NS d + ARM_SMMU_GR0_sCR0 in
  let scr0 := readl_relaxed r.1 GR0 scr0_off in
  last r.2 = Some (Sent (Writel GR0 scr0_off scr0)) /\
  (forall n, 0 <= n < 32 ->
     Z.testbit scr0 n
     = if (n =? 1) || (n =? 2) || (n =? 4) || (n =? 5) || (n =? 10)
          || (n =? 11) || (n =? 12)
       then true
       else if (n =? 0) || (n =? 13) || (n =? 14) || (n =? 15) then false
            else Z.testbit (readl_relaxed h GR0 scr0_off) n) /\
  (has (options d) ARM_SMMU_OPT_SKIP_INIT = false ->
   (forall i, 0 <= i < num_mapping_groups d ->
      readl_relaxed r.1 GR0 (ARM_SMMU_GR0_SMR i) = 0 /\
      readl_relaxed r.1 GR0 (ARM_SMMU_GR0_S2CR i) = Smr.S2CR_TYPE_BYPASS) /\
   (forall j, 0 <= j < num_context_banks d ->
      readl_relaxed r.1 (CB j) ARM_SMMU_CB_SCTLR = 0)) /\
  (has (options d) ARM_SMMU_OPT_SKIP_INIT = true ->
   forall i, 0 <= i ->
     readl_relaxed r.1 GR0 (ARM_SMMU_GR0_SMR i)
     = readl_relaxed h GR0 (ARM_SMMU_GR0_SMR i) /\
     readl_relaxed r.1 GR0 (ARM_SMMU_GR0_S2CR i)
     = readl_relaxed h GR0 (ARM_SMMU_GR0_S2CR i) /\
     readl_relaxed r.1 (CB i) ARM_SMMU_CB_SCTLR
     = readl_relaxed h (CB i) ARM_SMMU_CB_SCTLR).
Proof.
  intros Hg Hb r scr0_off scr0. subst r scr0.
  unfold arm_smmu_device_reset. fold scr0_off. cbn [fst snd].
  set (w1 := [Writel GR0 _ _]).
  set (w2 := if has (options d) ARM_SMMU_OPT_SKIP_INIT then [] else _).
  set (w3 := [Writel GR0 ARM_SMMU_GR0_TLBIALLH _; _]).
  set (h3 := run h (w1 ++ w2 ++ w3)).
  set (reg := readl_relaxed h3 GR0 scr0_off).
  assert (Hfin : forall r off,
             (r <> GR0 \/ (off <> scr0_off /\ off <> ARM_SMMU_GR0_sTLBGSYNC)) ->
             run h3 (__arm_smmu_tlb_sync status
                     ++ [Writel GR0 scr0_off (u32 (scr0_value reg))]) r off
             = h3 r off).
  { intros r off H. apply run_untouched. rewrite untouched_app.
    apply andb_true_iff. split.
    - apply untouched_tlb_sync. tauto.
    - apply untouched_writel; [|reflexivity].
      destruct H as [H|[H1 H2]]; [left; congruence|right; congruence]. }
  assert (Hscr : readl_relaxed
                   (run h3 (__arm_smmu_tlb_sync status
                            ++ [Writel GR0 scr0_off (u32 (scr0_value reg))]))
                   GR0 scr0_off = u32 (scr0_value reg)).
  { rewrite run_app. unfold run at 1. cbn [foldl apply].
    unfold readl_relaxed, writel_relaxed. rewrite poke_eq, !u32_idem.
    reflexivity. }
  assert (Hw2 : untouched GR0 scr0_off w2 = true).
  { subst w2. destruct (has (options d) ARM_SMMU_OPT_SKIP_INIT);
      [reflexivity|].
    rewrite untouched_app. apply andb_true_iff. split.
    - apply untouched_groups. right. subst scr0_off. offsets.
    - apply untouched_banks. }
  assert (Hreg : reg = readl_relaxed h GR0 scr0_off).
  { subst reg h3. unfold readl_relaxed. f_equal. apply run_untouched.
    rewrite !untouched_app, Hw2. subst w1 w3 scr0_off.
    cbn [andb]. apply andb_true_iff. split; untouched_tac. }
  split.
  { rewrite Hscr. rewrite (map_app Sent (__arm_smmu_tlb_sync status)).
    cbn [map]. rewrite !app_assoc. apply last_snoc. }
  split.
  { intros n Hn. rewrite Hscr, testbit_u32_low by exact Hn.
    rewrite scr0_value_bits by lia. rewrite Hreg. reflexivity. }
  split.
  - intros Hskip. subst w2. rewrite Hskip in *.
    assert (Hh3 : forall r off,
               untouched r off w3 = true ->
               h3 r off
               = run (run (run h w1) (seqZ 0 (num_mapping_groups d) ≫= reset_group))
                   (seqZ 0 (num_context_banks d) ≫= reset_bank) r off).
    { intros r off Hu. subst h3. rewrite Hskip. rewrite !run_app.
      rewrite run_untouched by exact Hu. reflexivity. }
    split.
    + intros i Hi. unfold readl_relaxed.
      rewrite !Hfin by (right; subst scr0_off; split; offsets).
      rewrite !Hh3 by (subst w3; untouched_tac).
      rewrite !(run_untouched (seqZ 0 (num_context_banks d) ≫= reset_bank))
        by apply untouched_banks.
      destruct (groups_written (run h w1) (num_mapping_groups d) i Hg Hi)
        as [H1 H2].
      rewrite H1, H2. split; reflexivity.
    + intros j Hj. unfold readl_relaxed.
      rewrite Hfin by (left; discriminate).
      rewrite Hh3 by (subst w3; untouched_tac).
      rewrite banks_written by exact Hj. reflexivity.
  - intros Hskip. subst w2. rewrite Hskip in *. intros i Hi.
    unfold readl_relaxed.
    rewrite !Hfin by
      first [left; discriminate | right; subst scr0_off; split; offsets].
    subst h3. rewrite Hskip. rewrite !run_untouched; [auto| | |];
      subst w1 w3; cbn [app]; untouched_tac.
Qed.

Example device_reset_state_trace :
  (arm_smmu_device_reset pm_device (fun _ => 0) pm_hw).2
  = [Readl GR0 0x48; Sent (Writel GR0 0x48 0x10048);
     Sent (Writel GR0 0x800 0); Sent (Writel GR0 0xc00 0x10000);
     Sent (Writel GR0 0x804 0); Sent (Writel GR0 0xc04 0x10000);
     Sent (Writel (CB 0) 0 0); Sent (Writel (CB 0) 0x58 0xc00001fe);
     Sent (Writel (CB 1) 0 0); Sent (Writel (CB 1) 0x58 0xc00001fe);
     Sent (Writel GR0 0x6c 0); Sent (Writel GR0 0x68 0);
     Readl GR0 0; Sent (Writel GR0 0x70 0);
     Sent (Writel GR0 0 0x11c36)].
Proof. vm_compute. reflexivity. Qed.

Lemma device_reset_state_witness :
  readl_relaxed (arm_smmu_device_reset pm_device (fun _ => 0) pm_hw).1
    GR0 (ARM_SMMU_GR0_SMR 1) = 0 /\
  readl_relaxed (arm_smmu_device_reset pm_device (fun _ => 0) pm_hw).1
    (CB 1) ARM_SMMU_CB_SCTLR = 0.
Proof.
  destruct (device_reset_state pm_device (fun _ => 0) pm_hw
              ltac:(vm_compute; split; discriminate)
              ltac:(vm_compute; discriminate)) as (_ & _ & H & _).
  destruct (H eq_refl) as [Hg Hb]. split.
  - apply (Hg 1). vm_compute. split; [discriminate|reflexivity].
  - apply (Hb 1). vm_compute. split; [discriminate|reflexivity].
Defined.

End Reset.


(** ** The static table read from the hardware *)

Module Static.

Import Alloc.

Definition SMR_MASK_MASK : Z := 0x7fff.
Definition SMR_ID_MASK : Z := 0x7fff.

(** The loop of [arm_smmu_init_static_cbndx_list] over the indices [l];
    [h] is the register file as the boot loader left it, [alloc_ok i] the
    outcome of the [devm_kzalloc] of [arm_smmu_add_static_cbndx] in round
    [i]. *)
Fixpoint init_loop (h : PM.hw) (alloc_ok : Z -> bool) (l : list Z)
  (smmu : arm_smmu_device) : Z * arm_smmu_device * list event :=
  match l with
  | [] => (0, smmu, [])
  | i :: l' =>
      let smr_reg := PM.readl_relaxed h GR0 (ARM_SMMU_GR0_SMR i) in
      if has smr_reg Smr.SMR_VALID
      then
        let smr_mask :=
          Z.land (Z.shiftr smr_reg Smr.SMR_MASK_SHIFT) SMR_MASK_MASK in
        let w := if negb (smr_mask =? 0)
                 then [DevErr "Static smr mask not supported"] else [] in
        let s := Z.land (Z.shiftr smr_reg Smr.SMR_ID_SHIFT) SMR_ID_MASK in
        if alloc_ok i
        then
          let smmu1 :=
            arm_smmu_add_static_cbndx smmu
              (PM.readl_relaxed h GR0 (ARM_SMMU_GR0_S2CR i)) s i in
          let '(r, smmu2, t) := init_loop h alloc_ok l' smmu1 in
          (r, smmu2, w ++ t)
        else (- ENOMEM, smmu, w)
      else init_loop h alloc_ok l' smmu
  end.

(** [arm_smmu_init_static_cbndx_list]. *)
Definition arm_smmu_init_static_cbndx_list (smmu : Smr.arm_smmu_device)
  (h : PM.hw) (alloc_ok : Z -> bool) : Z * Smr.arm_smmu_device * list event :=
  let '(r, a, t) :=
    init_loop h alloc_ok (seqZ 0 (Smr.num_mapping_groups smmu))
      (Smr.alloc smmu) in
  (r, Smr.set_alloc smmu a, t).

(** The stream match register [i] is valid in [h]. *)
Definition smr_valid (h : PM.hw) (i : Z) : bool :=
  has (PM.readl_relaxed h GR0 (ARM_SMMU_GR0_SMR i)) Smr.SMR_VALID.

(** The entry mirrors group [smr_idx e] of the register file. *)
Definition mirrors (h : PM.hw) (e : static_cbndx_entry) : Prop :=
  let smr_reg := PM.readl_relaxed h GR0 (ARM_SMMU_GR0_SMR (smr_idx e)) in
  let s2cr_reg := PM.readl_relaxed h GR0 (ARM_SMMU_GR0_S2CR (smr_idx e)) in
  sid e = Z.land smr_reg SMR_ID_MASK /\
  type e = Z.land (Z.shiftr s2cr_reg S2CR_TYPE_SHIFT) S2CR_TYPE_MASK /\
  (type e = TYPE_TRANS -> cbndx e = Z.land s2cr_reg S2CR_CBNDX_MASK).

Lemma add_static_lists (smmu : arm_smmu_device) (s2cr s i : Z) :
  let a := arm_smmu_add_static_cbndx smmu s2cr s i in
  exists e,
    static_cbndx_list a = e :: static_cbndx_list smmu /\
    smr_idx e = u8 i /\ sid e = s mod 65536 /\
    type e = Z.land (Z.shiftr s2cr S2CR_TYPE_SHIFT) S2CR_TYPE_MASK /\
    (type e = TYPE_TRANS -> cbndx e = Z.land s2cr S2CR_CBNDX_MASK /\
                            Z.testbit (context_map a) (cbndx e) = true) /\
    (0 <= i -> Z.testbit (smr_map a) i = true) /\
    (forall j, Z.testbit (smr_map smmu) j = true ->
               Z.testbit (smr_map a) j = true) /\
    (forall j, Z.testbit (context_map smmu) j = true ->
               Z.testbit (context_map a) j = true) /\
    features a = features smmu /\ options a = options smmu /\
    num_context_banks a = num_context_banks smmu.
Proof.
  intros a. subst a.
  unfold arm_smmu_add_static_cbndx, __arm_smmu_set_bitmap, test_and_set_bit,
    add_static_entry, set_smr_map, set_context_map.
  cbn [snd].
  set (ty := Z.land (Z.shiftr s2cr S2CR_TYPE_SHIFT) S2CR_TYPE_MASK).
  assert (Hcb : 0 <= Z.land s2cr S2CR_CBNDX_MASK).
  { apply Z.land_nonneg. right. unfold S2CR_CBNDX_MASK. lia. }
  unfold S2CR_CBNDX_SHIFT. rewrite Z.shiftr_0_r.
  destruct (ty =? TYPE_TRANS) eqn:Et;
    cbn [static_cbndx_list smr_map context_map features options
         num_context_banks smr_idx sid type cbndx];
    eexists; (split; [reflexivity|]);
    cbn [static_cbndx_list smr_map context_map features options
         num_context_banks smr_idx sid type cbndx];
    (split; [reflexivity|]); (split; [reflexivity|]);
    (split; [reflexivity|]).
  - split.
    { intros _. split; [reflexivity|]. rewrite Z.setbit_eqb by exact Hcb.
      rewrite Z.eqb_refl. reflexivity. }
    split.
    { intros Hi. rewrite Z.setbit_eqb by exact Hi.
      rewrite Z.eqb_refl. reflexivity. }
    split; [intros j Hj; apply testbit_setbit_mono; exact Hj|].
    split; [intros j Hj; apply testbit_setbit_mono; exact Hj|].
    repeat split.
  - split.
    { intros H. apply Z.eqb_neq in Et. contradiction. }
    split.
    { intros Hi. rewrite Z.setbit_eqb by exact Hi.
      rewrite Z.eqb_refl. reflexivity. }
    split; [intros j Hj; apply testbit_setbit_mono; exact Hj|].
    split; [intros j Hj; exact Hj|].
    repeat split.
Qed.

Lemma u8_index (i : Z) : 0 <= i < 256 -> u8 i = i.
Proof. intros H. unfold u8. apply Z.mod_small. exact H. Qed.

Lemma land_ones_range (x k : Z) :
  0 <= k -> 0 <= Z.land x (Z.ones k) < 2 ^ k.
Proof.
  intros Hk. rewrite Z.land_ones by exact Hk. apply Z.mod_pos_bound. lia.
Qed.

Lemma sid_field (x : Z) :
  Z.land (Z.shiftr x Smr.SMR_ID_SHIFT) SMR_ID_MASK mod 65536
  = Z.land x SMR_ID_MASK.
Proof.
  unfold Smr.SMR_ID_SHIFT. rewrite Z.shiftr_0_r.
  apply Z.mod_small. change SMR_ID_MASK with (Z.ones 15).
  pose proof (land_ones_range x 15 ltac:(lia)). lia.
Qed.

(** What the loop adds, when no allocation fails. *)
Lemma init_loop_ok (h : PM.hw) (alloc_ok : Z -> bool) (l : list Z) :
  (forall i, i ∈ l -> 0 <= i < 256) ->
  (forall i, i ∈ l -> alloc_ok i = true) ->
  forall smmu,
    let r := init_loop h alloc_ok l smmu in
    r.1.1 = 0 /\
    exists new,
      static_cbndx_list r.1.2 = new ++ static_cbndx_list smmu /\
      map smr_idx new = rev (List.filter (smr_valid h) l) /\
      Forall (mirrors h) new /\
      Forall (fun e => type e = TYPE_TRANS ->
                       Z.testbit (context_map r.1.2) (cbndx e) = true) new /\
      (forall i, i ∈ l -> smr_valid h i = true ->
                 Z.testbit (smr_map r.1.2) i = true) /\
      (forall j, Z.testbit (smr_map smmu) j = true ->
                 Z.testbit (smr_map r.1.2) j = true) /\
      (forall j, Z.testbit (context_map smmu) j = true ->
                 Z.testbit (context_map r.1.2) j = true).
Proof.
  induction l as [|i l IH]; intros Hr Hok smmu.
  - cbn. split; [reflexivity|]. exists []. repeat split; try constructor.
    + intros i Hi. apply elem_of_nil in Hi. contradiction.
    + auto.
    + auto.
  - cbn [init_loop List.filter]. fold (smr_valid h i).
    assert (Hr' : forall k, k ∈ l -> 0 <= k < 256)
      by (intros k Hk; apply Hr; right; exact Hk).
    assert (Hok' : forall k, k ∈ l -> alloc_ok k = true)
      by (intros k Hk; apply Hok; right; exact Hk).
    destruct (smr_valid h i) eqn:Ev.
    + rewrite (Hok i) by left.
      set (a := arm_smmu_add_static_cbndx smmu _ _ i).
      destruct (add_static_lists smmu
                  (PM.readl_relaxed h GR0 (ARM_SMMU_GR0_S2CR i))
                  (Z.land (Z.shiftr (PM.readl_relaxed h GR0 (ARM_SMMU_GR0_SMR i))
                             Smr.SMR_ID_SHIFT) SMR_ID_MASK) i)
        as (e & Hl & Hidx & Hsid & Hty & Htr & Hsm & Hsmono & Hcmono & _).
      fold a in Hl, Htr, Hsm, Hsmono, Hcmono.
      specialize (IH Hr' Hok' a). cbv zeta in IH.
      destruct (init_loop h alloc_ok l a) as [[r s2] t]. cbn [fst snd] in *.
      destruct IH as (-> & new & Hnew & Hmap & Hmir & Hctx & Hval & Hs2 & Hc2).
      split; [reflexivity|]. exists (new ++ [e]).
      assert (Hi : 0 <= i < 256) by (apply Hr; left).
      rewrite u8_index in Hidx by exact Hi.
      split; [rewrite Hnew, Hl, <- app_assoc; reflexivity|].
      split; [rewrite map_app, Hmap; cbn; rewrite Hidx; reflexivity|].
      split.
      { apply Forall_app. split; [exact Hmir|]. constructor; [|constructor].
        unfold mirrors. rewrite Hidx. cbv zeta.
        split; [rewrite Hsid; apply sid_field|]. split; [exact Hty|].
        intros Ht. apply Htr. exact Ht. }
      split.
      { apply Forall_app. split; [exact Hctx|]. constructor; [|constructor].
        intros Ht. apply Hc2. apply Htr. exact Ht. }
      split.
      { intros k Hk Hv. apply elem_of_cons in Hk as [->|Hk].
        - apply Hs2. apply Hsm. lia.
        - apply Hval; assumption. }
      split; [intros j Hj; apply Hs2, Hsmono, Hj|].
      intros j Hj. apply Hc2, Hcmono, Hj.
    + specialize (IH Hr' Hok' smmu). cbv zeta in IH.
      destruct IH as (Hret & new & Hnew & Hmap & Hmir & Hctx & Hval & Hs2 & Hc2).
      split; [exact Hret|]. exists new. repeat split; try assumption.
      intros k Hk Hv. apply elem_of_cons in Hk as [->|Hk].
      * congruence.
      * apply Hval; assumption.
Qed.

(** The first allocation that fails ends the loop with -ENOMEM; no other
    failure exists. *)
Lemma init_loop_ret (h : PM.hw) (alloc_ok : Z -> bool) (l : list Z)
  (smmu : arm_smmu_device) :
  let r := (init_loop h alloc_ok l smmu).1.1 in
  (r = 0 \/ r = - ENOMEM) /\
  (r = - ENOMEM <->
   exists i, i ∈ l /\ smr_valid h i = true /\ alloc_ok i = false).
Proof.
  revert smmu. induction l as [|i l IH]; intros smmu.
  - cbn. split; [left; reflexivity|]. split; [discriminate|].
    intros (i & Hi & _). apply elem_of_nil in Hi. contradiction.
  - cbn [init_loop]. fold (smr_valid h i).
    destruct (smr_valid h i) eqn:Ev.
    + destruct (alloc_ok i) eqn:Eo.
      * set (a := arm_smmu_add_static_cbndx smmu _ _ i).
        specialize (IH a). cbv zeta in IH.
        destruct (init_loop h alloc_ok l a) as [[r s2] t]. cbn [fst snd] in *.
        destruct IH as [Hr Hiff]. split; [exact Hr|]. rewrite Hiff. split.
        -- intros (k & Hk & Hv & Ho). exists k. split; [right; exact Hk|auto].
        -- intros (k & Hk & Hv & Ho). apply elem_of_cons in Hk as [->|Hk];
             [congruence|]. exists k. auto.
      * cbn [fst snd]. split; [right; reflexivity|]. split; [|reflexivity].
        intros _. exists i. split; [left|auto].
    + specialize (IH smmu). cbv zeta in IH. destruct IH as [Hr Hiff].
      split; [exact Hr|]. rewrite Hiff. split.
      * intros (k & Hk & Hv & Ho). exists k. split; [right; exact Hk|auto].
      * intros (k & Hk & Hv & Ho). apply elem_of_cons in Hk as [->|Hk];
          [congruence|]. exists k. auto.
Qed.

(** [arm_smmu_init_static_cbndx_list] makes one entry per stream match
    register that the boot loader left valid and none for the others: the
    new entries stand in front of the list, the one of the highest group
    first; each carries the stream ID of its SMR and the type of its S2CR
    and, for a translate binding, the context bank of the S2CR, whose bit
    it sets in the context map; the bit of every valid group is set in the
    SMR map; no bit of either map is cleared.  The only failure is
    -ENOMEM, returned exactly when the allocation for a valid group
    fails. *)
Theorem static_list_mirrors_hardware (smmu : Smr.arm_smmu_device)
  (h : PM.hw) (alloc_ok : Z -> bool) :
  0 <= Smr.num_mapping_groups smmu <= 256 ->
  let r := arm_smmu_init_static_cbndx_list smmu h alloc_ok in
  let groups := seqZ 0 (Smr.num_mapping_groups smmu) in
  let a := Smr.alloc smmu in
  let a' := Smr.alloc r.1.2 in
  (r.1.1 = - ENOMEM <->
   exists i, i ∈ groups /\ smr_valid h i = true /\ alloc_ok i = false) /\
  (r.1.1 <> - ENOMEM ->
   r.1.1 = 0 /\
   exists new,
     static_cbndx_list a' = new ++ static_cbndx_list a /\
     map smr_idx new = rev (List.filter (smr_valid h) groups) /\
     Forall (mirrors h) new /\
     Forall (fun e => type e = TYPE_TRANS ->
                      Z.testbit (context_map a') (cbndx e) = true) new /\
     (forall i, i ∈ groups -> smr_valid h i = true ->
                Z.testbit (smr_map a') i = true) /\
     (forall j, Z.testbit (smr_map a) j = true ->
                Z.testbit (smr_map a') j = true) /\
     (forall j, Z.testbit (context_map a) j = true ->
                Z.testbit (context_map a') j = true)).
Proof.
  intros Hn r groups a a'. subst r a'.
  unfold arm_smmu_init_static_cbndx_list. fold groups. fold a.
  pose proof (init_loop_ret h alloc_ok groups a) as Hret. cbv zeta in Hret.
  destruct Hret as [Hcodes Hiff].
  split.
  { destruct (init_loop h alloc_ok groups a) as [[r s2] t].
    cbn [fst snd] in *. exact Hiff. }
  intros Hne.
  assert (Hall : forall i, i ∈ groups -> smr_valid h i = true ->
                           alloc_ok i = true).
  { intros i Hi Hv. destruct (alloc_ok i) eqn:Eo; [reflexivity|].
    exfalso. apply Hne.
    destruct (init_loop h alloc_ok groups a) as [[r s2] t].
    cbn [fst snd] in *. apply Hiff. exists i. auto. }
  (* the loop asks the allocator for valid groups only *)
  assert (Hsame : init_loop h alloc_ok groups a
                  = init_loop h (fun _ => true) groups a).
  { clear Hcodes Hiff Hne. generalize a. 
    induction groups as [|i l IH]; intros a0; [reflexivity|].
    cbn [init_loop]. fold (smr_valid h i).
    destruct (smr_valid h i) eqn:Ev.
    - rewrite (Hall i) by (try left; assumption).
      rewrite IH; [reflexivity|].
      intros k Hk Hv. apply Hall; [right; exact Hk|exact Hv].
    - apply IH. intros k Hk Hv. apply Hall; [right; exact Hk|exact Hv]. }
  rewrite Hsame.
  pose proof (init_loop_ok h (fun _ => true) groups
                ltac:(intros i Hi; apply elem_of_seqZ in Hi; lia)
                ltac:(reflexivity) a) as Hok.
  cbv zeta in Hok.
  destruct (init_loop h (fun _ => true) groups a) as [[r s2] t].
  cbn [fst snd Smr.alloc Smr.set_alloc] in *. exact Hok.
Qed.

(** A register file in which group 1 is bound to stream 7 and translates
    through context bank 3, and group 2 is valid with a bypass binding. *)
Definition boot_hw : PM.hw :=
  fun r off =>
    match r with
    | GR0 => if off =? 0x804 then 0x80000007
             else if off =? 0xc04 then 3
             else if off =? 0x808 then 0x80000009
             else if off =? 0xc08 then 0x10000
             else 0
    | _ => 0
    end.

Definition bare_device : Smr.arm_smmu_device :=
  {| Smr.alloc :=
       {| features := 0; options := 0; num_context_banks := 8;
          num_s2_context_banks := 0; context_map := 0; smr_map := 0;
          static_cbndx_list := [] |};
     Smr.num_mapping_groups := 4 |}.

Lemma static_list_mirrors_hardware_witness :
  let r := arm_smmu_init_static_cbndx_list bare_device boot_hw
             (fun _ => true) in
  r.1.1 = 0 /\
  exists new,
    static_cbndx_list (Smr.alloc r.1.2) = new ++ [] /\
    map smr_idx new = [2; 1].
Proof.
  cbv zeta.
  destruct (static_list_mirrors_hardware bare_device boot_hw (fun _ => true)
              ltac:(vm_compute; split; discriminate)) as [_ H].
  destruct (H ltac:(vm_compute; discriminate))
    as (Hr & new & Hl & Hm & _).
  split; [exact Hr|]. exists new. split; [exact Hl|exact Hm].
Defined.

Example static_list_from_boot_hw :
  (arm_smmu_init_static_cbndx_list bare_device boot_hw (fun _ => true)).1.2
  = {| Smr.alloc :=
         {| features := 0; options := 0; num_context_banks := 8;
            num_s2_context_banks := 0; context_map := 8; smr_map := 6;
            static_cbndx_list :=
              [ {| cbndx := 0; smr_idx := 2; sid := 9; type := TYPE_BYPASS |};
                {| cbndx := 3; smr_idx := 1; sid := 7; type := TYPE_TRANS |} ]
         |};
       Smr.num_mapping_groups := 4 |}.
Proof. vm_compute. reflexivity. Qed.

End Static.


(** ** Probing the hardware configuration *)

Module Probe.

Definition ARM_SMMU_GR0_ID0 : Z := 0x20.
Definition ARM_SMMU_GR0_ID1 : Z := 0x24.
Definition ARM_SMMU_GR0_ID2 : Z := 0x28.

Definition ID0_S1TS : Z := 0x40000000.
Definition ID0_S2TS : Z := 0x20000000.
Definition ID0_NTS : Z := 0x10000000.
Definition ID0_SMS : Z := 0x8000000.
Definition ID0_ATOSNS : Z := 0x4000000.
Definition ID0_CTTW : Z := 0x4000.
Definition ID0_NUMSIDB_SHIFT : Z := 9.
Definition ID0_NUMSIDB_MASK : Z := 0xf.
Definition ID0_NUMSMRG_SHIFT : Z := 0.
Definition ID0_NUMSMRG_MASK : Z := 0xff.

Definition ID1_PAGESIZE : Z := 0x80000000.
Definition ID1_NUMPAGENDXB_SHIFT : Z := 28.
Definition ID1_NUMPAGENDXB_MASK : Z := 7.
Definition ID1_NUMS2CB_SHIFT : Z := 16.
Definition ID1_NUMS2CB_MASK : Z := 0xff.
Definition ID1_NUMCB_SHIFT : Z := 0.
Definition ID1_NUMCB_MASK : Z := 0xff.

Definition ID2_OAS_SHIFT : Z := 4.
Definition ID2_OAS_MASK : Z := 0xf.
Definition ID2_IAS_SHIFT : Z := 0.
Definition ID2_IAS_MASK : Z := 0xf.
Definition ID2_UBS_SHIFT : Z := 8.
Definition ID2_UBS_MASK : Z := 0xf.
Definition ID2_PTFS_4K : Z := 0x1000.
Definition ID2_PTFS_16K : Z := 0x2000.
Definition ID2_PTFS_64K : Z := 0x4000.

Definition ARM_SMMU_FEAT_COHERENT_WALK : Z := 1.
Definition ARM_SMMU_FEAT_TRANS_OPS : Z := 32.
Definition ARM_SMMU_OPT_NO_SMR_CHECK : Z := 512.

(** Modelled from the spec: the sizes of the kernel's [linux/sizes.h],
    which is not under src/. *)
Definition SZ_4K : Z := 0x1000.
Definition SZ_16K : Z := 0x4000.
Definition SZ_64K : Z := 0x10000.
Definition SZ_2M : Z := 0x200000.
Definition SZ_32M : Z := 0x2000000.
Definition SZ_512M : Z := 0x20000000.
Definition SZ_1G : Z := 0x40000000.

(** [arm_smmu_id_size_to_bits]. *)
Definition arm_smmu_id_size_to_bits (size : Z) : Z :=
  if size =? 0 then 32
  else if size =? 1 then 36
  else if size =? 2 then 40
  else if size =? 3 then 42
  else if size =? 4 then 44
  else 48.

(** The fields of [struct arm_smmu_device] that the probe reads and
    writes, with the page-size bitmap of [arm_smmu_ops]. *)
Record probe_dev := {
  version : Z;
  options : Z;
  features : Z;
  size : Z;
  num_mapping_groups : Z;
  pgshift : Z;
  num_s2_context_banks : Z;
  num_context_banks : Z;
  ipa_size : Z;
  pa_size : Z;
  va_size : Z;
  ubs : Z;
  pgsize_bitmap : Z
}.

(** What the probe finds: the three ID registers, what SMR0 reads back
    after the test write, the [force_stage] module parameter, whether the
    device tree says dma-coherent, the answer of the secure monitor ([ret]
    and [scm_ret] of [scm_restore_sec_cfg], zero when both are) and of
    [dma_set_mask_and_coherent]. *)
Record probe_in := {
  id0_in : Z;
  id1_in : Z;
  id2_in : Z;
  smr0_in : Z;
  force_stage : Z;
  cttw_dt : bool;
  scm_restore_ret : Z;
  dma_set_mask_ret : Z
}.

Definition set_features (d : probe_dev) (v : Z) : probe_dev :=
  {| version := version d; options := options d; features := v;
     size := size d; num_mapping_groups := num_mapping_groups d;
     pgshift := pgshift d; num_s2_context_banks := num_s2_context_banks d;
     num_context_banks := num_context_banks d; ipa_size := ipa_size d;
     pa_size := pa_size d; va_size := va_size d; ubs := ubs d;
     pgsize_bitmap := pgsize_bitmap d |}.

Definition set_num_mapping_groups (d : probe_dev) (v : Z) : probe_dev :=
  {| version := version d; options := options d; features := features d;
     size := size d; num_mapping_groups := v;
     pgshift := pgshift d; num_s2_context_banks := num_s2_context_banks d;
     num_context_banks := num_context_banks d; ipa_size := ipa_size d;
     pa_size := pa_size d; va_size := va_size d; ubs := ubs d;
     pgsize_bitmap := pgsize_bitmap d |}.

Definition set_banks (d : probe_dev) (shift s2 cb : Z) : probe_dev :=
  {| version := version d; options := options d; features := features d;
     size := size d; num_mapping_groups := num_mapping_groups d;
     pgshift := shift; num_s2_context_banks := s2;
     num_context_banks := cb; ipa_size := ipa_size d;
     pa_size := pa_size d; va_size := va_size d; ubs := ubs d;
     pgsize_bitmap := pgsize_bitmap d |}.

Definition set_sizes (d : probe_dev) (ipa pa va u pg : Z) : probe_dev :=
  {| version := version d; options := options d; features := features d;
     size := size d; num_mapping_groups := num_mapping_groups d;
     pgshift := pgshift d; num_s2_context_banks := num_s2_context_banks d;
     num_context_banks := num_context_banks d; ipa_size := ipa;
     pa_size := pa; va_size := va; ubs := u; pgsize_bitmap := pg |}.

Definition feat (cond : bool) (f : Z) (features : Z) : Z :=
  if cond then u32 (Z.lor features f) else features.

(** [arm_smmu_device_cfg_probe] (CONFIG_64BIT), in the three parts the
    source marks: the part on ID0 ends the probe ([inl]) or goes on
    ([inr]) with the device and what was sent so far. *)
Definition probe_id0 (smmu : probe_dev) (i : probe_in)
  : (Z * probe_dev * list event) + (probe_dev * list event) :=
  let id := u32 (id0_in i) in
  let id := if force_stage i =? 1
            then Z.land id (Z.lnot (Z.lor ID0_S2TS ID0_NTS))
            else if force_stage i =? 2
                 then Z.land id (Z.lnot (Z.lor ID0_S1TS ID0_NTS))
                 else id in
  let f := feat (has id ID0_S1TS) Alloc.ARM_SMMU_FEAT_TRANS_S1
             (features smmu) in
  let f := feat (has id ID0_S2TS) Alloc.ARM_SMMU_FEAT_TRANS_S2 f in
  let f := feat (has id ID0_NTS) Alloc.ARM_SMMU_FEAT_TRANS_NESTED f in
  if negb (has f (Z.lor Alloc.ARM_SMMU_FEAT_TRANS_S1
                    Alloc.ARM_SMMU_FEAT_TRANS_S2))
  then inl (- ENODEV, set_features smmu f, [DevErr "no translation support!"])
  else
    let f := feat (has id ID0_S1TS
                   && ((version smmu =? 1) || negb (has id ID0_ATOSNS)))
               ARM_SMMU_FEAT_TRANS_OPS f in
    let f := feat (cttw_dt i) ARM_SMMU_FEAT_COHERENT_WALK f in
    if has id ID0_SMS
    then
      let f := u32 (Z.lor f Smr.ARM_SMMU_FEAT_STREAM_MATCH) in
      let groups :=
        Z.land (Z.shiftr id ID0_NUMSMRG_SHIFT) ID0_NUMSMRG_MASK in
      let smmu1 := set_num_mapping_groups (set_features smmu f) groups in
      if groups =? 0
      then inl (- ENODEV, smmu1,
                [DevErr "stream-matching supported, but no SMRs present!"])
      else if negb (has (options smmu) ARM_SMMU_OPT_NO_SMR_CHECK)
      then
        let smr := Z.lor (Z.shiftl Static.SMR_MASK_MASK Smr.SMR_MASK_SHIFT)
                     (Z.shiftl Static.SMR_ID_MASK Smr.SMR_ID_SHIFT) in
        let w := [Writel GR0 (ARM_SMMU_GR0_SMR 0) (u32 smr)] in
        let smr := u32 (smr0_in i) in
        let mask := Z.land (Z.shiftr smr Smr.SMR_MASK_SHIFT)
                      Static.SMR_MASK_MASK in
        let sid := Z.land (Z.shiftr smr Smr.SMR_ID_SHIFT)
                     Static.SMR_ID_MASK in
        if negb (Z.land mask sid =? sid)
        then inl (- ENODEV, smmu1,
                  w ++ [DevErr "SMR mask bits insufficient for ID field"])
        else inr (smmu1, w)
      else inr (smmu1, [])
    else
      inr (set_num_mapping_groups (set_features smmu f)
             (Z.land (Z.shiftr id ID0_NUMSIDB_SHIFT) ID0_NUMSIDB_MASK),
           []).

Definition probe_id1 (smmu : probe_dev) (i : probe_in)
  : (Z * probe_dev * list event) + (probe_dev * list event) :=
  let id := u32 (id1_in i) in
  let shift := if has id ID1_PAGESIZE then 16 else 12 in
  let sz := Z.shiftl 1
              (Z.land (Z.shiftr id ID1_NUMPAGENDXB_SHIFT)
                 ID1_NUMPAGENDXB_MASK + 1) in
  let sz := sz * Z.shiftl 2 shift in
  let t := if negb (size smmu =? sz)
           then [DevErr "SMMU address space size differs from mapped region size!"]
           else [] in
  let s2 := Z.land (Z.shiftr id ID1_NUMS2CB_SHIFT) ID1_NUMS2CB_MASK in
  let cb := Z.land (Z.shiftr id ID1_NUMCB_SHIFT) ID1_NUMCB_MASK in
  let smmu1 := set_banks smmu shift s2 cb in
  if cb <? s2
  then inl (- ENODEV, smmu1,
            t ++ [DevErr "impossible number of S2 context banks!"])
  else inr (smmu1, t).

Definition probe_id2 (smmu : probe_dev) (i : probe_in)
  : probe_dev * list event :=
  let id := u32 (id2_in i) in
  let ipa := arm_smmu_id_size_to_bits
               (Z.land (Z.shiftr id ID2_IAS_SHIFT) ID2_IAS_MASK) in
  let pa := arm_smmu_id_size_to_bits
              (Z.land (Z.shiftr id ID2_OAS_SHIFT) ID2_OAS_MASK) in
  let t := if negb (dma_set_mask_ret i =? 0)
           then [DevErr "failed to set DMA mask for table walker"]
           else [] in
  let u := Z.land (Z.shiftr id ID2_UBS_SHIFT) ID2_UBS_MASK in
  let '(va, u', pgs) :=
    if version smmu =? ARM_SMMU_V1
    then (ipa, ubs smmu, Z.lor (Z.lor SZ_4K SZ_2M) SZ_1G)
    else
      (Z.min 39 (arm_smmu_id_size_to_bits u), u,
       Z.lor
         (Z.lor
            (if has id ID2_PTFS_4K
             then Z.lor (Z.lor SZ_4K SZ_2M) SZ_1G else 0)
            (if has id ID2_PTFS_16K then Z.lor SZ_16K SZ_32M else 0))
         (if has id ID2_PTFS_64K then Z.lor SZ_64K SZ_512M else 0)) in
  (set_sizes smmu ipa pa va u' (Z.land (pgsize_bitmap smmu) pgs), t).

(** [arm_smmu_restore_sec_cfg] on the device. *)
Definition arm_smmu_restore_sec_cfg (smmu : probe_dev) (i : probe_in)
  : Z * list event :=
  if negb (has (options smmu) ARM_SMMU_OPT_STATIC_CB) then (0, [])
  else if negb (scm_restore_ret i =? 0)
       then (- EINVAL,
             [ScmRestoreSecCfg; DevErr "scm call IOMMU_SECURE_CFG failed"])
       else (0, [ScmRestoreSecCfg]).

Definition arm_smmu_device_cfg_probe (smmu : probe_dev) (i : probe_in)
  : Z * probe_dev * list event :=
  let '(ret, t0) := arm_smmu_restore_sec_cfg smmu i in
  if negb (ret =? 0) then (- ENODEV, smmu, t0)
  else
    match probe_id0 smmu i with
    | inl (r, d, t1) => (r, d, t0 ++ t1)
    | inr (smmu1, t1) =>
        match probe_id1 smmu1 i with
        | inl (r, d, t2) => (r, d, t0 ++ t1 ++ t2)
        | inr (smmu2, t2) =>
            let '(smmu3, t3) := probe_id2 smmu2 i in
            (0, smmu3, t0 ++ t1 ++ t2 ++ t3)
        end
    end.

Lemma id_size_bits (x : Z) :
  32 <= arm_smmu_id_size_to_bits x <= 48.
Proof.
  unfold arm_smmu_id_size_to_bits.
  repeat match goal with |- context [?a =? ?b] => destruct (a =? b) end; lia.
Qed.

Lemma id_size_mono (x y : Z) :
  0 <= x <= y -> arm_smmu_id_size_to_bits x <= arm_smmu_id_size_to_bits y.
Proof.
  intros H. unfold arm_smmu_id_size_to_bits.
  repeat match goal with
         | |- context [?a =? ?b] => destruct (Z.eqb_spec a b)
         end; lia.
Qed.

Lemma field_range (x s k : Z) :
  0 <= k -> 0 <= Z.land (Z.shiftr x s) (Z.ones k) < 2 ^ k.
Proof. intros Hk. apply Static.land_ones_range. exact Hk. Qed.

Lemma feat_keeps (cond : bool) (f features m : Z) :
  0 <= features < 2 ^ 32 ->
  has features m = true -> has (feat cond f features) m = true.
Proof.
  intros Hr Hm. unfold feat. destruct cond; [|exact Hm].
  unfold has in *. apply negb_true_iff, Z.eqb_neq in Hm.
  apply negb_true_iff, Z.eqb_neq. intros H0. apply Hm.
  apply Z.bits_inj'. intros n Hn. rewrite Z.bits_0.
  assert (Hb : Z.testbit (Z.land (u32 (Z.lor features f)) m) n = false)
    by (rewrite H0; apply Z.bits_0).
  rewrite Z.land_spec, Bits.testbit_u32, Z.lor_spec in Hb.
  rewrite Z.land_spec.
  destruct (Z.testbit features n) eqn:Ef; [|reflexivity].
  cbn [orb] in Hb. rewrite andb_true_r in Hb.
  destruct (Z.ltb_spec n 32) as [Hlt|Hge].
  - cbn [andb] in Hb. exact Hb.
  - rewrite (Tlb.testbit_above features 32 n) in Ef by lia. discriminate.
Qed.

Lemma feat_range (cond : bool) (f features : Z) :
  0 <= features < 2 ^ 32 -> 0 <= feat cond f features < 2 ^ 32.
Proof.
  intros H. unfold feat. destruct cond; [apply Bits.u32_range|exact H].
Qed.

Lemma has_lor_l (x a b : Z) : has x a = true -> has x (Z.lor a b) = true.
Proof.
  unfold has. intros H. apply negb_true_iff, Z.eqb_neq in H.
  apply negb_true_iff, Z.eqb_neq. intros H0. apply H.
  apply Z.bits_inj'. intros n Hn. rewrite Z.bits_0.
  assert (Hb : Z.testbit (Z.land x (Z.lor a b)) n = false)
    by (rewrite H0; apply Z.bits_0).
  rewrite Z.land_spec, Z.lor_spec in Hb. rewrite Z.land_spec.
  destruct (Z.testbit x n), (Z.testbit a n); try reflexivity; discriminate.
Qed.

Lemma has_set (features f : Z) :
  0 < f < 2 ^ 32 -> has (u32 (Z.lor features f)) f = true.
Proof.
  intros Hf. unfold has. apply negb_true_iff, Z.eqb_neq. intros H0.
  assert (Hne : f <> 0) by lia. apply Hne.
  apply Z.bits_inj'. intros n Hn. rewrite Z.bits_0.
  assert (Hb : Z.testbit (Z.land (u32 (Z.lor features f)) f) n = false)
    by (rewrite H0; apply Z.bits_0).
  rewrite Z.land_spec, Bits.testbit_u32, Z.lor_spec in Hb.
  destruct (Z.testbit f n) eqn:Ef; [|reflexivity].
  rewrite orb_true_r, andb_true_r in Hb.
  destruct (Z.ltb_spec n 32) as [Hlt|Hge]; [discriminate|].
  rewrite (Tlb.testbit_above f 32 n) in Ef by lia. discriminate.
Qed.

(** The stage mask of [force_stage] leaves the stream-match bit alone. *)
Lemma sms_forced (id m : Z) :
  m = Z.lor ID0_S2TS ID0_NTS \/ m = Z.lor ID0_S1TS ID0_NTS ->
  has (Z.land id (Z.lnot m)) ID0_SMS = has id ID0_SMS.
Proof.
  intros Hm. unfold has. f_equal. f_equal.
  apply Z.bits_inj'. intros n Hn.
  rewrite !Z.land_spec, Z.lnot_spec by exact Hn.
  destruct (Z.eq_dec n 27) as [->|Hne].
  - destruct Hm as [-> | ->]; cbn; rewrite andb_true_r; reflexivity.
  - replace (Z.testbit ID0_SMS n) with false; [rewrite !andb_false_r; reflexivity|].
    symmetry. change ID0_SMS with (2 ^ 27).
    rewrite Z.pow2_bits_eqb by lia. apply Z.eqb_neq. lia.
Qed.

(** What the part on ID0 leaves when it goes on. *)
Lemma probe_id0_ok (smmu smmu1 : probe_dev) (i : probe_in) (t : list event) :
  0 <= features smmu < 2 ^ 32 ->
  probe_id0 smmu i = inr (smmu1, t) ->
  has (features smmu1) (Z.lor Alloc.ARM_SMMU_FEAT_TRANS_S1
                          Alloc.ARM_SMMU_FEAT_TRANS_S2) = true /\
  (has (u32 (id0_in i)) ID0_SMS = true ->
   has (features smmu1) Smr.ARM_SMMU_FEAT_STREAM_MATCH = true /\
   1 <= num_mapping_groups smmu1 <= 255) /\
  (has (u32 (id0_in i)) ID0_SMS = false ->
   0 <= num_mapping_groups smmu1 <= 15) /\
  version smmu1 = version smmu /\ options smmu1 = options smmu /\
  pgsize_bitmap smmu1 = pgsize_bitmap smmu.
Proof.
  intros Hf. unfold probe_id0.
  set (id0 := if force_stage i =? 1 then _ else _).
  assert (Hsms : has id0 ID0_SMS = has (u32 (id0_in i)) ID0_SMS).
  { subst id0. destruct (force_stage i =? 1); [apply sms_forced; auto|].
    destruct (force_stage i =? 2); [apply sms_forced; auto|reflexivity]. }
  set (f3 := feat (has id0 ID0_NTS) _ _).
  assert (Hf3 : 0 <= f3 < 2 ^ 32) by (repeat apply feat_range; exact Hf).
  clearbody f3.
  destruct (has f3 _) eqn:Est; cbn [negb]; [|discriminate].
  set (f5 := feat (cttw_dt i) _ _).
  assert (Hf5 : 0 <= f5 < 2 ^ 32) by (do 2 apply feat_range; exact Hf3).
  assert (Hst5 : has f5 (Z.lor Alloc.ARM_SMMU_FEAT_TRANS_S1
                           Alloc.ARM_SMMU_FEAT_TRANS_S2) = true).
  { subst f5. apply feat_keeps; [apply feat_range; exact Hf3|].
    apply feat_keeps; [exact Hf3|]. exact Est. }
  clearbody f5. rewrite Hsms.
  set (groups := Z.land (Z.shiftr id0 ID0_NUMSMRG_SHIFT) ID0_NUMSMRG_MASK).
  set (sidb := Z.land (Z.shiftr id0 ID0_NUMSIDB_SHIFT) ID0_NUMSIDB_MASK).
  assert (Hgr : 0 <= groups < 2 ^ 8) by (apply (field_range _ _ 8); lia).
  assert (Hsb : 0 <= sidb < 2 ^ 4) by (apply (field_range _ _ 4); lia).
  clearbody groups sidb.
  destruct (has (u32 (id0_in i)) ID0_SMS) eqn:Esms.
  - assert (Hsm1 : has (u32 (Z.lor f5 Smr.ARM_SMMU_FEAT_STREAM_MATCH))
                     Smr.ARM_SMMU_FEAT_STREAM_MATCH = true)
      by (apply has_set; unfold Smr.ARM_SMMU_FEAT_STREAM_MATCH; lia).
    assert (Hst6 : has (u32 (Z.lor f5 Smr.ARM_SMMU_FEAT_STREAM_MATCH))
                     (Z.lor Alloc.ARM_SMMU_FEAT_TRANS_S1
                        Alloc.ARM_SMMU_FEAT_TRANS_S2) = true).
    { apply (feat_keeps true Smr.ARM_SMMU_FEAT_STREAM_MATCH f5 _ Hf5 Hst5). }
    destruct (groups =? 0) eqn:Eg; [discriminate|].
    apply Z.eqb_neq in Eg.
    destruct (negb (has (options smmu) ARM_SMMU_OPT_NO_SMR_CHECK)).
    + destruct (negb (_ =? _)); [discriminate|].
      intros [= <- _]. cbn. repeat split; try assumption; try lia;
        discriminate.
    + intros [= <- _]. cbn. repeat split; try assumption; try lia;
        discriminate.
  - intros [= <- _]. cbn. repeat split; try assumption; try lia;
      discriminate.
Qed.

Lemma probe_id0_fail (smmu d : probe_dev) (i : probe_in) (r : Z)
  (t : list event) :
  probe_id0 smmu i = inl (r, d, t) -> r = - ENODEV.
Proof.
  unfold probe_id0.
  repeat match goal with
         | |- context [if ?b then _ else _] => destruct b
         end; intros [= <- _ _]; reflexivity.
Qed.

Lemma probe_id1_ok (smmu smmu1 : probe_dev) (i : probe_in) (t : list event) :
  probe_id1 smmu i = inr (smmu1, t) ->
  0 <= num_s2_context_banks smmu1 <= num_context_banks smmu1 /\
  num_context_banks smmu1 <= 255 /\
  (pgshift smmu1 = 12 \/ pgshift smmu1 = 16) /\
  features smmu1 = features smmu /\
  num_mapping_groups smmu1 = num_mapping_groups smmu /\
  version smmu1 = version smmu /\ options smmu1 = options smmu /\
  pgsize_bitmap smmu1 = pgsize_bitmap smmu.
Proof.
  unfold probe_id1.
  set (s2 := Z.land (Z.shiftr (u32 (id1_in i)) ID1_NUMS2CB_SHIFT)
               ID1_NUMS2CB_MASK).
  set (cb := Z.land (Z.shiftr (u32 (id1_in i)) ID1_NUMCB_SHIFT)
               ID1_NUMCB_MASK).
  assert (Hs2 : 0 <= s2 < 2 ^ 8) by (apply (field_range _ _ 8); lia).
  assert (Hcb : 0 <= cb < 2 ^ 8) by (apply (field_range _ _ 8); lia).
  clearbody s2 cb.
  destruct (cb <? s2) eqn:E; [discriminate|]. apply Z.ltb_ge in E.
  intros [= <- _]. cbn. repeat split; try lia.
  destruct (has _ ID1_PAGESIZE); auto.
Qed.

Lemma probe_id1_fail (smmu d : probe_dev) (i : probe_in) (r : Z)
  (t : list event) :
  probe_id1 smmu i = inl (r, d, t) -> r = - ENODEV.
Proof.
  unfold probe_id1.
  match goal with |- context [?a <? ?b] => destruct (a <? b) end;
    [|discriminate].
  intros [= <- _ _]. reflexivity.
Qed.

Lemma probe_id2_ok (smmu : probe_dev) (i : probe_in) :
  let d := (probe_id2 smmu i).1 in
  32 <= ipa_size d <= 48 /\ 32 <= pa_size d <= 48 /\
  (version smmu = ARM_SMMU_V1 -> va_size d = ipa_size d) /\
  (version smmu <> ARM_SMMU_V1 -> 32 <= va_size d <= 39) /\
  (forall n, Z.testbit (pgsize_bitmap d) n = true ->
             Z.testbit (pgsize_bitmap smmu) n = true) /\
  features d = features smmu /\
  num_mapping_groups d = num_mapping_groups smmu /\
  num_context_banks d = num_context_banks smmu /\
  num_s2_context_banks d = num_s2_context_banks smmu /\
  pgshift d = pgshift smmu /\
  version d = version smmu /\ options d = options smmu.
Proof.
  unfold probe_id2.
  pose proof (id_size_bits (Z.land (Z.shiftr (u32 (id2_in i)) ID2_IAS_SHIFT)
                              ID2_IAS_MASK)) as Hipa.
  pose proof (id_size_bits (Z.land (Z.shiftr (u32 (id2_in i)) ID2_OAS_SHIFT)
                              ID2_OAS_MASK)) as Hpa.
  pose proof (id_size_bits (Z.land (Z.shiftr (u32 (id2_in i)) ID2_UBS_SHIFT)
                              ID2_UBS_MASK)) as Hva.
  destruct (version smmu =? ARM_SMMU_V1) eqn:Ever; cbn.
  - apply Z.eqb_eq in Ever. repeat split; try lia.
    intros n Hn. rewrite Z.land_spec in Hn.
    apply andb_true_iff in Hn as [Hn _]. exact Hn.
  - apply Z.eqb_neq in Ever. repeat split; try lia.
    intros n Hn. rewrite Z.land_spec in Hn.
    apply andb_true_iff in Hn as [Hn _]. exact Hn.
Qed.

(** What a successful probe establishes.  The only failure is -ENODEV; when
    the secure monitor refuses to restore the configuration of a static
    device the probe stops there, with the device as it was and no register
    written.  After success the device translates at stage 1 or stage 2; the number
    of stage-2 banks is at most the number of context banks, which is at
    most 255; the page shift is 12 or 16; the address sizes are between 32
    and 48 bits, the input size being capped at 39 on hardware newer than
    version 1 and equal to the intermediate size on version 1; a
    stream-matching device has between 1 and 255 mapping groups, any other
    at most 15; and the page-size bitmap of the driver only loses bits. *)
Theorem cfg_probe_invariants (smmu : probe_dev) (i : probe_in) :
  0 <= features smmu < 2 ^ 32 ->
  let r := arm_smmu_device_cfg_probe smmu i in
  let d := r.1.2 in
  (r.1.1 = 0 \/ r.1.1 = - ENODEV) /\
  ((arm_smmu_restore_sec_cfg smmu i).1 <> 0 ->
   r.1.1 = - ENODEV /\ d = smmu /\
   forall e, e ∈ r.2 -> e = ScmRestoreSecCfg \/ exists m, e = DevErr m) /\
  (r.1.1 = 0 ->
   has (features d) (Z.lor Alloc.ARM_SMMU_FEAT_TRANS_S1
                       Alloc.ARM_SMMU_FEAT_TRANS_S2) = true /\
   0 <= num_s2_context_banks d <= num_context_banks d /\
   num_context_banks d <= 255 /\
   (pgshift d = 12 \/ pgshift d = 16) /\
   32 <= ipa_size d <= 48 /\ 32 <= pa_size d <= 48 /\
   (version smmu = ARM_SMMU_V1 -> va_size d = ipa_size d) /\
   (version smmu <> ARM_SMMU_V1 -> 32 <= va_size d <= 39) /\
   (has (u32 (id0_in i)) ID0_SMS = true ->
    has (features d) Smr.ARM_SMMU_FEAT_STREAM_MATCH = true /\
    1 <= num_mapping_groups d <= 255) /\
   (has (u32 (id0_in i)) ID0_SMS = false ->
    0 <= num_mapping_groups d <= 15) /\
   (forall n, Z.testbit (pgsize_bitmap d) n = true ->
              Z.testbit (pgsize_bitmap smmu) n = true) /\
   version d = version smmu /\ options d = options smmu).
Proof.
  intros Hf r d. subst d r. unfold arm_smmu_device_cfg_probe.
  destruct (arm_smmu_restore_sec_cfg smmu i) as [ret t0] eqn:Er.
  cbn [fst snd].
  destruct (ret =? 0) eqn:Es; cbn [negb].
  2: { cbn [fst snd]. split; [right; reflexivity|].
       split; [|discriminate]. intros _.
       split; [reflexivity|]. split; [reflexivity|].
       revert Er. unfold arm_smmu_restore_sec_cfg.
       destruct (negb (has _ _)); [intros [= <- <-]; discriminate|].
       destruct (negb (scm_restore_ret i =? 0)); intros [= <- <-];
         [|discriminate].
       intros e He. rewrite !elem_of_cons in He.
       destruct He as [->|[->|He]]; [left; reflexivity|right; eauto|].
       apply not_elem_of_nil in He. contradiction. }
  apply Z.eqb_eq in Es.
  destruct (probe_id0 smmu i) as [[[r0 d0] t0']|[smmu1 t1]] eqn:E0.
  { apply probe_id0_fail in E0. subst r0. cbn [fst snd].
    split; [right; reflexivity|]. split; [intros H; contradiction|].
    discriminate. }
  destruct (probe_id0_ok smmu smmu1 i t1 Hf E0)
    as (Hst & Hon & Hoff & Hv1 & Ho1 & Hp1).
  destruct (probe_id1 smmu1 i) as [[[r1 d1] t2]|[smmu2 t2]] eqn:E1.
  { apply probe_id1_fail in E1. subst r1. cbn [fst snd].
    split; [right; reflexivity|]. split; [intros H; contradiction|].
    discriminate. }
  destruct (probe_id1_ok smmu1 smmu2 i t2 E1)
    as (Hb1 & Hb2 & Hps & Hf2 & Hg2 & Hv2 & Ho2 & Hp2).
  pose proof (probe_id2_ok smmu2 i) as H2. cbv zeta in H2.
  destruct (probe_id2 smmu2 i) as [smmu3 t3]. cbn [fst snd] in *.
  destruct H2 as (Hipa & Hpa & Hva1 & Hva2 & Hpg & Hf3 & Hg3 & Hc3 & Hs3
                  & Hsh3 & Hv3 & Ho3).
  split; [left; reflexivity|]. split; [intros H; contradiction|].
  intros _. rewrite Hf3, Hg3, Hc3, Hs3, Hsh3, Hv3, Ho3, Hf2, Hg2, Hv2, Ho2.
  split; [exact Hst|]. split; [exact Hb1|]. split; [exact Hb2|].
  split; [exact Hps|]. split; [exact Hipa|]. split; [exact Hpa|].
  split; [intros H; apply Hva1; congruence|].
  split; [intros H; apply Hva2; congruence|].
  split; [exact Hon|]. split; [exact Hoff|].
  split; [intros n Hn; rewrite <- Hp1, <- Hp2; apply Hpg; exact Hn|].
  split; [exact Hv1|exact Ho1].
Qed.

(** An SMMUv2 with stage 1, stream matching over 128 groups, 8 context
    banks and a 49-bit upstream bus. *)
Definition probe_in0 : probe_in :=
  {| id0_in := 0x48000080; id1_in := 0x00000008; id2_in := 0x00001555;
     smr0_in := 0x7fff7fff; force_stage := 0; cttw_dt := false;
     scm_restore_ret := 0; dma_set_mask_ret := 0 |}.

Definition probe_dev0 : probe_dev :=
  {| version := ARM_SMMU_V2; options := 0; features := 0; size := 0x20000;
     num_mapping_groups := 0; pgshift := 0; num_s2_context_banks := 0;
     num_context_banks := 0; ipa_size := 0; pa_size := 0; va_size := 0;
     ubs := 0; pgsize_bitmap := u64 (-1) |}.

Lemma cfg_probe_invariants_witness :
  (arm_smmu_device_cfg_probe probe_dev0 probe_in0).1.1 = 0 /\
  32 <= va_size (arm_smmu_device_cfg_probe probe_dev0 probe_in0).1.2 <= 39.
Proof.
  destruct (cfg_probe_invariants probe_dev0 probe_in0
              ltac:(vm_compute; split; [discriminate|reflexivity]))
    as (_ & _ & H).
  split; [reflexivity|].
  destruct (H eq_refl) as (_ & _ & _ & _ & _ & _ & _ & Hva & _).
  apply Hva. vm_compute. discriminate.
Defined.

Example cfg_probe_of_probe_in0 :
  (arm_smmu_device_cfg_probe probe_dev0 probe_in0).1.2
  = {| version := ARM_SMMU_V2; options := 0; features := 38; size := 0x20000;
       num_mapping_groups := 128; pgshift := 12; num_s2_context_banks := 0;
       num_context_banks := 8; ipa_size := 48; pa_size := 48; va_size := 39;
       ubs := 5; pgsize_bitmap := 0x40201000 |}.
Proof. vm_compute. reflexivity. Qed.

End Probe.


(** ** Domain attributes *)

Module Attr.

(** The enumerators of [enum iommu_attr] that the driver names;
    [DOMAIN_ATTR_OTHER] stands for every other one (the [default] of both
    switches). *)
Inductive iommu_attr :=
| DOMAIN_ATTR_GEOMETRY
| DOMAIN_ATTR_NESTING
| DOMAIN_ATTR_PT_BASE_ADDR
| DOMAIN_ATTR_SECURE_VMID
| DOMAIN_ATTR_ATOMIC
| DOMAIN_ATTR_CONTEXT_BANK
| DOMAIN_ATTR_TTBR0
| DOMAIN_ATTR_CONTEXTIDR
| DOMAIN_ATTR_PROCID
| DOMAIN_ATTR_DYNAMIC
| DOMAIN_ATTR_NON_FATAL_FAULTS
| DOMAIN_ATTR_S1_BYPASS
| DOMAIN_ATTR_FAST
| DOMAIN_ATTR_PGTBL_INFO
| DOMAIN_ATTR_EARLY_MAP
| DOMAIN_ATTR_PAGE_TABLE_IS_COHERENT
| DOMAIN_ATTR_PAGE_TABLE_FORCE_COHERENT
| DOMAIN_ATTR_ENABLE_TTBR1
| DOMAIN_ATTR_CB_STALL_DISABLE
| DOMAIN_ATTR_OTHER.

Global Instance iommu_attr_eq_dec : EqDecision iommu_attr.
Proof. solve_decision. Defined.

(** The device a domain is attached to, as far as the attributes look at
    it: [dev_dma_coherent] is [dev->archdata.dma_coherent], [None] when
    [dev] is NULL. *)
Record attr_device := {
  dev_dma_coherent : option bool;
  clk : Power.clk_cfg
}.

(** The fields of [struct arm_smmu_domain] and of its [struct
    iommu_domain] that the attributes read and write.  [ttbr0] is
    [pgtbl_cfg.arm_lpae_s1_cfg.ttbr[0]] and [pmds] is
    [pgtbl_cfg.av8l_fast_cfg.pmds]; neither is written here.
    [init_mutex] is [true] while the mutex is held. *)
Record attr_domain := {
  smmu : option attr_device;
  stage : Z;
  secure_vmid : Z;
  attributes : Z;
  non_fatal_faults : bool;
  cbndx : Z;
  cbar : Z;
  procid : Z;
  asid : Z;
  ttbr0 : Z;
  pmds : Z;
  aperture_start : Z;
  aperture_end : Z;
  init_mutex : bool
}.

(** What [data] points to: the 32-bit word that the scalar attributes
    read, and the [aperture_start] and [aperture_end] of the [struct
    iommu_domain_geometry] that DOMAIN_ATTR_GEOMETRY reads. *)
Record attr_arg := {
  word : Z;
  geo_start : Z;
  geo_end : Z
}.

Definition set_smmu_stage (d : attr_domain) (v : Z) : attr_domain :=
  {| smmu := smmu d; stage := v; secure_vmid := secure_vmid d;
     attributes := attributes d; non_fatal_faults := non_fatal_faults d;
     cbndx := cbndx d; cbar := cbar d; procid := procid d; asid := asid d;
     ttbr0 := ttbr0 d; pmds := pmds d; aperture_start := aperture_start d;
     aperture_end := aperture_end d; init_mutex := init_mutex d |}.

Definition set_secure_vmid (d : attr_domain) (v : Z) : attr_domain :=
  {| smmu := smmu d; stage := stage d; secure_vmid := v;
     attributes := attributes d; non_fatal_faults := non_fatal_faults d;
     cbndx := cbndx d; cbar := cbar d; procid := procid d; asid := asid d;
     ttbr0 := ttbr0 d; pmds := pmds d; aperture_start := aperture_start d;
     aperture_end := aperture_end d; init_mutex := init_mutex d |}.

Definition set_attributes (d : attr_domain) (v : Z) : attr_domain :=
  {| smmu := smmu d; stage := stage d; secure_vmid := secure_vmid d;
     attributes := v; non_fatal_faults := non_fatal_faults d;
     cbndx := cbndx d; cbar := cbar d; procid := procid d; asid := asid d;
     ttbr0 := ttbr0 d; pmds := pmds d; aperture_start := aperture_start d;
     aperture_end := aperture_end d; init_mutex := init_mutex d |}.

Definition set_non_fatal_faults (d : attr_domain) (v : bool) : attr_domain :=
  {| smmu := smmu d; stage := stage d; secure_vmid := secure_vmid d;
     attributes := attributes d; non_fatal_faults := v;
     cbndx := cbndx d; cbar := cbar d; procid := procid d; asid := asid d;
     ttbr0 := ttbr0 d; pmds := pmds d; aperture_start := aperture_start d;
     aperture_end := aperture_end d; init_mutex := init_mutex d |}.

Definition set_cbndx (d : attr_domain) (v : Z) : attr_domain :=
  {| smmu := smmu d; stage := stage d; secure_vmid := secure_vmid d;
     attributes := attributes d; non_fatal_faults := non_fatal_faults d;
     cbndx := v; cbar := cbar d; procid := procid d; asid := asid d;
     ttbr0 := ttbr0 d; pmds := pmds d; aperture_start := aperture_start d;
     aperture_end := aperture_end d; init_mutex := init_mutex d |}.

Definition set_procid (d : attr_domain) (v : Z) : attr_domain :=
  {| smmu := smmu d; stage := stage d; secure_vmid := secure_vmid d;
     attributes := attributes d; non_fatal_faults := non_fatal_faults d;
     cbndx := cbndx d; cbar := cbar d; procid := v; asid := asid d;
     ttbr0 := ttbr0 d; pmds := pmds d; aperture_start := aperture_start d;
     aperture_end := aperture_end d; init_mutex := init_mutex d |}.

Definition set_aperture (d : attr_domain) (s e : Z) : attr_domain :=
  {| smmu := smmu d; stage := stage d; secure_vmid := secure_vmid d;
     attributes := attributes d; non_fatal_faults := non_fatal_faults d;
     cbndx := cbndx d; cbar := cbar d; procid := procid d; asid := asid d;
     ttbr0 := ttbr0 d; pmds := pmds d; aperture_start := s;
     aperture_end := e; init_mutex := init_mutex d |}.

Definition set_init_mutex (d : attr_domain) (v : bool) : attr_domain :=
  {| smmu := smmu d; stage := stage d; secure_vmid := secure_vmid d;
     attributes := attributes d; non_fatal_faults := non_fatal_faults d;
     cbndx := cbndx d; cbar := cbar d; procid := procid d; asid := asid d;
     ttbr0 := ttbr0 d; pmds := pmds d; aperture_start := aperture_start d;
     aperture_end := aperture_end d; init_mutex := v |}.

Definition mutex_lock (d : attr_domain) : attr_domain := set_init_mutex d true.
Definition mutex_unlock (d : attr_domain) : attr_domain :=
  set_init_mutex d false.

Definition attached (d : attr_domain) : bool :=
  match smmu d with Some _ => true | None => false end.

Definition nonzero (data : attr_arg) : bool := negb (u32 (word data) =? 0).

(** [arm_smmu_enable_s1_translations] on the bank [cb] of the device. *)
Definition arm_smmu_enable_s1_translations (dev : attr_device)
  (env : Power.penv) (cb : Z) (g : Power.gate) (h : PM.hw)
  : Z * Power.gate * PM.hw * list PM.access :=
  let '(ret, g1, _) := Power.arm_smmu_enable_clocks (clk dev) env g in
  if negb (ret =? 0) then (ret, g1, h, [])
  else
    let reg := PM.readl_relaxed h (CB cb) ARM_SMMU_CB_SCTLR in
    let reg := Z.lor reg Ctx.SCTLR_M in
    let e := Writel (CB cb) ARM_SMMU_CB_SCTLR (u32 reg) in
    let '(_, g2, _) := Power.arm_smmu_disable_clocks (clk dev) env g1 in
    (ret, g2, PM.apply h e, [PM.Readl (CB cb) ARM_SMMU_CB_SCTLR; PM.Sent e]).

Section Numbered.

(** The value of each enumerator in [enum iommu_attr], which is declared
    outside this driver. *)
Variable nr : iommu_attr -> Z.

Definition attr_bit (a : iommu_attr) : Z := Z.shiftl 1 (nr a).

Definition attr_set (d : attr_domain) (a : iommu_attr) : bool :=
  has (attributes d) (attr_bit a).

(** [attributes |= 1 << a] and [attributes &= ~(1 << a)]. *)
Definition or_attr (d : attr_domain) (a : iommu_attr) : attr_domain :=
  set_attributes d (u32 (Z.lor (attributes d) (attr_bit a))).

Definition clear_attr (d : attr_domain) (a : iommu_attr) : attr_domain :=
  set_attributes d (u32 (Z.land (attributes d) (Z.lnot (attr_bit a)))).

(** [is_iommu_pt_coherent]. *)
Definition is_iommu_pt_coherent (d : attr_domain) : bool :=
  if attr_set d DOMAIN_ATTR_PAGE_TABLE_FORCE_COHERENT then true
  else match smmu d with
       | Some dev => match dev_dma_coherent dev with
                     | Some c => c
                     | None => false
                     end
       | None => false
       end.

(** [arm_smmu_domain_get_attr]: the return value, what is stored through
    [data] ([None] when nothing is), and the domain, of which only the
    mutex changes. *)
Definition arm_smmu_domain_get_attr (d : attr_domain) (attr : iommu_attr)
  : Z * option Z * attr_domain :=
  let d1 := mutex_lock d in
  let flag a := (0, Some (Z.b2z (attr_set d1 a)), mutex_unlock d1) in
  match attr with
  | DOMAIN_ATTR_NESTING =>
      (0, Some (Z.b2z (stage d1 =? Alloc.ARM_SMMU_DOMAIN_NESTED)),
       mutex_unlock d1)
  | DOMAIN_ATTR_SECURE_VMID => (0, Some (secure_vmid d1), mutex_unlock d1)
  | DOMAIN_ATTR_PT_BASE_ADDR => (0, Some (ttbr0 d1), mutex_unlock d1)
  | DOMAIN_ATTR_CONTEXT_BANK =>
      if negb (attached d1) then (- ENODEV, None, d1)
      else (0, Some (cbndx d1), mutex_unlock d1)
  | DOMAIN_ATTR_TTBR0 =>
      if negb (attached d1) then (- ENODEV, None, d1)
      else
        let val := ttbr0 d1 in
        let val := if negb (cbar d1 =? CBAR_TYPE_S2_TRANS)
                   then u64 (Z.lor val
                               (u64 (Z.shiftl (asid d1) Ctx.TTBRn_ASID_SHIFT)))
                   else val in
        (0, Some val, mutex_unlock d1)
  | DOMAIN_ATTR_CONTEXTIDR =>
      if negb (attached d1) then (- ENODEV, None, d1)
      else (0, Some (procid d1), mutex_unlock d1)
  | DOMAIN_ATTR_PROCID => (0, Some (procid d1), mutex_unlock d1)
  | DOMAIN_ATTR_DYNAMIC => flag DOMAIN_ATTR_DYNAMIC
  | DOMAIN_ATTR_NON_FATAL_FAULTS => flag DOMAIN_ATTR_NON_FATAL_FAULTS
  | DOMAIN_ATTR_S1_BYPASS => flag DOMAIN_ATTR_S1_BYPASS
  | DOMAIN_ATTR_FAST => flag DOMAIN_ATTR_FAST
  | DOMAIN_ATTR_PGTBL_INFO =>
      if negb (attr_set d1 DOMAIN_ATTR_FAST)
      then (- ENODEV, None, mutex_unlock d1)
      else (0, Some (pmds d1), mutex_unlock d1)
  | DOMAIN_ATTR_EARLY_MAP => flag DOMAIN_ATTR_EARLY_MAP
  | DOMAIN_ATTR_PAGE_TABLE_IS_COHERENT =>
      if negb (attached d1) then (- ENODEV, None, d1)
      else (0, Some (Z.b2z (is_iommu_pt_coherent d1)), mutex_unlock d1)
  | DOMAIN_ATTR_PAGE_TABLE_FORCE_COHERENT =>
      flag DOMAIN_ATTR_PAGE_TABLE_FORCE_COHERENT
  | DOMAIN_ATTR_ENABLE_TTBR1 => flag DOMAIN_ATTR_ENABLE_TTBR1
  | DOMAIN_ATTR_CB_STALL_DISABLE => flag DOMAIN_ATTR_CB_STALL_DISABLE
  | _ => (- ENODEV, None, mutex_unlock d1)
  end.

(** [arm_smmu_domain_set_attr]; [g] is the gate of the device and [h] the
    register file, which only the clearing of DOMAIN_ATTR_EARLY_MAP on an
    attached domain uses. *)
Definition arm_smmu_domain_set_attr (env : Power.penv) (d : attr_domain)
  (attr : iommu_attr) (data : attr_arg) (g : Power.gate) (h : PM.hw)
  : Secure.outcome * attr_domain * Power.gate * PM.hw * list PM.access :=
  let d1 := mutex_lock d in
  let out (ret : Z) (d2 : attr_domain) (t : list PM.access) :=
    (Secure.Returned ret, mutex_unlock d2, g, h, t) in
  match attr with
  | DOMAIN_ATTR_NESTING =>
      if attached d1 then out (- EPERM) d1 []
      else out 0 (set_smmu_stage d1
                    (if nonzero data then Alloc.ARM_SMMU_DOMAIN_NESTED
                     else Alloc.ARM_SMMU_DOMAIN_S1)) []
  | DOMAIN_ATTR_SECURE_VMID =>
      if negb (secure_vmid d1 =? u32 Secure.VMID_INVAL)
      then (Secure.Bug, d1, g, h, [])
      else out 0 (set_secure_vmid d1 (u32 (word data))) []
  | DOMAIN_ATTR_ATOMIC =>
      out 0 (if nonzero data then or_attr d1 DOMAIN_ATTR_ATOMIC
             else clear_attr d1 DOMAIN_ATTR_ATOMIC) []
  | DOMAIN_ATTR_PROCID =>
      if attached d1
      then out (- EBUSY) d1
             [PM.Sent (DevErr "cannot change procid attribute while attached")]
      else out 0 (set_procid d1 (u32 (word data))) []
  | DOMAIN_ATTR_DYNAMIC =>
      if attached d1
      then out (- EBUSY) d1
             [PM.Sent (DevErr "cannot change dynamic attribute while attached")]
      else out 0 (if nonzero data then or_attr d1 DOMAIN_ATTR_DYNAMIC
                  else clear_attr d1 DOMAIN_ATTR_DYNAMIC) []
  | DOMAIN_ATTR_CONTEXT_BANK =>
      if attached d1 then out (- EBUSY) d1 []
      else if negb (attr_set d1 DOMAIN_ATTR_DYNAMIC) then out (- EINVAL) d1 []
      else out 0 (set_cbndx d1 (u8 (word data))) []
  | DOMAIN_ATTR_NON_FATAL_FAULTS =>
      out 0 (set_non_fatal_faults d1 (nonzero data)) []
  | DOMAIN_ATTR_S1_BYPASS =>
      out 0 (if nonzero data then or_attr d1 DOMAIN_ATTR_S1_BYPASS
             else clear_attr d1 DOMAIN_ATTR_S1_BYPASS) []
  | DOMAIN_ATTR_FAST =>
      out 0 (if nonzero data then or_attr d1 DOMAIN_ATTR_FAST else d1) []
  | DOMAIN_ATTR_EARLY_MAP =>
      if nonzero data then out 0 (or_attr d1 DOMAIN_ATTR_EARLY_MAP) []
      else
        match smmu d1 with
        | Some dev =>
            let '(ret, g1, h1, t) :=
              arm_smmu_enable_s1_translations dev env (cbndx d1) g h in
            (Secure.Returned ret,
             mutex_unlock (if ret =? 0
                           then clear_attr d1 DOMAIN_ATTR_EARLY_MAP else d1),
             g1, h1, t)
        | None => out 0 (clear_attr d1 DOMAIN_ATTR_EARLY_MAP) []
        end
  | DOMAIN_ATTR_PAGE_TABLE_FORCE_COHERENT =>
      if attached d1
      then out (- EBUSY) d1
             [PM.Sent
                (DevErr "cannot change force coherent attribute while attached")]
      else out 0 (if nonzero data
                  then or_attr d1 DOMAIN_ATTR_PAGE_TABLE_FORCE_COHERENT
                  else clear_attr d1 DOMAIN_ATTR_PAGE_TABLE_FORCE_COHERENT) []
  | DOMAIN_ATTR_ENABLE_TTBR1 =>
      out 0 (if nonzero data then or_attr d1 DOMAIN_ATTR_ENABLE_TTBR1
             else d1) []
  | DOMAIN_ATTR_GEOMETRY =>
      let s := u64 (geo_start data) in
      let e := u64 (geo_end data) in
      if attached d1
      then out (- EBUSY) d1
             [PM.Sent (DevErr "cannot set geometry attribute while attached")]
      else if (Probe.SZ_1G * 4 <=? s) || (Probe.SZ_1G * 4 <=? e)
      then out (- EINVAL) d1
             [PM.Sent (DevErr "fastmap does not support IOVAs >= 4GB")]
      else if attr_set d1 DOMAIN_ATTR_GEOMETRY
      then out 0 (set_aperture d1
                    (if s <? aperture_start d1 then s else aperture_start d1)
                    (if aperture_end d1 <? e then e else aperture_end d1)) []
      else out 0 (set_aperture (or_attr d1 DOMAIN_ATTR_GEOMETRY) s e) []
  | DOMAIN_ATTR_CB_STALL_DISABLE =>
      out 0 (if nonzero data then or_attr d1 DOMAIN_ATTR_CB_STALL_DISABLE
             else d1) []
  | _ => out (- ENODEV) d1 []
  end.

(** The attributes that [arm_smmu_domain_set_attr] switches on and off and
    [arm_smmu_domain_get_attr] reports, and those it only switches on. *)
Definition toggles (a : iommu_attr) : bool :=
  match a with
  | DOMAIN_ATTR_DYNAMIC | DOMAIN_ATTR_S1_BYPASS
  | DOMAIN_ATTR_PAGE_TABLE_FORCE_COHERENT => true
  | _ => false
  end.

Definition sticky (a : iommu_attr) : bool :=
  match a with
  | DOMAIN_ATTR_FAST | DOMAIN_ATTR_ENABLE_TTBR1
  | DOMAIN_ATTR_CB_STALL_DISABLE => true
  | _ => false
  end.

(** The attributes that [arm_smmu_domain_set_attr] refuses on an attached
    domain, and those [arm_smmu_domain_get_attr] refuses on a detached
    one. *)
Definition needs_detached (a : iommu_attr) : bool :=
  match a with
  | DOMAIN_ATTR_NESTING | DOMAIN_ATTR_PROCID | DOMAIN_ATTR_DYNAMIC
  | DOMAIN_ATTR_CONTEXT_BANK | DOMAIN_ATTR_PAGE_TABLE_FORCE_COHERENT
  | DOMAIN_ATTR_GEOMETRY => true
  | _ => false
  end.

Definition needs_attached (a : iommu_attr) : bool :=
  match a with
  | DOMAIN_ATTR_CONTEXT_BANK | DOMAIN_ATTR_TTBR0 | DOMAIN_ATTR_CONTEXTIDR
  | DOMAIN_ATTR_PAGE_TABLE_IS_COHERENT => true
  | _ => false
  end.

(** A run of DOMAIN_ATTR_GEOMETRY requests, each given as start and
    end. *)
Definition set_geometry (env : Power.penv) (g : Power.gate) (h : PM.hw)
  (d : attr_domain) (q : Z * Z) : attr_domain :=
  (arm_smmu_domain_set_attr env d DOMAIN_ATTR_GEOMETRY
     {| word := 0; geo_start := q.1; geo_end := q.2 |} g h).1.1.1.2.

Definition accepted (q : Z * Z) : Prop :=
  u64 q.1 < Probe.SZ_1G * 4 /\ u64 q.2 < Probe.SZ_1G * 4.

Lemma has_attr_bit (x n : Z) :
  0 <= n -> has x (Z.shiftl 1 n) = Z.testbit x n.
Proof.
  intros Hn. unfold has. rewrite Z.shiftl_1_l.
  destruct (Z.testbit x n) eqn:E.
  - apply negb_true_iff, Z.eqb_neq. intros H0.
    assert (Hb : Z.testbit (Z.land x (2 ^ n)) n = true)
      by (rewrite Z.land_spec, E, Z.pow2_bits_true by lia; reflexivity).
    rewrite H0, Z.bits_0 in Hb. discriminate.
  - apply negb_false_iff, Z.eqb_eq. apply Z.bits_inj'. intros m Hm.
    rewrite Z.land_spec, Z.bits_0, Z.pow2_bits_eqb by lia.
    destruct (Z.eqb_spec n m) as [->|Hne]; [rewrite E; reflexivity|].
    apply andb_false_r.
Qed.

Lemma attr_set_testbit (d : attr_domain) (a : iommu_attr) :
  0 <= nr a -> attr_set d a = Z.testbit (attributes d) (nr a).
Proof. intros H. unfold attr_set, attr_bit. apply has_attr_bit. exact H. Qed.

Lemma or_attr_bits (d : attr_domain) (a : iommu_attr) (n : Z) :
  0 <= nr a -> 0 <= n < 32 ->
  Z.testbit (attributes (or_attr d a)) n
  = Z.testbit (attributes d) n || (n =? nr a).
Proof.
  intros Ha Hn. unfold or_attr, attr_bit. cbn [attributes set_attributes].
  rewrite Bits.testbit_u32.
  replace (n <? 32) with true by (symmetry; apply Z.ltb_lt; lia).
  rewrite Z.shiftl_1_l, Z.lor_spec, Z.pow2_bits_eqb by lia.
  cbn [andb]. rewrite (Z.eqb_sym (nr a) n). reflexivity.
Qed.

Lemma clear_attr_bits (d : attr_domain) (a : iommu_attr) (n : Z) :
  0 <= nr a -> 0 <= n < 32 ->
  Z.testbit (attributes (clear_attr d a)) n
  = Z.testbit (attributes d) n && negb (n =? nr a).
Proof.
  intros Ha Hn. unfold clear_attr, attr_bit. cbn [attributes set_attributes].
  rewrite Bits.testbit_u32.
  replace (n <? 32) with true by (symmetry; apply Z.ltb_lt; lia).
  rewrite Z.shiftl_1_l, Z.land_spec, Z.lnot_spec, Z.pow2_bits_eqb by lia.
  cbn [andb]. rewrite (Z.eqb_sym (nr a) n). reflexivity.
Qed.

Lemma unlock_lock (d : attr_domain) :
  init_mutex d = false -> mutex_unlock (mutex_lock d) = d.
Proof. intros H. destruct d. cbn in *. subst. reflexivity. Qed.

(** Setting a flag and reading it back.  For DOMAIN_ATTR_DYNAMIC,
    DOMAIN_ATTR_S1_BYPASS and DOMAIN_ATTR_PAGE_TABLE_FORCE_COHERENT (the
    first and the last on a detached domain) the value read back is whether
    the value set was non-zero; DOMAIN_ATTR_FAST, DOMAIN_ATTR_ENABLE_TTBR1
    and DOMAIN_ATTR_CB_STALL_DISABLE can be switched on but not off: the
    value read back is 1 when the flag was on or the value set is non-zero.
    The call returns 0 with the mutex released, touches neither gate nor
    hardware, and changes the bit of no other attribute. *)
Theorem flag_set_then_get (env : Power.penv) (d : attr_domain)
  (a : iommu_attr) (data : attr_arg) (g : Power.gate) (h : PM.hw) :
  (forall x, 0 <= nr x < 31) ->
  (forall x y, nr x = nr y -> x = y) ->
  init_mutex d = false ->
  toggles a || sticky a = true ->
  (a = DOMAIN_ATTR_DYNAMIC \/ a = DOMAIN_ATTR_PAGE_TABLE_FORCE_COHERENT ->
   smmu d = None) ->
  let s := arm_smmu_domain_set_attr env d a data g h in
  let d' := s.1.1.1.2 in
  s.1.1.1.1 = Secure.Returned 0 /\ s.1.1.2 = g /\ s.1.2 = h /\ s.2 = [] /\
  init_mutex d' = false /\
  arm_smmu_domain_get_attr d' a
  = (0,
     Some (Z.b2z (if toggles a then nonzero data
                  else attr_set d a || nonzero data)),
     d') /\
  forall b, b <> a -> attr_set d' b = attr_set d b.
Proof.
  intros Hr Hinj Hm Ha Hdet s d'. subst d' s.
  assert (Hr' : forall x, 0 <= nr x < 32)
    by (intros x; specialize (Hr x); lia).
  clear Hr; rename Hr' into Hr.
  assert (Hbit : forall d0 b, attr_set d0 b = Z.testbit (attributes d0) (nr b))
    by (intros d0 b; apply attr_set_testbit; apply Hr).
  assert (Hor : forall d0 b c,
             attr_set (or_attr d0 b) c = attr_set d0 c || bool_decide (c = b)).
  { intros d0 b c. rewrite !Hbit, or_attr_bits by (try apply Hr; lia).
    f_equal. destruct (decide (c = b)) as [->|Hne].
    - rewrite Z.eqb_refl, bool_decide_eq_true_2; reflexivity.
    - rewrite bool_decide_eq_false_2 by exact Hne.
      apply Z.eqb_neq. intros He. apply Hne, Hinj, He. }
  assert (Hcl : forall d0 b c,
             attr_set (clear_attr d0 b) c
             = attr_set d0 c && negb (bool_decide (c = b))).
  { intros d0 b c. rewrite !Hbit, clear_attr_bits by (try apply Hr; lia).
    f_equal. f_equal. destruct (decide (c = b)) as [->|Hne].
    - rewrite Z.eqb_refl, bool_decide_eq_true_2; reflexivity.
    - rewrite bool_decide_eq_false_2 by exact Hne.
      apply Z.eqb_neq. intros He. apply Hne, Hinj, He. }
  assert (Hdetached : a = DOMAIN_ATTR_DYNAMIC
                      \/ a = DOMAIN_ATTR_PAGE_TABLE_FORCE_COHERENT ->
                      attached (mutex_lock d) = false).
  { intros Hx. unfold attached. cbn. rewrite (Hdet Hx). reflexivity. }
  assert (Hul : forall d0, attr_set (mutex_unlock d0) = attr_set d0)
    by reflexivity.
  assert (Hlk : forall d0, attr_set (mutex_lock d0) = attr_set d0)
    by reflexivity.
  assert (Hidem : forall d0, mutex_unlock (mutex_lock (mutex_unlock d0))
                             = mutex_unlock d0) by reflexivity.
  destruct a; try discriminate Ha;
    unfold arm_smmu_domain_set_attr, arm_smmu_domain_get_attr;
    cbn [toggles sticky];
    rewrite ?Hdetached by auto; cbn [fst snd];
    destruct (nonzero data);
    (split; [reflexivity|]); (split; [reflexivity|]);
    (split; [reflexivity|]); (split; [reflexivity|]);
    (split; [reflexivity|]);
    rewrite ?Hidem, ?Hlk, ?Hul, ?Hor, ?Hcl, ?Hlk, ?Hul;
    rewrite ?bool_decide_eq_true_2 by reflexivity;
    cbn [negb]; rewrite ?orb_true_r, ?andb_false_r, ?orb_false_r;
    (split; [reflexivity|]);
    intros b Hb; rewrite ?Hul, ?Hor, ?Hcl, ?Hlk, ?Hul;
    rewrite ?bool_decide_eq_false_2 by exact Hb;
    cbn [negb]; rewrite ?orb_false_r, ?andb_true_r; reflexivity.
Qed.

(** What an attached domain refuses.  Setting DOMAIN_ATTR_NESTING returns
    -EPERM, and setting DOMAIN_ATTR_PROCID, DOMAIN_ATTR_DYNAMIC,
    DOMAIN_ATTR_CONTEXT_BANK, DOMAIN_ATTR_PAGE_TABLE_FORCE_COHERENT or
    DOMAIN_ATTR_GEOMETRY returns -EBUSY; the domain, the gate and the
    hardware stay as they were and at most a message is logged. *)
Theorem set_attr_refused_while_attached (env : Power.penv) (d : attr_domain)
  (a : iommu_attr) (data : attr_arg) (g : Power.gate) (h : PM.hw) :
  init_mutex d = false ->
  attached d = true ->
  needs_detached a = true ->
  let s := arm_smmu_domain_set_attr env d a data g h in
  s.1.1.1.1 = Secure.Returned
                (if bool_decide (a = DOMAIN_ATTR_NESTING) then - EPERM
                 else - EBUSY) /\
  s.1.1.1.2 = d /\ s.1.1.2 = g /\ s.1.2 = h /\
  forall e, e ∈ s.2 -> exists m, e = PM.Sent (DevErr m).
Proof.
  intros Hm Hat Ha s. subst s.
  assert (Hat' : attached (mutex_lock d) = true) by exact Hat.
  pose proof (unlock_lock d Hm) as Hu.
  destruct a; try discriminate Ha;
    unfold arm_smmu_domain_set_attr; rewrite Hat'; cbn [fst snd];
    rewrite Hu; repeat split; try reflexivity;
    intros e He; try (apply not_elem_of_nil in He; contradiction);
    apply list_elem_of_singleton in He; subst e; eauto.
Qed.

(** [arm_smmu_domain_get_attr] changes nothing of the domain but the
    mutex, and it returns with the mutex still held exactly when the domain
    is detached and the attribute is DOMAIN_ATTR_CONTEXT_BANK,
    DOMAIN_ATTR_TTBR0, DOMAIN_ATTR_CONTEXTIDR or
    DOMAIN_ATTR_PAGE_TABLE_IS_COHERENT: these return -ENODEV from inside
    the switch and store nothing.  An attribute the switch does not name
    gives -ENODEV with the mutex released. *)
Theorem get_attr_mutex (d : attr_domain) (a : iommu_attr) :
  init_mutex d = false ->
  let r := arm_smmu_domain_get_attr d a in
  mutex_unlock r.2 = d /\
  (init_mutex r.2 = true <-> attached d = false /\ needs_attached a = true) /\
  (init_mutex r.2 = true -> r.1.1 = - ENODEV /\ r.1.2 = None) /\
  (a = DOMAIN_ATTR_OTHER \/ a = DOMAIN_ATTR_GEOMETRY
   \/ a = DOMAIN_ATTR_ATOMIC ->
   r = (- ENODEV, None, d)).
Proof.
  intros Hm r. subst r.
  pose proof (unlock_lock d Hm) as Hu.
  assert (Hat : attached (mutex_lock d) = attached d) by reflexivity.
  assert (Hidem : mutex_unlock (mutex_unlock (mutex_lock d)) = d)
    by (rewrite Hu; destruct d; cbn in *; subst; reflexivity).
  assert (Hfree : init_mutex d = true <-> False)
    by (rewrite Hm; split; [discriminate|contradiction]).
  destruct a; unfold arm_smmu_domain_get_attr; rewrite ?Hat;
    cbn [needs_attached];
    try destruct (attached d) eqn:Ead; cbn [negb];
    try destruct (negb (attr_set (mutex_lock d) DOMAIN_ATTR_FAST));
    cbn [fst snd]; rewrite ?Hu, ?Hidem.
  all: split; [try reflexivity; exact Hu|].
  all: split;
    [try (rewrite Hm; split; [discriminate|intros [_ H]; discriminate H]);
     try (rewrite Hm; split; [discriminate|intros [H _]; discriminate H]);
     try (split; [intros _; split; reflexivity|intros _; reflexivity])|].
  all: split;
    [try (rewrite Hm; discriminate);
     try (intros _; split; reflexivity)|].
  all: try (intros [H|[H|H]]; discriminate H).
  all: intros _; reflexivity.
Qed.

Lemma set_geometry_step (env : Power.penv) (g : Power.gate) (h : PM.hw)
  (d : attr_domain) (q : Z * Z) :
  0 <= nr DOMAIN_ATTR_GEOMETRY < 31 ->
  init_mutex d = false -> attached d = false ->
  let d1 := set_geometry env g h d q in
  init_mutex d1 = false /\ attached d1 = false /\
  (accepted q ->
   attr_set d1 DOMAIN_ATTR_GEOMETRY = true /\
   aperture_start d1 <= u64 q.1 /\ u64 q.2 <= aperture_end d1) /\
  (attr_set d DOMAIN_ATTR_GEOMETRY = true ->
   attr_set d1 DOMAIN_ATTR_GEOMETRY = true /\
   aperture_start d1 <= aperture_start d /\
   aperture_end d <= aperture_end d1) /\
  (~ accepted q -> d1 = d).
Proof.
  intros Hr Hm Hat d1. subst d1.
  assert (Hat' : attached (mutex_lock d) = false) by exact Hat.
  pose proof (unlock_lock d Hm) as Hu.
  unfold set_geometry, arm_smmu_domain_set_attr, accepted.
  rewrite Hat'. cbn [geo_start geo_end].
  destruct ((Probe.SZ_1G * 4 <=? u64 q.1) || (Probe.SZ_1G * 4 <=? u64 q.2))
    eqn:Ebig.
  { cbn [fst snd]. rewrite Hu.
    apply orb_true_iff in Ebig.
    rewrite !Z.leb_le in Ebig.
    split; [exact Hm|]. split; [exact Hat|].
    split; [intros [H1 H2]; lia|].
    split; [intros Hs; split; [exact Hs|lia]|]. reflexivity. }
  apply orb_false_iff in Ebig. rewrite !Z.leb_gt in Ebig.
  assert (Hlk : attr_set (mutex_lock d) DOMAIN_ATTR_GEOMETRY
                = attr_set d DOMAIN_ATTR_GEOMETRY) by reflexivity.
  rewrite Hlk.
  destruct (attr_set d DOMAIN_ATTR_GEOMETRY) eqn:Eset; cbn [fst snd].
  - split; [reflexivity|]. split; [exact Hat|].
    assert (Hkeep : attr_set
                      (mutex_unlock
                         (set_aperture (mutex_lock d)
                            (if u64 q.1 <? aperture_start (mutex_lock d)
                             then u64 q.1 else aperture_start (mutex_lock d))
                            (if aperture_end (mutex_lock d) <? u64 q.2
                             then u64 q.2 else aperture_end (mutex_lock d))))
                      DOMAIN_ATTR_GEOMETRY = true) by exact Eset.
    cbn [aperture_start aperture_end mutex_unlock mutex_lock set_aperture
         set_init_mutex].
    destruct (Z.ltb_spec (u64 q.1) (aperture_start d));
      destruct (Z.ltb_spec (aperture_end d) (u64 q.2));
      (split; [intros _; split; [exact Hkeep|lia]|]);
      (split; [intros _; split; [exact Hkeep|lia]|]);
      intros Hn; exfalso; apply Hn; exact Ebig.
  - split; [reflexivity|]. split; [exact Hat|].
    assert (Hnew : attr_set
                     (mutex_unlock
                        (set_aperture
                           (or_attr (mutex_lock d) DOMAIN_ATTR_GEOMETRY)
                           (u64 q.1) (u64 q.2)))
                     DOMAIN_ATTR_GEOMETRY = true).
    { rewrite attr_set_testbit by lia.
      change (Z.testbit (attributes (or_attr d DOMAIN_ATTR_GEOMETRY))
                (nr DOMAIN_ATTR_GEOMETRY) = true).
      rewrite or_attr_bits by lia. rewrite Z.eqb_refl. apply orb_true_r. }
    split; [intros _; split; [exact Hnew|cbn; lia]|].
    split; [discriminate|].
    intros Hn; exfalso; apply Hn; exact Ebig.
Qed.

Lemma set_geometry_widens (env : Power.penv) (g : Power.gate) (h : PM.hw)
  (qs : list (Z * Z)) (d : attr_domain) :
  0 <= nr DOMAIN_ATTR_GEOMETRY < 31 ->
  init_mutex d = false -> attached d = false ->
  attr_set d DOMAIN_ATTR_GEOMETRY = true ->
  let d' := foldl (set_geometry env g h) d qs in
  aperture_start d' <= aperture_start d /\ aperture_end d <= aperture_end d'.
Proof.
  intros Hr. revert d. induction qs as [|q qs IH]; intros d Hm Hat Hs.
  - cbn. lia.
  - cbn [foldl].
    destruct (set_geometry_step env g h d q Hr Hm Hat)
      as (Hm1 & Hat1 & _ & Hw & _).
    destruct (Hw Hs) as (Hs1 & Hlo & Hhi).
    specialize (IH _ Hm1 Hat1 Hs1). cbv zeta in IH. cbv zeta. lia.
Qed.

(** The aperture only grows.  After any run of DOMAIN_ATTR_GEOMETRY
    requests on a detached domain, every request that was accepted (both
    ends below 4G) lies inside the aperture, and so does the aperture the
    domain had before if its geometry had been set; a request with an end
    at or above 4G changes nothing. *)
Theorem geometry_covers_requests (env : Power.penv) (g : Power.gate)
  (h : PM.hw) (qs : list (Z * Z)) (d : attr_domain) :
  0 <= nr DOMAIN_ATTR_GEOMETRY < 31 ->
  init_mutex d = false -> attached d = false ->
  let d' := foldl (set_geometry env g h) d qs in
  (forall q, q ∈ qs -> accepted q ->
             aperture_start d' <= u64 q.1 /\ u64 q.2 <= aperture_end d') /\
  (attr_set d DOMAIN_ATTR_GEOMETRY = true ->
   aperture_start d' <= aperture_start d /\
   aperture_end d <= aperture_end d') /\
  ((forall q, q ∈ qs -> ~ accepted q) -> d' = d).
Proof.
  intros Hr Hm Hat d'. subst d'. split; [|split].
  - revert d Hm Hat. induction qs as [|q0 qs IH]; intros d Hm Hat q Hq Hacc.
    + apply not_elem_of_nil in Hq. contradiction.
    + cbn [foldl].
      destruct (set_geometry_step env g h d q0 Hr Hm Hat)
        as (Hm1 & Hat1 & Hin & _ & _).
      apply elem_of_cons in Hq as [->|Hq].
      * destruct (Hin Hacc) as (Hs1 & Hlo & Hhi).
        pose proof (set_geometry_widens env g h qs _ Hr Hm1 Hat1 Hs1) as Hw.
        cbv zeta in Hw. lia.
      * apply (IH _ Hm1 Hat1 q Hq Hacc).
  - intros Hs. apply (set_geometry_widens env g h qs d Hr Hm Hat Hs).
  - revert d Hm Hat. induction qs as [|q0 qs IH]; intros d Hm Hat Hrej.
    + reflexivity.
    + cbn [foldl].
      destruct (set_geometry_step env g h d q0 Hr Hm Hat)
        as (_ & _ & _ & _ & Hsame).
      rewrite Hsame by (apply Hrej; left).
      apply IH; [exact Hm|exact Hat|].
      intros q Hq. apply Hrej. right. exact Hq.
Qed.

(** Leaving early-map mode.  Clearing DOMAIN_ATTR_EARLY_MAP on an attached
    domain turns stage-1 translation on first: when the clocks cannot be
    enabled the call returns that error, writes no register and the
    attribute stays as it was; otherwise it returns 0, its one write sets
    the M bit of the bank's SCTLR and keeps the other bits, and the
    attribute is cleared.  Either way gate and mutex are as before.  On a
    detached domain the attribute is cleared without any access. *)
Theorem early_map_cleared_after_enable (env : Power.penv) (d : attr_domain)
  (data : attr_arg) (g : Power.gate) (h : PM.hw) :
  0 <= nr DOMAIN_ATTR_EARLY_MAP < 31 ->
  init_mutex d = false ->
  nonzero data = false ->
  (forall dev, smmu d = Some dev -> RegIO.gate_ready (clk dev) env g) ->
  let s := arm_smmu_domain_set_attr env d DOMAIN_ATTR_EARLY_MAP data g h in
  let d' := s.1.1.1.2 in
  let sctlr hw := PM.readl_relaxed hw (CB (cbndx d)) ARM_SMMU_CB_SCTLR in
  s.1.1.2 = g /\ init_mutex d' = false /\
  (forall dev, smmu d = Some dev ->
   let en := (Power.arm_smmu_enable_clocks (clk dev) env g).1.1 in
   s.1.1.1.1 = Secure.Returned en /\
   (en <> 0 -> d' = d /\ s.1.2 = h /\ s.2 = []) /\
   (en = 0 ->
    attr_set d' DOMAIN_ATTR_EARLY_MAP = false /\
    s.2 = [PM.Readl (CB (cbndx d)) ARM_SMMU_CB_SCTLR;
           PM.Sent (Writel (CB (cbndx d)) ARM_SMMU_CB_SCTLR
                      (u32 (Z.lor (sctlr h) Ctx.SCTLR_M)))] /\
    Z.testbit (sctlr s.1.2) 0 = true /\
    (forall n, 0 < n -> Z.testbit (sctlr s.1.2) n = Z.testbit (sctlr h) n) /\
    (forall r off, (r, off) <> (CB (cbndx d), ARM_SMMU_CB_SCTLR) ->
                   PM.readl_relaxed s.1.2 r off = PM.readl_relaxed h r off))) /\
  (smmu d = None ->
   s.1.1.1.1 = Secure.Returned 0 /\ s.1.2 = h /\ s.2 = [] /\
   attr_set d' DOMAIN_ATTR_EARLY_MAP = false).
Proof.
  intros Hr Hm Hz Hready s d' sctlr. subst d' s.
  pose proof (unlock_lock d Hm) as Hu.
  assert (Hclr : attr_set (mutex_unlock
                             (clear_attr (mutex_lock d) DOMAIN_ATTR_EARLY_MAP))
                   DOMAIN_ATTR_EARLY_MAP = false).
  { rewrite attr_set_testbit by lia.
    change (Z.testbit (attributes (clear_attr d DOMAIN_ATTR_EARLY_MAP))
              (nr DOMAIN_ATTR_EARLY_MAP) = false).
    rewrite clear_attr_bits by lia. rewrite Z.eqb_refl. apply andb_false_r. }
  unfold arm_smmu_domain_set_attr. rewrite Hz.
  change (smmu (mutex_lock d)) with (smmu d).
  change (cbndx (mutex_lock d)) with (cbndx d).
  destruct (smmu d) as [dev|] eqn:Es.
  2: { cbn [fst snd]. split; [reflexivity|]. split; [reflexivity|].
       split; [intros dev H; discriminate H|].
       intros _. repeat split; try reflexivity. exact Hclr. }
  specialize (Hready dev eq_refl).
  pose proof (RegIO.clocks_bracket (clk dev) env g Hready) as Hbr.
  cbv zeta in Hbr. destruct Hbr as [Hfail Hok].
  unfold arm_smmu_enable_s1_translations.
  destruct (Power.arm_smmu_enable_clocks (clk dev) env g) as [[en g1] t1]
    eqn:Een.
  cbn [fst snd] in Hfail, Hok.
  destruct (en =? 0) eqn:E0; cbn [negb].
  - apply Z.eqb_eq in E0. subst en. specialize (Hok eq_refl).
    destruct (Power.arm_smmu_disable_clocks (clk dev) env g1) as [[u g2] t2]
      eqn:Edis.
    cbn [fst snd] in Hok. subst g2. cbn [fst snd]. rewrite Z.eqb_refl.
    split; [reflexivity|]. split; [reflexivity|].
    split; [|intros H; discriminate H].
    intros dev' [= <-]. rewrite Een. cbn [fst snd].
    split; [reflexivity|]. split; [intros H; contradiction|].
    intros _. split; [exact Hclr|]. split; [reflexivity|].
    assert (Hnew : forall r off,
               PM.readl_relaxed
                 (PM.apply h
                    (Writel (CB (cbndx d)) ARM_SMMU_CB_SCTLR
                       (u32 (Z.lor (sctlr h) Ctx.SCTLR_M)))) r off
               = if bool_decide (r = CB (cbndx d))
                    && (off =? ARM_SMMU_CB_SCTLR)
                 then u32 (Z.lor (sctlr h) Ctx.SCTLR_M)
                 else PM.readl_relaxed h r off).
    { intros r off. cbn [PM.apply].
      unfold PM.writel_relaxed, PM.readl_relaxed, PM.poke.
      destruct (bool_decide (r = CB (cbndx d)) && (off =? ARM_SMMU_CB_SCTLR));
        [rewrite !u32_idem|]; reflexivity. }
    assert (Hown : sctlr (PM.apply h
                            (Writel (CB (cbndx d)) ARM_SMMU_CB_SCTLR
                               (u32 (Z.lor (sctlr h) Ctx.SCTLR_M))))
                   = u32 (Z.lor (sctlr h) Ctx.SCTLR_M)).
    { unfold sctlr at 1. rewrite Hnew.
      rewrite bool_decide_eq_true_2, Z.eqb_refl by reflexivity.
      reflexivity. }
    split; [|split].
    + fold (sctlr h). rewrite Hown, Bits.testbit_u32, Z.lor_spec.
      cbn. apply orb_true_r.
    + intros n Hn. fold (sctlr h). rewrite Hown, Bits.testbit_u32, Z.lor_spec.
      replace (Z.testbit Ctx.SCTLR_M n) with false.
      2: { symmetry. change Ctx.SCTLR_M with (2 ^ 0).
           rewrite Z.pow2_bits_eqb by lia. apply Z.eqb_neq. lia. }
      rewrite orb_false_r.
      destruct (Z.ltb_spec n 32) as [Hlt|Hge]; [reflexivity|].
      cbn [andb]. symmetry. unfold sctlr, PM.readl_relaxed.
      rewrite Bits.testbit_u32.
      replace (n <? 32) with false by (symmetry; apply Z.ltb_ge; lia).
      reflexivity.
    + intros r off Hne. fold (sctlr h). rewrite Hnew.
      destruct (bool_decide (r = CB (cbndx d))) eqn:Er;
        [|reflexivity].
      destruct (Z.eqb_spec off ARM_SMMU_CB_SCTLR) as [->|Ho]; [|reflexivity].
      apply bool_decide_eq_true in Er. subst r. contradiction.
  - apply Z.eqb_neq in E0. specialize (Hfail E0). subst g1.
    cbn [fst snd]. rewrite (proj2 (Z.eqb_neq en 0) E0), Hu.
    split; [reflexivity|]. split; [exact Hm|].
    split; [|intros H; discriminate H].
    intros dev' [= <-]. rewrite Een. cbn [fst snd].
    split; [reflexivity|].
    split; [intros _; repeat split; reflexivity|].
    intros H; contradiction.
Qed.

(** No call of [arm_smmu_domain_set_attr] changes what
    [arm_smmu_domain_get_attr] reports for DOMAIN_ATTR_NON_FATAL_FAULTS:
    setting that attribute stores the value in the [non_fatal_faults] field
    of the domain, while reading it tests a bit of [attributes] that no
    case of the switch writes. *)
Theorem non_fatal_faults_not_read_back (env : Power.penv) (d : attr_domain)
  (a : iommu_attr) (data : attr_arg) (g : Power.gate) (h : PM.hw) :
  (forall x, 0 <= nr x < 31) ->
  (forall x y, nr x = nr y -> x = y) ->
  init_mutex d = false ->
  let s := arm_smmu_domain_set_attr env d a data g h in
  let d' := s.1.1.1.2 in
  attr_set d' DOMAIN_ATTR_NON_FATAL_FAULTS
  = attr_set d DOMAIN_ATTR_NON_FATAL_FAULTS /\
  (s.1.1.1.1 <> Secure.Bug ->
   (arm_smmu_domain_get_attr d' DOMAIN_ATTR_NON_FATAL_FAULTS).1
   = (arm_smmu_domain_get_attr d DOMAIN_ATTR_NON_FATAL_FAULTS).1) /\
  (a = DOMAIN_ATTR_NON_FATAL_FAULTS ->
   s.1.1.1.1 = Secure.Returned 0 /\ non_fatal_faults d' = nonzero data).
Proof.
  intros Hr Hinj Hm s d'. subst d' s.
  assert (Hr' : forall x, 0 <= nr x < 32)
    by (intros x; specialize (Hr x); lia).
  clear Hr; rename Hr' into Hr.
  assert (Hbit : forall d0 b, attr_set d0 b = Z.testbit (attributes d0) (nr b))
    by (intros d0 b; apply attr_set_testbit; apply Hr).
  assert (Hor : forall d0 b, b <> DOMAIN_ATTR_NON_FATAL_FAULTS ->
             attr_set (or_attr d0 b) DOMAIN_ATTR_NON_FATAL_FAULTS
             = attr_set d0 DOMAIN_ATTR_NON_FATAL_FAULTS).
  { intros d0 b Hb. rewrite !Hbit, or_attr_bits by (try apply Hr; lia).
    replace (nr DOMAIN_ATTR_NON_FATAL_FAULTS =? nr b) with false;
      [apply orb_false_r|].
    symmetry. apply Z.eqb_neq. intros He. apply Hb. symmetry.
    apply Hinj, He. }
  assert (Hcl : forall d0 b, b <> DOMAIN_ATTR_NON_FATAL_FAULTS ->
             attr_set (clear_attr d0 b) DOMAIN_ATTR_NON_FATAL_FAULTS
             = attr_set d0 DOMAIN_ATTR_NON_FATAL_FAULTS).
  { intros d0 b Hb. rewrite !Hbit, clear_attr_bits by (try apply Hr; lia).
    replace (nr DOMAIN_ATTR_NON_FATAL_FAULTS =? nr b) with false;
      [apply andb_true_r|].
    symmetry. apply Z.eqb_neq. intros He. apply Hb. symmetry.
    apply Hinj, He. }
  assert (Hul : forall d0 b, attr_set (mutex_unlock d0) b = attr_set d0 b)
    by reflexivity.
  assert (Hlk : forall d0 b, attr_set (mutex_lock d0) b = attr_set d0 b)
    by reflexivity.
  assert (Hap : forall d0 x y b,
             attr_set (set_aperture d0 x y) b = attr_set d0 b)
    by reflexivity.
  assert (Hkeep : attr_set
                    (arm_smmu_domain_set_attr env d a data g h).1.1.1.2
                    DOMAIN_ATTR_NON_FATAL_FAULTS
                  = attr_set d DOMAIN_ATTR_NON_FATAL_FAULTS).
  { unfold arm_smmu_domain_set_attr.
    destruct a;
      repeat match goal with
             | |- context [if ?b then _ else _] => destruct b
             | |- context [match smmu ?x with _ => _ end] => destruct (smmu x)
             | |- context [arm_smmu_enable_s1_translations ?x ?y ?z ?u ?v] =>
                 destruct (arm_smmu_enable_s1_translations x y z u v)
                   as [[[? ?] ?] ?]
             end;
      cbn [fst snd];
      rewrite ?Hul, ?Hap, ?Hor, ?Hcl, ?Hlk by discriminate; reflexivity. }
  split; [exact Hkeep|]. split.
  - intros Hnb. unfold arm_smmu_domain_get_attr. cbn [fst].
    rewrite !Hlk, Hkeep. reflexivity.
  - intros ->. unfold arm_smmu_domain_set_attr. cbn. split; reflexivity.
Qed.

End Numbered.

(** One numbering that meets the conditions, for the examples below. *)
Definition example_nr (a : iommu_attr) : Z :=
  match a with
  | DOMAIN_ATTR_GEOMETRY => 0
  | DOMAIN_ATTR_OTHER => 1
  | DOMAIN_ATTR_NESTING => 6
  | DOMAIN_ATTR_PT_BASE_ADDR => 7
  | DOMAIN_ATTR_SECURE_VMID => 8
  | DOMAIN_ATTR_ATOMIC => 9
  | DOMAIN_ATTR_CONTEXT_BANK => 10
  | DOMAIN_ATTR_TTBR0 => 11
  | DOMAIN_ATTR_CONTEXTIDR => 12
  | DOMAIN_ATTR_PROCID => 13
  | DOMAIN_ATTR_DYNAMIC => 14
  | DOMAIN_ATTR_NON_FATAL_FAULTS => 15
  | DOMAIN_ATTR_S1_BYPASS => 16
  | DOMAIN_ATTR_FAST => 17
  | DOMAIN_ATTR_PGTBL_INFO => 18
  | DOMAIN_ATTR_EARLY_MAP => 19
  | DOMAIN_ATTR_PAGE_TABLE_IS_COHERENT => 20
  | DOMAIN_ATTR_PAGE_TABLE_FORCE_COHERENT => 21
  | DOMAIN_ATTR_ENABLE_TTBR1 => 22
  | DOMAIN_ATTR_CB_STALL_DISABLE => 23
  end.

Lemma example_nr_range (x : iommu_attr) : 0 <= example_nr x < 31.
Proof. destruct x; cbn; lia. Qed.

Lemma example_nr_inj (x y : iommu_attr) :
  example_nr x = example_nr y -> x = y.
Proof. destruct x, y; cbn; intros H; try reflexivity; discriminate H. Qed.

(** A domain as [arm_smmu_domain_alloc] leaves it, and the same domain
    attached to a device, in early-map mode on bank 1. *)
Definition detached_domain : attr_domain :=
  {| smmu := None; stage := Alloc.ARM_SMMU_DOMAIN_S1;
     secure_vmid := u32 Secure.VMID_INVAL; attributes := 0;
     non_fatal_faults := false; cbndx := 0xff; cbar := 0; procid := 0;
     asid := 0xffff; ttbr0 := 0; pmds := 0; aperture_start := 0;
     aperture_end := 0; init_mutex := false |}.

Definition attached_domain : attr_domain :=
  {| smmu := Some {| dev_dma_coherent := Some false; clk := Power.c6_cfg |};
     stage := Alloc.ARM_SMMU_DOMAIN_S1;
     secure_vmid := u32 Secure.VMID_INVAL; attributes := 0x80000;
     non_fatal_faults := false; cbndx := 1; cbar := 0x10000; procid := 0;
     asid := 2; ttbr0 := 0x80001000; pmds := 0; aperture_start := 0;
     aperture_end := 0; init_mutex := false |}.

Definition int_arg (v : Z) : attr_arg :=
  {| word := v; geo_start := 0; geo_end := 0 |}.

Lemma flag_set_then_get_witness :
  let s := arm_smmu_domain_set_attr example_nr Power.env_all_ok
             detached_domain DOMAIN_ATTR_DYNAMIC (int_arg 5) Power.idle_gate
             PM.pm_hw in
  arm_smmu_domain_get_attr example_nr s.1.1.1.2 DOMAIN_ATTR_DYNAMIC
  = (0, Some 1, s.1.1.1.2).
Proof.
  cbv zeta.
  destruct (flag_set_then_get example_nr Power.env_all_ok detached_domain
              DOMAIN_ATTR_DYNAMIC (int_arg 5) Power.idle_gate PM.pm_hw
              example_nr_range example_nr_inj eq_refl eq_refl
              ltac:(intros _; reflexivity))
    as (_ & _ & _ & _ & _ & H & _).
  exact H.
Defined.

Lemma set_attr_refused_while_attached_witness :
  (arm_smmu_domain_set_attr example_nr Power.env_all_ok attached_domain
     DOMAIN_ATTR_PROCID (int_arg 7) Power.idle_gate PM.pm_hw).1.1.1
  = (Secure.Returned (- EBUSY), attached_domain).
Proof.
  destruct (set_attr_refused_while_attached example_nr Power.env_all_ok
              attached_domain DOMAIN_ATTR_PROCID (int_arg 7) Power.idle_gate
              PM.pm_hw eq_refl eq_refl eq_refl) as (H1 & H2 & _).
  apply injective_projections; [exact H1|exact H2].
Defined.

Lemma get_attr_mutex_witness :
  arm_smmu_domain_get_attr example_nr detached_domain DOMAIN_ATTR_CONTEXT_BANK
  = (- ENODEV, None, mutex_lock detached_domain).
Proof.
  destruct (get_attr_mutex example_nr detached_domain
              DOMAIN_ATTR_CONTEXT_BANK eq_refl) as (_ & H & _).
  destruct H as [_ H]. specialize (H (conj eq_refl eq_refl)).
  reflexivity.
Defined.

Lemma geometry_covers_requests_witness :
  let d := foldl (set_geometry example_nr Power.env_all_ok Power.idle_gate
                    PM.pm_hw) detached_domain
             [(0x1000, 0x2000); (0x100000000, 5); (0x800, 0x1800)] in
  aperture_start d <= 0x1000 /\ 0x2000 <= aperture_end d.
Proof.
  cbv zeta.
  destruct (geometry_covers_requests example_nr Power.env_all_ok
              Power.idle_gate PM.pm_hw
              [(0x1000, 0x2000); (0x100000000, 5); (0x800, 0x1800)]
              detached_domain ltac:(vm_compute; split; [discriminate|reflexivity])
              eq_refl eq_refl) as (H & _).
  apply (H (0x1000, 0x2000)).
  - apply elem_of_cons. left. reflexivity.
  - vm_compute. split; reflexivity.
Defined.

Lemma early_map_cleared_after_enable_witness :
  let s := arm_smmu_domain_set_attr example_nr Power.env_all_ok
             attached_domain DOMAIN_ATTR_EARLY_MAP (int_arg 0)
             Power.idle_gate PM.pm_hw in
  s.1.1.2 = Power.idle_gate /\
  Z.testbit (PM.readl_relaxed s.1.2 (CB 1) ARM_SMMU_CB_SCTLR) 0 = true.
Proof.
  cbv zeta.
  destruct (early_map_cleared_after_enable example_nr Power.env_all_ok
              attached_domain (int_arg 0) Power.idle_gate PM.pm_hw
              ltac:(vm_compute; split; [discriminate|reflexivity])
              eq_refl eq_refl
              ltac:(intros dev [= <-]; exact RegIO.gate_ready_idle))
    as (Hg & _ & H & _).
  split; [exact Hg|].
  destruct (H _ eq_refl) as (_ & _ & Hok).
  destruct (Hok eq_refl) as (_ & _ & Hm & _). exact Hm.
Defined.

Lemma non_fatal_faults_not_read_back_witness :
  let s := arm_smmu_domain_set_attr example_nr Power.env_all_ok
             detached_domain DOMAIN_ATTR_NON_FATAL_FAULTS (int_arg 1)
             Power.idle_gate PM.pm_hw in
  non_fatal_faults s.1.1.1.2 = true /\
  (arm_smmu_domain_get_attr example_nr s.1.1.1.2
     DOMAIN_ATTR_NON_FATAL_FAULTS).1 = (0, Some 0).
Proof.
  cbv zeta.
  destruct (non_fatal_faults_not_read_back example_nr Power.env_all_ok
              detached_domain DOMAIN_ATTR_NON_FATAL_FAULTS (int_arg 1)
              Power.idle_gate PM.pm_hw example_nr_range example_nr_inj
              eq_refl) as (_ & Hget & Hset).
  destruct (Hset eq_refl) as (_ & Hf). split; [exact Hf|].
  rewrite Hget by discriminate. reflexivity.
Defined.

(** The whole of one successful exit from early-map mode. *)
Example early_map_exit_trace :
  (arm_smmu_domain_set_attr example_nr Power.env_all_ok attached_domain
     DOMAIN_ATTR_EARLY_MAP (int_arg 0) Power.idle_gate PM.pm_hw).2
  = [PM.Readl (CB 1) 0; PM.Sent (Writel (CB 1) 0 0x200001)].
Proof. vm_compute. reflexivity. Qed.

End Attr.
